(** * Blackjack trainer: the game rules engine

    A shallow embedding of [src/game/deck.py], [hand.py], [shoe.py],
    [dealer.py], [player.py], [engine.py] and of the constructors of
    [src/config.py], then of the Hi-Lo counter ([src/counting]), the
    strategy charts and index plays ([src/strategy]), the counting drill of
    [src/training/drills.py] and the action check of [src/main.py],
    followed by the properties of the engine and of the trainer.

    Conventions of the embedding.
    - Python [int] is [Z]; Python [float] is the kernel's binary64 [float]
      (IEEE 754, the arithmetic Python itself uses), so money amounts are
      computed exactly as the program computes them.
    - A method that can raise returns a [result]: [Ok a s] carries the
      returned value and the state after the call, [Raise e s] the exception
      and the state the object was left in when it was raised.
    - A reference to a hand held in [Player.hands] is the position of the
      hand in that list ([hand_ref]); mutation through the reference is an
      update at that position.
    - The [on_card_exposed] callback is an observer: the engine records the
      sequence of cards it was called with in [exposed].
    - Python [str] is [string]; a dict written as a display is the list of
      its pairs, looked up as Python does. *)

From Stdlib Require Import String Ascii DecimalString.
From Stdlib Require Import ZArith List Bool Lia Permutation Floats.
Import ListNotations.

Set Implicit Arguments.
Local Open Scope Z_scope.

(** ** Exceptions and results *)

(** The [raise] statements of the sources, one constructor per site
    family; [is_ValueError] tells the Python class. *)
Inductive exn : Type :=
| BetExceedsBankroll          (* player.py: new_hand *)
| MaxSplitsReached            (* player.py: split_hand *)
| HandCannotBeSplit           (* player.py: split_hand; hand.py: split *)
| InsufficientBankrollSplit   (* player.py: split_hand *)
| CannotDouble                (* player.py: double_down *)
| InsufficientBankrollDouble  (* player.py: double_down *)
| CannotSurrender             (* player.py: surrender_hand *)
| IllegalAction               (* engine.py: execute_action guards *)
| ShoeEmpty                   (* shoe.py: deal, an IndexError *)
| ListIndexOutOfRange         (* hands[i] on a bad index, an IndexError *)
| NoneHasNoAttribute          (* attribute access on None, an AttributeError *)
| OutOfFuel.                  (* not a Python exception: loop bound of the model *)

Definition is_ValueError (e : exn) : bool :=
  match e with
  | BetExceedsBankroll | MaxSplitsReached | HandCannotBeSplit
  | InsufficientBankrollSplit | CannotDouble | InsufficientBankrollDouble
  | CannotSurrender | IllegalAction => true
  | ShoeEmpty | ListIndexOutOfRange | NoneHasNoAttribute | OutOfFuel => false
  end.

Inductive result (S A : Type) : Type :=
| Ok (a : A) (s : S)
| Raise (e : exn) (s : S).

Arguments Ok {S A} a s.
Arguments Raise {S A} e s.

(** A stateful, fallible computation over a state [S]. *)
Definition M (S A : Type) : Type := S -> result S A.

Definition ret {S A} (a : A) : M S A := fun s => Ok a s.
Definition raise {S A} (e : exn) : M S A := fun s => Raise e s.
Definition bind {S A B} (m : M S A) (k : A -> M S B) : M S B :=
  fun s => match m s with
           | Ok a s' => k a s'
           | Raise e s' => Raise e s'
           end.
Definition get {S} : M S S := fun s => Ok s s.
Definition modify {S} (f : S -> S) : M S unit := fun s => Ok tt (f s).

(** Run a method of a component inside the object that owns it. *)
Definition zoom {S T A} (proj : S -> T) (upd : T -> S -> S) (m : M T A) : M S A :=
  fun s => match m (proj s) with
           | Ok a t => Ok a (upd t s)
           | Raise e t => Raise e (upd t s)
           end.

Declare Scope monad_scope.
Delimit Scope monad_scope with monad.
Notation "x <- m ;; k" := (bind m (fun x => k))
  (at level 61, m at next level, right associativity) : monad_scope.
Notation "m ;;; k" := (bind m (fun _ => k))
  (at level 61, right associativity) : monad_scope.

Definition state_of {S A} (r : result S A) : S :=
  match r with Ok _ s => s | Raise _ s => s end.

(** ** Python lists *)

Module pylist.

(** [l[i]]: the position a (possibly negative) index designates. *)
Definition index (len : nat) (i : Z) : option nat :=
  if (0 <=? i) && (i <? Z.of_nat len) then Some (Z.to_nat i)
  else if (i <? 0) && (- Z.of_nat len <=? i) then Some (Z.to_nat (Z.of_nat len + i))
  else None.

Definition getitem {A} (l : list A) (i : Z) : option A :=
  match index (length l) i with
  | Some n => nth_error l n
  | None => None
  end.

(** Update at a position; positions past the end leave the list alone. *)
Fixpoint update {A} (n : nat) (f : A -> A) (l : list A) : list A :=
  match l, n with
  | [], _ => []
  | a :: l', O => f a :: l'
  | a :: l', S n' => a :: update n' f l'
  end.

(** [l.insert(i, x)]: negative indices count from the end, and the
    position is clamped into [0, len]. *)
Definition insert_pos (len : nat) (i : Z) : nat :=
  let j := if i <? 0 then i + Z.of_nat len else i in
  if j <? 0 then O
  else if Z.of_nat len <? j then len
  else Z.to_nat j.

Definition insert {A} (l : list A) (i : Z) (x : A) : list A :=
  let n := insert_pos (length l) i in
  firstn n l ++ x :: skipn n l.

(** [l.pop()]: the last element and the rest. *)
Fixpoint pop {A} (l : list A) : option (A * list A) :=
  match l with
  | [] => None
  | a :: l' =>
      match pop l' with
      | None => Some (a, [])
      | Some (x, r) => Some (x, a :: r)
      end
  end.

(** [l[start:]]: a negative start counts from the end, and the start is
    clamped into [0, len]. *)
Definition slice_from {A} (l : list A) (start : Z) : list A :=
  let len := Z.of_nat (length l) in
  let j := if start <? 0 then start + len else start in
  skipn (Z.to_nat (if j <? 0 then 0 else j)) l.

End pylist.

(** [float(n)] for a Python int; exact for [|n| < 2^53], which covers every
    card count and integer literal of the program. Beyond that range the
    definition is not Python's: it wraps at [2^63], and a quotient of two
    such values is rounded twice where [int / int] rounds once. No
    property below depends on its value outside the counts 0 to 52. *)
Definition float_of_int (n : Z) : float :=
  if n <? 0 then PrimFloat.opp (PrimFloat.of_uint63 (Uint63.of_Z (- n)))
  else PrimFloat.of_uint63 (Uint63.of_Z n).

(** ** deck.py *)

Module Card.

Inductive Suit : Type := CLUBS | DIAMONDS | HEARTS | SPADES.

Inductive Rank : Type :=
| TWO | THREE | FOUR | FIVE | SIX | SEVEN | EIGHT | NINE | TEN
| JACK | QUEEN | KING | ACE.

Definition all_suits : list Suit := [CLUBS; DIAMONDS; HEARTS; SPADES].
Definition all_ranks : list Rank :=
  [TWO; THREE; FOUR; FIVE; SIX; SEVEN; EIGHT; NINE; TEN; JACK; QUEEN; KING; ACE].

Definition RANK_VALUES (r : Rank) : Z :=
  match r with
  | TWO => 2 | THREE => 3 | FOUR => 4 | FIVE => 5 | SIX => 6
  | SEVEN => 7 | EIGHT => 8 | NINE => 9 | TEN => 10
  | JACK => 10 | QUEEN => 10 | KING => 10
  | ACE => 11
  end.

Definition Rank_eqb (a b : Rank) : bool :=
  match a, b with
  | TWO, TWO | THREE, THREE | FOUR, FOUR | FIVE, FIVE | SIX, SIX
  | SEVEN, SEVEN | EIGHT, EIGHT | NINE, NINE | TEN, TEN
  | JACK, JACK | QUEEN, QUEEN | KING, KING | ACE, ACE => true
  | _, _ => false
  end.

Record t : Type := mk { rank : Rank; suit : Suit }.

Definition value (c : t) : Z := RANK_VALUES (rank c).
Definition is_ace (c : t) : bool := Rank_eqb (rank c) ACE.
Definition is_ten_value (c : t) : bool := value c =? 10.

End Card.

(** [[Card(rank, suit) for suit in Suit for rank in Rank]] *)
Definition create_deck : list Card.t :=
  flat_map (fun s => map (fun r => Card.mk r s) Card.all_ranks) Card.all_suits.

Definition DECK_SIZE : Z := 52.

(** ** hand.py *)

Module Hand.

Inductive HandStatus : Type :=
| ACTIVE | STOOD | BUSTED | BLACKJACK | SURRENDERED | DOUBLED.

Definition HandStatus_eqb (a b : HandStatus) : bool :=
  match a, b with
  | ACTIVE, ACTIVE | STOOD, STOOD | BUSTED, BUSTED
  | BLACKJACK, BLACKJACK | SURRENDERED, SURRENDERED | DOUBLED, DOUBLED => true
  | _, _ => false
  end.

Record t : Type := mk {
  cards : list Card.t;
  status : HandStatus;
  bet : float;
  is_split_hand : bool;
  is_doubled : bool
}.

(** [Hand()] with the dataclass defaults, and [Hand(bet=b)]. *)
Definition new (b : float) : t := mk [] ACTIVE b false false.
Definition empty : t := new 0%float.

Definition set_cards (cs : list Card.t) (h : t) : t :=
  mk cs (status h) (bet h) (is_split_hand h) (is_doubled h).
Definition set_status (st : HandStatus) (h : t) : t :=
  mk (cards h) st (bet h) (is_split_hand h) (is_doubled h).
Definition set_bet (b : float) (h : t) : t :=
  mk (cards h) (status h) b (is_split_hand h) (is_doubled h).
Definition set_is_doubled (d : bool) (h : t) : t :=
  mk (cards h) (status h) (bet h) (is_split_hand h) d.

(** [sum(card.value for card in self.cards)] *)
Definition total_high (cs : list Card.t) : Z :=
  fold_right Z.add 0 (map Card.value cs).

(** [sum(1 for card in self.cards if card.is_ace)] *)
Definition count_aces (cs : list Card.t) : nat :=
  length (filter Card.is_ace cs).

(** [while total > 21 and aces > 0: total -= 10; aces -= 1] *)
Fixpoint demote (total : Z) (aces : nat) : Z :=
  match aces with
  | O => total
  | S aces' => if 21 <? total then demote (total - 10) aces' else total
  end.

Definition value (h : t) : Z :=
  demote (total_high (cards h)) (count_aces (cards h)).

(** The loop of [soft_value], which also counts the conversions. *)
Fixpoint demote_counting (total : Z) (aces converted : nat) : Z * nat :=
  match aces with
  | O => (total, converted)
  | S aces' =>
      if 21 <? total then demote_counting (total - 10) aces' (S converted)
      else (total, converted)
  end.

Definition soft_value (h : t) : Z * bool :=
  let '(total, converted_aces) :=
    demote_counting (total_high (cards h)) (count_aces (cards h)) O in
  let original_aces := count_aces (cards h) in
  (total, (converted_aces <? original_aces)%nat && (total <=? 21)).

Definition is_soft (h : t) : bool := snd (soft_value h).
Definition is_hard (h : t) : bool := negb (is_soft h).

Definition is_blackjack (h : t) : bool :=
  (length (cards h) =? 2)%nat && (value h =? 21) && negb (is_split_hand h).

Definition is_busted (h : t) : bool := 21 <? value h.

Definition is_pair (h : t) : bool :=
  match cards h with
  | [c0; c1] => Card.Rank_eqb (Card.rank c0) (Card.rank c1)
  | _ => false
  end.

Definition can_double (h : t) : bool :=
  (length (cards h) =? 2)%nat && HandStatus_eqb (status h) ACTIVE.
Definition can_split (h : t) : bool :=
  is_pair h && HandStatus_eqb (status h) ACTIVE.
Definition can_hit (h : t) : bool :=
  HandStatus_eqb (status h) ACTIVE && negb (is_busted h).
Definition can_stand (h : t) : bool := HandStatus_eqb (status h) ACTIVE.
Definition can_surrender (h : t) : bool :=
  (length (cards h) =? 2)%nat && HandStatus_eqb (status h) ACTIVE.

(** [self.cards.append(card); if self.value > 21: self.status = BUSTED] *)
Definition add_card (c : Card.t) (h : t) : t :=
  let h' := set_cards (cards h ++ [c]) h in
  if 21 <? value h' then set_status BUSTED h' else h'.

Definition stand (h : t) : t := set_status STOOD h.
Definition double_down (h : t) : t := set_status DOUBLED (set_is_doubled true h).
Definition surrender (h : t) : t := set_status SURRENDERED h.

(** [split]: the two new hands, or the ValueError. *)
Definition split (h : t) : result t (t * t) :=
  if negb (can_split h) then Raise HandCannotBeSplit h
  else match cards h with
       | [c0; c1] =>
           Ok (mk [c0] ACTIVE (bet h) true false,
               mk [c1] ACTIVE (bet h) true false) h
       | _ => Raise ListIndexOutOfRange h
       end.

Definition upcard (h : t) : option Card.t := nth_error (cards h) 0.
Definition hole_card (h : t) : option Card.t := nth_error (cards h) 1.

End Hand.

(** ** The [random] module

    [random.shuffle] is library code. The generator is modelled by the
    sequence of raw draws it is going to produce; a shuffle consumes one draw
    per element and returns the permutation those draws select, so successive
    shuffles differ and every permutation can come out. *)

Module random.

Definition state : Type := list nat.

Definition randbelow (n : nat) (g : state) : nat * state :=
  match g with
  | [] => (O, [])
  | r :: g' => (Nat.modulo r n, g')
  end.

Fixpoint shuffle {A} (x : list A) (g : state) : list A * state :=
  match x with
  | [] => ([], g)
  | a :: x' =>
      let '(y, g1) := shuffle x' g in
      let '(j, g2) := randbelow (S (length y)) g1 in
      (firstn j y ++ a :: skipn j y, g2)
  end.

End random.

(** ** shoe.py *)

Module Shoe.

Local Open Scope float_scope.

(** [rng] is the state of the module-level generator of [random], which
    only [shuffle] consults. The top of the deck is the end of [_cards]. *)
Record t : Type := mk {
  penetration : float;
  _cards : list Card.t;
  _dealt_count : Z;
  rng : random.state
}.

Definition shuffle (s : t) : t :=
  let '(deck, g) := random.shuffle create_deck (rng s) in
  mk (penetration s) deck 0%Z g.

(** The dataclass constructor followed by [__post_init__]. *)
Definition new (penetration : float) (_cards : list Card.t) (_dealt_count : Z)
    (g : random.state) : t :=
  let s := mk penetration _cards _dealt_count g in
  match _cards with
  | [] => shuffle s
  | _ :: _ => s
  end.

(** The default [0.65], as the binary64 value Python reads it. *)
Definition default_penetration : float := 0x1.4cccccccccccdp-1.

Definition deal : M t Card.t := fun s =>
  match pylist.pop (_cards s) with
  | None => Raise ShoeEmpty s
  | Some (card, rest) =>
      Ok card (mk (penetration s) rest (_dealt_count s + 1)%Z (rng s))
  end.

(** [for _ in range(count): if self._cards: burned.append(self.deal())] *)
Fixpoint burn_loop (n : nat) (burned : list Card.t) : M t (list Card.t) :=
  match n with
  | O => ret burned
  | S n' => fun s =>
      match _cards s with
      | [] => burn_loop n' burned s
      | _ :: _ =>
          match deal s with
          | Ok card s' => burn_loop n' (burned ++ [card]) s'
          | Raise e s' => Raise e s'
          end
      end
  end.

Definition burn (count : Z) : M t (list Card.t) :=
  burn_loop (Z.to_nat count) [].

Definition cards_remaining (s : t) : Z := Z.of_nat (length (_cards s)).
Definition cards_dealt (s : t) : Z := _dealt_count s.

Definition decks_remaining (s : t) : float :=
  float_of_int (cards_remaining s) / float_of_int DECK_SIZE.
Definition penetration_reached (s : t) : float :=
  float_of_int (_dealt_count s) / float_of_int DECK_SIZE.

(** [self.penetration_reached >= self.penetration] *)
Definition needs_shuffle (s : t) : bool :=
  penetration s <=? penetration_reached s.

(** [self._cards[-count:] if count <= len(self._cards) else self._cards[:]] *)
Definition peek (count : Z) (s : t) : list Card.t :=
  if (count <=? Z.of_nat (length (_cards s)))%Z
  then pylist.slice_from (_cards s) (- count)
  else _cards s.

End Shoe.

(** ** dealer.py *)

Module Dealer.

Inductive DealerRule : Type := H17 | S17.

Definition DealerRule_eqb (a b : DealerRule) : bool :=
  match a, b with
  | H17, H17 | S17, S17 => true
  | _, _ => false
  end.

Record t : Type := mk {
  hand : Hand.t;
  rule : DealerRule;
  hole_card_revealed : bool
}.

(** [Dealer(rule=r)] *)
Definition new (r : DealerRule) : t := mk Hand.empty r false.

Definition set_hand (h : Hand.t) (d : t) : t :=
  mk h (rule d) (hole_card_revealed d).

Definition new_hand (d : t) : t := mk Hand.empty (rule d) false.

(** [face_up] is accepted and ignored, as in the source. *)
Definition receive_card (card : Card.t) (face_up : bool) (d : t) : t :=
  set_hand (Hand.add_card card (hand d)) d.

Definition upcard (d : t) : option Card.t := Hand.upcard (hand d).
Definition hole_card (d : t) : option Card.t := Hand.hole_card (hand d).

(** Sets the flag and returns the hole card. *)
Definition reveal_hole_card (d : t) : option Card.t * t :=
  let d' := mk (hand d) (rule d) true in
  (hole_card d', d').

Definition has_blackjack (d : t) : bool := Hand.is_blackjack (hand d).

Definition should_hit (d : t) : bool :=
  let '(value, is_soft) := Hand.soft_value (hand d) in
  if value <? 17 then true
  else if (value =? 17) && is_soft then DealerRule_eqb (rule d) H17
  else false.

Definition final_value (d : t) : Z := Hand.value (hand d).
Definition is_busted (d : t) : bool := Hand.is_busted (hand d).

(** [play(deal_card_callback)]. The callback is a closure over the object
    that owns the dealer, so the method runs over that owner [W]: [proj]
    and [upd] read and write the dealer inside it. The [while] loop is
    bounded by [fuel]; it raises [OutOfFuel] when the bound is hit. *)
Section Play.
Variable W : Type.
Variable proj : W -> t.
Variable upd : t -> W -> W.
Variable deal_card_callback : M W Card.t.

Fixpoint play_loop (fuel : nat) : M W unit := fun w =>
  if should_hit (proj w) && negb (Hand.is_busted (hand (proj w))) then
    match fuel with
    | O => Raise OutOfFuel w
    | S fuel' =>
        match deal_card_callback w with
        | Ok card w1 =>
            play_loop fuel' (upd (receive_card card true (proj w1)) w1)
        | Raise e w1 => Raise e w1
        end
    end
  else Ok tt w.

Definition play (fuel : nat) : M W unit := fun w =>
  let w0 :=
    if negb (hole_card_revealed (proj w))
    then upd (snd (reveal_hole_card (proj w))) w
    else w in
  match play_loop fuel w0 with
  | Ok _ w1 =>
      let d := proj w1 in
      let st := if negb (Hand.is_busted (hand d))
                then Hand.STOOD else Hand.BUSTED in
      Ok tt (upd (set_hand (Hand.set_status st (hand d)) d) w1)
  | Raise e w1 => Raise e w1
  end.
End Play.

End Dealer.

(** ** player.py *)

(** A reference to one of the player's hands: its position in [hands]. *)
Definition hand_ref : Type := nat.

Module Player.

Local Open Scope float_scope.

Record t : Type := mk {
  bankroll : float;
  hands : list Hand.t;
  base_bet : float;
  max_splits : Z;
  _split_count : Z
}.

(** [Player(bankroll=b, base_bet=bb)]; the other fields take their
    defaults. *)
Definition new (b bb : float) (max_splits : Z) : t := mk b [] bb max_splits 0%Z.

Definition set_bankroll (b : float) (p : t) : t :=
  mk b (hands p) (base_bet p) (max_splits p) (_split_count p).
Definition set_hands (hs : list Hand.t) (p : t) : t :=
  mk (bankroll p) hs (base_bet p) (max_splits p) (_split_count p).
Definition set_split_count (n : Z) (p : t) : t :=
  mk (bankroll p) (hands p) (base_bet p) (max_splits p) n.

(** [hand = self.hands[hand_index]]: the reference and the hand, or the
    IndexError. *)
Definition lookup (hand_index : Z) : M t (hand_ref * Hand.t) := fun p =>
  match pylist.index (length (hands p)) hand_index with
  | Some n =>
      match nth_error (hands p) n with
      | Some h => Ok (n, h) p
      | None => Raise ListIndexOutOfRange p
      end
  | None => Raise ListIndexOutOfRange p
  end.

Definition update_hand (r : hand_ref) (f : Hand.t -> Hand.t) (p : t) : t :=
  set_hands (pylist.update r f (hands p)) p.

Definition new_hand (bet : option float) : M t hand_ref := fun p =>
  let bet_amount := match bet with Some b => b | None => base_bet p end in
  if bankroll p <? bet_amount then Raise BetExceedsBankroll p
  else
    let p1 := set_split_count 0%Z (set_hands [] p) in
    let hand := Hand.new bet_amount in
    let p2 := set_hands (hands p1 ++ [hand]) p1 in
    Ok (length (hands p1)) (set_bankroll (bankroll p2 - bet_amount) p2).

(** Returns the references of the two new hands. *)
Definition split_hand (hand_index : Z) : M t (hand_ref * hand_ref) := fun p =>
  if (max_splits p <=? _split_count p)%Z then Raise MaxSplitsReached p
  else
    match lookup hand_index p with
    | Raise e p' => Raise e p'
    | Ok (r, hand) _ =>
        if negb (Hand.can_split hand) then Raise HandCannotBeSplit p
        else if bankroll p <? Hand.bet hand then Raise InsufficientBankrollSplit p
        else
          let p1 := set_bankroll (bankroll p - Hand.bet hand) p in
          match Hand.split hand with
          | Raise e _ => Raise e p1
          | Ok (hand1, hand2) _ =>
              (* self.hands[hand_index] = hand1 *)
              let hs1 := pylist.update r (fun _ => hand1) (hands p1) in
              (* self.hands.insert(hand_index + 1, hand2) *)
              let pos2 := pylist.insert_pos (length hs1) (hand_index + 1) in
              let hs2 := pylist.insert hs1 (hand_index + 1) hand2 in
              let pos1 := if (r <? pos2)%nat then r else S r in
              let p2 := set_hands hs2 p1 in
              Ok (pos1, pos2) (set_split_count (_split_count p2 + 1)%Z p2)
          end
    end.

Definition double_down (hand_index : Z) : M t unit := fun p =>
  match lookup hand_index p with
  | Raise e p' => Raise e p'
  | Ok (r, hand) _ =>
      if negb (Hand.can_double hand) then Raise CannotDouble p
      else if bankroll p <? Hand.bet hand then Raise InsufficientBankrollDouble p
      else
        let p1 := set_bankroll (bankroll p - Hand.bet hand) p in
        let p2 := update_hand r (fun h => Hand.set_bet (Hand.bet h * 2) h) p1 in
        Ok tt (update_hand r Hand.double_down p2)
  end.

Definition surrender_hand (hand_index : Z) : M t float := fun p =>
  match lookup hand_index p with
  | Raise e p' => Raise e p'
  | Ok (r, hand) _ =>
      if negb (Hand.can_surrender hand) then Raise CannotSurrender p
      else
        let refund := Hand.bet hand / 2 in
        let p1 := set_bankroll (bankroll p + refund) p in
        Ok refund (update_hand r Hand.surrender p1)
  end.

Definition receive_payout (amount : float) (p : t) : t :=
  set_bankroll (bankroll p + amount) p.

Definition active_hand_index (p : t) : option nat :=
  (fix go (i : nat) (hs : list Hand.t) : option nat :=
     match hs with
     | [] => None
     | h :: hs' =>
         if Hand.HandStatus_eqb (Hand.status h) Hand.ACTIVE then Some i
         else go (S i) hs'
     end) O (hands p).

Definition all_hands_complete (p : t) : bool :=
  forallb (fun h => negb (Hand.HandStatus_eqb (Hand.status h) Hand.ACTIVE)) (hands p).

Definition can_split (p : t) : bool := (_split_count p <? max_splits p)%Z.

(** [for hand in self.hands: if hand.status == ACTIVE: return hand] *)
Definition active_hand (p : t) : option Hand.t :=
  find (fun h => Hand.HandStatus_eqb (Hand.status h) Hand.ACTIVE) (hands p).

(** [sum(hand.bet for hand in self.hands)] *)
Definition total_bet (p : t) : float :=
  fold_left PrimFloat.add (map Hand.bet (hands p)) 0.

End Player.

(** ** engine.py *)

Inductive Action : Type := HIT | STAND | DOUBLE | SPLIT | SURRENDER.

Inductive RoundResult : Type :=
| WIN | LOSE | PUSH | RESULT_BLACKJACK | RESULT_SURRENDER.

Record HandResult : Type := mkHandResult {
  hr_hand : Hand.t;
  hr_result : RoundResult;
  hr_payout : float
}.

Record RoundSummary : Type := mkRoundSummary {
  player_hands : list HandResult;
  dealer_hand : Hand.t;
  total_payout : float
}.

Module GameEngine.

Local Open Scope float_scope.
Local Open Scope monad_scope.

(** [on_card_exposed] tells whether a callback is installed; [exposed] is
    the sequence of cards the callback has been called with, oldest first. *)
Record t : Type := mk {
  shoe : Shoe.t;
  player : Player.t;
  dealer : Dealer.t;
  on_card_exposed : bool;
  exposed : list Card.t;
  blackjack_payout : float;
  _round_in_progress : bool
}.

(** [GameEngine(shoe, player, dealer, on_card_exposed, blackjack_payout)] *)
Definition new (s : Shoe.t) (p : Player.t) (d : Dealer.t)
    (callback : bool) (blackjack_payout : float) : t :=
  mk s p d callback [] blackjack_payout false.

Definition set_shoe (s : Shoe.t) (e : t) : t :=
  mk s (player e) (dealer e) (on_card_exposed e) (exposed e)
     (blackjack_payout e) (_round_in_progress e).
Definition set_player (p : Player.t) (e : t) : t :=
  mk (shoe e) p (dealer e) (on_card_exposed e) (exposed e)
     (blackjack_payout e) (_round_in_progress e).
Definition set_dealer (d : Dealer.t) (e : t) : t :=
  mk (shoe e) (player e) d (on_card_exposed e) (exposed e)
     (blackjack_payout e) (_round_in_progress e).
Definition set_exposed (l : list Card.t) (e : t) : t :=
  mk (shoe e) (player e) (dealer e) (on_card_exposed e) l
     (blackjack_payout e) (_round_in_progress e).
Definition set_round_in_progress (b : bool) (e : t) : t :=
  mk (shoe e) (player e) (dealer e) (on_card_exposed e) (exposed e)
     (blackjack_payout e) b.

Definition in_shoe {A} (m : M Shoe.t A) : M t A := zoom shoe set_shoe m.
Definition in_player {A} (m : M Player.t A) : M t A := zoom player set_player m.

(** [self.on_card_exposed(card)] *)
Definition call_on_card_exposed (card : Card.t) (e : t) : t :=
  set_exposed (exposed e ++ [card]) e.

(** [if face_up and self.on_card_exposed: self.on_card_exposed(card)] *)
Definition expose_if (face_up : bool) (card : Card.t) (e : t) : t :=
  if face_up && on_card_exposed e then call_on_card_exposed card e else e.

Definition _deal_card (hand : hand_ref) (face_up : bool) : M t Card.t :=
  card <- in_shoe Shoe.deal ;;
  modify (fun e => set_player (Player.update_hand hand (Hand.add_card card) (player e)) e) ;;;
  modify (expose_if face_up card) ;;;
  ret card.

Definition _deal_to_dealer (face_up : bool) : M t Card.t :=
  card <- in_shoe Shoe.deal ;;
  modify (fun e => set_dealer (Dealer.receive_card card face_up (dealer e)) e) ;;;
  modify (expose_if face_up card) ;;;
  ret card.

(** The reshuffle at the head of [start_round]: shuffle, burn one card and
    show it to the callback. *)
Definition shuffle_if_needed : M t unit := fun e0 =>
  if Shoe.needs_shuffle (shoe e0) then
    (modify (fun e => set_shoe (Shoe.shuffle (shoe e)) e) ;;;
     burned <- in_shoe (Shoe.burn 1) ;;
     modify (fun e =>
               match burned with
               | card :: _ => if on_card_exposed e
                              then call_on_card_exposed card e else e
               | [] => e
               end)) e0
  else Ok tt e0.

Definition start_round (bet : option float) : M t (hand_ref * option Card.t) :=
  shuffle_if_needed ;;;
  player_hand <- in_player (Player.new_hand bet) ;;
  modify (fun e => set_dealer (Dealer.new_hand (dealer e)) e) ;;;
  _deal_card player_hand true ;;;
  _deal_to_dealer true ;;;
  _deal_card player_hand true ;;;
  _deal_to_dealer false ;;;
  modify (set_round_in_progress true) ;;;
  e <- get ;;
  ret (player_hand, Dealer.upcard (dealer e)).

Definition get_available_actions (hand_index : Z) : M t (list Action) := fun e =>
  if (Z.of_nat (length (Player.hands (player e))) <=? hand_index)%Z then Ok [] e
  else
    match Player.lookup hand_index (player e) with
    | Raise x _ => Raise x e
    | Ok (_, hand) _ =>
        let bank := Player.bankroll (player e) in
        Ok ((if Hand.can_hit hand then [HIT] else [])
            ++ (if Hand.can_stand hand then [STAND] else [])
            ++ (if Hand.can_double hand && (Hand.bet hand <=? bank)
                then [DOUBLE] else [])
            ++ (if Hand.can_split hand && Player.can_split (player e)
                   && (Hand.bet hand <=? bank)
                then [SPLIT] else [])
            ++ (if Hand.can_surrender hand then [SURRENDER] else [])) e
    end.

Definition execute_action (action : Action) (hand_index : Z) : M t (option Card.t) :=
  rh <- in_player (Player.lookup hand_index) ;;
  let '(r, hand) := rh in
  match action with
  | HIT =>
      if negb (Hand.can_hit hand) then raise IllegalAction
      else card <- _deal_card r true ;; ret (Some card)
  | STAND =>
      if negb (Hand.can_stand hand) then raise IllegalAction
      else modify (fun e => set_player (Player.update_hand r Hand.stand (player e)) e) ;;;
           ret None
  | DOUBLE =>
      if negb (Hand.can_double hand) then raise IllegalAction
      else in_player (Player.double_down hand_index) ;;;
           card <- _deal_card r true ;;
           modify (fun e => set_player
                     (Player.update_hand r (Hand.set_status Hand.STOOD) (player e)) e) ;;;
           ret (Some card)
  | SPLIT =>
      if negb (Hand.can_split hand) then raise IllegalAction
      else hs <- in_player (Player.split_hand hand_index) ;;
           let '(hand1, hand2) := hs in
           _deal_card hand1 true ;;;
           _deal_card hand2 true ;;;
           ret None
  | SURRENDER =>
      if negb (Hand.can_surrender hand) then raise IllegalAction
      else in_player (Player.surrender_hand hand_index) ;;;
           ret None
  end.

(** [hole_card = self.dealer.reveal_hole_card()] followed by
    [if hole_card and self.on_card_exposed: self.on_card_exposed(hole_card)] *)
Definition reveal_and_expose (e : t) : t :=
  let '(hole_card, d) := Dealer.reveal_hole_card (dealer e) in
  let e1 := set_dealer d e in
  match hole_card with
  | Some card => if on_card_exposed e1 then call_on_card_exposed card e1 else e1
  | None => e1
  end.

(** The closure [deal_callback] of [play_dealer]. *)
Definition deal_callback : M t Card.t :=
  card <- in_shoe Shoe.deal ;;
  modify (fun e => set_dealer (Dealer.receive_card card true (dealer e)) e) ;;;
  modify (fun e => if on_card_exposed e then call_on_card_exposed card e else e) ;;;
  ret card.

(** Every iteration of the dealer's loop takes a card from the shoe, so
    one more than the cards in the shoe bounds the loop. *)
Definition play_dealer : M t unit := fun e =>
  let e1 := reveal_and_expose e in
  Dealer.play dealer set_dealer deal_callback
    (S (length (Shoe._cards (shoe e1)))) e1.

Definition _create_summary (hand_results : list HandResult) (e : t) : RoundSummary :=
  let total := fold_left PrimFloat.add (map hr_payout hand_results) 0 in
  mkRoundSummary hand_results (Dealer.hand (dealer e)) total.

Definition check_early_blackjack : M t (option RoundSummary) := fun e =>
  match Player.hands (player e) with
  | [] => Raise ListIndexOutOfRange e
  | player_hand :: _ =>
      match Dealer.upcard (dealer e) with
      | None => Raise NoneHasNoAttribute e
      | Some dealer_upcard =>
          let player_bj := Hand.is_blackjack player_hand in
          let dealer_might_have_bj :=
            Card.is_ace dealer_upcard || Card.is_ten_value dealer_upcard in
          if player_bj || dealer_might_have_bj then
            let dealer_bj := Hand.is_blackjack (Dealer.hand (dealer e)) in
            if dealer_bj then
              let e1 := reveal_and_expose e in
              if player_bj then
                let e2 := set_player
                            (Player.receive_payout (Hand.bet player_hand) (player e1)) e1 in
                Ok (Some (_create_summary [mkHandResult player_hand PUSH 0] e2)) e2
              else
                Ok (Some (_create_summary
                            [mkHandResult player_hand LOSE (- Hand.bet player_hand)] e1)) e1
            else if player_bj then
              let payout := Hand.bet player_hand * blackjack_payout e in
              let e1 := set_player
                          (Player.receive_payout (Hand.bet player_hand + payout) (player e)) e in
              let e2 := reveal_and_expose e1 in
              Ok (Some (_create_summary
                          [mkHandResult player_hand RESULT_BLACKJACK payout] e2)) e2
            else Ok None e
          else Ok None e
      end
  end.

(** The body of the [for hand in self.player.hands] loop of
    [resolve_round], threading the bankroll and the results so far. *)
Fixpoint resolve_hands (dealer_value : Z) (dealer_busted : bool)
    (hs : list Hand.t) (hand_results : list HandResult) (p : Player.t)
    : list HandResult * Player.t :=
  match hs with
  | [] => (hand_results, p)
  | hand :: hs' =>
      let continue := resolve_hands dealer_value dealer_busted hs' in
      if Hand.HandStatus_eqb (Hand.status hand) Hand.SURRENDERED then
        continue (hand_results
                  ++ [mkHandResult hand RESULT_SURRENDER (- Hand.bet hand / 2)]) p
      else if Hand.is_busted hand then
        continue (hand_results ++ [mkHandResult hand LOSE (- Hand.bet hand)]) p
      else
        let player_value := Hand.value hand in
        if dealer_busted then
          continue (hand_results ++ [mkHandResult hand WIN (Hand.bet hand)])
                   (Player.receive_payout (Hand.bet hand * 2) p)
        else if (dealer_value <? player_value)%Z then
          continue (hand_results ++ [mkHandResult hand WIN (Hand.bet hand)])
                   (Player.receive_payout (Hand.bet hand * 2) p)
        else if (player_value <? dealer_value)%Z then
          continue (hand_results ++ [mkHandResult hand LOSE (- Hand.bet hand)]) p
        else
          continue (hand_results ++ [mkHandResult hand PUSH 0])
                   (Player.receive_payout (Hand.bet hand) p)
  end.

Definition resolve_round (e : t) : RoundSummary * t :=
  let e1 := set_round_in_progress false e in
  let dealer_value := Dealer.final_value (dealer e1) in
  let dealer_busted := Dealer.is_busted (dealer e1) in
  let '(hand_results, p) :=
    resolve_hands dealer_value dealer_busted (Player.hands (player e1)) [] (player e1) in
  let e2 := set_player p e1 in
  (_create_summary hand_results e2, e2).

Definition needs_shuffle (e : t) : bool := Shoe.needs_shuffle (shoe e).

End GameEngine.

(** ** config.py and the construction of the game objects

    The classes are dataclasses: the generated [__init__] stores its
    arguments, and only [Shoe] has a [__post_init__]. A constructor call is
    modelled as a computation so that its outcome (the object, or an
    exception) can be stated; the state of a [Shoe] construction is the
    generator it may shuffle with. *)

Module GameConfig.
Record t : Type := mk {
  dealer_rule : Dealer.DealerRule;
  penetration : float;
  blackjack_payout : float;
  allow_das : bool;
  allow_surrender : bool;
  max_splits : Z;
  resplit_aces : bool
}.
Definition default : t :=
  mk Dealer.H17 Shoe.default_penetration 1.5%float true true 3 true.
End GameConfig.

Module TrainingConfig.
Record t : Type := mk {
  cards_per_drill : Z;
  count_quiz_frequency : float;
  show_true_count : bool;
  show_correct_action : bool;
  auto_advance_delay_ms : Z;
  starting_bankroll : float;
  base_bet : float
}.
End TrainingConfig.

Module Construct.

Definition GameConfig_ (dealer_rule : Dealer.DealerRule)
    (penetration blackjack_payout : float) (allow_das allow_surrender : bool)
    (max_splits : Z) (resplit_aces : bool) : M unit GameConfig.t :=
  ret (GameConfig.mk dealer_rule penetration blackjack_payout allow_das
         allow_surrender max_splits resplit_aces).

Definition TrainingConfig_ (cards_per_drill : Z) (count_quiz_frequency : float)
    (show_true_count show_correct_action : bool) (auto_advance_delay_ms : Z)
    (starting_bankroll base_bet : float) : M unit TrainingConfig.t :=
  ret (TrainingConfig.mk cards_per_drill count_quiz_frequency show_true_count
         show_correct_action auto_advance_delay_ms starting_bankroll base_bet).

(** [Shoe(penetration=p)]: no cards given, so [__post_init__] shuffles. *)
Definition Shoe_ (penetration : float) : M random.state Shoe.t := fun g =>
  let s := Shoe.new penetration [] 0 g in
  Ok s (Shoe.rng s).

Definition Dealer_ (rule : Dealer.DealerRule) : M unit Dealer.t :=
  ret (Dealer.new rule).

Definition Player_ (bankroll base_bet : float) (max_splits : Z) : M unit Player.t :=
  ret (Player.new bankroll base_bet max_splits).

Definition GameEngine_ (s : Shoe.t) (p : Player.t) (d : Dealer.t)
    (callback : bool) (blackjack_payout : float) : M unit GameEngine.t :=
  ret (GameEngine.new s p d callback blackjack_payout).

(** The range the documentation gives for the penetration:
    [0.0 <= p <= 1.0]. *)
Definition penetration_in_range (p : float) : bool :=
  PrimFloat.leb 0%float p && PrimFloat.leb p 1%float.

End Construct.

(** ** counting/hilo.py *)

(** [HILO_VALUES]: a dict with an entry for each of the thirteen ranks, so
    that a lookup never raises. *)
Definition HILO_VALUES (r : Card.Rank) : Z :=
  match r with
  | Card.TWO | Card.THREE | Card.FOUR | Card.FIVE | Card.SIX => 1
  | Card.SEVEN | Card.EIGHT | Card.NINE => 0
  | Card.TEN | Card.JACK | Card.QUEEN | Card.KING | Card.ACE => -1
  end.

Definition get_hilo_value (card : Card.t) : Z := HILO_VALUES (Card.rank card).
Definition get_hilo_for_rank (rank : Card.Rank) : Z := HILO_VALUES rank.

(** Python's [sum] over ints: a left fold from [0]. *)
Definition pysum (l : list Z) : Z := fold_left Z.add l 0.

(** ** counting/counter.py *)

Module Counter.

Record t : Type := mk {
  running_count : Z;
  cards_seen : Z;
  _cards_seen_list : list Card.t;
  _track_cards : bool
}.

(** [Counter()] *)
Definition default : t := mk 0 0 [] false.

(** [count_card]: the new running count and the counter after the call. *)
Definition count_card (card : Card.t) (c : t) : Z * t :=
  let hilo_value := get_hilo_value card in
  let c' :=
    mk (running_count c + hilo_value) (cards_seen c + 1)
       (if _track_cards c then _cards_seen_list c ++ [card]
        else _cards_seen_list c)
       (_track_cards c) in
  (running_count c', c').

Definition cards_remaining (total_cards : Z) (c : t) : Z :=
  total_cards - cards_seen c.

Definition reset (c : t) : t := mk 0 0 [] (_track_cards c).

Definition verify_count (c : t) : bool :=
  if negb (_track_cards c) then true
  else
    let expected := pysum (map get_hilo_value (_cards_seen_list c)) in
    expected =? running_count c.

End Counter.

(** ** training/drills.py: the counting drill *)

Record CountingDrillResult : Type := mkCountingDrillResult {
  cards_shown : list Card.t;
  correct_count : Z;
  user_count : Z;
  is_correct : bool;
  response_time_ms : float
}.

Module CountingDrill.

Local Open Scope monad_scope.

Record t : Type := mk {
  shoe : Shoe.t;
  counter : Counter.t;
  cards_per_round : Z;
  results : list CountingDrillResult
}.

Definition set_shoe (s : Shoe.t) (d : t) : t :=
  mk s (counter d) (cards_per_round d) (results d).
Definition set_counter (c : Counter.t) (d : t) : t :=
  mk (shoe d) c (cards_per_round d) (results d).

Definition reset (d : t) : t :=
  mk (Shoe.shuffle (shoe d)) (Counter.reset (counter d)) (cards_per_round d) [].

(** The body of the loop of [deal_cards], [n] iterations being left:
    reshuffle and reset the count when the shoe asks for it, then deal one
    card, count it and keep it. An empty shoe that does not ask for a
    shuffle makes [deal] raise, what was done so far staying done. *)
Fixpoint deal_loop (n : nat) (cards : list Card.t) : M t (list Card.t) :=
  match n with
  | O => ret cards
  | S n' => fun d =>
      let d1 :=
        if Shoe.needs_shuffle (shoe d)
        then set_counter (Counter.reset (counter d))
               (set_shoe (Shoe.shuffle (shoe d)) d)
        else d in
      match Shoe.deal (shoe d1) with
      | Raise e s' => Raise e (set_shoe s' d1)
      | Ok card s' =>
          let d2 :=
            set_counter (snd (Counter.count_card card (counter d1)))
              (set_shoe s' d1) in
          deal_loop n' (cards ++ [card]) d2
      end
  end.

(** [for _ in range(self.cards_per_round)]: no iteration for a count of
    zero or less. *)
Definition deal_cards : M t (list Card.t * Z) :=
  d <- get ;;
  cards <- deal_loop (Z.to_nat (cards_per_round d)) [] ;;
  d' <- get ;;
  ret (cards, Counter.running_count (counter d')).

Definition check_answer (cards : list Card.t) (correct_count user_count : Z)
    (response_time_ms : float) (d : t) : CountingDrillResult * t :=
  let result :=
    mkCountingDrillResult cards correct_count user_count
      (user_count =? correct_count) response_time_ms in
  (result, mk (shoe d) (counter d) (cards_per_round d) (results d ++ [result])).

(** [for result in reversed(self.results)], leaving at the first wrong
    answer. *)
Fixpoint current_streak_loop (rs : list CountingDrillResult) (streak : Z) : Z :=
  match rs with
  | [] => streak
  | result :: rs' =>
      if is_correct result then current_streak_loop rs' (streak + 1)
      else streak
  end.

Definition current_streak (d : t) : Z :=
  current_streak_loop (rev (results d)) 0.

Fixpoint best_streak_loop (rs : list CountingDrillResult) (best current : Z) : Z :=
  match rs with
  | [] => best
  | result :: rs' =>
      if is_correct result
      then best_streak_loop rs' (Z.max best (current + 1)) (current + 1)
      else best_streak_loop rs' best 0
  end.

Definition best_streak (d : t) : Z := best_streak_loop (results d) 0 0.

End CountingDrill.

(** ** strategy/basic_strategy.py *)

(** A dict given by a display: the pairs in the order they are written.
    [dict_get] is [d.get(key)]; as in Python, the value written last for a
    key is the one the dict holds. *)
Definition dict (K V : Type) : Type := list (K * V).

Definition key_eqb (a b : Z * Z) : bool :=
  (fst a =? fst b) && (snd a =? snd b).

Fixpoint dict_get {V} (key : Z * Z) (d : dict (Z * Z) V) : option V :=
  match d with
  | [] => None
  | (k, v) :: d' =>
      match dict_get key d' with
      | Some v' => Some v'
      | None => if key_eqb k key then Some v else None
      end
  end.

(** [range(start, stop)] *)
Definition range (start stop : Z) : list Z :=
  map (fun i => start + Z.of_nat i) (seq 0 (Z.to_nat (stop - start))).

Module Decision.

Inductive t : Type :=
| HIT | STAND | DOUBLE | DOUBLE_STAND | SPLIT
| SURRENDER_HIT | SURRENDER_STAND | SURRENDER_SPLIT.

Definition eqb (a b : t) : bool :=
  match a, b with
  | HIT, HIT | STAND, STAND | DOUBLE, DOUBLE | DOUBLE_STAND, DOUBLE_STAND
  | SPLIT, SPLIT | SURRENDER_HIT, SURRENDER_HIT
  | SURRENDER_STAND, SURRENDER_STAND | SURRENDER_SPLIT, SURRENDER_SPLIT => true
  | _, _ => false
  end.

End Decision.

Definition HARD_STRATEGY_H17 : dict (Z * Z) Decision.t :=
  map (fun d => ((5, d), Decision.HIT)) (range 2 12) ++
  map (fun d => ((6, d), Decision.HIT)) (range 2 12) ++
  map (fun d => ((7, d), Decision.HIT)) (range 2 12) ++
  map (fun d => ((8, d), Decision.HIT)) (range 2 12) ++
  [((9, 2), Decision.DOUBLE); ((9, 3), Decision.DOUBLE);
   ((9, 4), Decision.DOUBLE); ((9, 5), Decision.DOUBLE);
   ((9, 6), Decision.DOUBLE); ((9, 7), Decision.HIT); ((9, 8), Decision.HIT);
   ((9, 9), Decision.HIT); ((9, 10), Decision.HIT); ((9, 11), Decision.HIT)] ++
  [((10, 2), Decision.DOUBLE); ((10, 3), Decision.DOUBLE);
   ((10, 4), Decision.DOUBLE); ((10, 5), Decision.DOUBLE);
   ((10, 6), Decision.DOUBLE); ((10, 7), Decision.DOUBLE);
   ((10, 8), Decision.DOUBLE); ((10, 9), Decision.DOUBLE);
   ((10, 10), Decision.HIT); ((10, 11), Decision.HIT)] ++
  [((11, 2), Decision.DOUBLE); ((11, 3), Decision.DOUBLE);
   ((11, 4), Decision.DOUBLE); ((11, 5), Decision.DOUBLE);
   ((11, 6), Decision.DOUBLE); ((11, 7), Decision.DOUBLE);
   ((11, 8), Decision.DOUBLE); ((11, 9), Decision.DOUBLE);
   ((11, 10), Decision.DOUBLE); ((11, 11), Decision.DOUBLE)] ++
  [((12, 2), Decision.HIT); ((12, 3), Decision.HIT);
   ((12, 4), Decision.STAND); ((12, 5), Decision.STAND);
   ((12, 6), Decision.STAND); ((12, 7), Decision.HIT);
   ((12, 8), Decision.HIT); ((12, 9), Decision.HIT);
   ((12, 10), Decision.HIT); ((12, 11), Decision.HIT)] ++
  [((13, 2), Decision.STAND); ((13, 3), Decision.STAND);
   ((13, 4), Decision.STAND); ((13, 5), Decision.STAND);
   ((13, 6), Decision.STAND); ((13, 7), Decision.HIT);
   ((13, 8), Decision.HIT); ((13, 9), Decision.HIT);
   ((13, 10), Decision.HIT); ((13, 11), Decision.HIT)] ++
  [((14, 2), Decision.STAND); ((14, 3), Decision.STAND);
   ((14, 4), Decision.STAND); ((14, 5), Decision.STAND);
   ((14, 6), Decision.STAND); ((14, 7), Decision.HIT);
   ((14, 8), Decision.HIT); ((14, 9), Decision.HIT);
   ((14, 10), Decision.HIT); ((14, 11), Decision.HIT)] ++
  [((15, 2), Decision.STAND); ((15, 3), Decision.STAND);
   ((15, 4), Decision.STAND); ((15, 5), Decision.STAND);
   ((15, 6), Decision.STAND); ((15, 7), Decision.HIT);
   ((15, 8), Decision.HIT); ((15, 9), Decision.HIT);
   ((15, 10), Decision.SURRENDER_HIT); ((15, 11), Decision.SURRENDER_HIT)] ++
  [((16, 2), Decision.STAND); ((16, 3), Decision.STAND);
   ((16, 4), Decision.STAND); ((16, 5), Decision.STAND);
   ((16, 6), Decision.STAND); ((16, 7), Decision.HIT);
   ((16, 8), Decision.HIT); ((16, 9), Decision.SURRENDER_HIT);
   ((16, 10), Decision.SURRENDER_HIT); ((16, 11), Decision.SURRENDER_HIT)] ++
  map (fun d => ((17, d), Decision.STAND)) (range 2 12) ++
  map (fun d => ((18, d), Decision.STAND)) (range 2 12) ++
  map (fun d => ((19, d), Decision.STAND)) (range 2 12) ++
  map (fun d => ((20, d), Decision.STAND)) (range 2 12) ++
  map (fun d => ((21, d), Decision.STAND)) (range 2 12).

Definition SOFT_STRATEGY_H17 : dict (Z * Z) Decision.t :=
  [((13, 2), Decision.HIT); ((13, 3), Decision.HIT);
   ((13, 4), Decision.DOUBLE); ((13, 5), Decision.DOUBLE);
   ((13, 6), Decision.DOUBLE); ((13, 7), Decision.HIT);
   ((13, 8), Decision.HIT); ((13, 9), Decision.HIT);
   ((13, 10), Decision.HIT); ((13, 11), Decision.HIT)] ++
  [((14, 2), Decision.HIT); ((14, 3), Decision.HIT);
   ((14, 4), Decision.DOUBLE); ((14, 5), Decision.DOUBLE);
   ((14, 6), Decision.DOUBLE); ((14, 7), Decision.HIT);
   ((14, 8), Decision.HIT); ((14, 9), Decision.HIT);
   ((14, 10), Decision.HIT); ((14, 11), Decision.HIT)] ++
  [((15, 2), Decision.HIT); ((15, 3), Decision.HIT);
   ((15, 4), Decision.DOUBLE); ((15, 5), Decision.DOUBLE);
   ((15, 6), Decision.DOUBLE); ((15, 7), Decision.HIT);
   ((15, 8), Decision.HIT); ((15, 9), Decision.HIT);
   ((15, 10), Decision.HIT); ((15, 11), Decision.HIT)] ++
  [((16, 2), Decision.HIT); ((16, 3), Decision.HIT);
   ((16, 4), Decision.DOUBLE); ((16, 5), Decision.DOUBLE);
   ((16, 6), Decision.DOUBLE); ((16, 7), Decision.HIT);
   ((16, 8), Decision.HIT); ((16, 9), Decision.HIT);
   ((16, 10), Decision.HIT); ((16, 11), Decision.HIT)] ++
  [((17, 2), Decision.DOUBLE); ((17, 3), Decision.DOUBLE);
   ((17, 4), Decision.DOUBLE); ((17, 5), Decision.DOUBLE);
   ((17, 6), Decision.DOUBLE); ((17, 7), Decision.HIT);
   ((17, 8), Decision.HIT); ((17, 9), Decision.HIT);
   ((17, 10), Decision.HIT); ((17, 11), Decision.HIT)] ++
  [((18, 2), Decision.STAND); ((18, 3), Decision.DOUBLE_STAND);
   ((18, 4), Decision.DOUBLE_STAND); ((18, 5), Decision.DOUBLE_STAND);
   ((18, 6), Decision.DOUBLE_STAND); ((18, 7), Decision.STAND);
   ((18, 8), Decision.STAND); ((18, 9), Decision.HIT);
   ((18, 10), Decision.HIT); ((18, 11), Decision.STAND)] ++
  [((19, 2), Decision.STAND); ((19, 3), Decision.STAND);
   ((19, 4), Decision.STAND); ((19, 5), Decision.STAND);
   ((19, 6), Decision.DOUBLE_STAND); ((19, 7), Decision.STAND);
   ((19, 8), Decision.STAND); ((19, 9), Decision.STAND);
   ((19, 10), Decision.STAND); ((19, 11), Decision.STAND)] ++
  map (fun d => ((20, d), Decision.STAND)) (range 2 12) ++
  map (fun d => ((21, d), Decision.STAND)) (range 2 12).

Definition PAIR_STRATEGY_H17 : dict (Z * Z) Decision.t :=
  [((2, 2), Decision.SPLIT); ((2, 3), Decision.SPLIT);
   ((2, 4), Decision.SPLIT); ((2, 5), Decision.SPLIT);
   ((2, 6), Decision.SPLIT); ((2, 7), Decision.SPLIT);
   ((2, 8), Decision.HIT); ((2, 9), Decision.HIT); ((2, 10), Decision.HIT);
   ((2, 11), Decision.HIT)] ++
  [((3, 2), Decision.SPLIT); ((3, 3), Decision.SPLIT);
   ((3, 4), Decision.SPLIT); ((3, 5), Decision.SPLIT);
   ((3, 6), Decision.SPLIT); ((3, 7), Decision.SPLIT);
   ((3, 8), Decision.SPLIT); ((3, 9), Decision.HIT); ((3, 10), Decision.HIT);
   ((3, 11), Decision.HIT)] ++
  [((4, 2), Decision.HIT); ((4, 3), Decision.HIT); ((4, 4), Decision.SPLIT);
   ((4, 5), Decision.SPLIT); ((4, 6), Decision.SPLIT);
   ((4, 7), Decision.HIT); ((4, 8), Decision.HIT); ((4, 9), Decision.HIT);
   ((4, 10), Decision.HIT); ((4, 11), Decision.HIT)] ++
  [((5, 2), Decision.DOUBLE); ((5, 3), Decision.DOUBLE);
   ((5, 4), Decision.DOUBLE); ((5, 5), Decision.DOUBLE);
   ((5, 6), Decision.DOUBLE); ((5, 7), Decision.DOUBLE);
   ((5, 8), Decision.DOUBLE); ((5, 9), Decision.DOUBLE);
   ((5, 10), Decision.HIT); ((5, 11), Decision.HIT)] ++
  [((6, 2), Decision.SPLIT); ((6, 3), Decision.SPLIT);
   ((6, 4), Decision.SPLIT); ((6, 5), Decision.SPLIT);
   ((6, 6), Decision.SPLIT); ((6, 7), Decision.SPLIT);
   ((6, 8), Decision.HIT); ((6, 9), Decision.HIT); ((6, 10), Decision.HIT);
   ((6, 11), Decision.HIT)] ++
  [((7, 2), Decision.SPLIT); ((7, 3), Decision.SPLIT);
   ((7, 4), Decision.SPLIT); ((7, 5), Decision.SPLIT);
   ((7, 6), Decision.SPLIT); ((7, 7), Decision.SPLIT);
   ((7, 8), Decision.SPLIT); ((7, 9), Decision.HIT);
   ((7, 10), Decision.SURRENDER_HIT); ((7, 11), Decision.HIT)] ++
  map (fun d => ((8, d), Decision.SPLIT)) (range 2 12) ++
  [((9, 2), Decision.SPLIT); ((9, 3), Decision.SPLIT);
   ((9, 4), Decision.SPLIT); ((9, 5), Decision.SPLIT);
   ((9, 6), Decision.SPLIT); ((9, 7), Decision.STAND);
   ((9, 8), Decision.SPLIT); ((9, 9), Decision.SPLIT);
   ((9, 10), Decision.STAND); ((9, 11), Decision.STAND)] ++
  map (fun d => ((10, d), Decision.STAND)) (range 2 12) ++
  map (fun d => ((11, d), Decision.SPLIT)) (range 2 12).

Definition get_upcard_value (upcard : Card.t) : Z :=
  if Card.is_ace upcard then 11 else Card.value upcard.

(** [hand.cards[0]]: [None] stands for the IndexError of an empty hand. *)
Definition get_pair_value (hand : Hand.t) : option Z :=
  match Hand.cards hand with
  | [] => None
  | card :: _ => Some (if Card.is_ace card then 11 else Card.value card)
  end.

Module BasicStrategy.

Record t : Type := mk { dealer_rule : Dealer.DealerRule }.

(** [BasicStrategy()] *)
Definition default : t := mk Dealer.H17.

Definition _adjust_decision (decision : Decision.t)
    (can_double can_surrender : bool) : Decision.t :=
  if Decision.eqb decision Decision.DOUBLE && negb can_double
  then Decision.HIT
  else if Decision.eqb decision Decision.DOUBLE_STAND && negb can_double
  then Decision.STAND
  else if Decision.eqb decision Decision.SURRENDER_HIT && negb can_surrender
  then Decision.HIT
  else if Decision.eqb decision Decision.SURRENDER_STAND && negb can_surrender
  then Decision.STAND
  else if Decision.eqb decision Decision.SURRENDER_SPLIT && negb can_surrender
  then Decision.SPLIT
  else decision.

(** The soft or hard lookup that ends [get_decision]. *)
Definition by_total (hand : Hand.t) (upcard_val : Z)
    (can_double can_surrender : bool) : Decision.t :=
  let '(value, is_soft) := Hand.soft_value hand in
  let decision :=
    if is_soft then
      match dict_get (value, upcard_val) SOFT_STRATEGY_H17 with
      | Some d => d
      | None => Decision.STAND
      end
    else if value <? 5 then Decision.HIT
    else if 21 <? value then Decision.STAND
    else
      match dict_get (value, upcard_val) HARD_STRATEGY_H17 with
      | Some d => d
      | None => Decision.HIT
      end in
  _adjust_decision decision can_double can_surrender.

(** [get_decision]; [None] stands for an IndexError. The pair chart is
    looked at only for a pair that may be split, and only its SPLIT and
    SURRENDER_SPLIT entries end the call. *)
Definition get_decision (self : t) (hand : Hand.t) (dealer_upcard : Card.t)
    (can_double can_split can_surrender : bool) : option Decision.t :=
  let upcard_val := get_upcard_value dealer_upcard in
  if Hand.is_pair hand && can_split then
    match get_pair_value hand with
    | None => None
    | Some pair_val =>
        match dict_get (pair_val, upcard_val) PAIR_STRATEGY_H17 with
        | Some Decision.SPLIT => Some Decision.SPLIT
        | Some Decision.SURRENDER_SPLIT =>
            Some (if can_surrender then Decision.SURRENDER_HIT
                  else Decision.SPLIT)
        | _ => Some (by_total hand upcard_val can_double can_surrender)
        end
    end
  else Some (by_total hand upcard_val can_double can_surrender).

End BasicStrategy.

(** ** strategy/index_play.py *)

Inductive DeviationType : Type :=
| STAND_INSTEAD_OF_HIT | HIT_INSTEAD_OF_STAND | DOUBLE_INSTEAD_OF_HIT
| DONT_DOUBLE | SPLIT_INSTEAD_OF_HIT | DONT_SPLIT | INSURANCE
| SURRENDER_INSTEAD_OF_HIT | DONT_SURRENDER.

Definition DeviationType_eqb (a b : DeviationType) : bool :=
  match a, b with
  | STAND_INSTEAD_OF_HIT, STAND_INSTEAD_OF_HIT
  | HIT_INSTEAD_OF_STAND, HIT_INSTEAD_OF_STAND
  | DOUBLE_INSTEAD_OF_HIT, DOUBLE_INSTEAD_OF_HIT
  | DONT_DOUBLE, DONT_DOUBLE
  | SPLIT_INSTEAD_OF_HIT, SPLIT_INSTEAD_OF_HIT
  | DONT_SPLIT, DONT_SPLIT
  | INSURANCE, INSURANCE
  | SURRENDER_INSTEAD_OF_HIT, SURRENDER_INSTEAD_OF_HIT
  | DONT_SURRENDER, DONT_SURRENDER => true
  | _, _ => false
  end.

Module IndexPlay.

Record t : Type := mk {
  name : string;
  player_hand : string;
  basic_action : Decision.t;
  deviation_action : Decision.t;
  index : Z;
  is_greater_than : bool;
  deviation_type : DeviationType;
  ev_gain : float
}.

Definition should_deviate (self : t) (true_count : Z) : bool :=
  if is_greater_than self then index self <=? true_count
  else true_count <=? index self.

End IndexPlay.

(** The index plays, with their [ev_gain] as the binary64 values Python
    reads. *)
Definition ILLUSTRIOUS_18 : list IndexPlay.t :=
  [ IndexPlay.mk "Insurance"%string "Any vs A"%string
     Decision.HIT Decision.STAND (3) true INSURANCE
     0x1.0p+0%float;
    IndexPlay.mk "16 vs 10 Stand"%string "16 vs 10"%string
     Decision.HIT Decision.STAND (0) true STAND_INSTEAD_OF_HIT
     0x1.e666666666666p-1%float;
    IndexPlay.mk "15 vs 10 Stand"%string "15 vs 10"%string
     Decision.HIT Decision.STAND (4) true STAND_INSTEAD_OF_HIT
     0x1.ccccccccccccdp-1%float;
    IndexPlay.mk "10,10 vs 5 Split"%string "10,10 vs 5"%string
     Decision.STAND Decision.SPLIT (5) true SPLIT_INSTEAD_OF_HIT
     0x1.b333333333333p-1%float;
    IndexPlay.mk "10,10 vs 6 Split"%string "10,10 vs 6"%string
     Decision.STAND Decision.SPLIT (4) true SPLIT_INSTEAD_OF_HIT
     0x1.999999999999ap-1%float;
    IndexPlay.mk "10 vs 10 Double"%string "10 vs 10"%string
     Decision.HIT Decision.DOUBLE (4) true DOUBLE_INSTEAD_OF_HIT
     0x1.8p-1%float;
    IndexPlay.mk "12 vs 3 Stand"%string "12 vs 3"%string
     Decision.HIT Decision.STAND (2) true STAND_INSTEAD_OF_HIT
     0x1.6666666666666p-1%float;
    IndexPlay.mk "12 vs 2 Stand"%string "12 vs 2"%string
     Decision.HIT Decision.STAND (3) true STAND_INSTEAD_OF_HIT
     0x1.4cccccccccccdp-1%float;
    IndexPlay.mk "11 vs A Double"%string "11 vs A"%string
     Decision.HIT Decision.DOUBLE (1) true DOUBLE_INSTEAD_OF_HIT
     0x1.3333333333333p-1%float;
    IndexPlay.mk "9 vs 2 Double"%string "9 vs 2"%string
     Decision.HIT Decision.DOUBLE (1) true DOUBLE_INSTEAD_OF_HIT
     0x1.199999999999ap-1%float;
    IndexPlay.mk "10 vs A Double"%string "10 vs A"%string
     Decision.HIT Decision.DOUBLE (4) true DOUBLE_INSTEAD_OF_HIT
     0x1.0p-1%float;
    IndexPlay.mk "9 vs 7 Double"%string "9 vs 7"%string
     Decision.HIT Decision.DOUBLE (3) true DOUBLE_INSTEAD_OF_HIT
     0x1.ccccccccccccdp-2%float;
    IndexPlay.mk "16 vs 9 Stand"%string "16 vs 9"%string
     Decision.HIT Decision.STAND (5) true STAND_INSTEAD_OF_HIT
     0x1.999999999999ap-2%float;
    IndexPlay.mk "13 vs 2 Hit"%string "13 vs 2"%string
     Decision.STAND Decision.HIT (-1) false HIT_INSTEAD_OF_STAND
     0x1.6666666666666p-2%float;
    IndexPlay.mk "12 vs 4 Hit"%string "12 vs 4"%string
     Decision.STAND Decision.HIT (0) false HIT_INSTEAD_OF_STAND
     0x1.3333333333333p-2%float;
    IndexPlay.mk "12 vs 5 Hit"%string "12 vs 5"%string
     Decision.STAND Decision.HIT (-2) false HIT_INSTEAD_OF_STAND
     0x1.0p-2%float;
    IndexPlay.mk "12 vs 6 Hit"%string "12 vs 6"%string
     Decision.STAND Decision.HIT (-1) false HIT_INSTEAD_OF_STAND
     0x1.999999999999ap-3%float;
    IndexPlay.mk "13 vs 3 Hit"%string "13 vs 3"%string
     Decision.STAND Decision.HIT (-2) false HIT_INSTEAD_OF_STAND
     0x1.3333333333333p-3%float ].

Definition FAB_4 : list IndexPlay.t :=
  [ IndexPlay.mk "14 vs 10 Surrender"%string "14 vs 10"%string
     Decision.HIT Decision.SURRENDER_HIT (3) true SURRENDER_INSTEAD_OF_HIT
     0x1.3333333333333p-2%float;
    IndexPlay.mk "15 vs 9 Surrender"%string "15 vs 9"%string
     Decision.HIT Decision.SURRENDER_HIT (2) true SURRENDER_INSTEAD_OF_HIT
     0x1.0p-2%float;
    IndexPlay.mk "15 vs A Surrender"%string "15 vs A"%string
     Decision.HIT Decision.SURRENDER_HIT (1) true SURRENDER_INSTEAD_OF_HIT
     0x1.999999999999ap-3%float;
    IndexPlay.mk "14 vs A Surrender"%string "14 vs A"%string
     Decision.HIT Decision.SURRENDER_HIT (3) true SURRENDER_INSTEAD_OF_HIT
     0x1.3333333333333p-3%float ].

Definition ALL_INDEX_PLAYS : list IndexPlay.t := ILLUSTRIOUS_18 ++ FAB_4.

(** [str(n)] for an int. *)
Definition str_of_int (n : Z) : string := NilZero.string_of_int (Z.to_int n).

(** [needle in hay] for two strings. *)
Fixpoint str_contains (needle hay : string) : bool :=
  String.prefix needle hay
  || match hay with
     | EmptyString => false
     | String _ hay' => str_contains needle hay'
     end.

Module IndexPlayLookup.

Record t : Type := mk { plays : list IndexPlay.t }.

(** The constructor followed by [__post_init__]: without a list of plays
    the lookup holds [ALL_INDEX_PLAYS]. *)
Definition new (plays : option (list IndexPlay.t)) : t :=
  mk (match plays with
      | None => ALL_INDEX_PLAYS
      | Some l => l
      end).

(** The loop of [find_applicable_play] over the plays left. *)
Fixpoint find_loop (plays : list IndexPlay.t) (player_total : Z)
    (dealer_upcard_value : Z) (dealer_str : string) (is_pair : bool)
    (pair_value : option Z) (is_soft : bool) : option IndexPlay.t :=
  match plays with
  | [] => None
  | play :: rest =>
      let continue :=
        find_loop rest player_total dealer_upcard_value dealer_str is_pair
          pair_value is_soft in
      if is_pair
         && match pair_value with
            | Some v => v =? 10
            | None => false
            end
         && str_contains (String.append "10,10 vs "%string dealer_str)
              (IndexPlay.player_hand play)
      then Some play
      else if DeviationType_eqb (IndexPlay.deviation_type play) INSURANCE
      then (if dealer_upcard_value =? 11 then Some play else continue)
      else if negb is_soft && negb is_pair
              && str_contains
                   (String.append (str_of_int player_total)
                      (String.append " vs "%string dealer_str))
                   (IndexPlay.player_hand play)
      then Some play
      else continue
  end.

Definition find_applicable_play (self : t) (player_total : Z)
    (dealer_upcard_value : Z) (is_pair : bool) (pair_value : option Z)
    (is_soft : bool) : option IndexPlay.t :=
  let dealer_str :=
    if dealer_upcard_value =? 11 then "A"%string
    else str_of_int dealer_upcard_value in
  find_loop (plays self) player_total dealer_upcard_value dealer_str is_pair
    pair_value is_soft.

(** [if play and play.should_deviate(true_count)]: a play is an object
    without [__bool__] or [__len__], hence true. *)
Definition get_deviation (self : t) (player_total : Z)
    (dealer_upcard_value : Z) (true_count : Z) (is_pair : bool)
    (pair_value : option Z) (is_soft : bool) : option Decision.t :=
  match find_applicable_play self player_total dealer_upcard_value is_pair
          pair_value is_soft with
  | Some play =>
      if IndexPlay.should_deviate play true_count
      then Some (IndexPlay.deviation_action play)
      else None
  | None => None
  end.

End IndexPlayLookup.

(** ** main.py: checking the user's action against the strategy *)

Definition Action_eqb (a b : Action) : bool :=
  match a, b with
  | HIT, HIT | STAND, STAND | DOUBLE, DOUBLE | SPLIT, SPLIT
  | SURRENDER, SURRENDER => true
  | _, _ => false
  end.

(** [action in actions] *)
Definition Action_in (a : Action) (actions : list Action) : bool :=
  existsb (Action_eqb a) actions.

(** The dict [action_to_decision], which has an entry for every action. *)
Definition action_to_decision (a : Action) : Decision.t :=
  match a with
  | HIT => Decision.HIT
  | STAND => Decision.STAND
  | DOUBLE => Decision.DOUBLE
  | SPLIT => Decision.SPLIT
  | SURRENDER => Decision.SURRENDER_HIT
  end.

Definition _check_action (user_action : Action) (correct : Decision.t) : bool :=
  let user_decision := action_to_decision user_action in
  if Decision.eqb correct Decision.DOUBLE_STAND then
    Decision.eqb user_decision Decision.DOUBLE
    || Decision.eqb user_decision Decision.STAND
  else if Decision.eqb correct Decision.SURRENDER_HIT then
    Decision.eqb user_decision Decision.SURRENDER_HIT
    || Decision.eqb user_decision Decision.HIT
  else Decision.eqb user_decision correct.

(** ** training/drills.py: the full-play drill *)

Module FullPlayResult.

Record t : Type := mk {
  player_hand : Hand.t;
  dealer_upcard : Card.t;
  user_action : Action;
  correct_action : Decision.t;
  is_correct : bool;
  user_count : option Z;
  correct_count : option Z;
  count_correct : option bool;
  index_applicable : bool;
  index_followed : bool
}.

End FullPlayResult.

Module FullPlayDrill.

(** The drill and its engine hold the same shoe, player and dealer objects:
    they are kept once, in the engine. The engine's callback is the method
    [_on_card_exposed], which counts the card; it touches nothing the engine
    reads, so the counter after a call of the engine is the counter before
    it brought up to date with the cards the engine showed meanwhile. *)
Record t : Type := mk {
  engine : GameEngine.t;
  counter : Counter.t;
  strategy : BasicStrategy.t;
  results : list FullPlayResult.t;
  count_quiz_frequency : float
}.

Definition shoe (d : t) : Shoe.t := GameEngine.shoe (engine d).
Definition player (d : t) : Player.t := GameEngine.player (engine d).
Definition dealer (d : t) : Dealer.t := GameEngine.dealer (engine d).

(** The dataclass constructor followed by [__post_init__]. *)
Definition new (shoe : Shoe.t) (player : Player.t) (dealer : Dealer.t)
    (counter : Counter.t) (strategy : BasicStrategy.t)
    (results : list FullPlayResult.t) (count_quiz_frequency : float) : t :=
  mk (GameEngine.mk shoe player dealer true [] 1.5%float false)
     counter strategy results count_quiz_frequency.

(** The default [0.3], as the binary64 value Python reads it. *)
Definition default_count_quiz_frequency : float := 0x1.3333333333333p-2.

Definition _on_card_exposed (card : Card.t) (c : Counter.t) : Counter.t :=
  snd (Counter.count_card card c).

(** The cards shown to the callback between two states of the engine. *)
Definition shown_since (e e' : GameEngine.t) : list Card.t :=
  skipn (length (GameEngine.exposed e)) (GameEngine.exposed e').

(** A call of the engine made by the drill. *)
Definition through_engine {A} (m : M GameEngine.t A) : M t A := fun d =>
  let r := m (engine d) in
  let e' := state_of r in
  let d' :=
    mk e'
       (fold_left (fun c card => _on_card_exposed card c)
          (shown_since (engine d) e') (counter d))
       (strategy d) (results d) (count_quiz_frequency d) in
  match r with
  | Ok a _ => Ok a d'
  | Raise x _ => Raise x d'
  end.

Definition reset (d : t) : t :=
  let e := engine d in
  let e1 := GameEngine.set_shoe (Shoe.shuffle (GameEngine.shoe e)) e in
  let e2 :=
    GameEngine.set_player
      (Player.set_bankroll 1000%float (GameEngine.player e1)) e1 in
  mk e2 (Counter.reset (counter d)) (strategy d) [] (count_quiz_frequency d).

Definition start_hand (bet : option float) : M t (hand_ref * option Card.t) :=
  through_engine (GameEngine.start_round bet).

Definition get_correct_action (hand : Hand.t) (dealer_upcard : Card.t) (d : t)
    : option Decision.t :=
  BasicStrategy.get_decision (strategy d) hand dealer_upcard
    (Hand.can_double hand)
    (Hand.can_split hand && Player.can_split (player d))
    (Hand.can_surrender hand).

Definition check_action (hand : Hand.t) (dealer_upcard : Card.t)
    (user_action : Action) (d : t) : option bool :=
  match get_correct_action hand dealer_upcard d with
  | None => None
  | Some correct =>
      let user_decision := action_to_decision user_action in
      Some
        (if Decision.eqb correct Decision.DOUBLE_STAND then
           Decision.eqb user_decision Decision.DOUBLE
           || Decision.eqb user_decision Decision.STAND
         else if Decision.eqb correct Decision.SURRENDER_HIT then
           Decision.eqb user_decision Decision.SURRENDER_HIT
           || Decision.eqb user_decision Decision.HIT
         else Decision.eqb user_decision correct)
  end.

(** [record_result]; [None] stands for an exception of [get_decision].
    The hand recorded is [Hand(cards=list(hand.cards))]: a copy of the
    cards in a hand with the default status, bet and flags. *)
Definition record_result (hand : Hand.t) (dealer_upcard : Card.t)
    (user_action : Action) (user_count : option Z) (d : t)
    : option (FullPlayResult.t * t) :=
  match get_correct_action hand dealer_upcard d,
        check_action hand dealer_upcard user_action d with
  | Some correct_action, Some is_correct =>
      let running := Counter.running_count (counter d) in
      let count_correct :=
        match user_count with
        | Some n => Some (n =? running)
        | None => None
        end in
      let result :=
        FullPlayResult.mk
          (Hand.mk (Hand.cards hand) Hand.ACTIVE 0%float false false)
          dealer_upcard user_action correct_action is_correct user_count
          (match user_count with
           | Some _ => Some running
           | None => None
           end)
          count_correct false false in
      Some (result,
            mk (engine d) (counter d) (strategy d) (results d ++ [result])
               (count_quiz_frequency d))
  | _, _ => None
  end.

End FullPlayDrill.

(** ** training/evaluator.py *)

(** The [value] of the members of the two enums, as [engine.py] and
    [basic_strategy.py] give them. *)
Definition Action_value (a : Action) : string :=
  match a with
  | HIT => "hit"
  | STAND => "stand"
  | DOUBLE => "double"
  | SPLIT => "split"
  | SURRENDER => "surrender"
  end%string.

Definition Decision_value (d : Decision.t) : string :=
  match d with
  | Decision.HIT => "H"
  | Decision.STAND => "S"
  | Decision.DOUBLE => "D"
  | Decision.DOUBLE_STAND => "Ds"
  | Decision.SPLIT => "P"
  | Decision.SURRENDER_HIT => "Rh"
  | Decision.SURRENDER_STAND => "Rs"
  | Decision.SURRENDER_SPLIT => "Rp"
  end%string.

(** [f"{n:+d}"] *)
Definition format_signed (n : Z) : string :=
  if 0 <=? n then String.append "+" (str_of_int n) else str_of_int n.

(** [s.lower()], on ASCII text. *)
Definition ascii_lower (c : ascii) : ascii :=
  let n := nat_of_ascii c in
  if ((65 <=? n) && (n <=? 90))%nat then ascii_of_nat (n + 32) else c.

Fixpoint str_lower (s : string) : string :=
  match s with
  | EmptyString => EmptyString
  | String c s' => String (ascii_lower c) (str_lower s')
  end.

(** [d.get(key, default)] on a dict with string keys. *)
Fixpoint str_dict_get {V} (key : string) (d : list (string * V)) : option V :=
  match d with
  | [] => None
  | (k, v) :: d' =>
      match str_dict_get key d' with
      | Some v' => Some v'
      | None => if String.eqb k key then Some v else None
      end
  end.

Module ErrorType.
Inductive t : Type := COUNTING | STRATEGY | INDEX | NONE.

Definition eqb (a b : t) : bool :=
  match a, b with
  | COUNTING, COUNTING | STRATEGY, STRATEGY | INDEX, INDEX | NONE, NONE => true
  | _, _ => false
  end.
End ErrorType.

Module EvaluatedError.
Record t : Type := mk {
  error_type : ErrorType.t;
  description : string;
  correct_action : string;
  user_action : string;
  ev_loss : float;
  severity : Z
}.
End EvaluatedError.

(** The estimates, as the binary64 values Python reads. *)
Definition EV_LOSS_ESTIMATES : list (string * float) :=
  [ ("hit_vs_stand"%string, 0x1.999999999999ap-5%float);
    ("stand_vs_hit"%string, 0x1.eb851eb851eb8p-5%float);
    ("hit_vs_double"%string, 0x1.999999999999ap-4%float);
    ("stand_vs_double"%string, 0x1.47ae147ae147bp-4%float);
    ("split_vs_hit"%string, 0x1.1eb851eb851ecp-4%float);
    ("hit_vs_split"%string, 0x1.999999999999ap-5%float);
    ("surrender_vs_hit"%string, 0x1.eb851eb851eb8p-6%float);
    ("hit_vs_surrender"%string, 0x1.47ae147ae147bp-5%float);
    ("stand_vs_hit_stiff"%string, 0x1.3333333333333p-3%float);
    ("hit_vs_stand_hard17"%string, 0x1.999999999999ap-3%float);
    ("index_not_followed"%string, 0x1.47ae147ae147bp-6%float) ].

Module Evaluator.

(** The severity and the loss of a count that is off by [diff]. *)
Definition count_severity (diff : Z) : Z * float :=
  if diff =? 1 then (1, 0x1.47ae147ae147bp-7%float)
  else if diff <=? 3 then (2, 0x1.eb851eb851eb8p-6%float)
  else (3, 0x1.999999999999ap-5%float).

Definition evaluate_counting_result (result : CountingDrillResult)
    : EvaluatedError.t :=
  if is_correct result then
    EvaluatedError.mk ErrorType.NONE "Correct count"
      (String.append "RC = " (format_signed (correct_count result)))
      (String.append "RC = " (format_signed (user_count result)))
      0%float 0
  else
    let diff := Z.abs (user_count result - correct_count result) in
    let '(severity, ev_loss) := count_severity diff in
    EvaluatedError.mk ErrorType.COUNTING
      (String.append "Count off by " (str_of_int diff))
      (String.append "RC = " (format_signed (correct_count result)))
      (String.append "RC = " (format_signed (user_count result)))
      ev_loss severity.

Definition _evaluate_strategy_error (result : FullPlayResult.t)
    : EvaluatedError.t :=
  let correct := FullPlayResult.correct_action result in
  let user := FullPlayResult.user_action result in
  let user_str := Action_value user in
  let correct_str := Decision_value correct in
  let lookup_key :=
    str_lower (String.append user_str (String.append "_vs_" correct_str)) in
  let player_value := Hand.value (FullPlayResult.player_hand result) in
  let '(lookup_key, severity) :=
    if Decision.eqb correct Decision.HIT && Action_eqb user STAND
       && (12 <=? player_value) && (player_value <=? 16)
    then ("stand_vs_hit_stiff"%string, 3)
    else if Decision.eqb correct Decision.STAND && Action_eqb user HIT
            && (17 <=? player_value)
    then ("hit_vs_stand_hard17"%string, 3)
    else if Decision.eqb correct Decision.DOUBLE && Action_eqb user HIT
    then (lookup_key, 2)
    else if Decision.eqb correct Decision.SPLIT && Action_eqb user HIT
    then (lookup_key, 2)
    else (lookup_key, 1) in
  let ev_loss :=
    match str_dict_get lookup_key EV_LOSS_ESTIMATES with
    | Some v => v
    | None => 0x1.999999999999ap-5%float
    end in
  EvaluatedError.mk ErrorType.STRATEGY
    (String.append "Should "
       (String.append correct_str (String.append ", did " user_str)))
    correct_str user_str ev_loss severity.

(** [None] stands for the TypeError of [user_count - correct_count] when
    one of the two is [None]. *)
Definition evaluate_play_result (result : FullPlayResult.t)
    : option (list EvaluatedError.t) :=
  let errors :=
    if negb (FullPlayResult.is_correct result)
    then [_evaluate_strategy_error result] else [] in
  let counting :=
    match FullPlayResult.count_correct result with
    | Some false =>
        match FullPlayResult.user_count result,
              FullPlayResult.correct_count result with
        | Some user_count, Some correct_count =>
            let diff := Z.abs (user_count - correct_count) in
            let '(severity, ev_loss) := count_severity diff in
            Some [EvaluatedError.mk ErrorType.COUNTING
                    (String.append "Count off by " (str_of_int diff))
                    (String.append "RC = " (format_signed correct_count))
                    (String.append "RC = " (format_signed user_count))
                    ev_loss severity]
        | _, _ => None
        end
    | _ => Some []
    end in
  match counting with
  | None => None
  | Some counting =>
      let errors := errors ++ counting in
      let errors :=
        if FullPlayResult.index_applicable result
           && negb (FullPlayResult.index_followed result)
        then errors
             ++ [EvaluatedError.mk ErrorType.INDEX "Index play not followed"
                   "Deviate from basic strategy" "Followed basic strategy"
                   (match str_dict_get "index_not_followed" EV_LOSS_ESTIMATES with
                    | Some v => v
                    | None => 0%float
                    end) 1]
        else errors in
      Some
        (match errors with
         | [] =>
             [EvaluatedError.mk ErrorType.NONE "Perfect play"
                (Decision_value (FullPlayResult.correct_action result))
                (Action_value (FullPlayResult.user_action result))
                0%float 0]
         | _ :: _ => errors
         end)
  end.

End Evaluator.

Module SessionEvaluator.

(** The dict [evaluate_counting_session] returns; [errors_by_severity] is
    absent from the dict returned for an empty session. *)
Record counting_session : Type := mk_counting_session {
  total : Z;
  correct : Z;
  accuracy : float;
  total_ev_loss : float;
  errors_by_severity : option (Z * Z * Z)
}.

(** [sum(1 for e in evaluated if p(e))] *)
Definition count_if {A} (p : A -> bool) (l : list A) : Z :=
  pysum (map (fun _ => 1) (filter p l)).

Definition evaluate_counting_session (results : list CountingDrillResult)
    : counting_session :=
  match results with
  | [] => mk_counting_session 0 0 0%float 0%float None
  | _ :: _ =>
      let evaluated := map Evaluator.evaluate_counting_result results in
      let correct :=
        count_if (fun e => ErrorType.eqb (EvaluatedError.error_type e)
                             ErrorType.NONE) evaluated in
      let total_ev :=
        fold_left PrimFloat.add (map EvaluatedError.ev_loss evaluated) 0%float in
      mk_counting_session
        (Z.of_nat (length results)) correct
        (PrimFloat.div (float_of_int correct)
           (float_of_int (Z.of_nat (length results))))
        total_ev
        (Some (count_if (fun e => EvaluatedError.severity e =? 1) evaluated,
               count_if (fun e => EvaluatedError.severity e =? 2) evaluated,
               count_if (fun e => EvaluatedError.severity e =? 3) evaluated))
  end.

End SessionEvaluator.

(** * Reference definitions and harnesses

    What the properties below are stated with: the valuation as the
    specification words it, and runs of calls on the objects. *)

(** The reference valuation, written from the specification: every Ace
    counts 1 in [total_low]; starting from the total with Aces at 11, the
    number of demotions is the least [k] that brings the total to 21 or
    less, capped by the number of Aces. *)
Definition low_card_value (c : Card.t) : Z :=
  if Card.is_ace c then 1 else Card.value c.

Definition total_low (cs : list Card.t) : Z :=
  fold_right Z.add 0 (map low_card_value cs).

Definition demotions_needed (total : Z) : Z :=
  if total <=? 21 then 0 else (total - 12) / 10.

Definition value_reference (cs : list Card.t) : Z :=
  let high := Hand.total_high cs in
  high - 10 * Z.min (Z.of_nat (Hand.count_aces cs)) (demotions_needed high).

Definition ace_spades : Card.t := Card.mk Card.ACE Card.SPADES.
Definition six_diamonds : Card.t := Card.mk Card.SIX Card.DIAMONDS.

(** A dealer holding the given cards, dealt one by one. *)
Definition dealer_holding (r : Dealer.DealerRule) (cs : list Card.t) : Dealer.t :=
  fold_left (fun d c => Dealer.receive_card c true d) cs (Dealer.new r).

(** The decision as a function of the cards and the rule alone. *)
Definition hit_decision (cs : list Card.t) (r : Dealer.DealerRule) : bool :=
  Dealer.should_hit (Dealer.mk (Hand.set_cards cs Hand.empty) r false).

(** The quantity the shoe conserves. *)
Definition shoe_total (s : Shoe.t) : Z := Shoe.cards_remaining s + Shoe.cards_dealt s.

(** A call on the shoe, and a run of calls; a [deal] on an empty shoe
    raises and the run goes on from the state it left. *)
Inductive shoe_call : Type :=
| CallDeal
| CallBurn (count : Z).

Definition run_shoe_call (s : Shoe.t) (c : shoe_call) : Shoe.t :=
  match c with
  | CallDeal => state_of (Shoe.deal s)
  | CallBurn count => state_of (Shoe.burn count s)
  end.

Definition run_shoe_calls (calls : list shoe_call) (s : Shoe.t) : Shoe.t :=
  fold_left run_shoe_call calls s.

(** The two hands a split of [h] makes. *)
Definition split_first (h : Hand.t) (c : Card.t) : Hand.t :=
  Hand.mk [c] Hand.ACTIVE (Hand.bet h) true false.

(** A player holding one pair of eights on a bet of 10, with 990 left. *)
Definition eight_spades : Card.t := Card.mk Card.EIGHT Card.SPADES.
Definition eight_diamonds : Card.t := Card.mk Card.EIGHT Card.DIAMONDS.
Definition pair_of_eights : Hand.t :=
  Hand.mk [eight_spades; eight_diamonds] Hand.ACTIVE 10%float false false.
Definition player_with_eights : Player.t :=
  Player.mk 990%float [pair_of_eights] 10%float 3 0.

(** The calls of the claims on atomic failure. The methods of [Player] are
    run on the player of an engine, so that one state covers the shoe, the
    bankroll and the hands. *)
Inductive api_call : Type :=
| ExecuteAction (action : Action) (hand_index : Z)
| NewHand (bet : option float)
| SplitHand (hand_index : Z)
| DoubleDown (hand_index : Z)
| SurrenderHand (hand_index : Z).

Definition ignore {S A} (m : M S A) : M S unit := bind m (fun _ => ret tt).

Definition run_api_call (c : api_call) : M GameEngine.t unit :=
  match c with
  | ExecuteAction action i => ignore (GameEngine.execute_action action i)
  | NewHand bet => ignore (GameEngine.in_player (Player.new_hand bet))
  | SplitHand i => ignore (GameEngine.in_player (Player.split_hand i))
  | DoubleDown i => ignore (GameEngine.in_player (Player.double_down i))
  | SurrenderHand i => ignore (GameEngine.in_player (Player.surrender_hand i))
  end.

(** An engine in mid-round: the player holds the pair of eights, the dealer
    a ten and a five, the shoe two more cards. *)
Definition ten_clubs : Card.t := Card.mk Card.TEN Card.CLUBS.
Definition five_hearts : Card.t := Card.mk Card.FIVE Card.HEARTS.
Definition king_hearts : Card.t := Card.mk Card.KING Card.HEARTS.
Definition three_hearts : Card.t := Card.mk Card.THREE Card.HEARTS.

Definition engine_with_eights : GameEngine.t :=
  GameEngine.mk
    (Shoe.mk Shoe.default_penetration [three_hearts; king_hearts] 4 [])
    player_with_eights
    (Dealer.mk (Hand.mk [ten_clubs; five_hearts] Hand.ACTIVE 0%float false false)
       Dealer.H17 false)
    true [eight_spades; ten_clubs; eight_diamonds] 1.5%float true.

Definition engine_short_of_funds : GameEngine.t :=
  GameEngine.set_player (Player.set_bankroll 5%float player_with_eights)
    engine_with_eights.

(** Scenario B of the specification, before the deal: a bankroll of 1000,
    a base bet of 10, blackjack paying 3:2, and a shoe that deals A-spades
    and K-diamonds to the player, 10-clubs up and 5-hearts down to the
    dealer. *)
Definition king_diamonds : Card.t := Card.mk Card.KING Card.DIAMONDS.
Definition two_clubs : Card.t := Card.mk Card.TWO Card.CLUBS.

Definition scenario_B : GameEngine.t :=
  GameEngine.new
    (Shoe.mk Shoe.default_penetration
       [two_clubs; five_hearts; king_diamonds; ten_clubs; ace_spades] 0 [])
    (Player.new 1000%float 10%float 3) (Dealer.new Dealer.H17) true 1.5%float.

Definition scenario_B_dealt : GameEngine.t :=
  state_of (GameEngine.start_round None scenario_B).

(** The hand DOUBLE leaves behind: bet doubled, marked doubled, one card
    added, status forced to STOOD. *)
Definition doubled_hand (h : Hand.t) (c : Card.t) : Hand.t :=
  Hand.set_status Hand.STOOD
    (Hand.add_card c
       (Hand.double_down (Hand.set_bet (PrimFloat.mul (Hand.bet h) 2) h))).

(** An engine in mid-round whose player holds 10-clubs and 6 of hearts on
    a bet of 10, with K-hearts on top of the shoe. *)
Definition six_hearts : Card.t := Card.mk Card.SIX Card.HEARTS.
Definition hard_sixteen : Hand.t :=
  Hand.mk [ten_clubs; six_hearts] Hand.ACTIVE 10%float false false.
Definition engine_with_sixteen : GameEngine.t :=
  GameEngine.mk
    (Shoe.mk Shoe.default_penetration [three_hearts; king_hearts] 4 [])
    (Player.mk 990%float [hard_sixteen] 10%float 3 0)
    (Dealer.mk (Hand.mk [eight_spades; five_hearts] Hand.ACTIVE 0%float false false)
       Dealer.H17 false)
    true [ten_clubs; eight_spades; six_hearts] 1.5%float true.

(** The invariant of the specification on one step from a hand [h] to its
    next state [h']: once the status is not ACTIVE the cards stay, and the
    status stays or becomes BUSTED. *)
Definition status_monotonic_step (h h' : Hand.t) : Prop :=
  Hand.status h <> Hand.ACTIVE ->
  Hand.cards h' = Hand.cards h /\
  (Hand.status h' = Hand.status h \/ Hand.status h' = Hand.BUSTED).

(** [hand.status = HandStatus.STOOD] on the hand at [r], the last statement
    of the DOUBLE branch of [execute_action]. *)
Definition force_stood (r : hand_ref) (e : GameEngine.t) : GameEngine.t :=
  GameEngine.set_player
    (Player.update_hand r (Hand.set_status Hand.STOOD) (GameEngine.player e)) e.

(** The player's hands in the state a call leaves behind, whether it
    returned or raised. *)
Definition hands_after {A} (m : M GameEngine.t A) (e : GameEngine.t) : list Hand.t :=
  Player.hands (GameEngine.player (state_of (m e))).

(** An engine in mid-round after a split of eights: the first hand stood on
    eighteen, the second holds eleven and is to play, with K-diamonds on top
    of the shoe. *)
Definition stood_eighteen : Hand.t :=
  Hand.mk [eight_spades; king_hearts] Hand.STOOD 10%float true false.
Definition hard_eleven_split : Hand.t :=
  Hand.mk [eight_diamonds; three_hearts] Hand.ACTIVE 10%float true false.
Definition engine_with_stood_and_active : GameEngine.t :=
  GameEngine.mk
    (Shoe.mk Shoe.default_penetration [two_clubs; king_diamonds] 6 [])
    (Player.mk 980%float [stood_eighteen; hard_eleven_split] 10%float 3 1)
    (Dealer.mk (Hand.mk [ten_clubs; five_hearts] Hand.ACTIVE 0%float false false)
       Dealer.H17 false)
    true [eight_spades; ten_clubs; eight_diamonds; king_hearts; three_hearts]
    1.5%float true.

(** What a caller may do after the deal without asking for a reveal:
    execute an action, query the legal ones, or resolve the round; a call
    that raises leaves the state it raised in, and the round goes on from
    there. *)
Inductive round_step : Type :=
| StepAction (action : Action) (hand_index : Z)
| StepQuery (hand_index : Z)
| StepResolve.

Definition run_round_step (e : GameEngine.t) (s : round_step) : GameEngine.t :=
  match s with
  | StepAction action i => state_of (GameEngine.execute_action action i e)
  | StepQuery i => state_of (GameEngine.get_available_actions i e)
  | StepResolve => snd (GameEngine.resolve_round e)
  end.

Definition run_round_steps (steps : list round_step) (e : GameEngine.t) : GameEngine.t :=
  fold_left run_round_step steps e.

(** A step of the player's turn as seen by the observer: the dealer and the
    callback are untouched, the cards newly exposed come out of the shoe,
    and the shoe only loses cards. *)
Definition round_frame (e e' : GameEngine.t) : Prop :=
  GameEngine.dealer e' = GameEngine.dealer e /\
  GameEngine.on_card_exposed e' = GameEngine.on_card_exposed e /\
  exists seen,
    GameEngine.exposed e' = GameEngine.exposed e ++ seen /\
    incl seen (Shoe._cards (GameEngine.shoe e)) /\
    incl (Shoe._cards (GameEngine.shoe e')) (Shoe._cards (GameEngine.shoe e)).

Definition frames {A} (m : M GameEngine.t A) : Prop :=
  forall e, round_frame e (state_of (m e)).

(** The dealer's turn as seen by the observer: the hole card stays
    revealed, and the exposures only grow. *)
Definition dealer_frame (e e' : GameEngine.t) : Prop :=
  Dealer.hole_card_revealed (GameEngine.dealer e') =
    Dealer.hole_card_revealed (GameEngine.dealer e) /\
  GameEngine.on_card_exposed e' = GameEngine.on_card_exposed e /\
  exists hits,
    GameEngine.exposed e' =
      GameEngine.exposed e ++ (if GameEngine.on_card_exposed e then hits else []).

(** Scenario A of the specification, before the deal: the shoe deals
    10-clubs and 9-diamonds to the player, 6-spades up and 9-hearts down to
    the dealer, and holds 2-clubs and 3-hearts next. *)
Definition six_spades : Card.t := Card.mk Card.SIX Card.SPADES.
Definition nine_diamonds : Card.t := Card.mk Card.NINE Card.DIAMONDS.
Definition nine_hearts : Card.t := Card.mk Card.NINE Card.HEARTS.

Definition scenario_A : GameEngine.t :=
  GameEngine.new
    (Shoe.mk Shoe.default_penetration
       [three_hearts; two_clubs; nine_hearts; nine_diamonds; six_spades; ten_clubs]
       0 [])
    (Player.new 1000%float 10%float 3) (Dealer.new Dealer.H17) true 1.5%float.

Definition scenario_A_dealt : GameEngine.t :=
  state_of (GameEngine.start_round None scenario_A).

Definition scenario_A_steps : list round_step :=
  [StepQuery 0; StepAction HIT 0; StepAction STAND 0].

(** The claim on configuration inputs, for the penetration of the shoe: a
    value outside the documented range makes the construction fail. *)
Definition shoe_construction_validates : Prop :=
  forall (p : float) (g : random.state),
    Construct.penetration_in_range p = false ->
    exists x g', Construct.Shoe_ p g = Raise x g'.

(** Scenario A once the player has stood on 19. *)
Definition scenario_A_stood : GameEngine.t :=
  run_round_steps [StepAction STAND 0] scenario_A_dealt.

(** [n] calls of [deal] in a row, collecting the cards in the order they
    come; the first call that raises ends the run. *)
Fixpoint deal_many (n : nat) : M Shoe.t (list Card.t) :=
  match n with
  | O => ret []
  | S n' => bind Shoe.deal (fun c => bind (deal_many n') (fun cs => ret (c :: cs)))
  end.

(** The loop of [Player.active_hand_index] started at position [i]. *)
Fixpoint active_index_from (i : nat) (hs : list Hand.t) : option nat :=
  match hs with
  | [] => None
  | h :: hs' =>
      if Hand.HandStatus_eqb (Hand.status h) Hand.ACTIVE then Some i
      else active_index_from (S i) hs'
  end.

(** The bet [new_hand] takes: the one given, or the base bet. *)
Definition bet_amount (bet : option float) (p : Player.t) : float :=
  match bet with Some b => b | None => Player.base_bet p end.

(** The pair of eights in mid-round with nothing left in the shoe. *)
Definition engine_with_empty_shoe : GameEngine.t :=
  GameEngine.set_shoe (Shoe.mk Shoe.default_penetration [] 52 []) engine_with_eights.

(** Each card the dealer hits, as it ends up in the dealer's hand. *)
Definition twice (hits : list Card.t) : list Card.t :=
  flat_map (fun c => [c; c]) hits.

(** The hole card as the callback is shown it at a reveal. *)
Definition shown_hole (e : GameEngine.t) : list Card.t :=
  match Dealer.hole_card (GameEngine.dealer e) with
  | Some card => [card]
  | None => []
  end.

(** How [resolve_round] scores a hand [h] against a dealer worth
    [dealer_value], as a relation between the hand and its result: the
    cases in the order the code tests them. *)
Definition scored (dealer_value : Z) (dealer_busted : bool)
    (h : Hand.t) (r : HandResult) : Prop :=
  hr_hand r = h /\
  (Hand.status h = Hand.SURRENDERED ->
     hr_result r = RESULT_SURRENDER /\
     hr_payout r = PrimFloat.div (PrimFloat.opp (Hand.bet h)) 2) /\
  (Hand.status h <> Hand.SURRENDERED -> 21 < Hand.value h ->
     hr_result r = LOSE /\ hr_payout r = PrimFloat.opp (Hand.bet h)) /\
  (Hand.status h <> Hand.SURRENDERED -> Hand.value h <= 21 ->
   dealer_busted = true \/ dealer_value < Hand.value h ->
     hr_result r = WIN /\ hr_payout r = Hand.bet h) /\
  (Hand.status h <> Hand.SURRENDERED -> Hand.value h <= 21 ->
   dealer_busted = false -> Hand.value h < dealer_value ->
     hr_result r = LOSE /\ hr_payout r = PrimFloat.opp (Hand.bet h)) /\
  (Hand.status h <> Hand.SURRENDERED -> Hand.value h <= 21 ->
   dealer_busted = false -> Hand.value h = dealer_value ->
     hr_result r = PUSH /\ hr_payout r = 0%float).

(** The bankroll after the credit that goes with a result: twice the bet
    on a win, the bet on a push, nothing otherwise. *)
Definition credited (bankroll : float) (r : HandResult) : float :=
  match hr_result r with
  | WIN => PrimFloat.add bankroll (PrimFloat.mul (Hand.bet (hr_hand r)) 2)
  | PUSH => PrimFloat.add bankroll (Hand.bet (hr_hand r))
  | LOSE | RESULT_BLACKJACK | RESULT_SURRENDER => bankroll
  end.

(** The Hi-Lo total of a list of cards. *)
Definition hilo_sum (cs : list Card.t) : Z := pysum (map get_hilo_value cs).

(** [count_card] on each card of a list, in order. *)
Definition count_all (cs : list Card.t) (c : Counter.t) : Counter.t :=
  fold_left (fun c card => snd (Counter.count_card card c)) cs c.

(** [deal_cards] called [n] times, with what each call returned. *)
Fixpoint deal_rounds (n : nat) : M CountingDrill.t (list (list Card.t * Z)) :=
  match n with
  | O => ret []
  | S n' =>
      (r <- CountingDrill.deal_cards ;;
       rs <- deal_rounds n' ;;
       ret (r :: rs))%monad
  end.

(** The count and the shoe of a drill tell the same story: what is left in
    the shoe and what was dealt make up the deck, and the counter has counted
    exactly what was dealt. *)
Definition in_step (d : CountingDrill.t) : Prop :=
  exists dealt : list Card.t,
    Permutation (Shoe._cards (CountingDrill.shoe d) ++ dealt) create_deck /\
    Counter.running_count (CountingDrill.counter d) = hilo_sum dealt /\
    Counter.cards_seen (CountingDrill.counter d) = Z.of_nat (length dealt) /\
    Shoe._dealt_count (CountingDrill.shoe d) = Z.of_nat (length dealt).

(** The run of right answers that ends a list of results, as the loop of
    [best_streak] tracks it in [current]. *)
Fixpoint run_current (rs : list CountingDrillResult) (current : Z) : Z :=
  match rs with
  | [] => current
  | result :: rs' =>
      run_current rs' (if is_correct result then current + 1 else 0)
  end.

Definition drill_with_tracking : CountingDrill.t :=
  CountingDrill.mk (Shoe.mk Shoe.default_penetration [] 0 [3; 1; 4; 1; 5]%nat)
    (Counter.mk 7 9 [] true) 3 [].

(** The decisions the soft and hard charts hold. *)
Definition total_chart_decision (d : Decision.t) : bool :=
  match d with
  | Decision.HIT | Decision.STAND | Decision.DOUBLE | Decision.DOUBLE_STAND
  | Decision.SURRENDER_HIT => true
  | Decision.SPLIT | Decision.SURRENDER_STAND | Decision.SURRENDER_SPLIT => false
  end.

(** The decisions the pair chart holds. *)
Definition pair_chart_decision (d : Decision.t) : bool :=
  match d with
  | Decision.HIT | Decision.STAND | Decision.DOUBLE | Decision.SPLIT
  | Decision.SURRENDER_HIT => true
  | Decision.DOUBLE_STAND | Decision.SURRENDER_STAND
  | Decision.SURRENDER_SPLIT => false
  end.

Definition seven_clubs : Card.t := Card.mk Card.SEVEN Card.CLUBS.
Definition seven_hearts : Card.t := Card.mk Card.SEVEN Card.HEARTS.
Definition pair_of_sevens : Hand.t :=
  Hand.mk [seven_clubs; seven_hearts] Hand.ACTIVE 10%float false false.

(** What [full_play_mode] asks of the strategy for a hand: [get_decision]
    with the three permissions read off the available actions. *)
Definition advice (self : BasicStrategy.t) (hand : Hand.t) (upcard : Card.t)
    (actions : list Action) : option Decision.t :=
  BasicStrategy.get_decision self hand upcard
    (Action_in DOUBLE actions) (Action_in SPLIT actions)
    (Action_in SURRENDER actions).

(** A hand of one or two cards, all of them Aces. *)
Definition aces_only (h : Hand.t) : bool :=
  match Hand.cards h with
  | [c] => Card.is_ace c
  | [c0; c1] => Card.is_ace c0 && Card.is_ace c1
  | _ => false
  end.

(** The first of the index plays. *)
Definition insurance_play : IndexPlay.t :=
  IndexPlay.mk "Insurance"%string "Any vs A"%string
    Decision.HIT Decision.STAND 3 true INSURANCE 0x1.0p+0%float.

(** A hand whose status agrees with its value: not over 21 while ACTIVE,
    over 21 when BUSTED. *)
Definition hand_sound (h : Hand.t) : bool :=
  match Hand.status h with
  | Hand.ACTIVE => Hand.value h <=? 21
  | Hand.BUSTED => 21 <? Hand.value h
  | _ => true
  end.

Definition player_sound (p : Player.t) : Prop :=
  forallb hand_sound (Player.hands p) = true.

Definition hands_sound (e : GameEngine.t) : Prop :=
  player_sound (GameEngine.player e).

(** The calls of the engine's interface, and the engine each leaves behind,
    whether it returns or raises. *)
Inductive engine_call : Type :=
| CallStartRound (bet : option float)
| CallAction (action : Action) (hand_index : Z)
| CallQuery (hand_index : Z)
| CallEarlyBlackjack
| CallPlayDealer
| CallResolve.

Definition run_engine_call (e : GameEngine.t) (c : engine_call) : GameEngine.t :=
  match c with
  | CallStartRound bet => state_of (GameEngine.start_round bet e)
  | CallAction action i => state_of (GameEngine.execute_action action i e)
  | CallQuery i => state_of (GameEngine.get_available_actions i e)
  | CallEarlyBlackjack => state_of (GameEngine.check_early_blackjack e)
  | CallPlayDealer => state_of (GameEngine.play_dealer e)
  | CallResolve => snd (GameEngine.resolve_round e)
  end.

Definition run_engine_calls (calls : list engine_call) (e : GameEngine.t)
    : GameEngine.t :=
  fold_left run_engine_call calls e.

Definition keeps {A} (m : M GameEngine.t A) : Prop :=
  forall e, hands_sound e -> hands_sound (state_of (m e)).

(** A full-play drill late in a shoe: fifty cards dealt, a running count of
    five, and a shoe that asks for a shuffle. *)
Definition drill_before_reshuffle : FullPlayDrill.t :=
  FullPlayDrill.mk
    (GameEngine.mk
       (Shoe.mk Shoe.default_penetration [three_hearts; king_hearts] 50
          [3; 1; 4; 1; 5; 9; 2; 6]%nat)
       (Player.new 1000%float 10%float 3) (Dealer.new Dealer.H17)
       true [] 1.5%float false)
    (Counter.mk 5 50 [] false) BasicStrategy.default []
    FullPlayDrill.default_count_quiz_frequency.

Definition drill_after_reshuffle : FullPlayDrill.t :=
  state_of (FullPlayDrill.start_hand None drill_before_reshuffle).

(** A full-play drill whose player holds a hard eleven on a bet of ten with
    five left in the bankroll. *)
Definition six_clubs : Card.t := Card.mk Card.SIX Card.CLUBS.
Definition hard_eleven : Hand.t :=
  Hand.mk [five_hearts; six_clubs] Hand.ACTIVE 10%float false false.
Definition drill_short_of_funds : FullPlayDrill.t :=
  FullPlayDrill.mk
    (GameEngine.mk
       (Shoe.mk Shoe.default_penetration [three_hearts; king_hearts] 4 [])
       (Player.mk 5%float [hard_eleven] 10%float 3 0)
       (Dealer.mk (Hand.mk [six_spades; ten_clubs] Hand.ACTIVE 0%float false false)
          Dealer.H17 false)
       true [five_hearts; six_spades; six_clubs] 1.5%float true)
    (Counter.mk 3 3 [] false) BasicStrategy.default []
    FullPlayDrill.default_count_quiz_frequency.

(** A counting drill on a shoe built with a penetration of 2.5. *)
Definition drill_never_shuffling : CountingDrill.t :=
  CountingDrill.mk (Shoe.mk 2.5%float [] 0 [2; 7; 1; 8]%nat)
    Counter.default 3 [].

(** * Properties *)

(** ** Lists *)

Lemma pop_snoc {A} (l : list A) (x : A) : pylist.pop (l ++ [x]) = Some (x, l).
Proof.
  induction l as [|a l IH]; simpl; [reflexivity|].
  rewrite IH. reflexivity.
Qed.

Lemma pop_Some {A} (l : list A) x r : pylist.pop l = Some (x, r) -> l = r ++ [x].
Proof.
  revert x r. induction l as [|a l IH]; simpl; intros x r H; [discriminate|].
  destruct (pylist.pop l) as [[y r']|] eqn:E.
  - inversion H; subst. rewrite (IH _ _ eq_refl). reflexivity.
  - destruct l as [|b l]; [inversion H; reflexivity|].
    simpl in E. destruct (pylist.pop l) as [[? ?]|]; discriminate.
Qed.

Lemma pop_None {A} (l : list A) : pylist.pop l = None -> l = [].
Proof.
  destruct l as [|a l]; [reflexivity|]. simpl.
  destruct (pylist.pop l) as [[? ?]|]; discriminate.
Qed.

Lemma update_length {A} n (f : A -> A) l : length (pylist.update n f l) = length l.
Proof.
  revert n. induction l as [|a l IH]; intros [|n]; simpl; auto.
Qed.

Lemma update_nth {A} n (f : A -> A) l x :
  nth_error l n = Some x -> nth_error (pylist.update n f l) n = Some (f x).
Proof.
  revert n. induction l as [|a l IH]; intros [|n]; simpl; intro H;
    try discriminate.
  - inversion H; reflexivity.
  - apply IH, H.
Qed.

Lemma update_nth_other {A} n m (f : A -> A) l :
  n <> m -> nth_error (pylist.update n f l) m = nth_error l m.
Proof.
  revert n m. induction l as [|a l IH]; intros [|n] [|m] H; simpl; auto.
  contradiction.
Qed.

Lemma update_split {A} n (f : A -> A) l x :
  nth_error l n = Some x ->
  pylist.update n f l = firstn n l ++ f x :: skipn (S n) l.
Proof.
  revert n. induction l as [|a l IH]; intros [|n] H; simpl in *; try discriminate.
  - inversion H; reflexivity.
  - f_equal. apply IH, H.
Qed.

Lemma update_update {A} n (f g : A -> A) l :
  pylist.update n f (pylist.update n g l) = pylist.update n (fun a => f (g a)) l.
Proof.
  revert n. induction l as [|a l IH]; intros [|n]; simpl; auto.
  f_equal. apply IH.
Qed.

Lemma update_at_app {A} (f : A -> A) l1 a l2 :
  pylist.update (length l1) f (l1 ++ a :: l2) = l1 ++ f a :: l2.
Proof.
  induction l1 as [|x l1 IH]; cbn [length app pylist.update]; [reflexivity|].
  rewrite IH. reflexivity.
Qed.

Lemma index_nonneg len i :
  0 <= i < Z.of_nat len -> pylist.index len i = Some (Z.to_nat i).
Proof.
  intros H. unfold pylist.index.
  destruct (Z.leb_spec 0 i); [|lia]. destruct (Z.ltb_spec i (Z.of_nat len)); [|lia].
  reflexivity.
Qed.

Lemma index_bound len i n : pylist.index len i = Some n -> (n < len)%nat.
Proof.
  unfold pylist.index.
  destruct (Z.leb_spec 0 i), (Z.ltb_spec i (Z.of_nat len)); simpl;
    try (intros [= <-]; lia);
    destruct (Z.ltb_spec i 0), (Z.leb_spec (- Z.of_nat len) i); simpl;
    try discriminate; intros [= <-]; lia.
Qed.

(** ** Hand valuation *)

Lemma cards_add_card c h : Hand.cards (Hand.add_card c h) = Hand.cards h ++ [c].
Proof.
  unfold Hand.add_card. destruct (21 <? _); reflexivity.
Qed.

Lemma value_set_status st h : Hand.value (Hand.set_status st h) = Hand.value h.
Proof. reflexivity. Qed.

Lemma status_add_card c h :
  Hand.status (Hand.add_card c h) =
  if 21 <? Hand.value (Hand.add_card c h) then Hand.BUSTED else Hand.status h.
Proof.
  unfold Hand.add_card.
  destruct (21 <? Hand.value (Hand.set_cards _ h)) eqn:E.
  - rewrite value_set_status, E. reflexivity.
  - rewrite E. reflexivity.
Qed.

Lemma demote_closed_form aces : forall total,
  Hand.demote total aces =
  total - 10 * Z.min (Z.of_nat aces) (demotions_needed total).
Proof.
  induction aces as [|n IH]; intro total.
  - simpl. unfold demotions_needed.
    destruct (total <=? 21) eqn:E; [simpl; lia|].
    apply Z.leb_gt in E.
    assert (0 <= (total - 12) / 10) by (apply Z.div_pos; lia).
    rewrite Z.min_l by lia. lia.
  - cbn [Hand.demote]. destruct (Z.ltb_spec 21 total) as [Hgt|Hle].
    + rewrite IH. unfold demotions_needed.
      destruct (Z.leb_spec total 21); [lia|].
      assert (Hdiv : (total - 12) / 10 = (total - 10 - 12) / 10 + 1).
      { replace (total - 12) with ((total - 10 - 12) + 1 * 10) by lia.
        rewrite Z.div_add by lia. reflexivity. }
      destruct (Z.leb_spec (total - 10) 21).
      * assert ((total - 10 - 12) / 10 = 0) by (apply Z.div_small; lia).
        rewrite Hdiv. lia.
      * assert (0 <= (total - 10 - 12) / 10) by (apply Z.div_pos; lia).
        rewrite Hdiv. lia.
    + unfold demotions_needed. destruct (Z.leb_spec total 21); [|lia]. lia.
Qed.

Lemma demote_bounds aces : forall total,
  total - 10 * Z.of_nat aces <= Hand.demote total aces <= total /\
  (21 < Hand.demote total aces -> 21 < total - 10 * Z.of_nat aces).
Proof.
  induction aces as [|n IH]; intro total.
  - simpl. lia.
  - cbn [Hand.demote]. destruct (Z.ltb_spec 21 total).
    + specialize (IH (total - 10)). lia.
    + lia.
Qed.

Lemma total_low_high cs :
  total_low cs = Hand.total_high cs - 10 * Z.of_nat (Hand.count_aces cs).
Proof.
  unfold total_low, Hand.total_high, Hand.count_aces.
  induction cs as [|c cs IH]; [reflexivity|].
  cbn [map fold_right filter]. rewrite IH.
  unfold low_card_value, Card.is_ace, Card.value.
  destruct c as [[] s];
    cbn [Card.rank Card.Rank_eqb Card.RANK_VALUES length];
    rewrite ?Nat2Z.inj_succ; lia.
Qed.

Lemma demote_counting_fst aces : forall total k,
  fst (Hand.demote_counting total aces k) = Hand.demote total aces.
Proof.
  induction aces as [|n IH]; intros total k; simpl; [reflexivity|].
  destruct (21 <? total); [apply IH|reflexivity].
Qed.

Lemma soft_value_fst h : fst (Hand.soft_value h) = Hand.value h.
Proof.
  unfold Hand.soft_value, Hand.value.
  rewrite <- (demote_counting_fst _ _ O).
  destruct (Hand.demote_counting _ _ _). reflexivity.
Qed.

(** C7. [Hand.value] is the reference valuation: the sum with Aces at 11,
    less 10 for each demotion, the demotions being as many as are needed to
    reach 21 or less but no more than there are Aces. It lies between the
    sum with every Ace at 1 and the sum with every Ace at 11, and it exceeds
    21 only when the sum with every Ace at 1 does. *)
Theorem value_is_reference_valuation : forall h : Hand.t,
  Hand.value h = value_reference (Hand.cards h) /\
  total_low (Hand.cards h) <= Hand.value h <= Hand.total_high (Hand.cards h) /\
  (21 < Hand.value h -> 21 < total_low (Hand.cards h)).
Proof.
  intro h. unfold Hand.value, value_reference. split.
  - apply demote_closed_form.
  - rewrite total_low_high. apply demote_bounds.
Qed.

(** ** Dealer policy *)

(** C8. [should_hit] is true exactly when the [soft_value] total is below
    17, or is 17 on a soft hand under H17; it depends on the cards and the
    rule only; with A-spades and 6-diamonds an H17 dealer hits and an S17
    dealer stands. *)
Theorem should_hit_policy :
  (forall d : Dealer.t,
      Dealer.should_hit d = true <->
      (fst (Hand.soft_value (Dealer.hand d)) < 17 \/
       (fst (Hand.soft_value (Dealer.hand d)) = 17 /\
        snd (Hand.soft_value (Dealer.hand d)) = true /\
        Dealer.rule d = Dealer.H17))) /\
  (forall d : Dealer.t,
      Dealer.should_hit d = hit_decision (Hand.cards (Dealer.hand d)) (Dealer.rule d)) /\
  Hand.soft_value (Dealer.hand (dealer_holding Dealer.H17 [ace_spades; six_diamonds]))
    = (17, true) /\
  Dealer.should_hit (dealer_holding Dealer.H17 [ace_spades; six_diamonds]) = true /\
  Dealer.should_hit (dealer_holding Dealer.S17 [ace_spades; six_diamonds]) = false.
Proof.
  split; [|split; [|repeat split]].
  - intro d. unfold Dealer.should_hit.
    destruct (Hand.soft_value (Dealer.hand d)) as [v soft]. cbn [fst snd].
    destruct (Z.ltb_spec v 17) as [Hlt|Hge].
    + split; auto.
    + destruct (Z.eqb_spec v 17) as [Heq|Hne]; cbn [andb].
      * destruct soft; cbn [andb].
        -- destruct (Dealer.rule d); cbn; split; intro H;
             try discriminate; auto.
           ++ destruct H as [H|[_ [_ H]]]; [lia|discriminate].
        -- split; [discriminate|]. intros [H|[_ [H _]]]; [lia|discriminate].
      * split; [discriminate|]. intros [H|[H _]]; lia.
  - intro d. reflexivity.
Qed.

(** ** The shoe *)

Lemma insert_at_perm {A} (j : nat) (a : A) (y : list A) :
  Permutation (firstn j y ++ a :: skipn j y) (a :: y).
Proof.
  symmetry. rewrite <- (firstn_skipn j y) at 1. apply Permutation_middle.
Qed.

Lemma random_shuffle_perm {A} (x : list A) : forall g,
  Permutation (fst (random.shuffle x g)) x.
Proof.
  induction x as [|a x IH]; intro g; cbn [random.shuffle]; [constructor|].
  specialize (IH g). destruct (random.shuffle x g) as [y g1].
  destruct (random.randbelow (S (length y)) g1) as [j g2]. cbn [fst] in *.
  rewrite insert_at_perm. constructor. exact IH.
Qed.

Lemma create_deck_NoDup : NoDup create_deck.
Proof.
  unfold create_deck. cbn.
  repeat (constructor; [cbn; intuition discriminate|]). constructor.
Qed.

Lemma create_deck_complete : forall c : Card.t, In c create_deck.
Proof.
  intros [[] []]; cbn; tauto.
Qed.

Lemma shuffle_cards s :
  Permutation (Shoe._cards (Shoe.shuffle s)) create_deck /\
  Shoe._dealt_count (Shoe.shuffle s) = 0.
Proof.
  unfold Shoe.shuffle.
  pose proof (random_shuffle_perm create_deck (Shoe.rng s)) as H.
  destruct (random.shuffle create_deck (Shoe.rng s)) as [deck g].
  split; [exact H|reflexivity].
Qed.

Lemma shuffle_NoDup s : NoDup (Shoe._cards (Shoe.shuffle s)).
Proof.
  apply (Permutation_NoDup (l := create_deck)).
  - symmetry. apply shuffle_cards.
  - apply create_deck_NoDup.
Qed.

Lemma deal_Ok s c s' :
  Shoe.deal s = Ok c s' ->
  Shoe._cards s = Shoe._cards s' ++ [c] /\
  s' = Shoe.mk (Shoe.penetration s) (Shoe._cards s') (Shoe._dealt_count s + 1)
               (Shoe.rng s).
Proof.
  unfold Shoe.deal. destruct (pylist.pop (Shoe._cards s)) as [[x r]|] eqn:E;
    [|discriminate].
  intros [= <- <-]. split; [apply pop_Some, E|reflexivity].
Qed.

Lemma deal_Raise s x s' : Shoe.deal s = Raise x s' ->
  x = ShoeEmpty /\ s' = s /\ Shoe._cards s = [].
Proof.
  unfold Shoe.deal. destruct (pylist.pop (Shoe._cards s)) as [[c r]|] eqn:E;
    [discriminate|].
  intros [= <- <-]. repeat split. apply pop_None, E.
Qed.

Lemma deal_conserves s : shoe_total (state_of (Shoe.deal s)) = shoe_total s.
Proof.
  destruct (Shoe.deal s) as [c s'|x s'] eqn:E; cbn [state_of].
  - apply deal_Ok in E as [Hc ->].
    unfold shoe_total, Shoe.cards_remaining, Shoe.cards_dealt. cbn.
    rewrite Hc, length_app. cbn. lia.
  - apply deal_Raise in E as (_ & -> & _). reflexivity.
Qed.

Lemma burn_loop_conserves n : forall burned s,
  shoe_total (state_of (Shoe.burn_loop n burned s)) = shoe_total s /\
  exists l, Shoe.burn_loop n burned s = Ok l (state_of (Shoe.burn_loop n burned s)).
Proof.
  induction n as [|n IH]; intros burned s; cbn [Shoe.burn_loop].
  - split; [reflexivity|]. eexists; reflexivity.
  - destruct (Shoe._cards s) as [|c0 cs] eqn:Ecs; [apply IH|].
    pose proof (deal_conserves s) as Hd.
    destruct (Shoe.deal s) as [c s'|x s'] eqn:E; cbn [state_of] in Hd.
    + destruct (IH (burned ++ [c]) s') as [H1 H2]. split; [lia|exact H2].
    + apply deal_Raise in E as (_ & _ & E). congruence.
Qed.

(** C6. After a shuffle the shoe holds a permutation of the 52 distinct
    cards of a fresh deck with nothing dealt, and after any run of [deal]
    and [burn] calls that follows, the cards remaining and the cards dealt
    add up to 52. *)
Theorem shoe_conservation : forall (s : Shoe.t) (calls : list shoe_call),
  Shoe.cards_dealt (Shoe.shuffle s) = 0 /\
  Shoe.cards_remaining (Shoe.shuffle s) = 52 /\
  Permutation (Shoe._cards (Shoe.shuffle s)) create_deck /\
  NoDup create_deck /\ (forall c, In c create_deck) /\
  Shoe.cards_remaining (run_shoe_calls calls (Shoe.shuffle s))
    + Shoe.cards_dealt (run_shoe_calls calls (Shoe.shuffle s)) = 52.
Proof.
  intros s calls.
  destruct (shuffle_cards s) as [Hperm Hdealt].
  assert (Hrem : Shoe.cards_remaining (Shoe.shuffle s) = 52).
  { unfold Shoe.cards_remaining. rewrite (Permutation_length Hperm). reflexivity. }
  repeat split; auto using create_deck_NoDup, create_deck_complete.
  change (shoe_total (run_shoe_calls calls (Shoe.shuffle s)) = 52).
  assert (H0 : shoe_total (Shoe.shuffle s) = 52).
  { unfold shoe_total, Shoe.cards_dealt. rewrite Hrem, Hdealt. reflexivity. }
  revert H0. generalize (Shoe.shuffle s) as s0. unfold run_shoe_calls.
  induction calls as [|c calls IH]; intros s0 H0; cbn [fold_left]; [exact H0|].
  apply IH. destruct c as [|count]; cbn [run_shoe_call].
  - rewrite deal_conserves. exact H0.
  - unfold Shoe.burn. rewrite (proj1 (burn_loop_conserves _ _ _)). exact H0.
Qed.

(** ** Player: splitting *)

Lemma can_split_cards h :
  Hand.can_split h = true ->
  exists c0 c1, Hand.cards h = [c0; c1] /\ Hand.status h = Hand.ACTIVE.
Proof.
  unfold Hand.can_split, Hand.is_pair. intro H.
  apply andb_prop in H as [Hp Hs].
  destruct (Hand.cards h) as [|c0 [|c1 [|c2 cs]]]; try discriminate.
  exists c0, c1. split; [reflexivity|].
  destruct (Hand.status h); try discriminate; reflexivity.
Qed.

Lemma lookup_at p i r h :
  pylist.index (length (Player.hands p)) i = Some r ->
  nth_error (Player.hands p) r = Some h ->
  Player.lookup i p = Ok (r, h) p.
Proof.
  intros Hi Hn. unfold Player.lookup. rewrite Hi, Hn. reflexivity.
Qed.

Lemma lookup_Ok p i r h p' :
  Player.lookup i p = Ok (r, h) p' ->
  p' = p /\ nth_error (Player.hands p) r = Some h /\
  pylist.index (length (Player.hands p)) i = Some r.
Proof.
  unfold Player.lookup.
  destruct (pylist.index _ i) as [n|]; [|discriminate].
  destruct (nth_error (Player.hands p) n) as [h0|] eqn:E; [|discriminate].
  intros [= <- <- <-]. auto.
Qed.

Lemma lookup_Raise p i x p' : Player.lookup i p = Raise x p' ->
  p' = p /\ x = ListIndexOutOfRange.
Proof.
  unfold Player.lookup.
  destruct (pylist.index _ i) as [n|]; [|intros [= <- <-]; auto].
  destruct (nth_error (Player.hands p) n); [discriminate|intros [= <- <-]; auto].
Qed.

Lemma insert_pos_in_range len i :
  0 <= i <= Z.of_nat len -> pylist.insert_pos len i = Z.to_nat i.
Proof.
  intro H. unfold pylist.insert_pos.
  destruct (Z.ltb_spec i 0); [lia|].
  destruct (Z.ltb_spec i 0); [lia|].
  destruct (Z.ltb_spec (Z.of_nat len) i); [lia|reflexivity].
Qed.

Lemma firstn_skipn_at {A} (a b : list A) :
  firstn (length a) (a ++ b) = a /\ skipn (length a) (a ++ b) = b.
Proof.
  induction a as [|x a [IH1 IH2]]; cbn; [auto|]. rewrite IH1. auto.
Qed.

(** The index after the one designating [r] designates [S r], except
    that after [-1] comes [0]. *)
Lemma insert_pos_after len i r :
  pylist.index len i = Some r -> i <> -1 ->
  pylist.insert_pos len (i + 1) = S r.
Proof.
  unfold pylist.index, pylist.insert_pos. intros Hi Hne.
  destruct (Z.leb_spec 0 i), (Z.ltb_spec i (Z.of_nat len)); cbn [andb] in Hi.
  - injection Hi as <-.
    destruct (Z.ltb_spec (i + 1) 0); [lia|].
    destruct (Z.ltb_spec (i + 1) 0); [lia|].
    destruct (Z.ltb_spec (Z.of_nat len) (i + 1)); lia.
  - destruct (Z.ltb_spec i 0); [lia|discriminate].
  - destruct (Z.ltb_spec i 0); [|lia].
    destruct (Z.leb_spec (- Z.of_nat len) i); [|discriminate].
    injection Hi as <-.
    destruct (Z.ltb_spec (i + 1) 0); [|lia].
    destruct (Z.ltb_spec (i + 1 + Z.of_nat len) 0); [lia|].
    destruct (Z.ltb_spec (Z.of_nat len) (i + 1 + Z.of_nat len)); lia.
  - destruct (Z.ltb_spec i 0); [|lia].
    destruct (Z.leb_spec (- Z.of_nat len) i); [lia|discriminate].
Qed.

Lemma insert_after_update {A} (l : list A) n i (x y z : A) :
  nth_error l n = Some z ->
  pylist.insert_pos (length l) i = S n ->
  pylist.insert (pylist.update n (fun _ => x) l) i y =
  firstn n l ++ x :: y :: skipn (S n) l.
Proof.
  intros Hn Hi.
  assert (Hlt : (n < length l)%nat) by (apply nth_error_Some; congruence).
  unfold pylist.insert. rewrite update_length, Hi.
  rewrite update_split with (x := z) by exact Hn.
  assert (Hl : length (firstn n l) = n) by (rewrite length_firstn; lia).
  replace (firstn n l ++ x :: skipn (S n) l)
    with ((firstn n l ++ [x]) ++ skipn (S n) l)
    by (rewrite <- app_assoc; reflexivity).
  assert (Hl' : length (firstn n l ++ [x]) = S n)
    by (rewrite length_app, Hl; cbn; lia).
  destruct (firstn_skipn_at (firstn n l ++ [x]) (skipn (S n) l)) as [Hf Hs].
  rewrite Hl' in Hf, Hs. rewrite Hf, Hs, <- app_assoc. reflexivity.
Qed.

(** What [split_hand] does on every index but [-1], [r] being the position
    the index designates: the three failures in the order they are checked,
    and otherwise the debit of the bet, the two one-card hands put at [r]
    and [S r] with the other hands kept in order, and the split count raised
    by one. *)
Lemma split_hand_at_position p i r h :
  pylist.index (length (Player.hands p)) i = Some r -> i <> -1 ->
  nth_error (Player.hands p) r = Some h ->
  (Player.max_splits p <= Player._split_count p ->
     Player.split_hand i p = Raise MaxSplitsReached p) /\
  (Player._split_count p < Player.max_splits p -> Hand.can_split h = false ->
     Player.split_hand i p = Raise HandCannotBeSplit p) /\
  (Player._split_count p < Player.max_splits p -> Hand.can_split h = true ->
   PrimFloat.ltb (Player.bankroll p) (Hand.bet h) = true ->
     Player.split_hand i p = Raise InsufficientBankrollSplit p) /\
  (Player._split_count p < Player.max_splits p -> Hand.can_split h = true ->
   PrimFloat.ltb (Player.bankroll p) (Hand.bet h) = false ->
     exists c0 c1, Hand.cards h = [c0; c1] /\
       Player.split_hand i p =
       Ok (r, S r)
          (Player.mk (PrimFloat.sub (Player.bankroll p) (Hand.bet h))
             (firstn r (Player.hands p)
                ++ split_first h c0 :: split_first h c1
                :: skipn (S r) (Player.hands p))
             (Player.base_bet p) (Player.max_splits p)
             (Player._split_count p + 1))).
Proof.
  intros Hi Hne Hn. unfold Player.split_hand.
  rewrite lookup_at with (r := r) (h := h) by assumption.
  repeat split.
  - intro H. destruct (Z.leb_spec (Player.max_splits p) (Player._split_count p));
      [reflexivity|lia].
  - intros H Hc. destruct (Z.leb_spec (Player.max_splits p) (Player._split_count p));
      [lia|]. rewrite Hc. reflexivity.
  - intros H Hc Hb. destruct (Z.leb_spec (Player.max_splits p) (Player._split_count p));
      [lia|]. rewrite Hc, Hb. reflexivity.
  - intros H Hc Hb. destruct (Z.leb_spec (Player.max_splits p) (Player._split_count p));
      [lia|]. rewrite Hc, Hb. cbn [negb].
    destruct (can_split_cards _ Hc) as (c0 & c1 & Hcards & _).
    exists c0, c1. split; [exact Hcards|].
    unfold Hand.split. rewrite Hc, Hcards. cbn [negb].
    cbn [Player.hands Player.set_bankroll Player.set_hands Player.set_split_count
         Player.bankroll Player.base_bet Player.max_splits Player._split_count].
    rewrite update_length.
    pose proof (insert_pos_after _ Hi Hne) as Hpos.
    rewrite insert_after_update with (z := h) by assumption.
    rewrite Hpos.
    destruct (Nat.ltb_spec r (S r)); [|lia].
    reflexivity.
Qed.

(** C5, at the last hand designated from the end. [split_hand(-1)] on a
    player whose only hand is a pair of eights succeeds and debits the bet,
    but the hand made of the second card is put in front of the hand made of
    the first one, where [split_hand(0)] on the same player puts it after. *)
Theorem split_hand_minus_one_puts_second_hand_first :
  Player.split_hand (-1) player_with_eights =
    Ok (1%nat, 0%nat)
       (Player.mk 980%float
          [split_first pair_of_eights eight_diamonds;
           split_first pair_of_eights eight_spades]
          10%float 3 1) /\
  Player.split_hand 0 player_with_eights =
    Ok (0%nat, 1%nat)
       (Player.mk 980%float
          [split_first pair_of_eights eight_spades;
           split_first pair_of_eights eight_diamonds]
          10%float 3 1).
Proof.
  split; vm_compute; reflexivity.
Qed.

(** ** Failure leaves the state alone *)

Lemma set_player_same e : GameEngine.set_player (GameEngine.player e) e = e.
Proof. destruct e; reflexivity. Qed.

Lemma set_shoe_same e : GameEngine.set_shoe (GameEngine.shoe e) e = e.
Proof. destruct e; reflexivity. Qed.

Lemma new_hand_Raise bet p x p' : Player.new_hand bet p = Raise x p' ->
  p' = p /\ x = BetExceedsBankroll.
Proof.
  unfold Player.new_hand. destruct (PrimFloat.ltb _ _); [|discriminate].
  intros [= <- <-]. auto.
Qed.

Lemma split_Ok_of_can_split h :
  Hand.can_split h = true -> exists h1 h2, Hand.split h = Ok (h1, h2) h.
Proof.
  intro H. destruct (can_split_cards _ H) as (c0 & c1 & Hc & _).
  unfold Hand.split. rewrite H, Hc. cbn. eauto.
Qed.

Lemma split_hand_Raise i p x p' : Player.split_hand i p = Raise x p' ->
  p' = p /\
  (x = MaxSplitsReached \/ x = ListIndexOutOfRange \/ x = HandCannotBeSplit
   \/ x = InsufficientBankrollSplit).
Proof.
  unfold Player.split_hand.
  destruct (Z.leb _ _); [intros [= <- <-]; auto|].
  destruct (Player.lookup i p) as [[r h] p0|x0 p0] eqn:El.
  - destruct (Hand.can_split h) eqn:Ec; cbn [negb]; [|intros [= <- <-]; auto].
    destruct (PrimFloat.ltb _ _); [intros [= <- <-]; auto 6|].
    destruct (split_Ok_of_can_split _ Ec) as (h1 & h2 & ->). discriminate.
  - apply lookup_Raise in El as [-> ->]. intros [= <- <-]. auto.
Qed.

Lemma double_down_Raise i p x p' : Player.double_down i p = Raise x p' ->
  p' = p /\
  (x = ListIndexOutOfRange \/ x = CannotDouble \/ x = InsufficientBankrollDouble).
Proof.
  unfold Player.double_down.
  destruct (Player.lookup i p) as [[r h] p0|x0 p0] eqn:El.
  - destruct (Hand.can_double h); cbn [negb]; [|intros [= <- <-]; auto].
    destruct (PrimFloat.ltb _ _); [intros [= <- <-]; auto|discriminate].
  - apply lookup_Raise in El as [-> ->]. intros [= <- <-]. auto.
Qed.

Lemma surrender_hand_Raise i p x p' : Player.surrender_hand i p = Raise x p' ->
  p' = p /\ (x = ListIndexOutOfRange \/ x = CannotSurrender).
Proof.
  unfold Player.surrender_hand.
  destruct (Player.lookup i p) as [[r h] p0|x0 p0] eqn:El.
  - destruct (Hand.can_surrender h); cbn [negb]; [discriminate|].
    intros [= <- <-]. auto.
  - apply lookup_Raise in El as [-> ->]. intros [= <- <-]. auto.
Qed.

(** A method of the player that raises without touching the player raises
    without touching the engine. *)
Lemma in_player_Raise {A} (m : M Player.t A) e x e' :
  (forall p y p', m p = Raise y p' -> p' = p) ->
  GameEngine.in_player m e = Raise x e' ->
  e' = e /\ m (GameEngine.player e) = Raise x (GameEngine.player e).
Proof.
  intros Hm. unfold GameEngine.in_player, zoom.
  destruct (m (GameEngine.player e)) as [a p|y p] eqn:E; [discriminate|].
  intros [= <- <-]. rewrite (Hm _ _ _ E). rewrite set_player_same. auto.
Qed.

Lemma in_player_lookup e i :
  GameEngine.in_player (Player.lookup i) e =
  match Player.lookup i (GameEngine.player e) with
  | Ok rh _ => Ok rh e
  | Raise x _ => Raise x e
  end.
Proof.
  unfold GameEngine.in_player, zoom.
  destruct (Player.lookup i (GameEngine.player e)) as [[r h] p|x p] eqn:E.
  - apply lookup_Ok in E as (-> & _). rewrite set_player_same. reflexivity.
  - apply lookup_Raise in E as (-> & _). rewrite set_player_same. reflexivity.
Qed.

Lemma deal_card_Raise r face_up e x e' :
  GameEngine._deal_card r face_up e = Raise x e' ->
  x = ShoeEmpty /\ e' = e /\ Shoe._cards (GameEngine.shoe e) = [].
Proof.
  unfold GameEngine._deal_card, bind, GameEngine.in_shoe, zoom, modify, ret.
  destruct (Shoe.deal (GameEngine.shoe e)) as [c s|y s] eqn:E; [discriminate|].
  apply deal_Raise in E as (-> & -> & Hc). intros [= <- <-].
  rewrite set_shoe_same. auto.
Qed.

Lemma deal_card_Ok r face_up e c e' :
  GameEngine._deal_card r face_up e = Ok c e' ->
  exists s, Shoe.deal (GameEngine.shoe e) = Ok c s /\
    e' = GameEngine.expose_if face_up c
           (GameEngine.set_player
              (Player.update_hand r (Hand.add_card c) (GameEngine.player e))
              (GameEngine.set_shoe s e)).
Proof.
  unfold GameEngine._deal_card, bind, GameEngine.in_shoe, zoom, modify, ret.
  destruct (Shoe.deal (GameEngine.shoe e)) as [c0 s|y s] eqn:E; [|discriminate].
  intros [= <- <-]. exists s. auto.
Qed.

Lemma execute_action_ValueError action i e x e' :
  GameEngine.execute_action action i e = Raise x e' ->
  is_ValueError x = true -> e' = e.
Proof.
  unfold GameEngine.execute_action. unfold bind at 1.
  rewrite in_player_lookup.
  destruct (Player.lookup i (GameEngine.player e)) as [[r h] p0|y p0] eqn:El;
    [|intros [= <- <-]; reflexivity].
  destruct action.
  - destruct (Hand.can_hit h); cbn [negb]; [|intros [= <- <-]; reflexivity].
    unfold bind, ret.
    destruct (GameEngine._deal_card r true e) as [c e1|y e1] eqn:Ed; [discriminate|].
    apply deal_card_Raise in Ed as (-> & -> & _). intros [= <- <-]. reflexivity.
  - destruct (Hand.can_stand h); cbn [negb]; [discriminate|].
    intros [= <- <-]; reflexivity.
  - destruct (Hand.can_double h); cbn [negb]; [|intros [= <- <-]; reflexivity].
    unfold bind at 1.
    destruct (GameEngine.in_player (Player.double_down i) e) as [u e1|y e1] eqn:Ep.
    + unfold bind, modify, ret.
      destruct (GameEngine._deal_card r true e1) as [c e2|y e2] eqn:Ed; [discriminate|].
      apply deal_card_Raise in Ed as (-> & -> & _). intros [= <- <-]. discriminate.
    + apply in_player_Raise in Ep as [-> _];
        [intros [= <- <-]; reflexivity|].
      intros p y0 p' H. apply double_down_Raise in H. tauto.
  - destruct (Hand.can_split h); cbn [negb]; [|intros [= <- <-]; reflexivity].
    unfold bind at 1.
    destruct (GameEngine.in_player (Player.split_hand i) e) as [[h1 h2] e1|y e1] eqn:Ep.
    + unfold bind, ret.
      destruct (GameEngine._deal_card h1 true e1) as [c e2|y e2] eqn:Ed.
      * destruct (GameEngine._deal_card h2 true e2) as [c' e3|y e3] eqn:Ed';
          [discriminate|].
        apply deal_card_Raise in Ed' as (-> & -> & _). intros [= <- <-]. discriminate.
      * apply deal_card_Raise in Ed as (-> & -> & _). intros [= <- <-]. discriminate.
    + apply in_player_Raise in Ep as [-> _];
        [intros [= <- <-]; reflexivity|].
      intros p y0 p' H. apply split_hand_Raise in H. tauto.
  - destruct (Hand.can_surrender h); cbn [negb]; [|intros [= <- <-]; reflexivity].
    unfold bind at 1.
    destruct (GameEngine.in_player (Player.surrender_hand i) e) as [u e1|y e1] eqn:Ep.
    + discriminate.
    + apply in_player_Raise in Ep as [-> _];
        [intros [= <- <-]; reflexivity|].
      intros p y0 p' H. apply surrender_hand_Raise in H. tauto.
Qed.

(** C4. When [execute_action], [new_hand], [split_hand], [double_down] or
    [surrender_hand] raises a ValueError (illegal action, insufficient funds,
    split budget exceeded), the engine state after the call is the state
    before it: shoe, bankroll, hands list and every hand are untouched. *)
Theorem failure_is_atomic :
  forall (c : api_call) (e e' : GameEngine.t) (x : exn),
    run_api_call c e = Raise x e' ->
    is_ValueError x = true ->
    e' = e.
Proof.
  intros c e e' x Hrun Hx. destruct c; cbn [run_api_call] in Hrun;
    unfold ignore, bind, ret in Hrun.
  - destruct (GameEngine.execute_action action hand_index e) as [a e1|y e1] eqn:E;
      [discriminate|].
    injection Hrun as <- <-. eapply execute_action_ValueError; eauto.
  - destruct (GameEngine.in_player (Player.new_hand bet) e) as [a e1|y e1] eqn:E;
      [discriminate|].
    injection Hrun as <- <-. apply in_player_Raise in E as [-> _]; [reflexivity|].
    intros p y0 p' H. apply new_hand_Raise in H. tauto.
  - destruct (GameEngine.in_player (Player.split_hand hand_index) e)
      as [a e1|y e1] eqn:E; [discriminate|].
    injection Hrun as <- <-. apply in_player_Raise in E as [-> _]; [reflexivity|].
    intros p y0 p' H. apply split_hand_Raise in H. tauto.
  - destruct (GameEngine.in_player (Player.double_down hand_index) e)
      as [a e1|y e1] eqn:E; [discriminate|].
    injection Hrun as <- <-. apply in_player_Raise in E as [-> _]; [reflexivity|].
    intros p y0 p' H. apply double_down_Raise in H. tauto.
  - destruct (GameEngine.in_player (Player.surrender_hand hand_index) e)
      as [a e1|y e1] eqn:E; [discriminate|].
    injection Hrun as <- <-. apply in_player_Raise in E as [-> _]; [reflexivity|].
    intros p y0 p' H. apply surrender_hand_Raise in H. tauto.
Qed.

(** A rejected split for want of funds: the pair of eights on a bet of 10
    with 5 left in the bankroll. *)
Lemma failure_is_atomic_witness :
  run_api_call (ExecuteAction SPLIT 0) engine_short_of_funds =
    Raise InsufficientBankrollSplit
      (state_of (run_api_call (ExecuteAction SPLIT 0) engine_short_of_funds)) /\
  is_ValueError InsufficientBankrollSplit = true /\
  state_of (run_api_call (ExecuteAction SPLIT 0) engine_short_of_funds) =
    engine_short_of_funds.
Proof.
  split; [vm_compute; reflexivity|]. split; [reflexivity|].
  apply (@failure_is_atomic (ExecuteAction SPLIT 0) _ _ InsufficientBankrollSplit);
    vm_compute; reflexivity.
Defined.

(** Outside the ValueErrors: when the shoe is empty, DOUBLE raises the
    IndexError of [Shoe.deal] after [double_down] has debited the bankroll
    and doubled the bet. *)
Lemma double_on_empty_shoe_keeps_the_debit :
  let e := GameEngine.set_shoe (Shoe.mk Shoe.default_penetration [] 52 [])
             engine_with_eights in
  exists e',
    GameEngine.execute_action DOUBLE 0 e = Raise ShoeEmpty e' /\
    Player.bankroll (GameEngine.player e) = 990%float /\
    Player.bankroll (GameEngine.player e') = 980%float /\
    map Hand.bet (Player.hands (GameEngine.player e')) = [20%float] /\
    map Hand.status (Player.hands (GameEngine.player e')) = [Hand.DOUBLED].
Proof.
  eexists. split; [vm_compute; reflexivity|]. repeat split.
Qed.

(** ** Early blackjack resolution *)

Lemma reveal_and_expose_facts e :
  GameEngine.player (GameEngine.reveal_and_expose e) = GameEngine.player e /\
  GameEngine.shoe (GameEngine.reveal_and_expose e) = GameEngine.shoe e /\
  Dealer.hand (GameEngine.dealer (GameEngine.reveal_and_expose e))
    = Dealer.hand (GameEngine.dealer e) /\
  Dealer.hole_card_revealed (GameEngine.dealer (GameEngine.reveal_and_expose e)) = true /\
  GameEngine.on_card_exposed (GameEngine.reveal_and_expose e)
    = GameEngine.on_card_exposed e /\
  GameEngine.exposed (GameEngine.reveal_and_expose e) =
    GameEngine.exposed e ++
    match Dealer.hole_card (GameEngine.dealer e) with
    | Some card => if GameEngine.on_card_exposed e then [card] else []
    | None => []
    end.
Proof.
  unfold GameEngine.reveal_and_expose, Dealer.reveal_hole_card, Dealer.hole_card.
  cbn [Dealer.hand].
  destruct (Hand.hole_card (Dealer.hand (GameEngine.dealer e))) as [c|];
    cbn [GameEngine.set_dealer GameEngine.on_card_exposed];
    [destruct (GameEngine.on_card_exposed e) eqn:E|];
    cbn; rewrite ?app_nil_r; auto 10.
Qed.

(** A two-card hand worth 21 shows an Ace or a ten-value card first. *)
Lemma blackjack_upcard h up :
  Hand.is_blackjack h = true -> Hand.upcard h = Some up ->
  Card.is_ace up || Card.is_ten_value up = true.
Proof.
  unfold Hand.is_blackjack, Hand.upcard, Hand.value. intros H Hup.
  apply andb_prop in H as [H _]. apply andb_prop in H as [Hlen Hv].
  destruct (Hand.cards h) as [|c0 [|c1 [|c2 cs]]]; try discriminate.
  cbn in Hup. injection Hup as ->.
  destruct up as [[] s0], c1 as [[] s1]; cbn in Hv; try discriminate; reflexivity.
Qed.

(** C3. With a first player hand of bet [b] and a dealer upcard:
    no early resolution, and an untouched engine, unless the player has a
    natural or the upcard is an Ace or a ten-value card; a dealer blackjack
    resolves as PUSH with the bet credited back when the player has one too,
    and as LOSE of the bet with no credit otherwise; a player blackjack
    alone resolves as BLACKJACK with payout [b * blackjack_payout] and a
    credit of [b + b * blackjack_payout]; every other case gives no
    resolution and leaves the engine, bankroll included, as it was. *)
Theorem check_early_blackjack_cases :
  forall (e : GameEngine.t) (player_hand : Hand.t) (rest : list Hand.t)
         (upcard : Card.t),
    Player.hands (GameEngine.player e) = player_hand :: rest ->
    Dealer.upcard (GameEngine.dealer e) = Some upcard ->
    let player_bj := Hand.is_blackjack player_hand in
    let dealer_bj := Hand.is_blackjack (Dealer.hand (GameEngine.dealer e)) in
    let peek := Card.is_ace upcard || Card.is_ten_value upcard in
    let b := Hand.bet player_hand in
    let bank := Player.bankroll (GameEngine.player e) in
    (player_bj = false -> peek = false ->
       GameEngine.check_early_blackjack e = Ok None e) /\
    (dealer_bj = true -> player_bj = true ->
       exists e',
         GameEngine.check_early_blackjack e =
           Ok (Some (mkRoundSummary [mkHandResult player_hand PUSH 0%float]
                       (Dealer.hand (GameEngine.dealer e))
                       (PrimFloat.add 0 0))) e' /\
         Player.bankroll (GameEngine.player e') = PrimFloat.add bank b) /\
    (dealer_bj = true -> player_bj = false ->
       exists e',
         GameEngine.check_early_blackjack e =
           Ok (Some (mkRoundSummary
                       [mkHandResult player_hand LOSE (PrimFloat.opp b)]
                       (Dealer.hand (GameEngine.dealer e))
                       (PrimFloat.add 0 (PrimFloat.opp b)))) e' /\
         Player.bankroll (GameEngine.player e') = bank) /\
    (dealer_bj = false -> player_bj = true ->
       exists e',
         GameEngine.check_early_blackjack e =
           Ok (Some (mkRoundSummary
                       [mkHandResult player_hand RESULT_BLACKJACK
                          (PrimFloat.mul b (GameEngine.blackjack_payout e))]
                       (Dealer.hand (GameEngine.dealer e))
                       (PrimFloat.add 0
                          (PrimFloat.mul b (GameEngine.blackjack_payout e))))) e' /\
         Player.bankroll (GameEngine.player e') =
           PrimFloat.add bank
             (PrimFloat.add b (PrimFloat.mul b (GameEngine.blackjack_payout e)))) /\
    (dealer_bj = false -> player_bj = false ->
       GameEngine.check_early_blackjack e = Ok None e).
Proof.
  intros e player_hand rest upcard Hh Hup player_bj dealer_bj peek b bank.
  assert (Hpeek : dealer_bj = true -> peek = true).
  { intro H. eapply blackjack_upcard; eauto. }
  unfold GameEngine.check_early_blackjack. rewrite Hh, Hup.
  fold player_bj dealer_bj peek.
  repeat split.
  - intros -> ->. reflexivity.
  - intros Hd ->. rewrite Hd. cbn [orb].
    eexists. split.
    + unfold GameEngine._create_summary. cbn [map fold_left hr_payout].
      cbn [GameEngine.set_player GameEngine.dealer].
      rewrite (proj1 (proj2 (proj2 (reveal_and_expose_facts e)))).
      reflexivity.
    + cbn [GameEngine.set_player GameEngine.player Player.receive_payout
           Player.set_bankroll Player.bankroll].
      rewrite (proj1 (reveal_and_expose_facts e)). reflexivity.
  - intros Hd ->. rewrite Hd, (Hpeek Hd). cbn [orb].
    eexists. split.
    + unfold GameEngine._create_summary. cbn [map fold_left hr_payout].
      rewrite (proj1 (proj2 (proj2 (reveal_and_expose_facts e)))).
      reflexivity.
    + rewrite (proj1 (reveal_and_expose_facts e)). reflexivity.
  - intros Hd ->. rewrite Hd. cbn [orb].
    eexists. split.
    + unfold GameEngine._create_summary. cbn [map fold_left hr_payout].
      rewrite (proj1 (proj2 (proj2 (reveal_and_expose_facts _)))).
      reflexivity.
    + rewrite (proj1 (reveal_and_expose_facts _)). reflexivity.
  - intros -> ->. destruct peek; reflexivity.
Qed.

(** Scenario B: after the deal the player holds a natural against a ten
    with a five in the hole; the round resolves as BLACKJACK with payout 15
    on the bet of 10, and the bankroll goes 1000, 990 after the bet, 1015
    after the credit of 25. *)
Lemma check_early_blackjack_cases_witness :
  Player.hands (GameEngine.player scenario_B_dealt) =
    Hand.mk [ace_spades; king_diamonds] Hand.ACTIVE 10%float false false :: [] /\
  Dealer.upcard (GameEngine.dealer scenario_B_dealt) = Some ten_clubs /\
  Player.bankroll (GameEngine.player scenario_B) = 1000%float /\
  Player.bankroll (GameEngine.player scenario_B_dealt) = 990%float /\
  exists e',
    GameEngine.check_early_blackjack scenario_B_dealt =
      Ok (Some (mkRoundSummary
                  [mkHandResult
                     (Hand.mk [ace_spades; king_diamonds] Hand.ACTIVE 10%float
                        false false)
                     RESULT_BLACKJACK 15%float]
                  (Hand.mk [ten_clubs; five_hearts] Hand.ACTIVE 0%float false false)
                  15%float)) e' /\
    Player.bankroll (GameEngine.player e') = 1015%float.
Proof.
  repeat split; try (vm_compute; reflexivity).
  destruct (@check_early_blackjack_cases scenario_B_dealt
              (Hand.mk [ace_spades; king_diamonds] Hand.ACTIVE 10%float false false)
              [] ten_clubs eq_refl eq_refl)
    as (_ & _ & _ & H & _).
  destruct (H eq_refl eq_refl) as (e' & Hrun & Hbank).
  exists e'. split; [exact Hrun|exact Hbank].
Defined.

(** ** Doubling down *)

Lemma expose_if_player face_up c e :
  GameEngine.player (GameEngine.expose_if face_up c e) = GameEngine.player e.
Proof.
  unfold GameEngine.expose_if. destruct (face_up && _); reflexivity.
Qed.

Lemma expose_if_shoe face_up c e :
  GameEngine.shoe (GameEngine.expose_if face_up c e) = GameEngine.shoe e.
Proof.
  unfold GameEngine.expose_if. destruct (face_up && _); reflexivity.
Qed.

Lemma double_down_Ok i p u p' :
  Player.double_down i p = Ok u p' ->
  exists r h,
    Player.lookup i p = Ok (r, h) p /\ Hand.can_double h = true /\
    PrimFloat.ltb (Player.bankroll p) (Hand.bet h) = false /\
    p' = Player.mk (PrimFloat.sub (Player.bankroll p) (Hand.bet h))
           (pylist.update r
              (fun h0 => Hand.double_down
                           (Hand.set_bet (PrimFloat.mul (Hand.bet h0) 2) h0))
              (Player.hands p))
           (Player.base_bet p) (Player.max_splits p) (Player._split_count p).
Proof.
  unfold Player.double_down.
  destruct (Player.lookup i p) as [[r h] p0|x p0] eqn:El; [|discriminate].
  pose proof (lookup_Ok _ _ El) as (-> & _ & _).
  destruct (Hand.can_double h) eqn:Ec; cbn [negb]; [|discriminate].
  destruct (PrimFloat.ltb _ _) eqn:Eb; [discriminate|].
  intros [= <- <-]. exists r, h. repeat split; auto.
  unfold Player.update_hand. cbn. rewrite update_update. reflexivity.
Qed.

(** What a successful DOUBLE does: the bankroll is debited by the bet, the
    hand at the designated position becomes [doubled_hand], the other hands
    stay, and the card comes off the top of the shoe. *)
Lemma execute_double_Ok i e res e' :
  GameEngine.execute_action DOUBLE i e = Ok res e' ->
  exists r h c,
    Player.lookup i (GameEngine.player e) = Ok (r, h) (GameEngine.player e) /\
    Hand.can_double h = true /\ res = Some c /\
    Shoe._cards (GameEngine.shoe e) = Shoe._cards (GameEngine.shoe e') ++ [c] /\
    Player.hands (GameEngine.player e') =
      pylist.update r (fun h0 => doubled_hand h0 c) (Player.hands (GameEngine.player e)) /\
    Player.bankroll (GameEngine.player e') =
      PrimFloat.sub (Player.bankroll (GameEngine.player e)) (Hand.bet h).
Proof.
  unfold GameEngine.execute_action. unfold bind at 1. rewrite in_player_lookup.
  destruct (Player.lookup i (GameEngine.player e)) as [[r h] p0|y p0] eqn:El;
    [|discriminate].
  pose proof (lookup_Ok _ _ El) as (-> & Hn & _).
  destruct (Hand.can_double h) eqn:Ec; cbn [negb]; [|discriminate].
  unfold bind at 1. unfold GameEngine.in_player, zoom.
  destruct (Player.double_down i (GameEngine.player e)) as [u p1|y p1] eqn:Ep;
    [|discriminate].
  apply double_down_Ok in Ep as (r' & h' & El' & _ & _ & ->).
  rewrite El in El'. injection El' as <- <-.
  unfold bind, modify, ret.
  destruct (GameEngine._deal_card r true _) as [c e2|y e2] eqn:Ed; [|discriminate].
  apply deal_card_Ok in Ed as (s & Hs & ->). intros [= <- <-].
  apply deal_Ok in Hs as [Hcs ->].
  exists r, h, c. repeat split; auto.
  - cbn [GameEngine.set_player GameEngine.shoe]. rewrite expose_if_shoe.
    cbn in Hcs |- *. exact Hcs.
  - cbn [GameEngine.set_player GameEngine.player]. rewrite expose_if_player.
    cbn. rewrite !update_update. reflexivity.
  - cbn [GameEngine.set_player GameEngine.player]. rewrite expose_if_player.
    reflexivity.
Qed.

Lemma resolve_hands_prefix dv db hs : forall acc p,
  exists l, fst (GameEngine.resolve_hands dv db hs acc p) = acc ++ l.
Proof.
  induction hs as [|h hs IH]; intros acc p; cbn [GameEngine.resolve_hands].
  - exists []. rewrite app_nil_r. reflexivity.
  - repeat match goal with
           | |- context [if ?b then _ else _] => destruct b
           end;
      match goal with
      | |- exists l, fst (GameEngine.resolve_hands _ _ _ (_ ++ [?x]) ?q) = _ =>
          destruct (IH (acc ++ [x]) q) as [l Hl]; exists (x :: l);
          rewrite Hl, <- app_assoc; reflexivity
      end.
Qed.

(** A hand that is not SURRENDERED and is worth more than 21 is scored
    LOSE at minus its bet, whatever its status and whatever the dealer
    holds. *)
Lemma resolve_hands_busted dv db hs : forall acc p k h,
  nth_error hs k = Some h ->
  Hand.status h <> Hand.SURRENDERED ->
  Hand.is_busted h = true ->
  nth_error (fst (GameEngine.resolve_hands dv db hs acc p)) (length acc + k) =
    Some (mkHandResult h LOSE (PrimFloat.opp (Hand.bet h))).
Proof.
  induction hs as [|h0 hs IH]; intros acc p k h Hn Hs Hb.
  - destruct k; discriminate.
  - destruct k as [|k].
    + cbn in Hn. injection Hn as ->. cbn [GameEngine.resolve_hands].
      destruct (Hand.HandStatus_eqb (Hand.status h) Hand.SURRENDERED) eqn:E.
      { destruct (Hand.status h); try discriminate. contradiction. }
      rewrite Hb.
      destruct (resolve_hands_prefix dv db hs
                  (acc ++ [mkHandResult h LOSE (PrimFloat.opp (Hand.bet h))]) p)
        as [l ->].
      rewrite <- app_assoc, Nat.add_0_r, nth_error_app2 by lia.
      rewrite Nat.sub_diag. reflexivity.
    + cbn in Hn. cbn [GameEngine.resolve_hands].
      replace (length acc + S k)%nat with (S (length acc) + k)%nat by lia.
      repeat match goal with
             | |- context [if ?b then _ else _] => destruct b
             end;
        match goal with
        | |- nth_error (fst (GameEngine.resolve_hands _ _ _ (_ ++ [?x]) ?q)) _ = _ =>
            specialize (IH (acc ++ [x]) q k h Hn Hs Hb);
            rewrite length_app in IH; cbn [length] in IH;
            replace (length acc + 1 + k)%nat with (S (length acc) + k)%nat in IH by lia;
            exact IH
        end.
Qed.

Lemma resolve_round_busted e k h :
  nth_error (Player.hands (GameEngine.player e)) k = Some h ->
  Hand.status h <> Hand.SURRENDERED ->
  Hand.is_busted h = true ->
  nth_error (player_hands (fst (GameEngine.resolve_round e))) k =
    Some (mkHandResult h LOSE (PrimFloat.opp (Hand.bet h))).
Proof.
  intros Hn Hs Hb. unfold GameEngine.resolve_round.
  cbn [GameEngine.set_round_in_progress GameEngine.player GameEngine.dealer].
  pose proof (@resolve_hands_busted
                (Dealer.final_value (GameEngine.dealer e))
                (Dealer.is_busted (GameEngine.dealer e))
                _ [] (GameEngine.player e) k h Hn Hs Hb) as H.
  destruct (GameEngine.resolve_hands _ _ _ _ _) as [results p].
  exact H.
Qed.

(** C10. After a successful DOUBLE on the hand [h] with the card [c], the
    hand is [doubled_hand h c]: its bet is twice the bet of [h], and when
    its value exceeds 21 its status is nevertheless STOOD; [resolve_round]
    then scores it LOSE with payout minus that doubled bet. *)
Theorem double_bust_is_stood_and_loses :
  forall (e e' : GameEngine.t) (i : Z) (res : option Card.t),
    GameEngine.execute_action DOUBLE i e = Ok res e' ->
    exists (r : hand_ref) (h : Hand.t) (c : Card.t),
      Player.lookup i (GameEngine.player e) = Ok (r, h) (GameEngine.player e) /\
      res = Some c /\
      nth_error (Player.hands (GameEngine.player e')) r = Some (doubled_hand h c) /\
      Hand.cards (doubled_hand h c) = Hand.cards h ++ [c] /\
      Hand.bet (doubled_hand h c) = PrimFloat.mul (Hand.bet h) 2 /\
      Hand.status (doubled_hand h c) = Hand.STOOD /\
      (21 < Hand.value (doubled_hand h c) ->
       nth_error (player_hands (fst (GameEngine.resolve_round e'))) r =
         Some (mkHandResult (doubled_hand h c) LOSE
                 (PrimFloat.opp (PrimFloat.mul (Hand.bet h) 2)))).
Proof.
  intros e e' i res Hrun.
  apply execute_double_Ok in Hrun as (r & h & c & El & _ & -> & _ & Hh & _).
  pose proof (lookup_Ok _ _ El) as (_ & Hn & _).
  exists r, h, c.
  assert (Hbet : Hand.bet (doubled_hand h c) = PrimFloat.mul (Hand.bet h) 2).
  { unfold doubled_hand, Hand.add_card.
    destruct (21 <? _); reflexivity. }
  assert (Hnth : nth_error (Player.hands (GameEngine.player e')) r
                 = Some (doubled_hand h c)).
  { rewrite Hh. apply update_nth with (f := fun h0 => doubled_hand h0 c), Hn. }
  repeat split; auto.
  - unfold doubled_hand. cbn [Hand.set_status Hand.cards].
    rewrite cards_add_card. reflexivity.
  - intro Hv. rewrite <- Hbet. apply resolve_round_busted.
    + exact Hnth.
    + discriminate.
    + unfold Hand.is_busted. apply Z.ltb_lt, Hv.
Qed.

(** Doubling 10-clubs, 6 of hearts into K-hearts: 26, STOOD, scored LOSE at
    -20. *)
Lemma double_bust_is_stood_and_loses_witness :
  exists e',
    GameEngine.execute_action DOUBLE 0 engine_with_sixteen = Ok (Some king_hearts) e' /\
    map Hand.status (Player.hands (GameEngine.player e')) = [Hand.STOOD] /\
    map Hand.value (Player.hands (GameEngine.player e')) = [26] /\
    map (fun r => (hr_result r, hr_payout r))
        (player_hands (fst (GameEngine.resolve_round e'))) = [(LOSE, (-20)%float)] /\
    exists r h c,
      nth_error (Player.hands (GameEngine.player e')) r = Some (doubled_hand h c).
Proof.
  eexists. split; [vm_compute; reflexivity|].
  split; [reflexivity|]. split; [reflexivity|]. split; [vm_compute; reflexivity|].
  destruct (@double_bust_is_stood_and_loses engine_with_sixteen _ 0 _ eq_refl)
    as (r & h & c & _ & _ & H & _).
  exists r, h, c. exact H.
Defined.

(** ** What the other calls of the engine leave of the player's hands *)

Lemma get_available_actions_state i e :
  state_of (GameEngine.get_available_actions i e) = e.
Proof.
  unfold GameEngine.get_available_actions.
  destruct (_ <=? i); [reflexivity|].
  destruct (Player.lookup i (GameEngine.player e)) as [[r h] p|x p]; reflexivity.
Qed.

Lemma reveal_and_expose_player e :
  GameEngine.player (GameEngine.reveal_and_expose e) = GameEngine.player e.
Proof.
  unfold GameEngine.reveal_and_expose.
  destruct (Dealer.reveal_hole_card (GameEngine.dealer e)) as [[card|] d];
    cbn [GameEngine.set_dealer GameEngine.on_card_exposed]; [|reflexivity].
  destruct (GameEngine.on_card_exposed e); reflexivity.
Qed.

Lemma check_early_blackjack_hands e :
  Player.hands (GameEngine.player (state_of (GameEngine.check_early_blackjack e))) =
  Player.hands (GameEngine.player e).
Proof.
  unfold GameEngine.check_early_blackjack.
  destruct (Player.hands (GameEngine.player e)) as [|ph hs] eqn:Eh;
    [cbn [state_of]; exact Eh|].
  destruct (Dealer.upcard (GameEngine.dealer e)) as [up|];
    [|cbn [state_of]; exact Eh].
  destruct (Hand.is_blackjack ph || (Card.is_ace up || Card.is_ten_value up));
    [|cbn [state_of]; exact Eh].
  destruct (Hand.is_blackjack (Dealer.hand (GameEngine.dealer e))).
  - destruct (Hand.is_blackjack ph); cbn [state_of];
      repeat first
        [ rewrite reveal_and_expose_player
        | progress unfold Player.receive_payout
        | progress cbn [GameEngine.set_player GameEngine.player
                        Player.set_bankroll Player.hands] ];
      exact Eh.
  - destruct (Hand.is_blackjack ph); cbn [state_of];
      repeat first
        [ rewrite reveal_and_expose_player
        | progress unfold Player.receive_payout
        | progress cbn [GameEngine.set_player GameEngine.player
                        Player.set_bankroll Player.hands] ];
      exact Eh.
Qed.

Lemma deal_callback_player e :
  GameEngine.player (state_of (GameEngine.deal_callback e)) = GameEngine.player e.
Proof.
  unfold GameEngine.deal_callback, bind, modify, ret, GameEngine.in_shoe, zoom.
  destruct (Shoe.deal (GameEngine.shoe e)) as [card s|x s]; cbn [state_of];
    [|reflexivity].
  cbn [GameEngine.set_dealer GameEngine.set_shoe GameEngine.on_card_exposed
       GameEngine.player].
  destruct (GameEngine.on_card_exposed e); reflexivity.
Qed.

Lemma play_loop_player fuel : forall e,
  GameEngine.player
    (state_of (Dealer.play_loop GameEngine.dealer GameEngine.set_dealer
                 GameEngine.deal_callback fuel e)) = GameEngine.player e.
Proof.
  induction fuel as [|fuel IH]; intro e; cbn [Dealer.play_loop].
  - destruct (_ && _); reflexivity.
  - destruct (_ && _); [|reflexivity].
    pose proof (deal_callback_player e) as Hc.
    destruct (GameEngine.deal_callback e) as [card e1|x e1]; cbn [state_of] in *;
      [|exact Hc].
    rewrite IH. cbn [GameEngine.set_dealer GameEngine.player]. exact Hc.
Qed.

Lemma play_dealer_player e :
  GameEngine.player (state_of (GameEngine.play_dealer e)) = GameEngine.player e.
Proof.
  unfold GameEngine.play_dealer, Dealer.play.
  set (e1 := GameEngine.reveal_and_expose e).
  set (w0 := if negb _ then _ else e1).
  assert (H0 : GameEngine.player w0 = GameEngine.player e).
  { subst w0. destruct (negb _); cbn [GameEngine.set_dealer GameEngine.player];
      apply reveal_and_expose_player. }
  pose proof (play_loop_player (S (length (Shoe._cards (GameEngine.shoe e1)))) w0)
    as Hl.
  destruct (Dealer.play_loop _ _ _ _ w0) as [u w1|x w1]; cbn [state_of] in *.
  - cbn [GameEngine.set_dealer GameEngine.player]. congruence.
  - congruence.
Qed.

Lemma resolve_hands_player_hands dv db hs : forall acc p,
  Player.hands (snd (GameEngine.resolve_hands dv db hs acc p)) = Player.hands p.
Proof.
  induction hs as [|hand hs IH]; intros acc p; cbn [GameEngine.resolve_hands];
    [reflexivity|].
  destruct (Hand.HandStatus_eqb _ _); [apply IH|].
  destruct (Hand.is_busted hand); [apply IH|].
  destruct db; [rewrite IH; reflexivity|].
  destruct (_ <? _); [rewrite IH; reflexivity|].
  destruct (_ <? _); [apply IH|rewrite IH; reflexivity].
Qed.

Lemma resolve_round_hands e :
  Player.hands (GameEngine.player (snd (GameEngine.resolve_round e))) =
  Player.hands (GameEngine.player e).
Proof.
  unfold GameEngine.resolve_round.
  cbn [GameEngine.set_round_in_progress GameEngine.player GameEngine.dealer].
  pose proof (resolve_hands_player_hands
                (Dealer.final_value (GameEngine.dealer e))
                (Dealer.is_busted (GameEngine.dealer e))
                (Player.hands (GameEngine.player e)) [] (GameEngine.player e)) as H.
  destruct (GameEngine.resolve_hands _ _ _ _ _) as [results p].
  cbn [snd] in H. exact H.
Qed.

(** ** Status of a hand under the actions of the engine *)

Lemma not_active_eqb h :
  Hand.status h <> Hand.ACTIVE ->
  Hand.HandStatus_eqb (Hand.status h) Hand.ACTIVE = false.
Proof.
  destruct (Hand.status h); intro H; try reflexivity. contradiction.
Qed.

Lemma active_eqb h :
  Hand.HandStatus_eqb (Hand.status h) Hand.ACTIVE = true ->
  Hand.status h = Hand.ACTIVE.
Proof. destruct (Hand.status h); try discriminate; reflexivity. Qed.

Lemma execute_action_rejects_inactive action i e r h :
  Player.lookup i (GameEngine.player e) = Ok (r, h) (GameEngine.player e) ->
  Hand.status h <> Hand.ACTIVE ->
  GameEngine.execute_action action i e = Raise IllegalAction e.
Proof.
  intros El Hs. apply not_active_eqb in Hs.
  unfold GameEngine.execute_action. unfold bind at 1.
  rewrite in_player_lookup, El.
  unfold Hand.can_hit, Hand.can_stand, Hand.can_double, Hand.can_split,
    Hand.can_surrender.
  rewrite Hs, !andb_false_r. destruct action; reflexivity.
Qed.

Lemma execute_action_Ok_active action i e res e' r h :
  Player.lookup i (GameEngine.player e) = Ok (r, h) (GameEngine.player e) ->
  GameEngine.execute_action action i e = Ok res e' ->
  Hand.status h = Hand.ACTIVE.
Proof.
  intros El Hrun.
  destruct (Hand.HandStatus_eqb (Hand.status h) Hand.ACTIVE) eqn:E;
    [apply active_eqb, E|].
  assert (Hs : Hand.status h <> Hand.ACTIVE).
  { intro H. rewrite H in E. discriminate. }
  rewrite (execute_action_rejects_inactive action _ _ El Hs) in Hrun.
  discriminate.
Qed.

Lemma nth_error_split_at {A} (l : list A) n x :
  nth_error l n = Some x -> l = firstn n l ++ x :: skipn (S n) l.
Proof.
  revert n; induction l as [|a l IH]; intros [|n] H; simpl in *; try discriminate.
  - injection H as ->. reflexivity.
  - f_equal. apply IH, H.
Qed.

Lemma update_firstn_app {A} (f : A -> A) (l : list A) n a post :
  (n <= length l)%nat ->
  pylist.update n f (firstn n l ++ a :: post) = firstn n l ++ f a :: post.
Proof.
  intro H.
  replace n with (length (firstn n l)) at 1 by (rewrite length_firstn; lia).
  apply update_at_app.
Qed.

Lemma update_firstn_app_S {A} (f : A -> A) (l : list A) n a b post :
  (n <= length l)%nat ->
  pylist.update (S n) f (firstn n l ++ a :: b :: post) = firstn n l ++ a :: f b :: post.
Proof.
  intro H.
  replace (S n) with (length (firstn n l ++ [a]))
    by (rewrite length_app, length_firstn; cbn; lia).
  replace (firstn n l ++ a :: b :: post) with ((firstn n l ++ [a]) ++ b :: post)
    by (rewrite <- app_assoc; reflexivity).
  rewrite update_at_app, <- app_assoc. reflexivity.
Qed.

Lemma deal_card_hands r face_up e :
  hands_after (GameEngine._deal_card r face_up) e = Player.hands (GameEngine.player e) \/
  exists c,
    hands_after (GameEngine._deal_card r face_up) e =
      pylist.update r (Hand.add_card c) (Player.hands (GameEngine.player e)).
Proof.
  unfold hands_after.
  destruct (GameEngine._deal_card r face_up e) as [c e'|x e'] eqn:E; cbn [state_of].
  - apply deal_card_Ok in E as (s & _ & ->). right. exists c.
    rewrite expose_if_player. reflexivity.
  - apply deal_card_Raise in E as (_ & -> & _). left; reflexivity.
Qed.

(** The hands after an action other than SPLIT: one function applied to
    the hand addressed. *)
Lemma execute_action_updates_one action i e r h :
  Player.lookup i (GameEngine.player e) = Ok (r, h) (GameEngine.player e) ->
  action <> SPLIT ->
  exists h',
    hands_after (GameEngine.execute_action action i) e =
      firstn r (Player.hands (GameEngine.player e))
        ++ h' :: skipn (S r) (Player.hands (GameEngine.player e)).
Proof.
  intros El Hns.
  pose proof (lookup_Ok _ _ El) as (_ & Hn & _).
  assert (Hsame : exists h',
             Player.hands (GameEngine.player e) =
               firstn r (Player.hands (GameEngine.player e))
                 ++ h' :: skipn (S r) (Player.hands (GameEngine.player e)))
    by (exists h; apply nth_error_split_at, Hn).
  assert (Hupd : forall f, exists h',
             pylist.update r f (Player.hands (GameEngine.player e)) =
               firstn r (Player.hands (GameEngine.player e))
                 ++ h' :: skipn (S r) (Player.hands (GameEngine.player e)))
    by (intro f; exists (f h); apply update_split, Hn).
  unfold hands_after, GameEngine.execute_action. unfold bind at 1.
  rewrite in_player_lookup, El.
  destruct action; try contradiction.
  - (* HIT *)
    destruct (Hand.can_hit h); cbn [negb]; [|exact Hsame].
    unfold bind, ret.
    destruct (deal_card_hands r true e) as [H|[c H]]; unfold hands_after in H;
      destruct (GameEngine._deal_card r true e) as [c0 e1|x e1];
      cbn [state_of] in *; rewrite H; auto.
  - (* STAND *)
    destruct (Hand.can_stand h); cbn [negb]; [|exact Hsame].
    unfold bind, modify, ret. cbn [state_of GameEngine.set_player GameEngine.player].
    apply Hupd.
  - (* DOUBLE *)
    destruct (Hand.can_double h); cbn [negb]; [|exact Hsame].
    unfold bind at 1. unfold GameEngine.in_player, zoom.
    destruct (Player.double_down i (GameEngine.player e)) as [u p1|y p1] eqn:Ep.
    + apply double_down_Ok in Ep as (r' & h0 & El' & _ & _ & ->).
      rewrite El in El'. injection El' as <- <-.
      unfold bind, modify, ret.
      destruct (GameEngine._deal_card r true _) as [c e2|y e2] eqn:Ed.
      * apply deal_card_Ok in Ed as (s & _ & ->).
        cbn [state_of GameEngine.set_player GameEngine.player].
        rewrite expose_if_player.
        cbn [GameEngine.set_player GameEngine.set_shoe GameEngine.player].
        unfold Player.update_hand, Player.set_hands. cbn [Player.hands].
        rewrite !update_update. apply Hupd.
      * apply deal_card_Raise in Ed as (_ & -> & _).
        cbn [state_of GameEngine.set_player GameEngine.player Player.hands].
        apply Hupd.
    + apply double_down_Raise in Ep as (-> & _).
      cbn [state_of GameEngine.set_player GameEngine.player]. exact Hsame.
  - (* SURRENDER *)
    destruct (Hand.can_surrender h) eqn:Ec; cbn [negb]; [|exact Hsame].
    unfold bind, ret, GameEngine.in_player, zoom.
    unfold Player.surrender_hand. rewrite El, Ec. cbn [negb].
    cbn [state_of GameEngine.set_player GameEngine.player].
    unfold Player.update_hand, Player.set_hands, Player.set_bankroll.
    cbn [Player.hands]. apply Hupd.
Qed.

(** Where [split_hand] puts the two hands: after each other at the place
    of the hand split, except that the index [-1] puts the second hand in
    front of all the hands. *)
Lemma split_hand_hands p i r h pos1 pos2 p1 :
  Player.lookup i p = Ok (r, h) p ->
  Player.split_hand i p = Ok (pos1, pos2) p1 ->
  exists h1 h2,
    (i <> -1 /\ pos1 = r /\ pos2 = S r /\
     Player.hands p1 =
       firstn r (Player.hands p) ++ h1 :: h2 :: skipn (S r) (Player.hands p)) \/
    (i = -1 /\ pos1 = S r /\ pos2 = O /\
     Player.hands p1 = h2 :: firstn r (Player.hands p) ++ [h1]).
Proof.
  intros El. pose proof (lookup_Ok _ _ El) as (_ & Hn & Hi).
  unfold Player.split_hand.
  destruct (Z.leb _ _); [discriminate|]. rewrite El.
  destruct (Hand.can_split h) eqn:Ec; cbn [negb]; [|discriminate].
  destruct (PrimFloat.ltb _ _); [discriminate|].
  destruct (split_Ok_of_can_split _ Ec) as (h1 & h2 & ->).
  cbn [Player.hands Player.set_bankroll Player.set_hands Player.set_split_count
       Player.bankroll Player.base_bet Player.max_splits Player._split_count].
  intros [= <- <- <-]. exists h1, h2.
  cbn [Player.hands]. rewrite update_length.
  destruct (Z.eq_dec i (-1)) as [->|Hne].
  - right. change (-1 + 1) with 0.
    assert (Hr : S r = length (Player.hands p)).
    { unfold pylist.index in Hi. cbn in Hi.
      destruct (Z.leb_spec (- Z.of_nat (length (Player.hands p))) (-1));
        [|discriminate].
      injection Hi as <-. lia. }
    assert (Hpos : pylist.insert_pos (length (Player.hands p)) 0 = O).
    { unfold pylist.insert_pos. cbn [Z.ltb Z.compare].
      destruct (Z.ltb_spec (Z.of_nat (length (Player.hands p))) 0); [lia|].
      reflexivity. }
    unfold pylist.insert. rewrite update_length, Hpos.
    cbn [firstn skipn app Nat.ltb Nat.leb].
    repeat split; auto.
    rewrite update_split with (x := h) by exact Hn.
    rewrite Hr, skipn_all. reflexivity.
  - left. pose proof (insert_pos_after _ Hi Hne) as Hpos.
    rewrite insert_after_update with (z := h) by assumption.
    rewrite Hpos. destruct (Nat.ltb_spec r (S r)); [|lia].
    repeat split; auto.
Qed.

Lemma execute_split_hands i e r h :
  Player.lookup i (GameEngine.player e) = Ok (r, h) (GameEngine.player e) ->
  hands_after (GameEngine.execute_action SPLIT i) e =
    Player.hands (GameEngine.player e) \/
  exists h1 h2,
    (i <> -1 /\
     hands_after (GameEngine.execute_action SPLIT i) e =
       firstn r (Player.hands (GameEngine.player e))
         ++ h1 :: h2 :: skipn (S r) (Player.hands (GameEngine.player e))) \/
    (i = -1 /\
     hands_after (GameEngine.execute_action SPLIT i) e =
       h2 :: firstn r (Player.hands (GameEngine.player e)) ++ [h1]).
Proof.
  intros El. pose proof (lookup_Ok _ _ El) as (_ & Hn & _).
  assert (Hlt : (r <= length (Player.hands (GameEngine.player e)))%nat).
  { apply Nat.lt_le_incl, nth_error_Some. rewrite Hn. discriminate. }
  remember (hands_after (GameEngine.execute_action SPLIT i) e) as X eqn:HX.
  revert HX. unfold hands_after, GameEngine.execute_action. unfold bind at 1.
  rewrite in_player_lookup, El.
  destruct (Hand.can_split h); cbn [negb]; [|intros ->; left; reflexivity].
  unfold bind at 1. unfold GameEngine.in_player, zoom.
  destruct (Player.split_hand i (GameEngine.player e)) as [[pos1 pos2] p1|y p1] eqn:Es.
  - destruct (split_hand_hands _ El Es) as (h1 & h2 & Hshape).
    set (e1 := GameEngine.set_player p1 e).
    assert (H1 : Player.hands (GameEngine.player e1) = Player.hands p1) by reflexivity.
    clearbody e1.
    set (hs := Player.hands (GameEngine.player e)) in *.
    (* the two deals keep the shape *)
    assert (Hd : forall pos e0,
               (exists a b,
                   (i <> -1 /\ pos1 = r /\ pos2 = S r /\
                    Player.hands (GameEngine.player e0) =
                      firstn r hs ++ a :: b :: skipn (S r) hs) \/
                   (i = -1 /\ pos1 = S r /\ pos2 = O /\
                    Player.hands (GameEngine.player e0) = b :: firstn r hs ++ [a])) ->
               pos = pos1 \/ pos = pos2 ->
               exists a b,
                 (i <> -1 /\ pos1 = r /\ pos2 = S r /\
                  hands_after (GameEngine._deal_card pos true) e0 =
                    firstn r hs ++ a :: b :: skipn (S r) hs) \/
                 (i = -1 /\ pos1 = S r /\ pos2 = O /\
                  hands_after (GameEngine._deal_card pos true) e0 =
                    b :: firstn r hs ++ [a])).
    { intros pos e0 (a & b & Hs) Hpos.
      destruct (deal_card_hands pos true e0) as [H|[c H]]; rewrite H.
      - exists a, b. exact Hs.
      - destruct Hs as [(Hi & Hp1 & Hp2 & ->)|(Hi & Hp1 & Hp2 & ->)].
        + destruct Hpos as [->| ->].
          * rewrite Hp1, update_firstn_app by exact Hlt.
            exists (Hand.add_card c a), b. left. auto.
          * rewrite Hp2, update_firstn_app_S by exact Hlt.
            exists a, (Hand.add_card c b). left. auto.
        + destruct Hpos as [->| ->].
          * rewrite Hp1. cbn [pylist.update].
            rewrite update_firstn_app by exact Hlt.
            exists (Hand.add_card c a), b. right. auto.
          * rewrite Hp2. cbn [pylist.update].
            exists a, (Hand.add_card c b). right. auto. }
    assert (Hdone : forall e0,
               (exists a b,
                 (i <> -1 /\ pos1 = r /\ pos2 = S r /\
                  Player.hands (GameEngine.player e0) =
                    firstn r hs ++ a :: b :: skipn (S r) hs) \/
                 (i = -1 /\ pos1 = S r /\ pos2 = O /\
                  Player.hands (GameEngine.player e0) = b :: firstn r hs ++ [a])) ->
               exists a b,
                 (i <> -1 /\
                  Player.hands (GameEngine.player e0) =
                    firstn r hs ++ a :: b :: skipn (S r) hs) \/
                 (i = -1 /\
                  Player.hands (GameEngine.player e0) = b :: firstn r hs ++ [a])).
    { intros e0 (a & b & [(Hi & _ & _ & H)|(Hi & _ & _ & H)]); exists a, b; auto. }
    assert (H0 : exists a b,
               (i <> -1 /\ pos1 = r /\ pos2 = S r /\
                Player.hands (GameEngine.player e1) =
                  firstn r hs ++ a :: b :: skipn (S r) hs) \/
               (i = -1 /\ pos1 = S r /\ pos2 = O /\
                Player.hands (GameEngine.player e1) = b :: firstn r hs ++ [a])).
    { exists h1, h2. rewrite H1. exact Hshape. }
    pose proof (Hd pos1 e1 H0 (or_introl eq_refl)) as H2.
    unfold hands_after in H2. unfold bind, ret.
    destruct (GameEngine._deal_card pos1 true e1) as [c1 e2|y e2];
      cbn [state_of] in H2 |- *; [|intros ->; right; apply Hdone, H2].
    pose proof (Hd pos2 e2 H2 (or_intror eq_refl)) as H3.
    unfold hands_after in H3.
    destruct (GameEngine._deal_card pos2 true e2) as [c2 e3|y e3];
      cbn [state_of] in H3 |- *; intros ->; right; apply Hdone, H3.
  - apply split_hand_Raise in Es as (-> & _).
    rewrite set_player_same. intros ->. left. reflexivity.
Qed.

Lemma nth_error_before {A} (l : list A) x rest : forall r k,
  (k < r)%nat -> nth_error l k = Some x ->
  nth_error (firstn r l ++ rest) k = Some x.
Proof.
  induction l as [|a l IH]; intros r k Hlt Hk.
  - destruct k; discriminate.
  - destruct r as [|r]; [lia|]. destruct k as [|k]; cbn in *; [exact Hk|].
    apply IH; [lia|exact Hk].
Qed.

Lemma nth_error_behind {A} (l mid : list A) x : forall r k,
  (r < k)%nat -> nth_error l k = Some x ->
  nth_error (firstn r l ++ mid ++ skipn (S r) l) (length mid + k - 1) = Some x.
Proof.
  induction l as [|a l IH]; intros r k Hlt Hk.
  - destruct k; discriminate.
  - destruct k as [|k]; [lia|]. cbn [nth_error] in Hk.
    destruct r as [|r].
    + cbn [firstn skipn app]. rewrite nth_error_app2 by lia.
      replace (length mid + S k - 1 - length mid)%nat with k by lia. exact Hk.
    + cbn [firstn skipn app].
      replace (length mid + S k - 1)%nat with (S (length mid + k - 1)) by lia.
      cbn [nth_error]. apply IH; [lia|exact Hk].
Qed.

(** A hand that is not ACTIVE is still there after any action, on it or
    on another hand, one place further when a split has put a hand before
    it. *)
Lemma execute_action_keeps_inactive action i e r h k hk :
  Player.lookup i (GameEngine.player e) = Ok (r, h) (GameEngine.player e) ->
  nth_error (Player.hands (GameEngine.player e)) k = Some hk ->
  Hand.status hk <> Hand.ACTIVE ->
  exists k',
    nth_error (hands_after (GameEngine.execute_action action i) e) k' = Some hk /\
    (k' = k \/ action = SPLIT /\ k' = S k).
Proof.
  intros El Hk Hs. pose proof (lookup_Ok _ _ El) as (_ & Hn & Hi).
  destruct (Nat.eq_dec k r) as [->|Hne].
  - rewrite Hn in Hk. injection Hk as ->.
    exists r. split; [|left; reflexivity].
    unfold hands_after.
    rewrite (execute_action_rejects_inactive action _ _ El Hs).
    exact Hn.
  - assert (Hone : forall h',
               nth_error (firstn r (Player.hands (GameEngine.player e))
                          ++ h' :: skipn (S r) (Player.hands (GameEngine.player e))) k
               = Some hk).
    { intro h'. rewrite <- update_split with (f := fun _ => h') (x := h) by exact Hn.
      rewrite update_nth_other by congruence. exact Hk. }
    destruct (@execute_split_hands i e r h El) as [Hsp|(h1 & h2 & Hsp)].
    + (* no split took place *)
      destruct action;
        try (match goal with
             | |- context [GameEngine.execute_action ?a i] =>
                 assert (Ha : a <> SPLIT) by discriminate;
                 destruct (@execute_action_updates_one a i e r h El Ha) as (h' & ->);
                 exists k; split; [apply Hone|left; reflexivity]
             end).
      rewrite Hsp. exists k. split; [exact Hk|left; reflexivity].
    + destruct action;
        try (match goal with
             | |- context [GameEngine.execute_action ?a i] =>
                 assert (Ha : a <> SPLIT) by discriminate;
                 destruct (@execute_action_updates_one a i e r h El Ha) as (h' & ->);
                 exists k; split; [apply Hone|left; reflexivity]
             end).
      destruct Hsp as [(_ & ->)|(-> & ->)].
      * destruct (Nat.lt_ge_cases k r) as [Hlt|Hge].
        -- exists k. split; [|left; reflexivity].
           apply nth_error_before; assumption.
        -- exists (S k). split; [|right; split; reflexivity].
           change (h1 :: h2 :: skipn (S r) (Player.hands (GameEngine.player e)))
             with ([h1; h2] ++ skipn (S r) (Player.hands (GameEngine.player e))).
           replace (S k) with (length [h1; h2] + k - 1)%nat by (cbn; lia).
           apply nth_error_behind; [lia|exact Hk].
      * exists (S k). split; [|right; split; reflexivity].
        cbn [nth_error]. apply nth_error_before; [|exact Hk].
        assert (Hr : S r = length (Player.hands (GameEngine.player e))).
        { unfold pylist.index in Hi. cbn in Hi.
          destruct (Z.leb_spec (- Z.of_nat (length (Player.hands (GameEngine.player e))))
                      (-1)); [|discriminate].
          injection Hi as <-. lia. }
        assert (Hkl : (k < length (Player.hands (GameEngine.player e)))%nat)
          by (apply nth_error_Some; rewrite Hk; discriminate).
        lia.
Qed.

(** The three statements of the DOUBLE branch, one after the other. *)
Lemma execute_double_steps i e res e' r h :
  Player.lookup i (GameEngine.player e) = Ok (r, h) (GameEngine.player e) ->
  GameEngine.execute_action DOUBLE i e = Ok res e' ->
  exists c e1 e2 hd,
    GameEngine.in_player (Player.double_down i) e = Ok tt e1 /\
    nth_error (Player.hands (GameEngine.player e1)) r = Some hd /\
    Hand.status hd = Hand.DOUBLED /\
    Hand.cards hd = Hand.cards h /\
    GameEngine._deal_card r true e1 = Ok c e2 /\
    nth_error (Player.hands (GameEngine.player e2)) r = Some (Hand.add_card c hd) /\
    res = Some c /\
    e' = force_stood r e2.
Proof.
  intros El. pose proof (lookup_Ok _ _ El) as (_ & Hn & _).
  unfold GameEngine.execute_action. unfold bind at 1. rewrite in_player_lookup, El.
  destruct (Hand.can_double h) eqn:Ec; cbn [negb]; [|discriminate].
  unfold bind at 1.
  destruct (GameEngine.in_player (Player.double_down i) e) as [[] e1|y e1] eqn:Ep;
    [|discriminate].
  unfold bind, modify, ret.
  destruct (GameEngine._deal_card r true e1) as [c e2|y e2] eqn:Ed; [|discriminate].
  intros [= <- <-].
  assert (He1 : Player.hands (GameEngine.player e1) =
                pylist.update r
                  (fun h0 => Hand.double_down
                               (Hand.set_bet (PrimFloat.mul (Hand.bet h0) 2) h0))
                  (Player.hands (GameEngine.player e))).
  { unfold GameEngine.in_player, zoom in Ep.
    destruct (Player.double_down i (GameEngine.player e)) as [u p1|y p1] eqn:Ep1;
      [|discriminate].
    injection Ep as _ <-.
    apply double_down_Ok in Ep1 as (r' & h0 & El' & _ & _ & ->).
    rewrite El in El'. injection El' as <- <-. reflexivity. }
  assert (Hhd : nth_error (Player.hands (GameEngine.player e1)) r =
                Some (Hand.double_down
                        (Hand.set_bet (PrimFloat.mul (Hand.bet h) 2) h))).
  { rewrite He1.
    apply update_nth
      with (f := fun h0 => Hand.double_down
                             (Hand.set_bet (PrimFloat.mul (Hand.bet h0) 2) h0)), Hn. }
  exists c, e1, e2,
    (Hand.double_down (Hand.set_bet (PrimFloat.mul (Hand.bet h) 2) h)).
  split; [reflexivity|]. split; [exact Hhd|].
  split; [reflexivity|]. split; [reflexivity|]. split; [exact Ed|].
  split; [|split; reflexivity].
  apply deal_card_Ok in Ed as (s & _ & ->).
  rewrite expose_if_player.
  cbn [GameEngine.set_player GameEngine.set_shoe GameEngine.player].
  unfold Player.update_hand, Player.set_hands. cbn [Player.hands].
  apply update_nth with (f := Hand.add_card c), Hhd.
Qed.

(** C2, as the code has it. On a hand whose status is not ACTIVE every
    action of [execute_action] is rejected as illegal and the engine, the
    hand included, is left as it was; an action that succeeds found its hand
    ACTIVE. An action, whether it returns or raises, changes no hand but the
    one it addresses: the other hands keep their cards, status and order, a
    SPLIT putting the two new hands in the place of the hand split (or, on
    the index [-1], the second of them in front); and
    [get_available_actions], [check_early_blackjack], [play_dealer] and
    [resolve_round] leave the player's hands as they are. So a player hand
    that is not ACTIVE is found unchanged after every such call.
    [Hand.add_card] itself looks at no status: it appends the card, and sets
    BUSTED when the value exceeds 21. DOUBLE relies on that: it marks the
    hand DOUBLED, then deals it exactly one card, then sets its status to
    STOOD, which leaves the hand with one more card and not ACTIVE. *)
Theorem inactive_hands_are_rejected :
  forall (e : GameEngine.t) (i : Z) (r : hand_ref) (h : Hand.t),
    Player.lookup i (GameEngine.player e) = Ok (r, h) (GameEngine.player e) ->
    (Hand.status h <> Hand.ACTIVE ->
       forall action,
         GameEngine.execute_action action i e = Raise IllegalAction e) /\
    (forall action res e',
       GameEngine.execute_action action i e = Ok res e' ->
       Hand.status h = Hand.ACTIVE) /\
    (forall action, action <> SPLIT ->
       exists h',
         hands_after (GameEngine.execute_action action i) e =
           firstn r (Player.hands (GameEngine.player e))
             ++ h' :: skipn (S r) (Player.hands (GameEngine.player e))) /\
    (hands_after (GameEngine.execute_action SPLIT i) e =
       Player.hands (GameEngine.player e) \/
     exists h1 h2,
       (i <> -1 /\
        hands_after (GameEngine.execute_action SPLIT i) e =
          firstn r (Player.hands (GameEngine.player e))
            ++ h1 :: h2 :: skipn (S r) (Player.hands (GameEngine.player e))) \/
       (i = -1 /\
        hands_after (GameEngine.execute_action SPLIT i) e =
          h2 :: firstn r (Player.hands (GameEngine.player e)) ++ [h1])) /\
    (forall action k hk,
       nth_error (Player.hands (GameEngine.player e)) k = Some hk ->
       Hand.status hk <> Hand.ACTIVE ->
       exists k',
         nth_error (hands_after (GameEngine.execute_action action i) e) k' = Some hk /\
         (k' = k \/ action = SPLIT /\ k' = S k)) /\
    (forall j, state_of (GameEngine.get_available_actions j e) = e) /\
    hands_after GameEngine.check_early_blackjack e =
      Player.hands (GameEngine.player e) /\
    hands_after GameEngine.play_dealer e = Player.hands (GameEngine.player e) /\
    Player.hands (GameEngine.player (snd (GameEngine.resolve_round e))) =
      Player.hands (GameEngine.player e) /\
    (forall (c : Card.t) (h0 : Hand.t),
       Hand.cards (Hand.add_card c h0) = Hand.cards h0 ++ [c] /\
       Hand.status (Hand.add_card c h0) =
         if 21 <? Hand.value (Hand.add_card c h0) then Hand.BUSTED
         else Hand.status h0) /\
    (forall res e',
       GameEngine.execute_action DOUBLE i e = Ok res e' ->
       exists c e1 e2 hd h',
         GameEngine.in_player (Player.double_down i) e = Ok tt e1 /\
         nth_error (Player.hands (GameEngine.player e1)) r = Some hd /\
         Hand.status hd = Hand.DOUBLED /\
         Hand.cards hd = Hand.cards h /\
         GameEngine._deal_card r true e1 = Ok c e2 /\
         nth_error (Player.hands (GameEngine.player e2)) r =
           Some (Hand.add_card c hd) /\
         res = Some c /\
         e' = force_stood r e2 /\
         nth_error (Player.hands (GameEngine.player e')) r = Some h' /\
         Hand.cards h' = Hand.cards h ++ [c] /\
         Hand.status h' = Hand.STOOD /\
         Hand.status h' <> Hand.ACTIVE).
Proof.
  intros e i r h El.
  split; [intros Hs action; eapply execute_action_rejects_inactive; eauto|].
  split; [intros action res e' Hrun; eapply execute_action_Ok_active; eauto|].
  split; [intros action Ha; eapply execute_action_updates_one; eauto|].
  split; [eapply execute_split_hands; eauto|].
  split; [intros action k hk Hk Hs; eapply execute_action_keeps_inactive; eauto|].
  split; [intro j; apply get_available_actions_state|].
  split; [apply check_early_blackjack_hands|].
  split; [unfold hands_after; rewrite play_dealer_player; reflexivity|].
  split; [apply resolve_round_hands|].
  split; [intros c h0; split; [apply cards_add_card|apply status_add_card]|].
  intros res e' Hrun.
  destruct (@execute_double_steps i e res e' r h El Hrun)
    as (c & e1 & e2 & hd & H1 & H2 & H3 & H4 & H5 & H6 & H7 & H8).
  exists c, e1, e2, hd, (Hand.set_status Hand.STOOD (Hand.add_card c hd)).
  repeat (split; [assumption|]).
  split.
  - rewrite H8. unfold force_stood, Player.update_hand, Player.set_hands.
    cbn [GameEngine.set_player GameEngine.player Player.hands].
    apply update_nth with (f := Hand.set_status Hand.STOOD), H6.
  - cbn [Hand.set_status Hand.cards Hand.status].
    rewrite cards_add_card, H4.
    split; [reflexivity|]. split; [reflexivity|discriminate].
Qed.

(** After a split, the first hand stood on eighteen and the second holding
    eleven: a HIT on the first is rejected and nothing moves, and a DOUBLE
    on the second leaves the first as it is. *)
Lemma inactive_hands_are_rejected_witness :
  Player.lookup 0 (GameEngine.player engine_with_stood_and_active) =
    Ok (0%nat, stood_eighteen) (GameEngine.player engine_with_stood_and_active) /\
  Hand.status stood_eighteen <> Hand.ACTIVE /\
  GameEngine.execute_action HIT 0 engine_with_stood_and_active =
    Raise IllegalAction engine_with_stood_and_active /\
  Player.lookup 1 (GameEngine.player engine_with_stood_and_active) =
    Ok (1%nat, hard_eleven_split) (GameEngine.player engine_with_stood_and_active) /\
  hands_after (GameEngine.execute_action DOUBLE 1) engine_with_stood_and_active =
    [stood_eighteen;
     Hand.mk [eight_diamonds; three_hearts; king_diamonds] Hand.STOOD 20%float
       true true] /\
  exists k',
    nth_error
      (hands_after (GameEngine.execute_action DOUBLE 1) engine_with_stood_and_active)
      k' = Some stood_eighteen /\
    (k' = 0%nat \/ DOUBLE = SPLIT /\ k' = 1%nat).
Proof.
  split; [reflexivity|]. split; [discriminate|].
  split.
  { apply (proj1 (@inactive_hands_are_rejected engine_with_stood_and_active 0 0%nat
                    stood_eighteen eq_refl)).
    discriminate. }
  split; [reflexivity|]. split; [vm_compute; reflexivity|].
  destruct (@inactive_hands_are_rejected engine_with_stood_and_active 1 1%nat
              hard_eleven_split eq_refl) as (_ & _ & _ & _ & Hkeep & _).
  apply (Hkeep DOUBLE 0%nat stood_eighteen eq_refl). discriminate.
Defined.

(** C2, as stated, fails inside DOUBLE. On the sixteen with K-hearts on
    top of the shoe, [execute_action(DOUBLE)] is [double_down], then
    [_deal_card], then the forcing of STOOD: the hand is DOUBLED, hence not
    ACTIVE, when it receives the king, and BUSTED when its status is changed
    to STOOD. *)
Lemma double_breaks_status_monotonicity :
  exists e1 e2 h1 h2 h3,
    GameEngine.in_player (Player.double_down 0) engine_with_sixteen = Ok tt e1 /\
    GameEngine._deal_card 0%nat true e1 = Ok king_hearts e2 /\
    GameEngine.execute_action DOUBLE 0 engine_with_sixteen =
      Ok (Some king_hearts) (force_stood 0%nat e2) /\
    Player.hands (GameEngine.player e1) = [h1] /\
    Player.hands (GameEngine.player e2) = [h2] /\
    Player.hands (GameEngine.player (force_stood 0%nat e2)) = [h3] /\
    Hand.status h1 = Hand.DOUBLED /\
    Hand.status h2 = Hand.BUSTED /\
    Hand.status h3 = Hand.STOOD /\
    ~ status_monotonic_step h1 h2 /\
    ~ status_monotonic_step h2 h3.
Proof.
  do 5 eexists.
  split; [vm_compute; reflexivity|].
  split; [vm_compute; reflexivity|].
  split; [vm_compute; reflexivity|].
  split; [vm_compute; reflexivity|].
  split; [vm_compute; reflexivity|].
  split; [vm_compute; reflexivity|].
  split; [reflexivity|]. split; [reflexivity|]. split; [reflexivity|].
  split; intro H.
  - destruct H as [Hc _]; [discriminate|]. cbn in Hc. discriminate.
  - destruct H as [_ [Hs|Hs]]; [discriminate| |]; cbn in Hs; discriminate.
Qed.

(** ** The hole card and the observer *)

Lemma bind_Ok {S A B} (m : M S A) (k : A -> M S B) s b s' :
  bind m k s = Ok b s' -> exists a s1, m s = Ok a s1 /\ k a s1 = Ok b s'.
Proof.
  unfold bind. destruct (m s) as [a s1|x s1]; [eauto|discriminate].
Qed.

Lemma deal_card_effect r face_up e c e' :
  GameEngine._deal_card r face_up e = Ok c e' ->
  Shoe._cards (GameEngine.shoe e) = Shoe._cards (GameEngine.shoe e') ++ [c] /\
  GameEngine.dealer e' = GameEngine.dealer e /\
  GameEngine.on_card_exposed e' = GameEngine.on_card_exposed e /\
  GameEngine.exposed e' =
    GameEngine.exposed e ++ (if face_up && GameEngine.on_card_exposed e then [c] else []).
Proof.
  intro H. apply deal_card_Ok in H as (s & Hs & ->).
  apply deal_Ok in Hs as [Hc _].
  unfold GameEngine.expose_if.
  cbn [GameEngine.set_player GameEngine.set_shoe GameEngine.on_card_exposed].
  destruct (face_up && GameEngine.on_card_exposed e); cbn;
    rewrite ?app_nil_r; auto.
Qed.

Lemma deal_to_dealer_effect face_up e c e' :
  GameEngine._deal_to_dealer face_up e = Ok c e' ->
  Shoe._cards (GameEngine.shoe e) = Shoe._cards (GameEngine.shoe e') ++ [c] /\
  Hand.cards (Dealer.hand (GameEngine.dealer e')) =
    Hand.cards (Dealer.hand (GameEngine.dealer e)) ++ [c] /\
  Dealer.hole_card_revealed (GameEngine.dealer e') =
    Dealer.hole_card_revealed (GameEngine.dealer e) /\
  GameEngine.on_card_exposed e' = GameEngine.on_card_exposed e /\
  GameEngine.exposed e' =
    GameEngine.exposed e ++ (if face_up && GameEngine.on_card_exposed e then [c] else []).
Proof.
  unfold GameEngine._deal_to_dealer, bind, GameEngine.in_shoe, zoom, modify, ret.
  destruct (Shoe.deal (GameEngine.shoe e)) as [c0 s|y s] eqn:E; [|discriminate].
  intros [= <- <-]. apply deal_Ok in E as [Hc _].
  unfold GameEngine.expose_if, Dealer.receive_card.
  cbn [GameEngine.set_dealer GameEngine.set_shoe GameEngine.on_card_exposed].
  destruct (face_up && GameEngine.on_card_exposed e); cbn;
    rewrite ?app_nil_r, cards_add_card; auto.
Qed.

Lemma burn_one_full s :
  Shoe._cards s <> [] ->
  exists c s', Shoe.burn 1 s = Ok [c] s' /\ Shoe._cards s = Shoe._cards s' ++ [c].
Proof.
  intro Hne. unfold Shoe.burn. change (Z.to_nat 1) with 1%nat.
  cbn [Shoe.burn_loop].
  destruct (Shoe._cards s) as [|c0 cs] eqn:Ecs; [contradiction|].
  destruct (Shoe.deal s) as [c s'|x s'] eqn:E.
  - apply deal_Ok in E as [Hc _]. exists c, s'.
    split; [reflexivity|congruence].
  - apply deal_Raise in E as (_ & _ & E). congruence.
Qed.

Lemma shuffle_if_needed_Ok e u ea :
  GameEngine.shuffle_if_needed e = Ok u ea ->
  exists burned,
    GameEngine.player ea = GameEngine.player e /\
    GameEngine.dealer ea = GameEngine.dealer e /\
    GameEngine.on_card_exposed ea = GameEngine.on_card_exposed e /\
    GameEngine.exposed ea =
      GameEngine.exposed e ++ (if GameEngine.on_card_exposed e then burned else []) /\
    (NoDup (Shoe._cards (GameEngine.shoe e)) ->
     NoDup (Shoe._cards (GameEngine.shoe ea) ++ burned)).
Proof.
  unfold GameEngine.shuffle_if_needed.
  destruct (Shoe.needs_shuffle (GameEngine.shoe e)).
  - unfold bind, modify, GameEngine.in_shoe, zoom.
    cbn [GameEngine.set_shoe GameEngine.shoe].
    destruct (@burn_one_full (Shoe.shuffle (GameEngine.shoe e))) as (c & s' & Hb & Hc).
    { intro H. pose proof (shuffle_cards (GameEngine.shoe e)) as [Hp _].
      rewrite H in Hp. apply Permutation_length in Hp. discriminate. }
    rewrite Hb. intros [= <- <-]. exists [c].
    cbn [GameEngine.set_shoe GameEngine.on_card_exposed].
    destruct (GameEngine.on_card_exposed e) eqn:Ecb; cbn; rewrite ?app_nil_r;
      repeat split; auto; intros _; rewrite <- Hc; apply shuffle_NoDup.
  - intros [= <- <-]. exists [].
    destruct (GameEngine.on_card_exposed e); rewrite !app_nil_r; auto.
Qed.

(** The deal of [start_round]: with the shoe reading, from the top,
    [p1, d1, p2, hole], the dealer ends up holding [d1; hole] unrevealed and
    the observer has been shown the burned card, if any, then [p1; d1; p2],
    and nothing else. *)
Lemma start_round_Ok bet e r e1 :
  GameEngine.start_round bet e = Ok r e1 ->
  exists rest p1 d1 p2 hole burned,
    (NoDup (Shoe._cards (GameEngine.shoe e)) ->
     NoDup (rest ++ [hole; p2; d1; p1] ++ burned)) /\
    Shoe._cards (GameEngine.shoe e1) = rest /\
    Hand.cards (Dealer.hand (GameEngine.dealer e1)) = [d1; hole] /\
    Dealer.hole_card_revealed (GameEngine.dealer e1) = false /\
    GameEngine.on_card_exposed e1 = GameEngine.on_card_exposed e /\
    GameEngine.exposed e1 =
      GameEngine.exposed e ++
      (if GameEngine.on_card_exposed e then burned ++ [p1; d1; p2] else []).
Proof.
  unfold GameEngine.start_round. intro H.
  apply bind_Ok in H as (u & ea & Ha & H).
  apply shuffle_if_needed_Ok in Ha as (burned & Hpa & Hda & Hca & Hea & Hnd).
  apply bind_Ok in H as (ph & eb & Hb & H).
  assert (Hb' : GameEngine.shoe eb = GameEngine.shoe ea /\
                GameEngine.dealer eb = GameEngine.dealer ea /\
                GameEngine.on_card_exposed eb = GameEngine.on_card_exposed ea /\
                GameEngine.exposed eb = GameEngine.exposed ea).
  { unfold GameEngine.in_player, zoom in Hb.
    destruct (Player.new_hand bet (GameEngine.player ea)); [|discriminate].
    injection Hb as _ <-. auto. }
  destruct Hb' as (Hsb & Hdb & Hcb & Hxb).
  apply bind_Ok in H as (u1 & ec & Hc & H).
  unfold modify in Hc. injection Hc as _ <-.
  apply bind_Ok in H as (p1 & e2 & H1 & H). apply deal_card_effect in H1.
  apply bind_Ok in H as (d1 & e3 & H2 & H). apply deal_to_dealer_effect in H2.
  apply bind_Ok in H as (p2 & e4 & H3 & H). apply deal_card_effect in H3.
  apply bind_Ok in H as (hole & e5 & H4 & H). apply deal_to_dealer_effect in H4.
  apply bind_Ok in H as (u2 & e6 & H5 & H).
  unfold modify in H5. injection H5 as _ <-.
  unfold bind, get, ret in H. injection H as _ <-.
  cbn [GameEngine.set_dealer GameEngine.set_round_in_progress GameEngine.shoe
       GameEngine.dealer GameEngine.on_card_exposed GameEngine.exposed
       Dealer.new_hand Dealer.hand Dealer.hole_card_revealed Hand.empty Hand.new
       Hand.cards] in *.
  destruct H1 as (S1 & D1 & C1 & X1). destruct H2 as (S2 & D2 & R2 & C2 & X2).
  destruct H3 as (S3 & D3 & C3 & X3). destruct H4 as (S4 & D4 & R4 & C4 & X4).
  exists (Shoe._cards (GameEngine.shoe e5)), p1, d1, p2, hole, burned.
  repeat split.
  - intro Hn. specialize (Hnd Hn).
    rewrite <- Hsb, S1, S2, S3, S4, <- !app_assoc in Hnd. exact Hnd.
  - rewrite D4, D3, D2, D1. reflexivity.
  - rewrite R4, D3, R2, D1. reflexivity.
  - congruence.
  - rewrite X4, X3, X2, X1, Hxb, Hea, C3, C2, C1, Hcb, Hca.
    destruct (GameEngine.on_card_exposed e); cbn [andb];
      rewrite <- ?app_assoc, ?app_nil_r; reflexivity.
Qed.

Lemma round_frame_refl e : round_frame e e.
Proof.
  repeat split. exists []. rewrite app_nil_r.
  repeat split; [intros x []|apply incl_refl].
Qed.

Lemma round_frame_trans e1 e2 e3 :
  round_frame e1 e2 -> round_frame e2 e3 -> round_frame e1 e3.
Proof.
  intros (D1 & C1 & s1 & X1 & I1 & J1) (D2 & C2 & s2 & X2 & I2 & J2).
  repeat split; try congruence.
  exists (s1 ++ s2). rewrite X2, X1, app_assoc. repeat split.
  - apply incl_app; [exact I1|]. eapply incl_tran; eauto.
  - eapply incl_tran; eauto.
Qed.

Lemma frames_bind {A B} (m : M GameEngine.t A) (k : A -> M GameEngine.t B) :
  frames m -> (forall a, frames (k a)) -> frames (bind m k).
Proof.
  intros Hm Hk e. unfold bind. specialize (Hm e).
  destruct (m e) as [a e1|x e1]; cbn [state_of] in *; [|exact Hm].
  eapply round_frame_trans; [exact Hm|apply Hk].
Qed.

Lemma frames_ret {A} (a : A) : frames (ret a).
Proof. intro e. apply round_frame_refl. Qed.

Lemma frames_raise {A} x : frames (@raise GameEngine.t A x).
Proof. intro e. apply round_frame_refl. Qed.

Lemma round_frame_set_player p e : round_frame e (GameEngine.set_player p e).
Proof.
  repeat split. exists []. cbn. rewrite app_nil_r.
  repeat split; [intros x []|apply incl_refl].
Qed.

Lemma frames_in_player {A} (m : M Player.t A) : frames (GameEngine.in_player m).
Proof.
  intro e. unfold GameEngine.in_player, zoom.
  destruct (m (GameEngine.player e)); apply round_frame_set_player.
Qed.

Lemma frames_modify_player (f : GameEngine.t -> Player.t) :
  frames (modify (fun e => GameEngine.set_player (f e) e)).
Proof. intro e. apply round_frame_set_player. Qed.

Lemma frames_deal_card r face_up : frames (GameEngine._deal_card r face_up).
Proof.
  intro e. destruct (GameEngine._deal_card r face_up e) as [c e'|x e'] eqn:E;
    cbn [state_of].
  - apply deal_card_effect in E as (S & D & C & X).
    repeat split; auto. exists (if face_up && GameEngine.on_card_exposed e then [c] else []).
    repeat split; auto.
    + rewrite S. destruct (face_up && _); intros x Hx; [|destruct Hx].
      apply in_or_app. right. exact Hx.
    + rewrite S. apply incl_appl, incl_refl.
  - apply deal_card_Raise in E as (_ & -> & _). apply round_frame_refl.
Qed.

Lemma frames_execute_action action i : frames (GameEngine.execute_action action i).
Proof.
  unfold GameEngine.execute_action.
  apply frames_bind; [apply frames_in_player|].
  intros [r h]. destruct action;
    match goal with
    | |- frames (if ?b then _ else _) => destruct b
    end;
    try apply frames_raise;
    repeat first
      [ apply frames_ret
      | apply frames_deal_card
      | apply frames_in_player
      | apply (frames_modify_player
                 (fun e => Player.update_hand _ _ (GameEngine.player e)))
      | apply frames_bind; [|intros]
      | match goal with
        | |- frames (let '(_, _) := ?p in _) => destruct p
        end ].
Qed.

Lemma frames_get_available_actions i : frames (GameEngine.get_available_actions i).
Proof.
  intro e. unfold GameEngine.get_available_actions.
  destruct (Z.leb _ _); [apply round_frame_refl|].
  destruct (Player.lookup i (GameEngine.player e)) as [[r h] p|x p];
    apply round_frame_refl.
Qed.

Lemma round_frame_resolve_round e :
  round_frame e (snd (GameEngine.resolve_round e)).
Proof.
  unfold GameEngine.resolve_round.
  destruct (GameEngine.resolve_hands _ _ _ _ _) as [results p]. cbn [snd].
  repeat split. exists []. cbn. rewrite app_nil_r.
  repeat split; [intros x []|apply incl_refl].
Qed.

Lemma round_frame_steps steps : forall e, round_frame e (run_round_steps steps e).
Proof.
  unfold run_round_steps.
  induction steps as [|s steps IH]; intro e; cbn [fold_left];
    [apply round_frame_refl|].
  eapply round_frame_trans; [|apply IH].
  destruct s; cbn [run_round_step];
    [apply frames_execute_action|apply frames_get_available_actions
    |apply round_frame_resolve_round].
Qed.

(** The dealer's turn. *)

Lemma dealer_frame_refl e : dealer_frame e e.
Proof.
  repeat split. exists []. destruct (GameEngine.on_card_exposed e);
    rewrite app_nil_r; reflexivity.
Qed.

Lemma dealer_frame_trans e1 e2 e3 :
  dealer_frame e1 e2 -> dealer_frame e2 e3 -> dealer_frame e1 e3.
Proof.
  intros (R1 & C1 & h1 & X1) (R2 & C2 & h2 & X2).
  repeat split; try congruence.
  exists (h1 ++ h2). rewrite X2, X1, C1.
  destruct (GameEngine.on_card_exposed e1);
    rewrite <- ?app_assoc, ?app_nil_r; reflexivity.
Qed.

Lemma dealer_frame_set_hand h e :
  dealer_frame e
    (GameEngine.set_dealer (Dealer.set_hand h (GameEngine.dealer e)) e).
Proof.
  repeat split. exists []. cbn. destruct (GameEngine.on_card_exposed e);
    rewrite app_nil_r; reflexivity.
Qed.

Lemma deal_callback_frame e :
  dealer_frame e (state_of (GameEngine.deal_callback e)) /\
  (forall x e', GameEngine.deal_callback e = Raise x e' -> x = ShoeEmpty) /\
  (forall c e', GameEngine.deal_callback e = Ok c e' ->
     S (length (Shoe._cards (GameEngine.shoe e'))) =
       length (Shoe._cards (GameEngine.shoe e))).
Proof.
  unfold GameEngine.deal_callback, bind, GameEngine.in_shoe, zoom, modify, ret.
  destruct (Shoe.deal (GameEngine.shoe e)) as [c s|y s] eqn:E;
    cbn [state_of].
  - apply deal_Ok in E as [Hc _].
    cbn [GameEngine.set_dealer GameEngine.set_shoe GameEngine.on_card_exposed].
    repeat split.
    + destruct (GameEngine.on_card_exposed e); reflexivity.
    + destruct (GameEngine.on_card_exposed e) eqn:Ecb; cbn; rewrite ?Ecb; reflexivity.
    + exists [c]. destruct (GameEngine.on_card_exposed e); cbn;
        rewrite ?app_nil_r; reflexivity.
    + discriminate.
    + intros c0 e' [= <- <-].
      destruct (GameEngine.on_card_exposed e); cbn; rewrite Hc, length_app;
        cbn; lia.
  - apply deal_Raise in E as (-> & -> & _). rewrite set_shoe_same.
    repeat split; try discriminate.
    + exists []. destruct (GameEngine.on_card_exposed e);
        rewrite app_nil_r; reflexivity.
    + intros x e' [= <- <-]. reflexivity.
Qed.

Lemma play_loop_frame fuel : forall e,
  dealer_frame e
    (state_of (Dealer.play_loop GameEngine.dealer GameEngine.set_dealer
                 GameEngine.deal_callback fuel e)) /\
  (forall x e',
     Dealer.play_loop GameEngine.dealer GameEngine.set_dealer
       GameEngine.deal_callback fuel e = Raise x e' ->
     (length (Shoe._cards (GameEngine.shoe e)) < fuel)%nat ->
     x = ShoeEmpty).
Proof.
  induction fuel as [|fuel IH]; intro e; cbn [Dealer.play_loop].
  - destruct (_ && _); cbn [state_of]; split;
      try apply dealer_frame_refl; try discriminate; intros; lia.
  - destruct (_ && _); cbn [state_of];
      [|split; [apply dealer_frame_refl|discriminate]].
    destruct (deal_callback_frame e) as (Hf & Hr & Hl).
    destruct (GameEngine.deal_callback e) as [c e1|y e1] eqn:E; cbn [state_of] in *.
    + specialize (Hl _ _ eq_refl).
      destruct (IH (GameEngine.set_dealer
                      (Dealer.receive_card c true (GameEngine.dealer e1)) e1))
        as [IH1 IH2].
      split.
      * eapply dealer_frame_trans; [exact Hf|].
        eapply dealer_frame_trans; [|exact IH1].
        apply dealer_frame_set_hand.
      * intros x e' Hx Hlen. eapply IH2; [exact Hx|]. cbn. lia.
    + split; [exact Hf|]. intros x e' [= <- <-] _. eapply Hr; reflexivity.
Qed.

(** The bound of the dealer's loop is never hit: [play_dealer] returns, or
    raises the IndexError of an empty shoe. *)
Lemma play_dealer_terminates e x e' :
  GameEngine.play_dealer e = Raise x e' -> x = ShoeEmpty.
Proof.
  unfold GameEngine.play_dealer, Dealer.play.
  set (e1 := GameEngine.reveal_and_expose e).
  destruct (reveal_and_expose_facts e) as (_ & Hs & _ & Hr & _).
  fold e1 in Hs, Hr. rewrite Hr. cbn [negb].
  destruct (play_loop_frame (S (length (Shoe._cards (GameEngine.shoe e1)))) e1)
    as [_ H].
  destruct (Dealer.play_loop _ _ _ _ e1) as [u e2|y e2]; [discriminate|].
  intros [= <- <-]. eapply H; [reflexivity|lia].
Qed.

Lemma play_dealer_frame e :
  Dealer.hole_card_revealed
    (GameEngine.dealer (state_of (GameEngine.play_dealer e))) = true /\
  exists hits,
    GameEngine.exposed (state_of (GameEngine.play_dealer e)) =
      GameEngine.exposed e ++
      (if GameEngine.on_card_exposed e
       then match Dealer.hole_card (GameEngine.dealer e) with
            | Some card => card :: hits
            | None => hits
            end
       else []).
Proof.
  unfold GameEngine.play_dealer, Dealer.play.
  set (e1 := GameEngine.reveal_and_expose e).
  destruct (reveal_and_expose_facts e) as (_ & _ & _ & Hr & Hcb & Hx).
  fold e1 in Hr, Hcb, Hx. rewrite Hr. cbn [negb].
  destruct (play_loop_frame (S (length (Shoe._cards (GameEngine.shoe e1)))) e1)
    as [(R & C & hits & X) _].
  assert (Hfin : forall e2,
             dealer_frame e1 e2 ->
             Dealer.hole_card_revealed (GameEngine.dealer e2) = true /\
             exists hits,
               GameEngine.exposed e2 =
                 GameEngine.exposed e ++
                 (if GameEngine.on_card_exposed e
                  then match Dealer.hole_card (GameEngine.dealer e) with
                       | Some card => card :: hits
                       | None => hits
                       end
                  else [])).
  { intros e2 (R2 & C2 & h2 & X2). split; [congruence|].
    exists h2. rewrite X2, Hx, Hcb.
    destruct (GameEngine.on_card_exposed e);
      destruct (Dealer.hole_card (GameEngine.dealer e));
      rewrite <- ?app_assoc, ?app_nil_r; reflexivity. }
  destruct (Dealer.play_loop _ _ _ _ e1) as [u e2|y e2]; cbn [state_of] in *.
  - apply Hfin. eapply dealer_frame_trans.
    + exact (conj R (conj C (ex_intro _ hits X))).
    + apply dealer_frame_set_hand.
  - apply Hfin. exact (conj R (conj C (ex_intro _ hits X))).
Qed.

Lemma check_early_blackjack_reveal e res e' :
  GameEngine.check_early_blackjack e = Ok res e' ->
  (res = None /\ e' = e) \/
  (res <> None /\
   Dealer.hole_card_revealed (GameEngine.dealer e') = true /\
   GameEngine.exposed e' =
     GameEngine.exposed e ++
     match Dealer.hole_card (GameEngine.dealer e) with
     | Some card => if GameEngine.on_card_exposed e then [card] else []
     | None => []
     end).
Proof.
  unfold GameEngine.check_early_blackjack.
  destruct (Player.hands (GameEngine.player e)) as [|ph hs]; [discriminate|].
  destruct (Dealer.upcard (GameEngine.dealer e)) as [up|]; [|discriminate].
  destruct (Hand.is_blackjack ph || _); [|intros [= <- <-]; auto].
  destruct (Hand.is_blackjack (Dealer.hand (GameEngine.dealer e)));
    [|destruct (Hand.is_blackjack ph); [|intros [= <- <-]; auto]].
  - destruct (Hand.is_blackjack ph); intros [= <- <-]; right;
      (split; [discriminate|]);
      destruct (reveal_and_expose_facts e) as (_ & _ & _ & Hr & _ & Hx);
      cbn [GameEngine.set_player GameEngine.dealer GameEngine.exposed]; auto.
  - intros [= <- <-]. right. split; [discriminate|].
    match goal with
    | |- context [GameEngine.reveal_and_expose ?e0] =>
        destruct (reveal_and_expose_facts e0) as (_ & _ & _ & Hr & _ & Hx)
    end.
    split; [exact Hr|]. rewrite Hx. reflexivity.
Qed.

(** C1. In a round dealt by [start_round] from a shoe without duplicates,
    and after any run of actions, queries and resolutions that follows, the
    dealer holds a hole card that is not revealed and that is none of the
    cards the callback has received since the round began; the callback
    receives it at the reveal
    of an early resolution of [check_early_blackjack], which returns no
    resolution without touching anything otherwise, and at the start of
    [play_dealer], in both cases with the hole card marked revealed. *)
Theorem hole_card_hidden_until_reveal :
  forall (e e1 : GameEngine.t) (bet : option float)
         (r : hand_ref * option Card.t) (steps : list round_step),
    NoDup (Shoe._cards (GameEngine.shoe e)) ->
    GameEngine.start_round bet e = Ok r e1 ->
    exists (hole : Card.t) (seen : list Card.t),
      Dealer.hole_card (GameEngine.dealer (run_round_steps steps e1)) = Some hole /\
      Dealer.hole_card_revealed
        (GameEngine.dealer (run_round_steps steps e1)) = false /\
      GameEngine.exposed (run_round_steps steps e1) = GameEngine.exposed e ++ seen /\
      ~ In hole seen /\
      (forall res e3,
         GameEngine.check_early_blackjack (run_round_steps steps e1) = Ok res e3 ->
         (res = None /\ e3 = run_round_steps steps e1) \/
         (res <> None /\
          Dealer.hole_card_revealed (GameEngine.dealer e3) = true /\
          GameEngine.exposed e3 =
            GameEngine.exposed (run_round_steps steps e1) ++
            (if GameEngine.on_card_exposed e then [hole] else []))) /\
      Dealer.hole_card_revealed
        (GameEngine.dealer
           (state_of (GameEngine.play_dealer (run_round_steps steps e1)))) = true /\
      exists hits,
        GameEngine.exposed
          (state_of (GameEngine.play_dealer (run_round_steps steps e1))) =
          GameEngine.exposed (run_round_steps steps e1) ++
          (if GameEngine.on_card_exposed e then hole :: hits else []).
Proof.
  intros e e1 bet r steps Hnd Hstart.
  apply start_round_Ok in Hstart
    as (rest & p1 & d1 & p2 & hole & burned & Hn & Hrest & Hdc & Hrev & Hcb & Hx).
  specialize (Hn Hnd). apply NoDup_remove_2 in Hn.
  destruct (round_frame_steps steps e1) as (D & C & seen2 & X2 & I2 & _).
  set (e2 := run_round_steps steps e1) in *.
  assert (Hhole : Dealer.hole_card (GameEngine.dealer e2) = Some hole).
  { rewrite D. unfold Dealer.hole_card, Hand.hole_card. rewrite Hdc. reflexivity. }
  exists hole,
    ((if GameEngine.on_card_exposed e then burned ++ [p1; d1; p2] else []) ++ seen2).
  split; [exact Hhole|]. split; [rewrite D; exact Hrev|].
  split; [rewrite X2, Hx, app_assoc; reflexivity|].
  split.
  { intro Hin. apply Hn. apply in_app_or in Hin as [Hin|Hin].
    - apply in_or_app. right.
      destruct (GameEngine.on_card_exposed e); [|destruct Hin].
      apply in_app_or in Hin as [Hin|Hin].
      + cbn. right. right. right. exact Hin.
      + cbn in Hin |- *. intuition.
    - apply in_or_app. left. rewrite <- Hrest. apply I2, Hin. }
  split.
  { intros res e3 Hc. apply check_early_blackjack_reveal in Hc.
    rewrite Hhole, C, Hcb in Hc. exact Hc. }
  destruct (play_dealer_frame e2) as (Hr & hits & Hp).
  split; [exact Hr|]. exists hits. rewrite Hp, Hhole, C, Hcb. reflexivity.
Qed.

(** Scenario A: after the deal, a query, a hit and a stand, the callback
    has seen 10-clubs, 6-spades, 9-diamonds and the 2 of clubs hit, and the
    9 of hearts in the hole is still hidden. *)
Lemma hole_card_hidden_until_reveal_witness :
  NoDup (Shoe._cards (GameEngine.shoe scenario_A)) /\
  GameEngine.start_round None scenario_A =
    Ok (0%nat, Some six_spades) scenario_A_dealt /\
  Dealer.hole_card
    (GameEngine.dealer (run_round_steps scenario_A_steps scenario_A_dealt)) =
    Some nine_hearts /\
  GameEngine.exposed (run_round_steps scenario_A_steps scenario_A_dealt) =
    [ten_clubs; six_spades; nine_diamonds; two_clubs] /\
  exists hole seen,
    Dealer.hole_card
      (GameEngine.dealer (run_round_steps scenario_A_steps scenario_A_dealt)) =
      Some hole /\
    GameEngine.exposed (run_round_steps scenario_A_steps scenario_A_dealt) =
      GameEngine.exposed scenario_A ++ seen /\
    ~ In hole seen.
Proof.
  assert (Hnd : NoDup (Shoe._cards (GameEngine.shoe scenario_A))).
  { cbn. repeat (constructor; [cbn; intuition discriminate|]). constructor. }
  assert (Hs : GameEngine.start_round None scenario_A =
               Ok (0%nat, Some six_spades) scenario_A_dealt)
    by (vm_compute; reflexivity).
  split; [exact Hnd|]. split; [exact Hs|].
  split; [vm_compute; reflexivity|]. split; [vm_compute; reflexivity|].
  destruct (@hole_card_hidden_until_reveal scenario_A scenario_A_dealt None
              (0%nat, Some six_spades) scenario_A_steps Hnd Hs)
    as (hole & seen & H1 & _ & H3 & H4 & _).
  exists hole, seen. auto.
Defined.

(** In [play_dealer] a card the dealer hits is added to the dealer's hand
    by [deal_callback] and again by [Dealer.play]: from 6-spades and
    9-hearts, hitting the 2 of clubs leaves the hand with two of them, worth
    19, while the callback sees the hole card and the 2 of clubs once. *)
Lemma play_dealer_adds_each_hit_twice :
  exists e',
    GameEngine.play_dealer scenario_A_stood = Ok tt e' /\
    Hand.cards (Dealer.hand (GameEngine.dealer scenario_A_stood)) =
      [six_spades; nine_hearts] /\
    Hand.cards (Dealer.hand (GameEngine.dealer e')) =
      [six_spades; nine_hearts; two_clubs; two_clubs] /\
    Dealer.final_value (GameEngine.dealer e') = 19 /\
    GameEngine.exposed e' =
      GameEngine.exposed scenario_A_stood ++ [nine_hearts; two_clubs].
Proof.
  eexists. split; [vm_compute; reflexivity|].
  repeat split; vm_compute; reflexivity.
Qed.

(** ** Construction *)

(** C9, as the code has it. The constructors of the objects that consume
    the configuration store what they are given: each returns its object,
    with the dealer rule, the penetration, the blackjack payout, the split
    limit, the bankroll and the base bet exactly as passed, whatever their
    values. *)
Theorem constructors_store_their_inputs :
  forall (rule : Dealer.DealerRule) (penetration blackjack_payout : float)
         (max_splits : Z) (bankroll base_bet : float)
         (allow_das allow_surrender resplit_aces : bool)
         (cards_per_drill : Z) (quiz : float) (show_tc show_correct : bool)
         (delay : Z) (callback : bool) (g : random.state),
    (exists s, Construct.Shoe_ penetration g = Ok s (Shoe.rng s) /\
               Shoe.penetration s = penetration /\
               Shoe.cards_remaining s = 52 /\ Shoe.cards_dealt s = 0) /\
    (exists d, Construct.Dealer_ rule tt = Ok d tt /\ Dealer.rule d = rule) /\
    (exists p, Construct.Player_ bankroll base_bet max_splits tt = Ok p tt /\
               Player.bankroll p = bankroll /\ Player.base_bet p = base_bet /\
               Player.max_splits p = max_splits) /\
    (forall s p d,
       exists e, Construct.GameEngine_ s p d callback blackjack_payout tt = Ok e tt /\
                 GameEngine.blackjack_payout e = blackjack_payout /\
                 GameEngine.shoe e = s /\ GameEngine.player e = p /\
                 GameEngine.dealer e = d) /\
    (exists c, Construct.GameConfig_ rule penetration blackjack_payout allow_das
                 allow_surrender max_splits resplit_aces tt = Ok c tt /\
               GameConfig.dealer_rule c = rule /\
               GameConfig.penetration c = penetration /\
               GameConfig.blackjack_payout c = blackjack_payout /\
               GameConfig.max_splits c = max_splits) /\
    (exists c, Construct.TrainingConfig_ cards_per_drill quiz show_tc show_correct
                 delay bankroll base_bet tt = Ok c tt /\
               TrainingConfig.starting_bankroll c = bankroll /\
               TrainingConfig.base_bet c = base_bet).
Proof.
  intros. split; [|split; [|split; [|split; [|split]]]].
  - unfold Construct.Shoe_, Shoe.new. cbn [Shoe.rng].
    destruct (shuffle_cards (Shoe.mk penetration [] 0 g)) as [Hp Hd].
    exists (Shoe.shuffle (Shoe.mk penetration [] 0 g)).
    split; [reflexivity|]. split; [|split].
    + unfold Shoe.shuffle. cbn [Shoe.rng Shoe.penetration].
      destruct (random.shuffle create_deck g). reflexivity.
    + unfold Shoe.cards_remaining. rewrite (Permutation_length Hp). reflexivity.
    + exact Hd.
  - eexists. split; reflexivity.
  - eexists. repeat split; reflexivity.
  - intros s p d. eexists. repeat split; reflexivity.
  - eexists. repeat split; reflexivity.
  - eexists. repeat split; reflexivity.
Qed.

(** C9, as stated, fails: a shoe is constructed with a penetration of 2.5,
    which is stored as it is; with all 52 cards dealt that shoe still does
    not ask for a shuffle, as it would had the value been clamped to 1. *)
Lemma shoe_accepts_any_penetration :
  ~ shoe_construction_validates /\
  (exists s, Construct.Shoe_ 2.5%float [] = Ok s [] /\
             Shoe.penetration s = 2.5%float) /\
  Shoe.needs_shuffle (Shoe.mk 2.5%float [] 52 []) = false /\
  Shoe.needs_shuffle (Shoe.mk 1%float [] 52 []) = true.
Proof.
  split; [|split; [|split; vm_compute; reflexivity]].
  - intro H. destruct (H 2.5%float [] eq_refl) as (x & g' & Hx).
    vm_compute in Hx. discriminate.
  - eexists. split; vm_compute; reflexivity.
Qed.

(** * Further properties of the code *)

(** ** The shoe: dealing, burning and peeking *)

Lemma deal_snoc s l c :
  Shoe._cards s = l ++ [c] ->
  Shoe.deal s =
    Ok c (Shoe.mk (Shoe.penetration s) l (Shoe._dealt_count s + 1) (Shoe.rng s)).
Proof.
  intro H. unfold Shoe.deal. rewrite H, pop_snoc. reflexivity.
Qed.

Lemma deal_many_top n : forall s l cs,
  Shoe._cards s = l ++ cs -> length cs = n ->
  deal_many n s =
    Ok (rev cs)
       (Shoe.mk (Shoe.penetration s) l (Shoe._dealt_count s + Z.of_nat n)
          (Shoe.rng s)).
Proof.
  induction n as [|n IH]; intros s l cs Hc Hlen.
  - destruct cs; [|discriminate]. rewrite app_nil_r in Hc. cbn.
    rewrite Z.add_0_r, <- Hc. destruct s; reflexivity.
  - destruct (exists_last (l := cs)) as (cs' & c & ->).
    { intros ->. discriminate. }
    rewrite length_app in Hlen. cbn in Hlen.
    rewrite app_assoc in Hc.
    cbn [deal_many]. unfold bind at 1.
    rewrite deal_snoc with (l := l ++ cs') (c := c) by exact Hc.
    unfold bind, ret.
    rewrite (IH _ l cs') by (cbn; auto; lia). cbn.
    rewrite rev_app_distr. cbn. do 2 f_equal. lia.
Qed.

(** X1. A shuffled shoe deals its 52 cards one by one from the top, each
    card of the deck exactly once, and the next [deal] raises the IndexError
    of the empty shoe without changing it. *)
Theorem shuffled_shoe_deals_the_whole_deck : forall s : Shoe.t,
  exists s',
    deal_many 52 (Shoe.shuffle s) = Ok (rev (Shoe._cards (Shoe.shuffle s))) s' /\
    Permutation (rev (Shoe._cards (Shoe.shuffle s))) create_deck /\
    NoDup (rev (Shoe._cards (Shoe.shuffle s))) /\
    Shoe.cards_remaining s' = 0 /\ Shoe.cards_dealt s' = 52 /\
    Shoe.deal s' = Raise ShoeEmpty s'.
Proof.
  intro s. destruct (shuffle_cards s) as [Hp Hd].
  eexists. split; [|split; [|split; [|split; [|split]]]].
  - apply deal_many_top with (l := []);
      [reflexivity|]. rewrite (Permutation_length Hp). reflexivity.
  - rewrite <- Hp. symmetry. apply Permutation_rev.
  - apply (Permutation_NoDup (l := Shoe._cards (Shoe.shuffle s)));
      [apply Permutation_rev|apply shuffle_NoDup].
  - reflexivity.
  - unfold Shoe.cards_dealt. cbn [Shoe._dealt_count]. rewrite Hd. reflexivity.
  - reflexivity.
Qed.

Lemma burn_loop_is_deal_many n : forall burned s,
  Shoe.burn_loop n burned s =
  match deal_many (Nat.min n (length (Shoe._cards s))) s with
  | Ok cs s' => Ok (burned ++ cs) s'
  | Raise x s' => Raise x s'
  end.
Proof.
  induction n as [|n IH]; intros burned s; cbn [Shoe.burn_loop].
  - cbn. rewrite app_nil_r. reflexivity.
  - destruct (Shoe._cards s) as [|c0 cs0] eqn:Ecs.
    + rewrite IH, Ecs. cbn [length]. rewrite !Nat.min_0_r. reflexivity.
    + destruct (exists_last (l := c0 :: cs0)) as (l & c & Hl); [discriminate|].
      rewrite Hl. rewrite <- Ecs in Hl.
      rewrite length_app. cbn [length].
      replace (length l + 1)%nat with (S (length l)) by lia.
      cbn [Nat.min deal_many]. unfold bind at 1.
      rewrite deal_snoc with (l := l) (c := c) by exact Hl.
      rewrite IH. cbn [Shoe._cards].
      unfold bind, ret.
      destruct (deal_many _ _) as [cs s'|x s']; [|reflexivity].
      rewrite <- app_assoc. reflexivity.
Qed.

(** X2. [burn(count)] never raises: it is [deal] called [count] times,
    capped at the number of cards left, and returns the cards in the order
    they were dealt; a count of zero or less burns nothing. *)
Theorem burn_is_capped_dealing : forall (count : Z) (s : Shoe.t),
  let k := Nat.min (Z.to_nat count) (length (Shoe._cards s)) in
  Shoe.burn count s =
    Ok (rev (skipn (length (Shoe._cards s) - k) (Shoe._cards s)))
       (Shoe.mk (Shoe.penetration s)
          (firstn (length (Shoe._cards s) - k) (Shoe._cards s))
          (Shoe._dealt_count s + Z.of_nat k) (Shoe.rng s)) /\
  Shoe.burn count s = deal_many k s /\
  (count <= 0 -> Shoe.burn count s = Ok [] s).
Proof.
  intros count s k.
  assert (Hk : (k <= length (Shoe._cards s))%nat) by apply Nat.le_min_r.
  assert (Hdm : deal_many k s =
                Ok (rev (skipn (length (Shoe._cards s) - k) (Shoe._cards s)))
                   (Shoe.mk (Shoe.penetration s)
                      (firstn (length (Shoe._cards s) - k) (Shoe._cards s))
                      (Shoe._dealt_count s + Z.of_nat k) (Shoe.rng s))).
  { apply deal_many_top.
    - symmetry. apply firstn_skipn.
    - rewrite length_skipn. lia. }
  assert (Hb : Shoe.burn count s = deal_many k s).
  { unfold Shoe.burn. rewrite burn_loop_is_deal_many. fold k. rewrite Hdm.
    reflexivity. }
  split; [rewrite Hb; exact Hdm|]. split; [exact Hb|].
  intro Hc. rewrite Hb. subst k.
  replace (Z.to_nat count) with 0%nat by lia. reflexivity.
Qed.

Lemma slice_from_neg {A} (l : list A) (n : Z) :
  0 < n <= Z.of_nat (length l) ->
  pylist.slice_from l (- n) = skipn (length l - Z.to_nat n) l.
Proof.
  intro H. unfold pylist.slice_from.
  destruct (Z.ltb_spec (- n) 0); [|lia].
  destruct (Z.ltb_spec (- n + Z.of_nat (length l)) 0); [lia|].
  f_equal. lia.
Qed.

(** X3. [peek(count)] with [1 <= count <= len] returns the top [count]
    cards, the next card to be dealt last: reversed, it is what [count]
    calls of [deal] return. [peek(0)] returns the whole shoe, not an empty
    list, as does a count larger than the shoe. *)
Theorem peek_shows_the_next_cards : forall (s : Shoe.t) (count : Z),
  (0 < count <= Z.of_nat (length (Shoe._cards s)) ->
     length (Shoe.peek count s) = Z.to_nat count /\
     exists s', deal_many (Z.to_nat count) s = Ok (rev (Shoe.peek count s)) s') /\
  Shoe.peek 0 s = Shoe._cards s /\
  (Z.of_nat (length (Shoe._cards s)) < count -> Shoe.peek count s = Shoe._cards s).
Proof.
  intros s count. split; [|split].
  - intro H. unfold Shoe.peek.
    destruct (Z.leb_spec count (Z.of_nat (length (Shoe._cards s)))); [|lia].
    rewrite slice_from_neg by lia. split.
    + rewrite length_skipn. lia.
    + eexists. apply deal_many_top.
      * symmetry. apply firstn_skipn.
      * rewrite length_skipn. lia.
  - unfold Shoe.peek.
    destruct (Z.leb_spec 0 (Z.of_nat (length (Shoe._cards s)))); reflexivity.
  - intro H. unfold Shoe.peek.
    destruct (Z.leb_spec count (Z.of_nat (length (Shoe._cards s)))); [lia|].
    reflexivity.
Qed.

(** A shoe of three cards: one peeked card is the one dealt next. *)
Lemma peek_shows_the_next_cards_witness :
  let s := Shoe.mk Shoe.default_penetration
             [three_hearts; king_hearts; two_clubs] 49 [] in
  0 < 2 <= Z.of_nat (length (Shoe._cards s)) /\
  Shoe.peek 2 s = [king_hearts; two_clubs] /\
  exists s', deal_many 2 s = Ok [two_clubs; king_hearts] s'.
Proof.
  cbv zeta. split; [cbn; lia|]. split; [reflexivity|].
  destruct (proj1 (@peek_shows_the_next_cards
                     (Shoe.mk Shoe.default_penetration
                        [three_hearts; king_hearts; two_clubs] 49 []) 2))
    as [_ [s' H]]; [cbn; lia|].
  exists s'. exact H.
Defined.

(** ** Hands: soft totals and naturals *)

Lemma total_low_ge_aces cs : Z.of_nat (Hand.count_aces cs) <= total_low cs.
Proof.
  unfold total_low, Hand.count_aces.
  induction cs as [|c cs IH]; [cbn; lia|].
  cbn [map fold_right filter]. unfold low_card_value at 1.
  destruct (Card.is_ace c) eqn:E.
  - cbn [length]. rewrite Nat2Z.inj_succ. lia.
  - assert (0 < Card.value c) by (destruct c as [[] s]; cbn; lia). lia.
Qed.

(** With [low] the total at one point per Ace, the loop ends on [low + 10]
    when there is an Ace and that does not exceed 21, and on [low]
    otherwise; it demotes every Ace but one in the first case, every Ace in
    the second. *)
Lemma demote_counting_result aces : forall total k,
  Z.of_nat aces <= total - 10 * Z.of_nat aces ->
  Hand.demote_counting total aces k =
  if (1 <=? aces)%nat && (total - 10 * Z.of_nat aces + 10 <=? 21)
  then (total - 10 * Z.of_nat aces + 10, (k + aces - 1)%nat)
  else (total - 10 * Z.of_nat aces, (k + aces)%nat).
Proof.
  induction aces as [|n IH]; intros total k Hlow.
  - cbn. rewrite Z.sub_0_r, Nat.add_0_r. reflexivity.
  - cbn [Hand.demote_counting]. rewrite Nat2Z.inj_succ in *.
    cbn [Nat.leb andb].
    destruct (Z.ltb_spec 21 total) as [Hgt|Hle].
    + rewrite IH by lia.
      replace (total - 10 - 10 * Z.of_nat n) with (total - 10 * Z.succ (Z.of_nat n))
        by lia.
      destruct n as [|n].
      * cbn [Nat.leb andb].
        destruct (Z.leb_spec (total - 10 * Z.succ (Z.of_nat 0) + 10) 21);
          [cbn in *; lia|]. f_equal. lia.
      * cbn [Nat.leb andb].
        destruct (Z.leb_spec (total - 10 * Z.succ (Z.of_nat (S n)) + 10) 21);
          f_equal; lia.
    + destruct (Z.leb_spec (total - 10 * Z.succ (Z.of_nat n) + 10) 21).
      * f_equal; lia.
      * lia.
Qed.

(** X4. A hand is soft exactly when it holds an Ace and counting one Ace
    at 11 and the others at 1 does not exceed 21; its value is then that
    total, and otherwise the total with every Ace at 1. At most one Ace ever
    counts 11. *)
Theorem soft_hand_characterisation : forall h : Hand.t,
  Hand.is_soft h =
    (1 <=? Hand.count_aces (Hand.cards h))%nat
    && (total_low (Hand.cards h) + 10 <=? 21) /\
  Hand.soft_value h = (Hand.value h, Hand.is_soft h) /\
  Hand.value h =
    if Hand.is_soft h then total_low (Hand.cards h) + 10
    else total_low (Hand.cards h).
Proof.
  intro h.
  pose proof (total_low_ge_aces (Hand.cards h)) as Hge.
  pose proof (total_low_high (Hand.cards h)) as Hlow.
  assert (Hsv : Hand.soft_value h = (Hand.value h, Hand.is_soft h)).
  { unfold Hand.is_soft. rewrite <- soft_value_fst.
    destruct (Hand.soft_value h). reflexivity. }
  assert (Hsoft : Hand.soft_value h =
                  if (1 <=? Hand.count_aces (Hand.cards h))%nat
                     && (total_low (Hand.cards h) + 10 <=? 21)
                  then (total_low (Hand.cards h) + 10, true)
                  else (total_low (Hand.cards h), false)).
  { unfold Hand.soft_value.
    rewrite demote_counting_result by lia. rewrite <- Hlow.
    destruct (Nat.leb_spec 1 (Hand.count_aces (Hand.cards h))) as [Ha|Ha];
      cbn [andb].
    - destruct (Z.leb_spec (total_low (Hand.cards h) + 10) 21) as [Hs|Hs].
      + f_equal. apply andb_true_intro. split.
        * apply Nat.ltb_lt. lia.
        * apply Z.leb_le. lia.
      + f_equal. apply andb_false_intro1. apply Nat.ltb_ge. lia.
    - f_equal. apply andb_false_intro1. apply Nat.ltb_ge. lia. }
  rewrite Hsv in Hsoft.
  destruct ((1 <=? Hand.count_aces (Hand.cards h))%nat
            && (total_low (Hand.cards h) + 10 <=? 21));
    injection Hsoft as Hv Hs; rewrite Hs in *; auto.
Qed.

(** X5. A hand is a natural blackjack exactly when it was not made by a
    split and holds exactly two cards, an Ace and a ten-value card, in
    either order. *)
Theorem blackjack_characterisation : forall h : Hand.t,
  Hand.is_blackjack h = true <->
  Hand.is_split_hand h = false /\
  exists c1 c2,
    Hand.cards h = [c1; c2] /\
    (Card.is_ace c1 && Card.is_ten_value c2
     || Card.is_ten_value c1 && Card.is_ace c2) = true.
Proof.
  intro h. unfold Hand.is_blackjack, Hand.value. split.
  - intro H. apply andb_prop in H as [H Hs]. apply andb_prop in H as [Hlen Hv].
    split; [destruct (Hand.is_split_hand h); [discriminate|reflexivity]|].
    destruct (Hand.cards h) as [|c1 [|c2 [|c3 cs]]]; try discriminate.
    exists c1, c2. split; [reflexivity|].
    destruct c1 as [[] s1], c2 as [[] s2]; cbn in Hv; try discriminate; reflexivity.
  - intros (Hs & c1 & c2 & Hc & H). rewrite Hc, Hs. cbn [length Nat.eqb negb].
    rewrite andb_true_r.
    destruct c1 as [[] s1], c2 as [[] s2]; cbn in H; try discriminate; reflexivity.
Qed.

(** ** The player: which hand plays next *)

Lemma active_index_from_spec hs : forall i,
  match active_index_from i hs with
  | None =>
      forallb (fun h => negb (Hand.HandStatus_eqb (Hand.status h) Hand.ACTIVE)) hs
        = true /\
      find (fun h => Hand.HandStatus_eqb (Hand.status h) Hand.ACTIVE) hs = None
  | Some k =>
      (i <= k)%nat /\
      forallb (fun h => negb (Hand.HandStatus_eqb (Hand.status h) Hand.ACTIVE)) hs
        = false /\
      exists h,
        nth_error hs (k - i) = Some h /\ Hand.status h = Hand.ACTIVE /\
        find (fun h => Hand.HandStatus_eqb (Hand.status h) Hand.ACTIVE) hs = Some h /\
        forall j h', (j < k - i)%nat -> nth_error hs j = Some h' ->
                     Hand.status h' <> Hand.ACTIVE
  end.
Proof.
  induction hs as [|h0 hs IH]; intro i; cbn [active_index_from forallb find].
  - auto.
  - destruct (Hand.HandStatus_eqb (Hand.status h0) Hand.ACTIVE) eqn:E; cbn [negb andb].
    + split; [lia|]. split; [reflexivity|]. exists h0. rewrite Nat.sub_diag.
      repeat split; auto using active_eqb. intros j h' Hj. lia.
    + specialize (IH (S i)).
      destruct (active_index_from (S i) hs) as [k|]; [|exact IH].
      destruct IH as (Hle & Hf & h & Hn & Hs & Hfind & Hbefore).
      split; [lia|]. split; [exact Hf|]. exists h.
      replace (k - i)%nat with (S (k - S i)) by lia.
      repeat split; auto. intros [|j] h' Hj Hn'.
      * cbn in Hn'. injection Hn' as <-. intro H. rewrite H in E. discriminate.
      * apply (Hbefore j); [lia|exact Hn'].
Qed.

(** X6. [active_hand_index] is [None] exactly when [all_hands_complete];
    otherwise it is the position of the first ACTIVE hand, every hand before
    it being non-ACTIVE, and [active_hand] is the hand at that position. *)
Theorem active_hand_is_first_active : forall p : Player.t,
  match Player.active_hand_index p with
  | None => Player.all_hands_complete p = true /\ Player.active_hand p = None
  | Some i =>
      Player.all_hands_complete p = false /\
      exists h,
        nth_error (Player.hands p) i = Some h /\
        Hand.status h = Hand.ACTIVE /\
        Player.active_hand p = Some h /\
        forall j h', (j < i)%nat -> nth_error (Player.hands p) j = Some h' ->
                     Hand.status h' <> Hand.ACTIVE
  end.
Proof.
  intro p. change (Player.active_hand_index p)
    with (active_index_from 0 (Player.hands p)).
  pose proof (active_index_from_spec (Player.hands p) 0) as H.
  unfold Player.all_hands_complete, Player.active_hand.
  destruct (active_index_from 0 (Player.hands p)) as [k|]; [|exact H].
  rewrite Nat.sub_0_r in H. destruct H as (_ & Hf & H). auto.
Qed.

(** ** The engine: starting a round *)

Lemma add_two_cards b c1 c2 :
  Hand.add_card c2 (Hand.add_card c1 (Hand.new b)) =
  Hand.mk [c1; c2] Hand.ACTIVE b false false.
Proof.
  destruct c1 as [[] s1], c2 as [[] s2]; reflexivity.
Qed.

Lemma shuffle_if_needed_inv e :
  exists ea burned,
    GameEngine.shuffle_if_needed e = Ok tt ea /\
    (if Shoe.needs_shuffle (GameEngine.shoe e)
     then Shoe._cards (Shoe.shuffle (GameEngine.shoe e))
     else Shoe._cards (GameEngine.shoe e)) =
      Shoe._cards (GameEngine.shoe ea) ++ burned /\
    length burned = (if Shoe.needs_shuffle (GameEngine.shoe e) then 1 else 0)%nat /\
    (Shoe.needs_shuffle (GameEngine.shoe e) = false -> ea = e) /\
    (Shoe.needs_shuffle (GameEngine.shoe e) = true ->
     Shoe.cards_remaining (GameEngine.shoe ea) = 51 /\
     Shoe.cards_dealt (GameEngine.shoe ea) = 1) /\
    GameEngine.player ea = GameEngine.player e /\
    GameEngine.dealer ea = GameEngine.dealer e /\
    GameEngine.on_card_exposed ea = GameEngine.on_card_exposed e /\
    GameEngine.blackjack_payout ea = GameEngine.blackjack_payout e /\
    GameEngine._round_in_progress ea = GameEngine._round_in_progress e /\
    GameEngine.exposed ea =
      GameEngine.exposed e ++ (if GameEngine.on_card_exposed e then burned else []).
Proof.
  unfold GameEngine.shuffle_if_needed.
  destruct (Shoe.needs_shuffle (GameEngine.shoe e)) eqn:En.
  - unfold bind, modify, GameEngine.in_shoe, zoom.
    cbn [GameEngine.set_shoe GameEngine.shoe].
    destruct (shuffle_cards (GameEngine.shoe e)) as [Hp Hd].
    assert (Hlen : length (Shoe._cards (Shoe.shuffle (GameEngine.shoe e))) = 52%nat)
      by (rewrite (Permutation_length Hp); reflexivity).
    destruct (@burn_one_full (Shoe.shuffle (GameEngine.shoe e))) as (c & s' & Hb & Hc).
    { intro H. rewrite H in Hlen. discriminate. }
    rewrite Hb.
    assert (Hs' : Shoe.cards_remaining s' = 51 /\ Shoe.cards_dealt s' = 1).
    { pose proof (proj1 (burn_loop_conserves 1 [] (Shoe.shuffle (GameEngine.shoe e))))
        as Hcons.
      unfold Shoe.burn in Hb. change (Z.to_nat 1) with 1%nat in Hb.
      rewrite Hb in Hcons. cbn [state_of] in Hcons.
      assert (L : length (Shoe._cards s') = 51%nat)
        by (rewrite Hc, length_app in Hlen; cbn in Hlen; lia).
      unfold shoe_total, Shoe.cards_remaining, Shoe.cards_dealt in *.
      rewrite L, Hlen, Hd in Hcons. rewrite L. lia. }
    eexists. exists [c]. split; [reflexivity|].
    destruct (GameEngine.on_card_exposed e) eqn:Ecb;
      cbn; rewrite ?Ecb, ?app_nil_r; repeat split; auto; try discriminate;
      apply Hs'.
  - exists e, []. split; [reflexivity|]. rewrite !app_nil_r.
    destruct (GameEngine.on_card_exposed e); rewrite ?app_nil_r;
      repeat split; auto; discriminate.
Qed.

Lemma deal_card_full r face_up e c e' :
  GameEngine._deal_card r face_up e = Ok c e' ->
  Shoe._cards (GameEngine.shoe e) = Shoe._cards (GameEngine.shoe e') ++ [c] /\
  GameEngine.player e' =
    Player.update_hand r (Hand.add_card c) (GameEngine.player e) /\
  GameEngine.dealer e' = GameEngine.dealer e /\
  GameEngine.on_card_exposed e' = GameEngine.on_card_exposed e /\
  GameEngine.blackjack_payout e' = GameEngine.blackjack_payout e /\
  GameEngine._round_in_progress e' = GameEngine._round_in_progress e /\
  GameEngine.exposed e' =
    GameEngine.exposed e ++ (if face_up && GameEngine.on_card_exposed e then [c] else []).
Proof.
  intro H. apply deal_card_Ok in H as (s & Hs & ->).
  apply deal_Ok in Hs as [Hc _].
  unfold GameEngine.expose_if.
  cbn [GameEngine.set_player GameEngine.set_shoe GameEngine.on_card_exposed].
  destruct (face_up && GameEngine.on_card_exposed e); cbn;
    rewrite ?app_nil_r; auto 10.
Qed.

Lemma deal_to_dealer_full face_up e c e' :
  GameEngine._deal_to_dealer face_up e = Ok c e' ->
  Shoe._cards (GameEngine.shoe e) = Shoe._cards (GameEngine.shoe e') ++ [c] /\
  GameEngine.player e' = GameEngine.player e /\
  GameEngine.dealer e' = Dealer.receive_card c face_up (GameEngine.dealer e) /\
  GameEngine.on_card_exposed e' = GameEngine.on_card_exposed e /\
  GameEngine.blackjack_payout e' = GameEngine.blackjack_payout e /\
  GameEngine._round_in_progress e' = GameEngine._round_in_progress e /\
  GameEngine.exposed e' =
    GameEngine.exposed e ++ (if face_up && GameEngine.on_card_exposed e then [c] else []).
Proof.
  unfold GameEngine._deal_to_dealer, bind, GameEngine.in_shoe, zoom, modify, ret.
  destruct (Shoe.deal (GameEngine.shoe e)) as [c0 s|y s] eqn:E; [|discriminate].
  intros [= <- <-]. apply deal_Ok in E as [Hc _].
  unfold GameEngine.expose_if.
  cbn [GameEngine.set_dealer GameEngine.set_shoe GameEngine.on_card_exposed].
  destruct (face_up && GameEngine.on_card_exposed e); cbn;
    rewrite ?app_nil_r; auto 10.
Qed.

Lemma start_round_deal_facts :
  forall (e e1 : GameEngine.t) (bet : option float)
         (r : hand_ref * option Card.t),
    GameEngine.start_round bet e = Ok r e1 ->
    exists p1 d1 p2 hole burned,
      (if Shoe.needs_shuffle (GameEngine.shoe e)
       then Shoe._cards (Shoe.shuffle (GameEngine.shoe e))
       else Shoe._cards (GameEngine.shoe e)) =
        Shoe._cards (GameEngine.shoe e1) ++ [hole; p2; d1; p1] ++ burned /\
      length burned =
        (if Shoe.needs_shuffle (GameEngine.shoe e) then 1 else 0)%nat /\
      r = (0%nat, Some d1) /\
      PrimFloat.ltb (Player.bankroll (GameEngine.player e))
        (bet_amount bet (GameEngine.player e)) = false /\
      GameEngine.player e1 =
        Player.mk
          (PrimFloat.sub (Player.bankroll (GameEngine.player e))
             (bet_amount bet (GameEngine.player e)))
          [Hand.mk [p1; p2] Hand.ACTIVE (bet_amount bet (GameEngine.player e))
             false false]
          (Player.base_bet (GameEngine.player e))
          (Player.max_splits (GameEngine.player e)) 0 /\
      GameEngine.dealer e1 =
        Dealer.mk (Hand.mk [d1; hole] Hand.ACTIVE 0%float false false)
          (Dealer.rule (GameEngine.dealer e)) false /\
      GameEngine._round_in_progress e1 = true /\
      GameEngine.exposed e1 =
        GameEngine.exposed e ++
        (if GameEngine.on_card_exposed e then burned ++ [p1; d1; p2] else []).
Proof.
  intros e e1 bet r H. unfold GameEngine.start_round in H.
  apply bind_Ok in H as (u & ea & Ha & H).
  destruct (shuffle_if_needed_inv e)
    as (ea' & burned & Ha' & Hcards & Hlen & _ & _ & Hpa & Hda & Hca & _ & _ & Hea).
  rewrite Ha' in Ha. injection Ha as _ <-.
  apply bind_Ok in H as (ph & eb & Hb & H).
  unfold GameEngine.in_player, zoom, Player.new_hand in Hb.
  fold (bet_amount bet (GameEngine.player ea')) in Hb.
  destruct (PrimFloat.ltb _ _) eqn:Ebet in Hb; [discriminate|].
  injection Hb as <- <-.
  apply bind_Ok in H as (u1 & ec & Hc & H).
  unfold modify in Hc. injection Hc as _ <-.
  apply bind_Ok in H as (p1 & e2 & H1 & H). apply deal_card_full in H1.
  apply bind_Ok in H as (d1 & e3 & H2 & H). apply deal_to_dealer_full in H2.
  apply bind_Ok in H as (p2 & e4 & H3 & H). apply deal_card_full in H3.
  apply bind_Ok in H as (hole & e5 & H4 & H). apply deal_to_dealer_full in H4.
  apply bind_Ok in H as (u2 & e6 & H5 & H).
  unfold modify in H5. injection H5 as _ <-.
  unfold bind, get, ret in H. injection H as <- <-.
  destruct H1 as (S1 & P1 & D1 & C1 & _ & _ & X1).
  destruct H2 as (S2 & P2 & D2 & C2 & _ & _ & X2).
  destruct H3 as (S3 & P3 & D3 & C3 & _ & _ & X3).
  destruct H4 as (S4 & P4 & D4 & C4 & _ & _ & X4).
  cbn [GameEngine.set_dealer GameEngine.set_round_in_progress GameEngine.set_player
       GameEngine.shoe GameEngine.dealer GameEngine.player
       GameEngine.on_card_exposed GameEngine.exposed
       GameEngine._round_in_progress] in *.
  rewrite Hpa in *.
  exists p1, d1, p2, hole, burned.
  split.
  { rewrite Hcards, S1, S2, S3, S4, <- !app_assoc. reflexivity. }
  split; [exact Hlen|].
  assert (Hdealer : GameEngine.dealer e5 =
                    Dealer.mk (Hand.mk [d1; hole] Hand.ACTIVE 0%float false false)
                      (Dealer.rule (GameEngine.dealer e)) false).
  { rewrite D4, D3, D2, D1, Hda.
    unfold Dealer.receive_card, Dealer.new_hand, Dealer.set_hand.
    cbn [Dealer.hand Dealer.rule Dealer.hole_card_revealed].
    unfold Hand.empty. rewrite add_two_cards. reflexivity. }
  split.
  { rewrite Hdealer. reflexivity. }
  split; [exact Ebet|].
  split.
  { rewrite P4, P3, P2, P1.
    unfold Player.update_hand, Player.set_hands, Player.set_bankroll,
      Player.set_split_count.
    cbn [Player.hands Player.bankroll Player.base_bet Player.max_splits
         Player._split_count app length pylist.update].
    rewrite add_two_cards. reflexivity. }
  split; [exact Hdealer|]. split; [reflexivity|].
  rewrite X4, X3, X2, X1, Hea, C3, C2, C1, Hca.
  destruct (GameEngine.on_card_exposed e); cbn [andb];
    rewrite <- ?app_assoc, ?app_nil_r; reflexivity.
Qed.

(** X7. A successful [start_round] takes the bet from the bankroll, shuffles
    and burns one card first when the shoe asks for it, and deals from the top
    of the shoe, in this order, player, dealer, player, dealer: the player
    holds one ACTIVE two-card hand on the bet, the dealer an ACTIVE two-card
    hand with the hole card unrevealed, the call returns the player's hand
    and the dealer's first card, and the callback has been shown the burned
    card, if any, and the three face-up cards. *)
Theorem start_round_deal :
  forall (e e1 : GameEngine.t) (bet : option float)
         (r : hand_ref * option Card.t),
    GameEngine.start_round bet e = Ok r e1 ->
    exists p1 d1 p2 hole burned,
      (if Shoe.needs_shuffle (GameEngine.shoe e)
       then Shoe._cards (Shoe.shuffle (GameEngine.shoe e))
       else Shoe._cards (GameEngine.shoe e)) =
        Shoe._cards (GameEngine.shoe e1) ++ [hole; p2; d1; p1] ++ burned /\
      length burned =
        (if Shoe.needs_shuffle (GameEngine.shoe e) then 1 else 0)%nat /\
      r = (0%nat, Some d1) /\
      PrimFloat.ltb (Player.bankroll (GameEngine.player e))
        (bet_amount bet (GameEngine.player e)) = false /\
      GameEngine.player e1 =
        Player.mk
          (PrimFloat.sub (Player.bankroll (GameEngine.player e))
             (bet_amount bet (GameEngine.player e)))
          [Hand.mk [p1; p2] Hand.ACTIVE (bet_amount bet (GameEngine.player e))
             false false]
          (Player.base_bet (GameEngine.player e))
          (Player.max_splits (GameEngine.player e)) 0 /\
      GameEngine.dealer e1 =
        Dealer.mk (Hand.mk [d1; hole] Hand.ACTIVE 0%float false false)
          (Dealer.rule (GameEngine.dealer e)) false /\
      GameEngine._round_in_progress e1 = true /\
      GameEngine.exposed e1 =
        GameEngine.exposed e ++
        (if GameEngine.on_card_exposed e then burned ++ [p1; d1; p2] else []).
Proof.
  intros e e1 bet r H.
  destruct (@start_round_deal_facts e e1 bet r H)
    as (p1 & d1 & p2 & hole & burned & Hf).
  exists p1, d1, p2, hole, burned. exact Hf.
Qed.

(** Scenario A: no shuffle is due, and the four cards come off the top. *)
Lemma start_round_deal_witness :
  GameEngine.start_round None scenario_A =
    Ok (0%nat, Some six_spades) scenario_A_dealt /\
  Player.hands (GameEngine.player scenario_A_dealt) =
    [Hand.mk [ten_clubs; nine_diamonds] Hand.ACTIVE 10%float false false] /\
  Player.bankroll (GameEngine.player scenario_A_dealt) = 990%float /\
  exists p1 d1 p2 hole,
    GameEngine.dealer scenario_A_dealt =
      Dealer.mk (Hand.mk [d1; hole] Hand.ACTIVE 0%float false false)
        Dealer.H17 false /\
    GameEngine.exposed scenario_A_dealt = [] ++ [] ++ [p1; d1; p2].
Proof.
  assert (Hs : GameEngine.start_round None scenario_A =
               Ok (0%nat, Some six_spades) scenario_A_dealt)
    by (vm_compute; reflexivity).
  split; [exact Hs|]. split; [vm_compute; reflexivity|].
  split; [vm_compute; reflexivity|].
  destruct (start_round_deal _ _ Hs)
    as (p1 & d1 & p2 & hole & burned & _ & Hlen & _ & _ & _ & Hd & _ & Hx).
  destruct burned; [|discriminate].
  exists p1, d1, p2, hole. split; [exact Hd|exact Hx].
Defined.

(** The reshuffle at the head of [start_round], when it is due: the engine
    it leaves. *)
Lemma shuffle_if_needed_reshuffle e :
  Shoe.needs_shuffle (GameEngine.shoe e) = true ->
  exists burned s',
    Shoe.burn 1 (Shoe.shuffle (GameEngine.shoe e)) = Ok [burned] s' /\
    Shoe._cards (Shoe.shuffle (GameEngine.shoe e)) = Shoe._cards s' ++ [burned] /\
    GameEngine.shuffle_if_needed e =
      Ok tt
        (GameEngine.mk s' (GameEngine.player e) (GameEngine.dealer e)
           (GameEngine.on_card_exposed e)
           (GameEngine.exposed e
              ++ (if GameEngine.on_card_exposed e then [burned] else []))
           (GameEngine.blackjack_payout e) (GameEngine._round_in_progress e)).
Proof.
  destruct e as [s p d cb ex bj rip].
  cbn [GameEngine.shoe GameEngine.player GameEngine.dealer
       GameEngine.on_card_exposed GameEngine.exposed GameEngine.blackjack_payout
       GameEngine._round_in_progress].
  intro Hn.
  destruct (shuffle_cards s) as [Hp _].
  destruct (@burn_one_full (Shoe.shuffle s)) as (c & s' & Hb & Hc).
  { intro H. apply Permutation_length in Hp. rewrite H in Hp. discriminate. }
  exists c, s'. split; [exact Hb|]. split; [exact Hc|].
  unfold GameEngine.shuffle_if_needed.
  cbn [GameEngine.shoe]. rewrite Hn.
  unfold bind, modify, GameEngine.in_shoe, zoom, GameEngine.set_shoe.
  cbn [GameEngine.shoe GameEngine.player GameEngine.dealer
       GameEngine.on_card_exposed GameEngine.exposed GameEngine.blackjack_payout
       GameEngine._round_in_progress].
  rewrite Hb.
  cbn [GameEngine.shoe GameEngine.player GameEngine.dealer
       GameEngine.on_card_exposed GameEngine.exposed GameEngine.blackjack_payout
       GameEngine._round_in_progress].
  destruct cb; [reflexivity|]. rewrite app_nil_r. reflexivity.
Qed.

(** X8. [start_round] is not all or nothing: when the bet exceeds the
    bankroll it raises the ValueError of [new_hand] with the player and the
    dealer untouched, but only after the reshuffle. If the shoe asked for a
    shuffle, the engine left behind is the engine before with the shoe
    replaced by a freshly shuffled one from which the top card has been
    burned, and with that card shown to the callback: the 51 cards left and
    the burned card make up the deck. Otherwise nothing has changed. *)
Theorem start_round_rejects_bet_after_reshuffle :
  forall (e : GameEngine.t) (bet : option float),
    PrimFloat.ltb (Player.bankroll (GameEngine.player e))
      (bet_amount bet (GameEngine.player e)) = true ->
    exists e',
      GameEngine.start_round bet e = Raise BetExceedsBankroll e' /\
      GameEngine.player e' = GameEngine.player e /\
      GameEngine.dealer e' = GameEngine.dealer e /\
      (Shoe.needs_shuffle (GameEngine.shoe e) = false -> e' = e) /\
      (Shoe.needs_shuffle (GameEngine.shoe e) = true ->
       Shoe.cards_remaining (GameEngine.shoe e') = 51 /\
       Shoe.cards_dealt (GameEngine.shoe e') = 1 /\
       exists burned,
         Shoe.burn 1 (Shoe.shuffle (GameEngine.shoe e)) =
           Ok [burned] (GameEngine.shoe e') /\
         Shoe._cards (Shoe.shuffle (GameEngine.shoe e)) =
           Shoe._cards (GameEngine.shoe e') ++ [burned] /\
         Permutation (Shoe._cards (GameEngine.shoe e') ++ [burned]) create_deck /\
         ~ In burned (Shoe._cards (GameEngine.shoe e')) /\
         e' = GameEngine.mk (GameEngine.shoe e') (GameEngine.player e)
                (GameEngine.dealer e) (GameEngine.on_card_exposed e)
                (GameEngine.exposed e
                   ++ (if GameEngine.on_card_exposed e then [burned] else []))
                (GameEngine.blackjack_payout e) (GameEngine._round_in_progress e) /\
         GameEngine.exposed e' =
           GameEngine.exposed e ++
           (if GameEngine.on_card_exposed e then [burned] else [])).
Proof.
  intros e bet Hbet.
  destruct (shuffle_if_needed_inv e)
    as (ea & burned & Ha & _ & Hlen & Hsame & Hshuf & Hpa & Hda & Hca & _ & _ & Hea).
  exists ea. split.
  - unfold GameEngine.start_round. unfold bind at 1. rewrite Ha.
    unfold bind at 1. unfold GameEngine.in_player, zoom, Player.new_hand.
    fold (bet_amount bet (GameEngine.player ea)). rewrite Hpa, Hbet.
    rewrite <- Hpa, set_player_same. reflexivity.
  - split; [exact Hpa|]. split; [exact Hda|]. split; [exact Hsame|].
    intro Hn. destruct (Hshuf Hn) as [Hr Hd].
    split; [exact Hr|]. split; [exact Hd|].
    destruct (shuffle_if_needed_reshuffle e Hn) as (b & s' & Hb & Hc & Hrun).
    rewrite Hrun in Ha. injection Ha as <-.
    cbn [GameEngine.shoe GameEngine.exposed].
    exists b. split; [exact Hb|]. split; [exact Hc|].
    assert (Hp : Permutation (Shoe._cards s' ++ [b]) create_deck).
    { rewrite <- Hc. apply shuffle_cards. }
    split; [exact Hp|]. split; [|split; reflexivity].
    pose proof (shuffle_NoDup (GameEngine.shoe e)) as Hnd. rewrite Hc in Hnd.
    apply NoDup_remove_2 in Hnd. rewrite app_nil_r in Hnd. exact Hnd.
Qed.

(** The engine of the drill late in its shoe, where a shuffle is due, on a
    bet of 2000 with a bankroll of 1000: the bet is refused on a shoe of 51
    cards, one card having been shown. *)
Lemma start_round_rejects_bet_after_reshuffle_witness :
  PrimFloat.ltb
    (Player.bankroll
       (GameEngine.player (FullPlayDrill.engine drill_before_reshuffle)))
    (bet_amount (Some 2000%float)
       (GameEngine.player (FullPlayDrill.engine drill_before_reshuffle))) = true /\
  Shoe.needs_shuffle
    (GameEngine.shoe (FullPlayDrill.engine drill_before_reshuffle)) = true /\
  exists e' burned,
    GameEngine.start_round (Some 2000%float)
      (FullPlayDrill.engine drill_before_reshuffle) =
      Raise BetExceedsBankroll e' /\
    Shoe.cards_remaining (GameEngine.shoe e') = 51 /\
    Permutation (Shoe._cards (GameEngine.shoe e') ++ [burned]) create_deck /\
    GameEngine.exposed e' = [burned] /\
    e' <> FullPlayDrill.engine drill_before_reshuffle.
Proof.
  assert (Hn : Shoe.needs_shuffle
                 (GameEngine.shoe (FullPlayDrill.engine drill_before_reshuffle))
               = true) by (vm_compute; reflexivity).
  split; [reflexivity|]. split; [exact Hn|].
  destruct (@start_round_rejects_bet_after_reshuffle
              (FullPlayDrill.engine drill_before_reshuffle) (Some 2000%float)
              eq_refl) as (e' & Hrun & _ & _ & _ & Hre).
  destruct (Hre Hn) as (Hrem & _ & burned & _ & _ & Hp & _ & _ & Hx).
  exists e', burned. split; [exact Hrun|]. split; [exact Hrem|].
  split; [exact Hp|]. split; [exact Hx|].
  intro Heq. rewrite Heq in Hrem. vm_compute in Hrem. discriminate.
Defined.

(** ** The engine: legal actions *)

(** Comparison of binary64 floats, from the specification of the
    primitives: [x <= y] excludes [y < x]. *)
Lemma SFcompare_antisym x y c :
  SFcompare x y = Some c -> SFcompare y x = Some (CompOpp c).
Proof.
  destruct x as [sx| sx| |sx mx ex], y as [sy|sy| |sy my ey]; cbn;
    try discriminate;
    try (destruct sx; intros [= <-]; reflexivity);
    try (destruct sy; intros [= <-]; reflexivity);
    try (destruct sx, sy; intros [= <-]; reflexivity).
  intros [= <-]. f_equal.
  pose proof (Pos.compare_cont_antisym mx my Eq) as Hm. cbn in Hm.
  destruct sx, sy; try reflexivity;
    rewrite (Z.compare_antisym ex ey);
    destruct (ex ?= ey)%Z; cbn; try reflexivity;
    rewrite <- Hm;
    destruct (Pos.compare_cont Eq mx my); reflexivity.
Qed.

Lemma float_leb_not_ltb x y :
  PrimFloat.leb x y = true -> PrimFloat.ltb y x = false.
Proof.
  rewrite leb_spec, ltb_spec. unfold SFleb, SFltb.
  destruct (SFcompare (Prim2SF x) (Prim2SF y)) as [c|] eqn:E; [|discriminate].
  rewrite (SFcompare_antisym _ _ E). destruct c; try discriminate; reflexivity.
Qed.

Lemma get_available_actions_Ok i e actions e0 :
  GameEngine.get_available_actions i e = Ok actions e0 ->
  e0 = e /\
  (actions = [] \/
   exists r h,
     Player.lookup i (GameEngine.player e) = Ok (r, h) (GameEngine.player e) /\
     (In HIT actions -> Hand.can_hit h = true) /\
     (In STAND actions -> Hand.can_stand h = true) /\
     (In DOUBLE actions ->
        Hand.can_double h = true /\
        PrimFloat.leb (Hand.bet h) (Player.bankroll (GameEngine.player e)) = true) /\
     (In SPLIT actions ->
        Hand.can_split h = true /\ Player.can_split (GameEngine.player e) = true /\
        PrimFloat.leb (Hand.bet h) (Player.bankroll (GameEngine.player e)) = true) /\
     (In SURRENDER actions -> Hand.can_surrender h = true)).
Proof.
  unfold GameEngine.get_available_actions.
  destruct (Z.leb _ _); [intros [= <- <-]; auto|].
  destruct (Player.lookup i (GameEngine.player e)) as [[r h] p|x p] eqn:El;
    [|discriminate].
  pose proof (lookup_Ok _ _ El) as (-> & _ & _).
  intros [= <- <-]. split; [reflexivity|]. right. exists r, h.
  split; [reflexivity|].
  destruct (Hand.can_hit h), (Hand.can_stand h), (Hand.can_double h),
    (Hand.can_split h), (Player.can_split (GameEngine.player e)),
    (PrimFloat.leb (Hand.bet h) (Player.bankroll (GameEngine.player e))),
    (Hand.can_surrender h); cbn;
    repeat split; intros; intuition discriminate.
Qed.

Lemma execute_action_only_shoe_empty action i e r h :
  Player.lookup i (GameEngine.player e) = Ok (r, h) (GameEngine.player e) ->
  match action with
  | HIT => Hand.can_hit h = true
  | STAND => Hand.can_stand h = true
  | DOUBLE => Hand.can_double h = true /\
              PrimFloat.ltb (Player.bankroll (GameEngine.player e)) (Hand.bet h) = false
  | SPLIT => Hand.can_split h = true /\ Player.can_split (GameEngine.player e) = true /\
             PrimFloat.ltb (Player.bankroll (GameEngine.player e)) (Hand.bet h) = false
  | SURRENDER => Hand.can_surrender h = true
  end ->
  forall x e', GameEngine.execute_action action i e = Raise x e' -> x = ShoeEmpty.
Proof.
  intros El Hg x e'. unfold GameEngine.execute_action. unfold bind at 1.
  rewrite in_player_lookup, El. destruct action.
  - rewrite Hg. cbn [negb]. unfold bind, ret.
    destruct (GameEngine._deal_card r true e) as [c e1|y e1] eqn:Ed; [discriminate|].
    apply deal_card_Raise in Ed as (-> & _). intros [= <- _]. reflexivity.
  - rewrite Hg. discriminate.
  - destruct Hg as [Hc Hb]. rewrite Hc. cbn [negb]. unfold bind at 1.
    unfold GameEngine.in_player, zoom, Player.double_down.
    rewrite El, Hc, Hb. cbn [negb]. unfold bind, modify, ret.
    destruct (GameEngine._deal_card r true _) as [c e1|y e1] eqn:Ed; [discriminate|].
    apply deal_card_Raise in Ed as (-> & _). intros [= <- _]. reflexivity.
  - destruct Hg as (Hc & Hp & Hb). rewrite Hc. cbn [negb]. unfold bind at 1.
    unfold GameEngine.in_player, zoom, Player.split_hand.
    unfold Player.can_split in Hp. apply Z.ltb_lt in Hp.
    destruct (Z.leb_spec (Player.max_splits (GameEngine.player e))
                (Player._split_count (GameEngine.player e))); [lia|].
    rewrite El, Hc, Hb. cbn [negb].
    destruct (split_Ok_of_can_split _ Hc) as (h1 & h2 & ->).
    unfold bind, ret.
    destruct (GameEngine._deal_card _ true _) as [c e1|y e1] eqn:Ed.
    + destruct (GameEngine._deal_card _ true e1) as [c' e2|y e2] eqn:Ed';
        [discriminate|].
      apply deal_card_Raise in Ed' as (-> & _). intros [= <- _]. reflexivity.
    + apply deal_card_Raise in Ed as (-> & _). intros [= <- _]. reflexivity.
  - rewrite Hg. cbn [negb]. unfold bind at 1.
    unfold GameEngine.in_player, zoom, Player.surrender_hand.
    rewrite El, Hg. cbn [negb]. discriminate.
Qed.

(** X9. The actions [get_available_actions] lists are accepted:
    [execute_action] on any of them, on the same hand and state, either
    succeeds or fails for the one reason that the shoe is empty; it never
    rejects the action as illegal or for want of funds. The query leaves the
    engine as it was. *)
Theorem available_actions_are_accepted :
  forall (e e0 : GameEngine.t) (i : Z) (actions : list Action) (action : Action),
    GameEngine.get_available_actions i e = Ok actions e0 ->
    In action actions ->
    e0 = e /\
    ((exists res e', GameEngine.execute_action action i e = Ok res e') \/
     (exists e', GameEngine.execute_action action i e = Raise ShoeEmpty e')).
Proof.
  intros e e0 i actions action Hq Hin.
  apply get_available_actions_Ok in Hq as [-> [->|H]]; [destruct Hin|].
  split; [reflexivity|].
  destruct H as (r & h & El & Hhit & Hstand & Hdouble & Hsplit & Hsur).
  assert (Hg : forall x e', GameEngine.execute_action action i e = Raise x e' ->
                            x = ShoeEmpty).
  { apply (execute_action_only_shoe_empty action _ _ El).
    destruct action; auto.
    - destruct (Hdouble Hin) as [Hc Hb]. auto using float_leb_not_ltb.
    - destruct (Hsplit Hin) as (Hc & Hp & Hb). auto using float_leb_not_ltb. }
  destruct (GameEngine.execute_action action i e) as [res e'|x e'] eqn:E.
  - left. eauto.
  - right. rewrite (Hg _ _ eq_refl). eauto.
Qed.

(** The pair of eights may be split, and the split is accepted; with an
    empty shoe the hit is still listed, and fails on the shoe alone. *)
Lemma available_actions_are_accepted_witness :
  GameEngine.get_available_actions 0 engine_with_eights =
    Ok [HIT; STAND; DOUBLE; SPLIT; SURRENDER] engine_with_eights /\
  In SPLIT [HIT; STAND; DOUBLE; SPLIT; SURRENDER] /\
  ((exists res e', GameEngine.execute_action SPLIT 0 engine_with_eights = Ok res e') \/
   (exists e', GameEngine.execute_action SPLIT 0 engine_with_eights = Raise ShoeEmpty e')) /\
  GameEngine.execute_action HIT 0 engine_with_empty_shoe =
    Raise ShoeEmpty engine_with_empty_shoe.
Proof.
  assert (Hq : GameEngine.get_available_actions 0 engine_with_eights =
               Ok [HIT; STAND; DOUBLE; SPLIT; SURRENDER] engine_with_eights)
    by (vm_compute; reflexivity).
  assert (Hin : In SPLIT [HIT; STAND; DOUBLE; SPLIT; SURRENDER])
    by (cbn; auto).
  split; [exact Hq|]. split; [exact Hin|].
  split; [|vm_compute; reflexivity].
  exact (proj2 (@available_actions_are_accepted _ _ _ _ _ Hq Hin)).
Defined.

(** ** The engine: the dealer's turn *)

Lemma deal_callback_Ok e c e1 :
  GameEngine.deal_callback e = Ok c e1 ->
  Shoe._cards (GameEngine.shoe e) = Shoe._cards (GameEngine.shoe e1) ++ [c] /\
  GameEngine.dealer e1 = Dealer.receive_card c true (GameEngine.dealer e) /\
  GameEngine.player e1 = GameEngine.player e /\
  GameEngine.on_card_exposed e1 = GameEngine.on_card_exposed e /\
  GameEngine.exposed e1 =
    GameEngine.exposed e ++ (if GameEngine.on_card_exposed e then [c] else []).
Proof.
  unfold GameEngine.deal_callback, bind, GameEngine.in_shoe, zoom, modify, ret.
  destruct (Shoe.deal (GameEngine.shoe e)) as [c0 s|y s] eqn:E; [|discriminate].
  intros [= <- <-]. apply deal_Ok in E as [Hc _].
  cbn [GameEngine.set_dealer GameEngine.set_shoe GameEngine.on_card_exposed].
  destruct (GameEngine.on_card_exposed e) eqn:Ecb; cbn;
    rewrite ?Ecb, ?app_nil_r; auto.
Qed.

Lemma play_loop_Ok fuel : forall e u e',
  Dealer.play_loop GameEngine.dealer GameEngine.set_dealer
    GameEngine.deal_callback fuel e = Ok u e' ->
  Dealer.should_hit (GameEngine.dealer e')
    && negb (Hand.is_busted (Dealer.hand (GameEngine.dealer e'))) = false /\
  GameEngine.player e' = GameEngine.player e /\
  GameEngine.on_card_exposed e' = GameEngine.on_card_exposed e /\
  Dealer.rule (GameEngine.dealer e') = Dealer.rule (GameEngine.dealer e) /\
  Dealer.hole_card_revealed (GameEngine.dealer e') =
    Dealer.hole_card_revealed (GameEngine.dealer e) /\
  exists hits,
    Shoe._cards (GameEngine.shoe e) = Shoe._cards (GameEngine.shoe e') ++ rev hits /\
    Hand.cards (Dealer.hand (GameEngine.dealer e')) =
      Hand.cards (Dealer.hand (GameEngine.dealer e)) ++ twice hits /\
    GameEngine.exposed e' =
      GameEngine.exposed e ++ (if GameEngine.on_card_exposed e then hits else []).
Proof.
  induction fuel as [|fuel IH]; intros e u e'; cbn [Dealer.play_loop].
  - destruct (_ && _) eqn:E; [discriminate|]. intros [= _ <-].
    repeat split; auto. exists []. cbn. rewrite !app_nil_r.
    destruct (GameEngine.on_card_exposed e); rewrite ?app_nil_r; auto.
  - destruct (_ && _) eqn:E.
    + destruct (GameEngine.deal_callback e) as [c e1|y e1] eqn:Ed; [|discriminate].
      apply deal_callback_Ok in Ed as (S1 & D1 & P1 & C1 & X1).
      intro H. apply IH in H as (Hexit & P & C & R & V & hits & S2 & H2 & X2).
      cbn [GameEngine.set_dealer GameEngine.dealer GameEngine.player
           GameEngine.on_card_exposed GameEngine.shoe GameEngine.exposed] in *.
      split; [exact Hexit|]. split; [congruence|]. split; [congruence|].
      rewrite D1 in R, V, H2.
      split; [exact R|]. split; [exact V|].
      exists (c :: hits). split; [|split].
      * rewrite S1, S2. cbn [rev]. rewrite app_assoc. reflexivity.
      * rewrite H2. unfold Dealer.receive_card, Dealer.set_hand.
        cbn [Dealer.hand]. rewrite !cards_add_card, <- !app_assoc. reflexivity.
      * rewrite X2, X1, C1. destruct (GameEngine.on_card_exposed e);
          rewrite <- ?app_assoc, ?app_nil_r; reflexivity.
    + intros [= _ <-]. repeat split; auto. exists []. cbn. rewrite !app_nil_r.
      destruct (GameEngine.on_card_exposed e); rewrite ?app_nil_r; auto.
Qed.

Lemma should_hit_false_value d :
  Dealer.should_hit d = false -> 17 <= Hand.value (Dealer.hand d).
Proof.
  unfold Dealer.should_hit. rewrite <- soft_value_fst.
  destruct (Hand.soft_value (Dealer.hand d)) as [v soft]. cbn [fst].
  destruct (Z.ltb_spec v 17); [discriminate|]. intros _. lia.
Qed.

Lemma play_dealer_Ok e u e' :
  GameEngine.play_dealer e = Ok u e' ->
  exists e2,
    Dealer.play_loop GameEngine.dealer GameEngine.set_dealer
      GameEngine.deal_callback
      (S (length (Shoe._cards (GameEngine.shoe (GameEngine.reveal_and_expose e)))))
      (GameEngine.reveal_and_expose e) = Ok tt e2 /\
    e' = GameEngine.set_dealer
           (Dealer.set_hand
              (Hand.set_status
                 (if negb (Hand.is_busted (Dealer.hand (GameEngine.dealer e2)))
                  then Hand.STOOD else Hand.BUSTED)
                 (Dealer.hand (GameEngine.dealer e2)))
              (GameEngine.dealer e2)) e2.
Proof.
  unfold GameEngine.play_dealer, Dealer.play.
  destruct (reveal_and_expose_facts e) as (_ & _ & _ & Hr & _).
  rewrite Hr. cbn [negb].
  destruct (Dealer.play_loop _ _ _ _ _) as [[] e2|y e2]; [|discriminate].
  intros [= _ <-]. exists e2. auto.
Qed.

(** X10. When [play_dealer] returns, the hole card is revealed and the
    dealer's hand is final: either it is STOOD with a value from 17 to 21
    on which [should_hit] is false, or it is BUSTED with a value over 21.
    The player's side is untouched. *)
Theorem play_dealer_final_hand :
  forall (e e' : GameEngine.t) (u : unit),
    GameEngine.play_dealer e = Ok u e' ->
    Dealer.hole_card_revealed (GameEngine.dealer e') = true /\
    GameEngine.player e' = GameEngine.player e /\
    ((Hand.status (Dealer.hand (GameEngine.dealer e')) = Hand.STOOD /\
      17 <= Dealer.final_value (GameEngine.dealer e') <= 21 /\
      Dealer.should_hit (GameEngine.dealer e') = false) \/
     (Hand.status (Dealer.hand (GameEngine.dealer e')) = Hand.BUSTED /\
      21 < Dealer.final_value (GameEngine.dealer e'))).
Proof.
  intros e e' u H. apply play_dealer_Ok in H as (e2 & Hloop & ->).
  apply play_loop_Ok in Hloop as (Hexit & P & _ & _ & V & _).
  destruct (reveal_and_expose_facts e) as (Hp & _ & _ & Hr & _).
  cbn [GameEngine.set_dealer GameEngine.dealer GameEngine.player
       Dealer.set_hand Dealer.hole_card_revealed Dealer.hand].
  split; [congruence|]. split; [congruence|].
  unfold Dealer.final_value, Hand.is_busted in *.
  destruct (Z.ltb_spec 21 (Hand.value (Dealer.hand (GameEngine.dealer e2))))
    as [Hb|Hb]; cbn [negb] in *.
  - right. split; [reflexivity|exact Hb].
  - left. rewrite andb_true_r in Hexit. split; [reflexivity|]. split.
    + split; [apply should_hit_false_value, Hexit|exact Hb].
    + exact Hexit.
Qed.

(** Scenario A after the stand: the dealer draws to 19 and stands. *)
Lemma play_dealer_final_hand_witness :
  exists e',
    GameEngine.play_dealer scenario_A_stood = Ok tt e' /\
    Hand.status (Dealer.hand (GameEngine.dealer e')) = Hand.STOOD /\
    Dealer.final_value (GameEngine.dealer e') = 19 /\
    Dealer.hole_card_revealed (GameEngine.dealer e') = true.
Proof.
  eexists. split; [vm_compute; reflexivity|].
  split; [reflexivity|]. split; [reflexivity|].
  match goal with
  | |- Dealer.hole_card_revealed (GameEngine.dealer ?e1) = true =>
      assert (H : GameEngine.play_dealer scenario_A_stood = Ok tt e1)
        by (vm_compute; reflexivity);
      exact (proj1 (@play_dealer_final_hand _ _ _ H))
  end.
Defined.

(** X11. In a completed [play_dealer], every card the dealer hits is taken
    from the top of the shoe, shown to the callback once, and added to the
    dealer's hand twice: the final hand is the hand before the turn
    followed by each hit card two times over. The callback is shown the
    hole card first, whether or not it had been revealed before. *)
Theorem play_dealer_adds_hits_twice :
  forall (e e' : GameEngine.t) (u : unit),
    GameEngine.play_dealer e = Ok u e' ->
    exists hits : list Card.t,
      Shoe._cards (GameEngine.shoe e) =
        Shoe._cards (GameEngine.shoe e') ++ rev hits /\
      Hand.cards (Dealer.hand (GameEngine.dealer e')) =
        Hand.cards (Dealer.hand (GameEngine.dealer e)) ++ twice hits /\
      GameEngine.exposed e' =
        GameEngine.exposed e ++
        (if GameEngine.on_card_exposed e then shown_hole e ++ hits else []).
Proof.
  intros e e' u H. apply play_dealer_Ok in H as (e2 & Hloop & ->).
  apply play_loop_Ok in Hloop as (_ & _ & _ & _ & _ & hits & S2 & H2 & X2).
  destruct (reveal_and_expose_facts e) as (_ & Hs & Hh & _ & Hcb & Hx).
  exists hits.
  cbn [GameEngine.set_dealer GameEngine.dealer GameEngine.shoe GameEngine.exposed
       Dealer.set_hand Dealer.hand Hand.set_status Hand.cards].
  rewrite <- Hs, <- Hh. split; [exact S2|]. split; [exact H2|].
  rewrite X2, Hx, Hcb. unfold shown_hole.
  destruct (GameEngine.on_card_exposed e);
    destruct (Dealer.hole_card (GameEngine.dealer e));
    rewrite <- ?app_assoc, ?app_nil_r; reflexivity.
Qed.

(** Scenario A after the stand: one hit, the 2 of clubs, held twice. *)
Lemma play_dealer_adds_hits_twice_witness :
  exists e' hits,
    GameEngine.play_dealer scenario_A_stood = Ok tt e' /\
    Hand.cards (Dealer.hand (GameEngine.dealer e')) =
      [six_spades; nine_hearts; two_clubs; two_clubs] /\
    Hand.cards (Dealer.hand (GameEngine.dealer e')) =
      Hand.cards (Dealer.hand (GameEngine.dealer scenario_A_stood)) ++ twice hits.
Proof.
  assert (H : exists e', GameEngine.play_dealer scenario_A_stood = Ok tt e' /\
                         Hand.cards (Dealer.hand (GameEngine.dealer e')) =
                           [six_spades; nine_hearts; two_clubs; two_clubs]).
  { eexists. split; vm_compute; reflexivity. }
  destruct H as (e' & Hrun & Hc).
  destruct (@play_dealer_adds_hits_twice _ _ _ Hrun) as (hits & _ & Hh & _).
  exists e', hits. auto.
Defined.

(** ** The engine: resolving the round *)

Lemma surrendered_eqb h :
  Hand.HandStatus_eqb (Hand.status h) Hand.SURRENDERED = true <->
  Hand.status h = Hand.SURRENDERED.
Proof.
  destruct (Hand.status h); cbn; split; intro H; try discriminate; reflexivity.
Qed.

Lemma resolve_hands_scored dv db hs : forall acc p,
  exists rs,
    fst (GameEngine.resolve_hands dv db hs acc p) = acc ++ rs /\
    Forall2 (scored dv db) hs rs /\
    snd (GameEngine.resolve_hands dv db hs acc p) =
      Player.set_bankroll (fold_left credited rs (Player.bankroll p)) p.
Proof.
  induction hs as [|h hs IH]; intros acc p; cbn [GameEngine.resolve_hands].
  - exists []. rewrite app_nil_r. cbn. destruct p. auto.
  - assert (Hstep : forall r p',
               scored dv db h r ->
               p' = Player.set_bankroll (credited (Player.bankroll p) r) p ->
               exists rs,
                 fst (GameEngine.resolve_hands dv db hs (acc ++ [r]) p') = acc ++ rs /\
                 Forall2 (scored dv db) (h :: hs) rs /\
                 snd (GameEngine.resolve_hands dv db hs (acc ++ [r]) p') =
                   Player.set_bankroll (fold_left credited rs (Player.bankroll p)) p).
    { intros r p' Hr ->. destruct (IH (acc ++ [r])
                 (Player.set_bankroll (credited (Player.bankroll p) r) p))
        as (rs & H1 & H2 & H3).
      exists (r :: rs). rewrite H1, H3, <- app_assoc. split; [reflexivity|].
      split; [constructor; assumption|]. reflexivity. }
    destruct (Hand.HandStatus_eqb (Hand.status h) Hand.SURRENDERED) eqn:Es.
    { apply surrendered_eqb in Es. apply Hstep.
      - unfold scored. cbn. repeat split; auto; intros; contradiction.
      - destruct p; reflexivity. }
    assert (Hns : Hand.status h <> Hand.SURRENDERED).
    { intro H. apply surrendered_eqb in H. congruence. }
    unfold Hand.is_busted.
    destruct (Z.ltb_spec 21 (Hand.value h)) as [Hb|Hb].
    { apply Hstep.
      - unfold scored. cbn. repeat split; auto; intros; try contradiction; lia.
      - destruct p; reflexivity. }
    destruct db.
    { apply Hstep.
      - unfold scored. cbn. repeat split; auto; intros;
          try contradiction; try discriminate; lia.
      - reflexivity. }
    destruct (Z.ltb_spec dv (Hand.value h)) as [Hw|Hw].
    { apply Hstep.
      - unfold scored. cbn. repeat split; auto; intros; try contradiction; lia.
      - reflexivity. }
    destruct (Z.ltb_spec (Hand.value h) dv) as [Hl|Hl].
    { apply Hstep.
      - unfold scored. cbn. repeat split; auto; intros; try contradiction;
          try (destruct H1; [discriminate|lia]); lia.
      - destruct p; reflexivity. }
    apply Hstep.
    + unfold scored. cbn. repeat split; auto; intros; try contradiction;
        try (destruct H1; [discriminate|lia]); lia.
    + reflexivity.
Qed.

(** X12. [resolve_round] scores every hand of the player, in order, as
    [scored] says: SURRENDER at minus half the bet for a surrendered hand,
    LOSE at minus the bet for a hand over 21 whatever the dealer holds, then
    WIN at the bet when the dealer is busted or lower, LOSE when the dealer
    is higher, and PUSH at 0 on equal values. The bankroll is credited twice
    the bet per win and the bet per push, and nothing else; the total is the
    sum of the payouts; hands, shoe, dealer and exposures are untouched and
    the round is marked over. *)
Theorem resolve_round_scores_every_hand : forall e : GameEngine.t,
  let summary := fst (GameEngine.resolve_round e) in
  let e' := snd (GameEngine.resolve_round e) in
  Forall2 (scored (Dealer.final_value (GameEngine.dealer e))
                  (Dealer.is_busted (GameEngine.dealer e)))
          (Player.hands (GameEngine.player e)) (player_hands summary) /\
  dealer_hand summary = Dealer.hand (GameEngine.dealer e) /\
  total_payout summary =
    fold_left PrimFloat.add (map hr_payout (player_hands summary)) 0%float /\
  GameEngine.player e' =
    Player.set_bankroll
      (fold_left credited (player_hands summary)
         (Player.bankroll (GameEngine.player e)))
      (GameEngine.player e) /\
  GameEngine.shoe e' = GameEngine.shoe e /\
  GameEngine.dealer e' = GameEngine.dealer e /\
  GameEngine.exposed e' = GameEngine.exposed e /\
  GameEngine._round_in_progress e' = false.
Proof.
  intro e. cbv zeta. unfold GameEngine.resolve_round.
  cbn [GameEngine.set_round_in_progress GameEngine.player GameEngine.dealer].
  destruct (resolve_hands_scored (Dealer.final_value (GameEngine.dealer e))
              (Dealer.is_busted (GameEngine.dealer e))
              (Player.hands (GameEngine.player e)) [] (GameEngine.player e))
    as (rs & H1 & H2 & H3).
  destruct (GameEngine.resolve_hands _ _ _ _ _) as [results p].
  cbn [fst snd] in *. subst results p.
  repeat split; auto.
Qed.

(** ** Counting: the Hi-Lo counter *)

Lemma pysum_from (l : list Z) : forall a, fold_left Z.add l a = a + pysum l.
Proof.
  unfold pysum. induction l as [|x l IH]; intro a; cbn [fold_left].
  - lia.
  - rewrite IH, (IH (0 + x)). lia.
Qed.

Lemma hilo_sum_nil : hilo_sum [] = 0.
Proof. reflexivity. Qed.

Lemma hilo_sum_cons c cs : hilo_sum (c :: cs) = get_hilo_value c + hilo_sum cs.
Proof.
  unfold hilo_sum, pysum. cbn [map fold_left]. rewrite pysum_from.
  unfold pysum. lia.
Qed.

Lemma hilo_sum_app cs1 cs2 : hilo_sum (cs1 ++ cs2) = hilo_sum cs1 + hilo_sum cs2.
Proof.
  induction cs1 as [|c cs1 IH]; cbn [app].
  - rewrite hilo_sum_nil. lia.
  - rewrite !hilo_sum_cons, IH. lia.
Qed.

Lemma hilo_sum_perm cs1 cs2 : Permutation cs1 cs2 -> hilo_sum cs1 = hilo_sum cs2.
Proof.
  induction 1; rewrite ?hilo_sum_cons; lia.
Qed.

Lemma hilo_sum_deck : hilo_sum create_deck = 0.
Proof. vm_compute. reflexivity. Qed.

Lemma count_all_spec cs : forall c,
  Counter.running_count (count_all cs c) = Counter.running_count c + hilo_sum cs /\
  Counter.cards_seen (count_all cs c) = Counter.cards_seen c + Z.of_nat (length cs) /\
  Counter._track_cards (count_all cs c) = Counter._track_cards c /\
  Counter._cards_seen_list (count_all cs c) =
    Counter._cards_seen_list c ++ (if Counter._track_cards c then cs else []).
Proof.
  induction cs as [|card cs IH]; intro c.
  - unfold count_all. cbn [fold_left length]. rewrite hilo_sum_nil.
    destruct (Counter._track_cards c);
      repeat split; try lia; rewrite ?app_nil_r; reflexivity.
  - unfold count_all in *. cbn [fold_left].
    destruct (IH (snd (Counter.count_card card c))) as (H1 & H2 & H3 & H4).
    rewrite H1, H2, H3, H4, hilo_sum_cons. cbn [Counter.count_card snd
      Counter.running_count Counter.cards_seen Counter._track_cards
      Counter._cards_seen_list length].
    repeat split; try lia.
    destruct (Counter._track_cards c); rewrite <- ?app_assoc; reflexivity.
Qed.

(** X13. Hi-Lo is a balanced count: counting the 52 cards of a deck, in
    whatever order they come, brings the running count back to where it
    started, with 52 more cards seen; over any cards the count moves by
    their Hi-Lo total, which is [-1], [0] or [+1] a card. *)
Theorem hilo_count_is_balanced :
  forall (c : Counter.t) (cs : list Card.t),
    Permutation cs create_deck ->
    Counter.running_count (count_all cs c) = Counter.running_count c /\
    Counter.cards_seen (count_all cs c) = Counter.cards_seen c + 52 /\
    Counter.cards_remaining DECK_SIZE (count_all cs c) =
      Counter.cards_remaining DECK_SIZE c - 52 /\
    forall seen rest, cs = seen ++ rest ->
      Counter.running_count (count_all seen c) =
        Counter.running_count c - hilo_sum rest /\
      - Z.of_nat (length seen) <= hilo_sum seen <= Z.of_nat (length seen).
Proof.
  intros c cs Hp.
  destruct (count_all_spec cs c) as (H1 & H2 & _).
  pose proof (hilo_sum_perm Hp) as Hs. rewrite hilo_sum_deck in Hs.
  pose proof (Permutation_length Hp) as Hl.
  change (length create_deck) with 52%nat in Hl.
  unfold Counter.cards_remaining. rewrite H1, H2, Hs, Hl.
  repeat split; try lia.
  - destruct (count_all_spec seen c) as (H3 & _). rewrite H3.
    subst cs. rewrite hilo_sum_app in Hs. lia.
  - clear. induction seen as [|x seen IH]; [rewrite hilo_sum_nil; cbn; lia|].
    rewrite hilo_sum_cons. cbn [length]. unfold get_hilo_value.
    destruct (Card.rank x); cbn [HILO_VALUES]; lia.
  - clear. induction seen as [|x seen IH]; [rewrite hilo_sum_nil; cbn; lia|].
    rewrite hilo_sum_cons. cbn [length]. unfold get_hilo_value.
    destruct (Card.rank x); cbn [HILO_VALUES]; lia.
Qed.

Lemma hilo_count_is_balanced_witness :
  Permutation (rev create_deck) create_deck /\
  Counter.running_count (count_all (rev create_deck) Counter.default) =
    Counter.running_count Counter.default.
Proof.
  assert (Hp : Permutation (rev create_deck) create_deck)
    by apply Permutation_sym, Permutation_rev.
  split; [exact Hp|].
  exact (proj1 (hilo_count_is_balanced Counter.default Hp)).
Defined.

(** X14. [count_card] never changes the verdict of [verify_count], and
    [reset] makes it true: a counter that is reset, or built with a running
    count that matches its list, verifies after any run of calls, while one
    built with a running count that does not match its tracked cards keeps
    failing until it is reset. Without tracking the verdict is always true. *)
Theorem verify_count_is_invariant :
  forall (c : Counter.t) (card : Card.t),
    Counter.verify_count (snd (Counter.count_card card c)) = Counter.verify_count c /\
    fst (Counter.count_card card c) =
      Counter.running_count (snd (Counter.count_card card c)) /\
    Counter.verify_count (Counter.reset c) = true /\
    Counter.verify_count Counter.default = true /\
    (Counter._track_cards c = false -> Counter.verify_count c = true).
Proof.
  intros c card. repeat split.
  - unfold Counter.verify_count, Counter.count_card.
    cbn [snd Counter._track_cards Counter._cards_seen_list Counter.running_count].
    destruct (Counter._track_cards c); cbn [negb]; [|reflexivity].
    change (pysum (map get_hilo_value ?l)) with (hilo_sum l).
    rewrite hilo_sum_app, hilo_sum_cons, hilo_sum_nil.
    destruct (Z.eqb_spec (hilo_sum (Counter._cards_seen_list c))
                (Counter.running_count c));
      [apply Z.eqb_eq | apply Z.eqb_neq]; lia.
  - unfold Counter.verify_count, Counter.reset. cbn.
    destruct (Counter._track_cards c); reflexivity.
  - intro H. unfold Counter.verify_count. rewrite H. reflexivity.
Qed.

(** ** Counting: the counting drill *)

Lemma shuffle_penetration s : Shoe.penetration (Shoe.shuffle s) = Shoe.penetration s.
Proof.
  unfold Shoe.shuffle. destruct (random.shuffle create_deck (Shoe.rng s)).
  reflexivity.
Qed.

Lemma needs_shuffle_when_all_dealt s :
  PrimFloat.leb (Shoe.penetration s) 1 = true ->
  Shoe._dealt_count s = 52 ->
  Shoe.needs_shuffle s = true.
Proof.
  intros Hp Hd. unfold Shoe.needs_shuffle, Shoe.penetration_reached.
  rewrite Hd.
  replace (PrimFloat.div (float_of_int 52) (float_of_int DECK_SIZE))
    with 1%float by (vm_compute; reflexivity).
  exact Hp.
Qed.

Lemma in_step_reset d : in_step (CountingDrill.reset d).
Proof.
  exists []. unfold CountingDrill.reset.
  cbn [CountingDrill.shoe CountingDrill.counter].
  destruct (shuffle_cards (CountingDrill.shoe d)) as [Hp Hd].
  rewrite app_nil_r, Hd. repeat split; try reflexivity. exact Hp.
Qed.

Lemma deal_loop_in_step n : forall cards d,
  in_step d ->
  PrimFloat.leb (Shoe.penetration (CountingDrill.shoe d)) 1 = true ->
  exists cs d',
    CountingDrill.deal_loop n cards d = Ok (cards ++ cs) d' /\
    length cs = n /\
    in_step d' /\
    Shoe.penetration (CountingDrill.shoe d') =
      Shoe.penetration (CountingDrill.shoe d) /\
    CountingDrill.cards_per_round d' = CountingDrill.cards_per_round d /\
    CountingDrill.results d' = CountingDrill.results d.
Proof.
  induction n as [|n IH]; intros cards d Hin Hpen; cbn [CountingDrill.deal_loop].
  - exists [], d. rewrite app_nil_r. repeat split; auto.
  - set (d1 := if Shoe.needs_shuffle (CountingDrill.shoe d) then _ else d).
    assert (H1 : in_step d1 /\ Shoe._cards (CountingDrill.shoe d1) <> [] /\
                 Shoe.penetration (CountingDrill.shoe d1) =
                   Shoe.penetration (CountingDrill.shoe d) /\
                 CountingDrill.cards_per_round d1 = CountingDrill.cards_per_round d /\
                 CountingDrill.results d1 = CountingDrill.results d).
    { subst d1. destruct (Shoe.needs_shuffle (CountingDrill.shoe d)) eqn:En.
      - cbn [CountingDrill.set_counter CountingDrill.set_shoe CountingDrill.shoe
             CountingDrill.counter CountingDrill.cards_per_round
             CountingDrill.results].
        destruct (shuffle_cards (CountingDrill.shoe d)) as [Hp Hd].
        split; [|split; [|split; [apply shuffle_penetration|split; reflexivity]]].
        + exists [].
          cbn [CountingDrill.set_counter CountingDrill.set_shoe
               CountingDrill.shoe CountingDrill.counter].
          rewrite app_nil_r, Hd. repeat split; try reflexivity. exact Hp.
        + intro He. apply Permutation_length in Hp. rewrite He in Hp.
          discriminate Hp.
      - split; [exact Hin|]. split; [|repeat split; reflexivity].
        intro He. destruct Hin as (dealt & Hp & _ & _ & Hd).
        rewrite He in Hp. cbn [app] in Hp. apply Permutation_length in Hp.
        change (length create_deck) with 52%nat in Hp.
        rewrite Hp in Hd.
        rewrite (needs_shuffle_when_all_dealt _ Hpen Hd) in En. discriminate En. }
    clearbody d1. destruct H1 as (Hin1 & Hne & Hpen1 & Hcpr & Hres).
    destruct (Shoe.deal (CountingDrill.shoe d1)) as [card s'|x s'] eqn:Ed.
    + apply deal_Ok in Ed. destruct Ed as [Hc Hs'].
      set (d2 := CountingDrill.set_counter _ _).
      assert (Hin2 : in_step d2).
      { destruct Hin1 as (dealt & Hp & Hrc & Hseen & Hd).
        exists (card :: dealt). subst d2.
        cbn [CountingDrill.set_counter CountingDrill.set_shoe CountingDrill.shoe
             CountingDrill.counter Counter.count_card snd
             Counter.running_count Counter.cards_seen].
        rewrite Hs'. cbn [Shoe._cards Shoe._dealt_count length].
        rewrite hilo_sum_cons, Hrc, Hseen, Hd, Nat2Z.inj_succ.
        repeat split; try lia.
        rewrite Hc, <- app_assoc in Hp. exact Hp. }
      assert (Hpen2 : PrimFloat.leb (Shoe.penetration (CountingDrill.shoe d2)) 1
                      = true).
      { subst d2. cbn [CountingDrill.set_counter CountingDrill.set_shoe
                       CountingDrill.shoe].
        rewrite Hs'. cbn [Shoe.penetration]. rewrite Hpen1. exact Hpen. }
      destruct (IH (cards ++ [card]) d2 Hin2 Hpen2)
        as (cs & d' & Hr & Hl & Hin' & Hp' & Hc' & Hr').
      exists (card :: cs), d'. rewrite Hr, <- app_assoc. cbn [app length].
      split; [reflexivity|]. split; [lia|]. split; [exact Hin'|].
      rewrite Hp', Hc', Hr'. subst d2.
      cbn [CountingDrill.set_counter CountingDrill.set_shoe CountingDrill.shoe
           CountingDrill.cards_per_round CountingDrill.results].
      rewrite Hs'. cbn [Shoe.penetration]. auto.
    + apply deal_Raise in Ed. destruct Ed as (_ & _ & He). contradiction.
Qed.

Lemma deal_cards_in_step d :
  in_step d ->
  PrimFloat.leb (Shoe.penetration (CountingDrill.shoe d)) 1 = true ->
  exists cards d',
    CountingDrill.deal_cards d =
      Ok (cards, Counter.running_count (CountingDrill.counter d')) d' /\
    length cards = Z.to_nat (CountingDrill.cards_per_round d) /\
    in_step d' /\
    Shoe.penetration (CountingDrill.shoe d') =
      Shoe.penetration (CountingDrill.shoe d) /\
    CountingDrill.cards_per_round d' = CountingDrill.cards_per_round d /\
    CountingDrill.results d' = CountingDrill.results d.
Proof.
  intros Hin Hpen.
  destruct (deal_loop_in_step (Z.to_nat (CountingDrill.cards_per_round d)) []
              Hin Hpen) as (cs & d' & Hr & Hl & H).
  exists cs, d'. unfold CountingDrill.deal_cards, bind, get, ret.
  rewrite Hr. cbn [app]. auto.
Qed.

Lemma deal_rounds_in_step n : forall d,
  in_step d ->
  PrimFloat.leb (Shoe.penetration (CountingDrill.shoe d)) 1 = true ->
  exists rounds d',
    deal_rounds n d = Ok rounds d' /\
    length rounds = n /\
    in_step d' /\
    Shoe.penetration (CountingDrill.shoe d') =
      Shoe.penetration (CountingDrill.shoe d) /\
    CountingDrill.cards_per_round d' = CountingDrill.cards_per_round d.
Proof.
  induction n as [|n IH]; intros d Hin Hpen; cbn [deal_rounds].
  - exists [], d. repeat split; auto.
  - destruct (deal_cards_in_step Hin Hpen)
      as (cards & d1 & Hr & Hl & Hin1 & Hp1 & Hc1 & _).
    assert (Hpen1 : PrimFloat.leb (Shoe.penetration (CountingDrill.shoe d1)) 1
                    = true) by (rewrite Hp1; exact Hpen).
    destruct (IH d1 Hin1 Hpen1) as (rounds & d' & Hrs & Hlen & Hin' & Hp' & Hc').
    exists ((cards, Counter.running_count (CountingDrill.counter d1)) :: rounds), d'.
    unfold bind, ret. rewrite Hr, Hrs. cbn [length].
    repeat split; auto; congruence.
Qed.

Lemma in_step_count d :
  in_step d ->
  Counter.running_count (CountingDrill.counter d) =
    - hilo_sum (Shoe._cards (CountingDrill.shoe d)) /\
  Counter.cards_seen (CountingDrill.counter d) =
    Shoe.cards_dealt (CountingDrill.shoe d) /\
  Shoe.cards_remaining (CountingDrill.shoe d) +
    Shoe.cards_dealt (CountingDrill.shoe d) = 52.
Proof.
  intros (dealt & Hp & Hrc & Hseen & Hd).
  pose proof (hilo_sum_perm Hp) as Hs.
  rewrite hilo_sum_app, hilo_sum_deck in Hs.
  apply Permutation_length in Hp. rewrite length_app in Hp.
  change (length create_deck) with 52%nat in Hp.
  unfold Shoe.cards_dealt, Shoe.cards_remaining. rewrite Hrc, Hseen, Hd.
  repeat split; lia.
Qed.

(** X15. In a counting drill whose shoe has a penetration of at most 1,
    [deal_cards] never raises after a [reset], however many rounds have
    been dealt: the next round returns [cards_per_round] cards together with
    the running count, which is minus the Hi-Lo total of the cards then left
    in the shoe; the counter has seen exactly the cards the shoe counts as
    dealt since its last shuffle, and the two add up to the deck. *)
Theorem counting_drill_count_matches_shoe :
  forall (d : CountingDrill.t) (n : nat),
    PrimFloat.leb (Shoe.penetration (CountingDrill.shoe d)) 1 = true ->
    exists rounds d1 cards d2,
      deal_rounds n (CountingDrill.reset d) = Ok rounds d1 /\
      length rounds = n /\
      CountingDrill.deal_cards d1 =
        Ok (cards, - hilo_sum (Shoe._cards (CountingDrill.shoe d2))) d2 /\
      length cards = Z.to_nat (CountingDrill.cards_per_round d) /\
      Counter.running_count (CountingDrill.counter d2) =
        - hilo_sum (Shoe._cards (CountingDrill.shoe d2)) /\
      Counter.cards_seen (CountingDrill.counter d2) =
        Shoe.cards_dealt (CountingDrill.shoe d2) /\
      Shoe.cards_remaining (CountingDrill.shoe d2) +
        Shoe.cards_dealt (CountingDrill.shoe d2) = 52.
Proof.
  intros d n Hpen.
  assert (Hpen0 : PrimFloat.leb
            (Shoe.penetration (CountingDrill.shoe (CountingDrill.reset d))) 1
            = true).
  { unfold CountingDrill.reset. cbn [CountingDrill.shoe].
    rewrite shuffle_penetration. exact Hpen. }
  destruct (deal_rounds_in_step n (in_step_reset d) Hpen0)
    as (rounds & d1 & Hrs & Hlen & Hin1 & Hp1 & Hc1).
  assert (Hpen1 : PrimFloat.leb (Shoe.penetration (CountingDrill.shoe d1)) 1
                  = true) by (rewrite Hp1; exact Hpen0).
  destruct (deal_cards_in_step Hin1 Hpen1)
    as (cards & d2 & Hr & Hl & Hin2 & _ & _ & _).
  destruct (in_step_count Hin2) as (Hrc & Hseen & Htot).
  exists rounds, d1, cards, d2. rewrite <- Hrc.
  repeat split; auto. rewrite Hl, Hc1. reflexivity.
Qed.

Lemma counting_drill_count_matches_shoe_witness :
  PrimFloat.leb
    (Shoe.penetration (CountingDrill.shoe drill_with_tracking)) 1 = true /\
  exists rounds d1 cards d2,
    deal_rounds 20 (CountingDrill.reset drill_with_tracking) = Ok rounds d1 /\
    length rounds = 20%nat /\
    CountingDrill.deal_cards d1 =
      Ok (cards, - hilo_sum (Shoe._cards (CountingDrill.shoe d2))) d2 /\
    length cards = Z.to_nat (CountingDrill.cards_per_round drill_with_tracking) /\
    Counter.running_count (CountingDrill.counter d2) =
      - hilo_sum (Shoe._cards (CountingDrill.shoe d2)) /\
    Counter.cards_seen (CountingDrill.counter d2) =
      Shoe.cards_dealt (CountingDrill.shoe d2) /\
    Shoe.cards_remaining (CountingDrill.shoe d2) +
      Shoe.cards_dealt (CountingDrill.shoe d2) = 52.
Proof.
  assert (Hpen : PrimFloat.leb
            (Shoe.penetration (CountingDrill.shoe drill_with_tracking)) 1 = true)
    by (vm_compute; reflexivity).
  split; [exact Hpen|].
  exact (counting_drill_count_matches_shoe drill_with_tracking 20 Hpen).
Defined.

Lemma current_streak_loop_from rs : forall k,
  CountingDrill.current_streak_loop rs k =
    CountingDrill.current_streak_loop rs 0 + k.
Proof.
  induction rs as [|r rs IH]; intro k; cbn [CountingDrill.current_streak_loop].
  - lia.
  - destruct (is_correct r); [|lia]. rewrite IH, (IH (0 + 1)). lia.
Qed.

Lemma run_current_snoc rs r : forall c,
  run_current (rs ++ [r]) c =
    if is_correct r then run_current rs c + 1 else 0.
Proof.
  induction rs as [|x rs IH]; intro c; cbn [app run_current].
  - reflexivity.
  - apply IH.
Qed.

Lemma current_streak_is_run_current rs :
  CountingDrill.current_streak_loop (rev rs) 0 = run_current rs 0.
Proof.
  induction rs as [|r rs IH] using rev_ind.
  - reflexivity.
  - rewrite rev_unit, run_current_snoc. cbn [CountingDrill.current_streak_loop].
    destruct (is_correct r); [|reflexivity].
    rewrite current_streak_loop_from, IH. lia.
Qed.

Lemma best_streak_loop_snoc rs r : forall best current,
  CountingDrill.best_streak_loop (rs ++ [r]) best current =
    if is_correct r
    then Z.max (CountingDrill.best_streak_loop rs best current)
               (run_current rs current + 1)
    else CountingDrill.best_streak_loop rs best current.
Proof.
  induction rs as [|x rs IH]; intros best current;
    cbn [app CountingDrill.best_streak_loop run_current].
  - destruct (is_correct r); reflexivity.
  - destruct (is_correct x); apply IH.
Qed.

Lemma streak_bounds rs : forall best current,
  0 <= current <= best ->
  0 <= run_current rs current <= CountingDrill.best_streak_loop rs best current /\
  CountingDrill.best_streak_loop rs best current <=
    Z.max best (current + Z.of_nat (length rs)).
Proof.
  induction rs as [|x rs IH]; intros best current H;
    cbn [CountingDrill.best_streak_loop run_current length].
  - lia.
  - rewrite Nat2Z.inj_succ. destruct (is_correct x).
    + destruct (IH (Z.max best (current + 1)) (current + 1)); lia.
    + destruct (IH best 0); lia.
Qed.

(** X16. The two streaks of a counting drill, recomputed from the results
    on every call, behave as running counters: recording a right answer
    with [check_answer] adds one to [current_streak] and raises
    [best_streak] to it if it is larger, a wrong answer sets
    [current_streak] to zero and leaves [best_streak] alone; and always
    [0 <= current_streak <= best_streak <= len(results)]. The result is
    marked correct exactly when the two counts are equal. *)
Theorem streaks_follow_the_answers :
  forall (d : CountingDrill.t) (cards : list Card.t)
         (correct user : Z) (time : float),
    let r := fst (CountingDrill.check_answer cards correct user time d) in
    let d' := snd (CountingDrill.check_answer cards correct user time d) in
    CountingDrill.results d' = CountingDrill.results d ++ [r] /\
    (is_correct r = true <-> user = correct) /\
    CountingDrill.current_streak d' =
      (if is_correct r then CountingDrill.current_streak d + 1 else 0) /\
    CountingDrill.best_streak d' =
      (if is_correct r
       then Z.max (CountingDrill.best_streak d) (CountingDrill.current_streak d + 1)
       else CountingDrill.best_streak d) /\
    0 <= CountingDrill.current_streak d <= CountingDrill.best_streak d /\
    CountingDrill.best_streak d <= Z.of_nat (length (CountingDrill.results d)).
Proof.
  intros d cards correct user time. cbv zeta.
  unfold CountingDrill.check_answer, CountingDrill.current_streak,
    CountingDrill.best_streak.
  cbn [fst snd CountingDrill.results is_correct].
  rewrite !current_streak_is_run_current, run_current_snoc, best_streak_loop_snoc.
  cbn [is_correct].
  destruct (@streak_bounds (CountingDrill.results d) 0 0) as [H1 H2]; [lia|].
  split; [reflexivity|]. split; [apply Z.eqb_eq|].
  repeat split; try reflexivity; lia.
Qed.

(** ** Basic strategy *)

Lemma dict_get_In {V} key (d : dict (Z * Z) V) v :
  dict_get key d = Some v -> In v (map snd d).
Proof.
  induction d as [|[k x] d IH]; cbn [dict_get map snd]; [discriminate|].
  destruct (dict_get key d) as [v'|].
  - intros [= <-]. right. apply IH. reflexivity.
  - destruct (key_eqb k key); [|discriminate]. intros [= <-]. left. reflexivity.
Qed.

Lemma soft_chart_decisions key v :
  dict_get key SOFT_STRATEGY_H17 = Some v ->
  total_chart_decision v = true /\ v <> Decision.SURRENDER_HIT.
Proof.
  intro H. apply dict_get_In in H.
  assert (Hall : forallb (fun d => total_chart_decision d
                                   && negb (Decision.eqb d Decision.SURRENDER_HIT))
                   (map snd SOFT_STRATEGY_H17) = true) by (vm_compute; reflexivity).
  rewrite forallb_forall in Hall. specialize (Hall v H).
  destruct v; cbn in Hall; try discriminate; split; try reflexivity; discriminate.
Qed.

Lemma hard_chart_decisions key v :
  dict_get key HARD_STRATEGY_H17 = Some v ->
  total_chart_decision v = true /\ v <> Decision.DOUBLE_STAND.
Proof.
  intro H. apply dict_get_In in H.
  assert (Hall : forallb (fun d => total_chart_decision d
                                   && negb (Decision.eqb d Decision.DOUBLE_STAND))
                   (map snd HARD_STRATEGY_H17) = true) by (vm_compute; reflexivity).
  rewrite forallb_forall in Hall. specialize (Hall v H).
  destruct v; cbn in Hall; try discriminate; split; try reflexivity; discriminate.
Qed.

Lemma pair_chart_decisions key v :
  dict_get key PAIR_STRATEGY_H17 = Some v -> pair_chart_decision v = true.
Proof.
  intro H. apply dict_get_In in H.
  assert (Hall : forallb pair_chart_decision (map snd PAIR_STRATEGY_H17) = true)
    by (vm_compute; reflexivity).
  rewrite forallb_forall in Hall. exact (Hall v H).
Qed.

Lemma adjust_decision_permitted d cd csur :
  total_chart_decision d = true ->
  let dec := BasicStrategy._adjust_decision d cd csur in
  total_chart_decision dec = true /\
  (cd = false -> dec <> Decision.DOUBLE /\ dec <> Decision.DOUBLE_STAND) /\
  (csur = false -> dec <> Decision.SURRENDER_HIT).
Proof.
  destruct d, cd, csur; cbn; intro H; try discriminate H;
    (split; [reflexivity|split; intro; try split; discriminate]).
Qed.

Lemma by_total_permitted hand uv cd csur :
  let dec := BasicStrategy.by_total hand uv cd csur in
  total_chart_decision dec = true /\
  (cd = false -> dec <> Decision.DOUBLE /\ dec <> Decision.DOUBLE_STAND) /\
  (csur = false -> dec <> Decision.SURRENDER_HIT).
Proof.
  unfold BasicStrategy.by_total.
  destruct (Hand.soft_value hand) as [value is_soft].
  apply adjust_decision_permitted.
  destruct is_soft.
  - destruct (dict_get _ SOFT_STRATEGY_H17) eqn:E; [|reflexivity].
    apply soft_chart_decisions in E. apply E.
  - destruct (value <? 5); [reflexivity|].
    destruct (21 <? value); [reflexivity|].
    destruct (dict_get _ HARD_STRATEGY_H17) eqn:E; [|reflexivity].
    apply hard_chart_decisions in E. apply E.
Qed.

Lemma is_pair_cards h :
  Hand.is_pair h = true ->
  exists r s0 s1, Hand.cards h = [Card.mk r s0; Card.mk r s1].
Proof.
  unfold Hand.is_pair. destruct (Hand.cards h) as [|[r0 s0] [|[r1 s1] [|]]];
    try discriminate.
  cbn [Card.rank]. intro H. exists r0, s0, s1.
  destruct r0, r1; try discriminate H; reflexivity.
Qed.

Lemma get_decision_permitted self hand upcard cd cs csur :
  exists dec,
    BasicStrategy.get_decision self hand upcard cd cs csur = Some dec /\
    (cd = false -> dec <> Decision.DOUBLE /\ dec <> Decision.DOUBLE_STAND) /\
    (csur = false -> dec <> Decision.SURRENDER_HIT) /\
    dec <> Decision.SURRENDER_STAND /\ dec <> Decision.SURRENDER_SPLIT /\
    (dec = Decision.SPLIT -> Hand.is_pair hand = true /\ cs = true) /\
    (dec <> Decision.SPLIT ->
     dec = BasicStrategy.by_total hand (get_upcard_value upcard) cd csur).
Proof.
  assert (Hfall :
            BasicStrategy.get_decision self hand upcard cd cs csur =
              Some (BasicStrategy.by_total hand (get_upcard_value upcard) cd csur) ->
            exists dec,
              BasicStrategy.get_decision self hand upcard cd cs csur = Some dec /\
              (cd = false ->
                 dec <> Decision.DOUBLE /\ dec <> Decision.DOUBLE_STAND) /\
              (csur = false -> dec <> Decision.SURRENDER_HIT) /\
              dec <> Decision.SURRENDER_STAND /\
              dec <> Decision.SURRENDER_SPLIT /\
              (dec = Decision.SPLIT -> Hand.is_pair hand = true /\ cs = true) /\
              (dec <> Decision.SPLIT ->
               dec = BasicStrategy.by_total hand (get_upcard_value upcard)
                       cd csur)).
  { intro Hg.
    destruct (by_total_permitted hand (get_upcard_value upcard) cd csur)
      as (Ht & Hd & Hs).
    exists (BasicStrategy.by_total hand (get_upcard_value upcard) cd csur).
    split; [exact Hg|]. split; [exact Hd|]. split; [exact Hs|].
    destruct (BasicStrategy.by_total hand (get_upcard_value upcard) cd csur);
      cbn in Ht; try discriminate Ht;
      (split; [discriminate|]; split; [discriminate|];
       split; [discriminate|reflexivity]). }
  destruct (Hand.is_pair hand && cs) eqn:Eps.
  - apply andb_prop in Eps. destruct Eps as [Ep ->].
    destruct (is_pair_cards hand Ep) as (r & s0 & s1 & Hc).
    destruct (dict_get (if Card.is_ace (Card.mk r s0) then 11
                        else Card.value (Card.mk r s0), get_upcard_value upcard)
                PAIR_STRATEGY_H17) as [entry|] eqn:Ee.
    + pose proof (pair_chart_decisions _ Ee) as Hpc.
      assert (Hg : BasicStrategy.get_decision self hand upcard cd true csur =
                   match entry with
                   | Decision.SPLIT => Some Decision.SPLIT
                   | Decision.SURRENDER_SPLIT =>
                       Some (if csur then Decision.SURRENDER_HIT
                             else Decision.SPLIT)
                   | _ => Some (BasicStrategy.by_total hand
                                  (get_upcard_value upcard) cd csur)
                   end).
      { unfold BasicStrategy.get_decision, get_pair_value.
        rewrite Ep, Hc. cbn [andb]. rewrite Ee. reflexivity. }
      destruct entry; cbn in Hpc; try discriminate Hpc;
        try (apply (Hfall Hg)).
      exists Decision.SPLIT. split; [exact Hg|].
      split; [intros _; split; discriminate|].
      split; [intros _; discriminate|].
      split; [discriminate|]. split; [discriminate|].
      split; [intros _; split; [exact Ep|reflexivity]|].
      intro H; contradiction H; reflexivity.
    + apply Hfall.
      unfold BasicStrategy.get_decision, get_pair_value.
      rewrite Ep, Hc. cbn [andb]. rewrite Ee. reflexivity.
  - apply Hfall.
    unfold BasicStrategy.get_decision. rewrite Eps. reflexivity.
Qed.

(** X17. [get_decision] always returns a decision, and one that the
    permissions it was given allow: never DOUBLE or DOUBLE_STAND when
    doubling is not allowed, never a surrender when surrender is not
    allowed, SPLIT only for a pair that may be split, and never
    SURRENDER_STAND or SURRENDER_SPLIT at all. The dealer rule of the
    strategy plays no part in the answer. *)
Theorem get_decision_respects_permissions :
  forall (self : BasicStrategy.t) (hand : Hand.t) (upcard : Card.t)
         (can_double can_split can_surrender : bool),
  exists dec,
    BasicStrategy.get_decision self hand upcard can_double can_split can_surrender
      = Some dec /\
    (can_double = false ->
       dec <> Decision.DOUBLE /\ dec <> Decision.DOUBLE_STAND) /\
    (can_surrender = false -> dec <> Decision.SURRENDER_HIT) /\
    dec <> Decision.SURRENDER_STAND /\ dec <> Decision.SURRENDER_SPLIT /\
    (dec = Decision.SPLIT -> Hand.is_pair hand = true /\ can_split = true) /\
    BasicStrategy.get_decision
      (BasicStrategy.mk Dealer.S17) hand upcard can_double can_split can_surrender
      = Some dec.
Proof.
  intros self hand upcard cd cs csur.
  destruct (get_decision_permitted self hand upcard cd cs csur)
    as (dec & Hg & H1 & H2 & H3 & H4 & H5 & _).
  exists dec. split; [exact Hg|]. split; [exact H1|]. split; [exact H2|].
  split; [exact H3|]. split; [exact H4|]. split; [exact H5|].
  destruct self as [rule]. exact Hg.
Qed.

(** X18. For a pair that may be split the answer of [get_decision] is the
    entry of the pair chart, adjusted to what is permitted, with one
    exception: only the SPLIT entries of the pair chart end the lookup, the
    others fall through to the chart of totals, and a pair of sevens against
    a ten-value card, which the pair chart marks SURRENDER_HIT, is answered
    as a hard 14 against ten, that is HIT, even when surrender is allowed.
    The pair chart has an entry for every pair and upcard. *)
Theorem pair_chart_is_followed_except_sevens :
  forall (self : BasicStrategy.t) (hand : Hand.t) (upcard : Card.t)
         (can_double can_surrender : bool),
    Hand.is_pair hand = true ->
    exists pair_val entry,
      get_pair_value hand = Some pair_val /\
      dict_get (pair_val, get_upcard_value upcard) PAIR_STRATEGY_H17 = Some entry /\
      BasicStrategy.get_decision self hand upcard can_double true can_surrender =
        Some (if (pair_val =? 7) && (get_upcard_value upcard =? 10)
              then Decision.HIT
              else BasicStrategy._adjust_decision entry can_double can_surrender) /\
      ((pair_val =? 7) && (get_upcard_value upcard =? 10) = true ->
       entry = Decision.SURRENDER_HIT).
Proof.
  intros self hand upcard cd csur Hp.
  destruct (is_pair_cards hand Hp) as (r & s0 & s1 & Hc).
  destruct hand as [cards st bet sp dbl]. cbn [Hand.cards] in Hc. subst cards.
  destruct upcard as [ru su].
  destruct r, ru, cd, csur;
    (eexists; eexists;
     split; [reflexivity|];
     split; [vm_compute; reflexivity|];
     split; [vm_compute; reflexivity|];
     vm_compute; intro H; first [reflexivity | discriminate H]).
Qed.

Lemma pair_chart_is_followed_except_sevens_witness :
  Hand.is_pair pair_of_sevens = true /\
  exists pair_val entry,
    get_pair_value pair_of_sevens = Some pair_val /\
    dict_get (pair_val, get_upcard_value ten_clubs) PAIR_STRATEGY_H17 =
      Some entry /\
    BasicStrategy.get_decision BasicStrategy.default pair_of_sevens ten_clubs
      true true true =
      Some (if (pair_val =? 7) && (get_upcard_value ten_clubs =? 10)
            then Decision.HIT
            else BasicStrategy._adjust_decision entry true true) /\
    ((pair_val =? 7) && (get_upcard_value ten_clubs =? 10) = true ->
     entry = Decision.SURRENDER_HIT).
Proof.
  assert (Hp : Hand.is_pair pair_of_sevens = true) by reflexivity.
  split; [exact Hp|].
  exact (@pair_chart_is_followed_except_sevens BasicStrategy.default
           pair_of_sevens ten_clubs true true Hp).
Defined.

Lemma soft_value_closed_form h :
  Hand.soft_value h =
    if (1 <=? Hand.count_aces (Hand.cards h))%nat
       && (total_low (Hand.cards h) + 10 <=? 21)
    then (total_low (Hand.cards h) + 10, true)
    else (total_low (Hand.cards h), false).
Proof.
  pose proof (total_low_ge_aces (Hand.cards h)) as Hge.
  pose proof (total_low_high (Hand.cards h)) as Hlow.
  unfold Hand.soft_value.
  rewrite demote_counting_result by lia. rewrite <- Hlow.
  destruct (Nat.leb_spec 1 (Hand.count_aces (Hand.cards h))) as [Ha|Ha];
    cbn [andb].
  - destruct (Z.leb_spec (total_low (Hand.cards h) + 10) 21) as [Hs|Hs].
    + f_equal. apply andb_true_intro. split.
      * apply Nat.ltb_lt. lia.
      * apply Z.leb_le. lia.
    + f_equal. apply andb_false_intro1. apply Nat.ltb_ge. lia.
  - f_equal. apply andb_false_intro1. apply Nat.ltb_ge. lia.
Qed.

Lemma In_range v a b : In v (range a b) <-> a <= v < b.
Proof.
  unfold range. rewrite in_map_iff. split.
  - intros (i & <- & Hi). apply in_seq in Hi. lia.
  - intro H. exists (Z.to_nat (v - a)). split; [lia|]. apply in_seq. lia.
Qed.

Lemma upcard_value_range up : 2 <= get_upcard_value up <= 11.
Proof. destruct up as [[] s]; cbn; lia. Qed.

Lemma hard_chart_complete v uv :
  5 <= v <= 21 -> 2 <= uv <= 11 ->
  exists d, dict_get (v, uv) HARD_STRATEGY_H17 = Some d.
Proof.
  intros Hv Hu.
  assert (Hall : forallb (fun v => forallb (fun u =>
                     match dict_get (v, u) HARD_STRATEGY_H17 with
                     | Some _ => true
                     | None => false
                     end) (range 2 12)) (range 5 22) = true)
    by (vm_compute; reflexivity).
  rewrite forallb_forall in Hall.
  assert (Hin : In v (range 5 22)) by (apply In_range; lia).
  specialize (Hall v Hin). rewrite forallb_forall in Hall.
  assert (Hiu : In uv (range 2 12)) by (apply In_range; lia).
  specialize (Hall uv Hiu).
  destruct (dict_get (v, uv) HARD_STRATEGY_H17) as [d|]; [|discriminate].
  exists d. reflexivity.
Qed.

Lemma soft_chart_rows v uv :
  11 <= v <= 21 -> 2 <= uv <= 11 ->
  (dict_get (v, uv) SOFT_STRATEGY_H17 = None <-> v <= 12).
Proof.
  intros Hv Hu.
  assert (Hall : forallb (fun v => forallb (fun u =>
                     match dict_get (v, u) SOFT_STRATEGY_H17 with
                     | Some _ => 13 <=? v
                     | None => v <=? 12
                     end) (range 2 12)) (range 11 22) = true)
    by (vm_compute; reflexivity).
  rewrite forallb_forall in Hall.
  assert (Hin : In v (range 11 22)) by (apply In_range; lia).
  specialize (Hall v Hin). rewrite forallb_forall in Hall.
  assert (Hiu : In uv (range 2 12)) by (apply In_range; lia).
  specialize (Hall uv Hiu).
  destruct (dict_get (v, uv) SOFT_STRATEGY_H17) as [d|].
  - apply Z.leb_le in Hall. split; [discriminate|lia].
  - apply Z.leb_le in Hall. split; [intros _; exact Hall|reflexivity].
Qed.

Lemma low_card_value_ace c :
  1 <= low_card_value c /\ (low_card_value c = 1 <-> Card.is_ace c = true).
Proof.
  destruct c as [[] s]; cbn; split; try lia; split; intro H;
    try discriminate H; try reflexivity; lia.
Qed.

Lemma total_low_pos cs : 0 <= total_low cs.
Proof.
  unfold total_low. induction cs as [|c cs IH]; cbn [map fold_right]; [lia|].
  pose proof (low_card_value_ace c). lia.
Qed.

Lemma aces_only_low h :
  aces_only h = true <->
  (1 <= Hand.count_aces (Hand.cards h))%nat /\ total_low (Hand.cards h) <= 2.
Proof.
  unfold aces_only. destruct (Hand.cards h) as [|c0 [|c1 [|c2 cs]]].
  - cbn. split; [discriminate|]. intros [H _]. lia.
  - unfold total_low, Hand.count_aces. cbn [map fold_right filter].
    pose proof (low_card_value_ace c0) as [H0 H0'].
    destruct (Card.is_ace c0) eqn:E0; cbn [length].
    + split; [intros _|reflexivity]. split; [lia|].
      assert (low_card_value c0 = 1) by (apply H0'; reflexivity). lia.
    + split; [discriminate|]. intros [H _]. lia.
  - unfold total_low, Hand.count_aces. cbn [map fold_right filter].
    pose proof (low_card_value_ace c0) as [H0 H0'].
    pose proof (low_card_value_ace c1) as [H1 H1'].
    split.
    + intro H. apply andb_prop in H. destruct H as [E0 E1].
      rewrite E0. cbn [length]. split; [lia|].
      apply H0' in E0. apply H1' in E1. lia.
    + intros [_ H]. apply andb_true_intro.
      split; [apply H0'|apply H1']; lia.
  - split; [discriminate|]. intros [_ H]. exfalso.
    unfold total_low in H. cbn [map fold_right] in H.
    pose proof (low_card_value_ace c0). pose proof (low_card_value_ace c1).
    pose proof (low_card_value_ace c2).
    pose proof (total_low_pos cs) as Hp. unfold total_low in Hp. lia.
Qed.

(** X19. The charts of totals cover every hand but one kind. The hard
    lookup never falls back on its default: the hard chart has an entry for
    every total from 5 to 21 and every upcard. The soft chart starts at
    soft 13, so the soft lookup falls back on its STAND default exactly for
    a hand made of one or two Aces and nothing else: a pair of Aces that may
    not be split, or the lone Ace of a hand just split, is told to STAND
    whatever the dealer shows and whatever is permitted. *)
Theorem total_charts_miss_only_the_aces :
  forall (self : BasicStrategy.t) (hand : Hand.t) (upcard : Card.t)
         (can_double can_split can_surrender : bool),
    let v := Hand.value hand in
    let uv := get_upcard_value upcard in
    2 <= uv <= 11 /\
    (Hand.is_soft hand = false -> 5 <= v <= 21 ->
     exists d, dict_get (v, uv) HARD_STRATEGY_H17 = Some d) /\
    (Hand.is_soft hand = true ->
     11 <= v <= 21 /\
     (dict_get (v, uv) SOFT_STRATEGY_H17 = None <-> aces_only hand = true)) /\
    (aces_only hand = true -> Hand.is_pair hand && can_split = false ->
     Hand.is_soft hand = true /\
     BasicStrategy.get_decision self hand upcard can_double can_split can_surrender
       = Some Decision.STAND).
Proof.
  intros self hand upcard cd cs csur v uv.
  pose proof (upcard_value_range upcard) as Hu. fold uv in Hu.
  pose proof (soft_value_closed_form hand) as Hsv.
  pose proof (soft_value_fst hand) as Hfst. fold v in Hfst.
  pose proof (total_low_ge_aces (Hand.cards hand)) as Hge.
  pose proof (aces_only_low hand) as Hao.
  assert (Hsoft : Hand.is_soft hand = true ->
                  11 <= v <= 21 /\
                  (v <= 12 <-> aces_only hand = true)).
  { unfold Hand.is_soft. intro Hs. rewrite Hsv in Hs, Hfst.
    destruct ((1 <=? Hand.count_aces (Hand.cards hand))%nat
              && (total_low (Hand.cards hand) + 10 <=? 21)) eqn:E;
      [|discriminate Hs].
    apply andb_prop in E. destruct E as [Ea El].
    apply Nat.leb_le in Ea. apply Z.leb_le in El. cbn [fst] in Hfst.
    split; [lia|]. rewrite Hao. split; [intro; split; lia|intros [_ H]; lia]. }
  split; [exact Hu|]. split; [|split].
  - intros _ Hv. apply hard_chart_complete; assumption.
  - intro Hs. destruct (Hsoft Hs) as [Hv Hiff]. split; [exact Hv|].
    rewrite <- Hiff. apply soft_chart_rows; assumption.
  - intros Ha Hps.
    assert (Hs : Hand.is_soft hand = true).
    { unfold Hand.is_soft. rewrite Hsv.
      apply Hao in Ha. destruct Ha as [Ha Hl].
      replace ((1 <=? Hand.count_aces (Hand.cards hand))%nat) with true
        by (symmetry; apply Nat.leb_le; exact Ha).
      replace (total_low (Hand.cards hand) + 10 <=? 21) with true
        by (symmetry; apply Z.leb_le; lia).
      reflexivity. }
    split; [exact Hs|].
    destruct (Hsoft Hs) as [Hv Hiff].
    assert (Hnone : dict_get (v, uv) SOFT_STRATEGY_H17 = None).
    { apply soft_chart_rows; try assumption. apply Hiff. exact Ha. }
    unfold BasicStrategy.get_decision. fold uv. rewrite Hps.
    unfold BasicStrategy.by_total.
    assert (Hpair : Hand.soft_value hand = (v, true)).
    { unfold Hand.is_soft in Hs. destruct (Hand.soft_value hand) as [x b].
      cbn [fst snd] in *. subst. reflexivity. }
    rewrite Hpair, Hnone. reflexivity.
Qed.

Lemma Action_in_In a actions : Action_in a actions = true -> In a actions.
Proof.
  unfold Action_in. rewrite existsb_exists. intros (x & Hin & He).
  destruct a, x; try discriminate He; exact Hin.
Qed.

Lemma pair_value_bound h : Hand.is_pair h = true -> Hand.value h <= 21.
Proof.
  intro Hp. destruct (is_pair_cards h Hp) as (r & s0 & s1 & Hc).
  unfold Hand.value. rewrite Hc. destruct r; vm_compute; discriminate.
Qed.

Lemma by_total_busted h uv cd csur :
  21 < Hand.value h -> BasicStrategy.by_total h uv cd csur = Decision.STAND.
Proof.
  intro Hb. unfold BasicStrategy.by_total.
  pose proof (soft_value_fst h) as Hfst.
  pose proof (soft_value_closed_form h) as Hsv.
  destruct ((1 <=? Hand.count_aces (Hand.cards h))%nat
            && (total_low (Hand.cards h) + 10 <=? 21)) eqn:E.
  - apply andb_prop in E. destruct E as [_ El]. apply Z.leb_le in El.
    rewrite Hsv in Hfst. cbn [fst] in Hfst. lia.
  - rewrite Hsv in Hfst |- *. cbn [fst] in Hfst. rewrite Hfst.
    replace (Hand.value h <? 5) with false by (symmetry; apply Z.ltb_ge; lia).
    replace (21 <? Hand.value h) with true by (symmetry; apply Z.ltb_lt; lia).
    reflexivity.
Qed.

(** X20. In full-play mode the trainer never asks for a move the player
    cannot make. For the hand whose turn it is, the decision of the
    strategy, taken with the permissions read off [get_available_actions],
    is always matched by one of the available actions: some action of the
    list passes [_check_action] against it. *)
Theorem advice_is_always_available :
  forall (self : BasicStrategy.t) (e : GameEngine.t) (i : nat) (h : Hand.t)
         (upcard : Card.t),
    Player.active_hand_index (GameEngine.player e) = Some i ->
    Player.active_hand (GameEngine.player e) = Some h ->
    exists actions dec a,
      GameEngine.get_available_actions (Z.of_nat i) e = Ok actions e /\
      advice self h upcard actions = Some dec /\
      In a actions /\
      _check_action a dec = true.
Proof.
  intros self e i h upcard Hi Hh.
  change (Player.active_hand_index (GameEngine.player e))
    with (active_index_from 0 (Player.hands (GameEngine.player e))) in Hi.
  pose proof (active_index_from_spec (Player.hands (GameEngine.player e)) 0) as H.
  rewrite Hi, Nat.sub_0_r in H.
  destruct H as (_ & _ & h' & Hn & Hst & Hf & _).
  unfold Player.active_hand in Hh. rewrite Hf in Hh. injection Hh as ->.
  assert (Hlen : (i < length (Player.hands (GameEngine.player e)))%nat)
    by (apply nth_error_Some; rewrite Hn; discriminate).
  assert (Hidx : pylist.index (length (Player.hands (GameEngine.player e)))
                   (Z.of_nat i) = Some i).
  { unfold pylist.index.
    replace (0 <=? Z.of_nat i) with true by (symmetry; apply Z.leb_le; lia).
    replace (Z.of_nat i <? Z.of_nat (length (Player.hands (GameEngine.player e))))
      with true by (symmetry; apply Z.ltb_lt; lia).
    cbn [andb]. rewrite Nat2Z.id. reflexivity. }
  assert (Hstand : Hand.can_stand h = true)
    by (unfold Hand.can_stand; rewrite Hst; reflexivity).
  unfold GameEngine.get_available_actions.
  replace (Z.of_nat (length (Player.hands (GameEngine.player e))) <=? Z.of_nat i)
    with false by (symmetry; apply Z.leb_gt; lia).
  rewrite (lookup_at _ _ Hidx Hn). rewrite Hstand.
  set (actions := _ ++ _).
  assert (Hs_in : In STAND actions).
  { subst actions. apply in_or_app. right. left. reflexivity. }
  destruct (get_decision_permitted self h upcard (Action_in DOUBLE actions)
              (Action_in SPLIT actions) (Action_in SURRENDER actions))
    as (dec & Hg & Hd & _ & H3 & H4 & H5 & H6).
  exists actions, dec.
  assert (Hcases : exists a, In a actions /\ _check_action a dec = true).
  { destruct (Z.ltb_spec 21 (Hand.value h)) as [Hb|Hnb].
    - (* an ACTIVE hand over 21: the answer is STAND *)
      assert (dec = Decision.STAND) as ->.
      { destruct (Decision.eqb dec Decision.SPLIT) eqn:Es.
        - assert (dec = Decision.SPLIT) by (destruct dec; try discriminate Es;
                                             reflexivity).
          destruct (H5 H) as [Hp _]. apply pair_value_bound in Hp. lia.
        - rewrite H6 by (intros ->; discriminate Es).
          apply by_total_busted. exact Hb. }
      exists STAND. split; [exact Hs_in|reflexivity].
    - assert (Hh_in : In HIT actions).
      { subst actions. apply in_or_app. left. unfold Hand.can_hit, Hand.is_busted.
        rewrite Hst.
        replace (21 <? Hand.value h) with false by (symmetry; apply Z.ltb_ge; lia).
        left. reflexivity. }
      destruct dec.
      + exists HIT. split; [exact Hh_in|reflexivity].
      + exists STAND. split; [exact Hs_in|reflexivity].
      + exists DOUBLE. split; [|reflexivity]. apply Action_in_In.
        destruct (Action_in DOUBLE actions); [reflexivity|].
        destruct (Hd eq_refl) as [Hx _]. contradiction Hx. reflexivity.
      + exists STAND. split; [exact Hs_in|reflexivity].
      + exists SPLIT. split; [|reflexivity]. apply Action_in_In.
        apply (H5 eq_refl).
      + exists HIT. split; [exact Hh_in|reflexivity].
      + contradiction H3. reflexivity.
      + contradiction H4. reflexivity. }
  destruct Hcases as (a & Ha & Hc). exists a.
  split; [reflexivity|]. split; [exact Hg|]. split; assumption.
Qed.

Lemma advice_is_always_available_witness :
  Player.active_hand_index (GameEngine.player engine_with_eights) = Some 0%nat /\
  Player.active_hand (GameEngine.player engine_with_eights) = Some pair_of_eights /\
  exists actions dec a,
    GameEngine.get_available_actions (Z.of_nat 0) engine_with_eights =
      Ok actions engine_with_eights /\
    advice BasicStrategy.default pair_of_eights ten_clubs actions = Some dec /\
    In a actions /\
    _check_action a dec = true.
Proof.
  assert (Hi : Player.active_hand_index (GameEngine.player engine_with_eights)
               = Some 0%nat) by reflexivity.
  assert (Hh : Player.active_hand (GameEngine.player engine_with_eights)
               = Some pair_of_eights) by reflexivity.
  split; [exact Hi|]. split; [exact Hh|].
  exact (@advice_is_always_available BasicStrategy.default engine_with_eights
           0%nat pair_of_eights ten_clubs Hi Hh).
Defined.

(** ** Index plays *)

Lemma find_loop_not_pair plays t d s pv is_soft :
  IndexPlayLookup.find_loop plays t d s false pv is_soft =
  IndexPlayLookup.find_loop plays t d s false None is_soft.
Proof.
  induction plays as [|play rest IH]; cbn [IndexPlayLookup.find_loop andb];
    [reflexivity|].
  rewrite IH. reflexivity.
Qed.

Lemma index_plays_head :
  ALL_INDEX_PLAYS = insurance_play :: tl ALL_INDEX_PLAYS.
Proof. reflexivity. Qed.

Lemma insurance_is_not_a_pair_play :
  str_contains (String.append "10,10 vs " "A")
    (IndexPlay.player_hand insurance_play) = false.
Proof. vm_compute. reflexivity. Qed.

Lemma index_plays_against_an_ace :
  length (filter (fun p => str_contains "vs A"%string (IndexPlay.player_hand p))
            ALL_INDEX_PLAYS) = 5%nat.
Proof. vm_compute. reflexivity. Qed.

Lemma find_loop_insurance play rest t s is_pair pv is_soft :
  IndexPlay.deviation_type play = INSURANCE ->
  str_contains (String.append "10,10 vs " s) (IndexPlay.player_hand play) = false ->
  IndexPlayLookup.find_loop (play :: rest) t 11 s is_pair pv is_soft = Some play.
Proof.
  intros Hd Hc. cbn [IndexPlayLookup.find_loop].
  rewrite Hc, Hd, !andb_false_r. reflexivity.
Qed.

Lemma insurance_found_against_an_ace t is_pair pv is_soft :
  IndexPlayLookup.find_applicable_play (IndexPlayLookup.new None)
    t 11 is_pair pv is_soft = Some insurance_play.
Proof.
  unfold IndexPlayLookup.find_applicable_play, IndexPlayLookup.new.
  cbn [IndexPlayLookup.plays]. rewrite index_plays_head.
  apply find_loop_insurance; [reflexivity|].
  apply insurance_is_not_a_pair_play.
Qed.

(** X21. Against an Ace the lookup of index plays answers Insurance for
    every hand: Insurance heads the list and is returned as soon as the
    upcard value is 11, so the other plays written against an Ace (11 vs A,
    10 vs A, 15 vs A, 14 vs A) are never found, and [get_deviation] answers
    STAND, which stands for taking insurance, from a true count of 3 and
    nothing below, whatever the hand. *)
Theorem insurance_answers_every_hand_against_an_ace :
  forall (player_total true_count : Z) (is_pair is_soft : bool)
         (pair_value : option Z),
    IndexPlayLookup.find_applicable_play (IndexPlayLookup.new None)
      player_total 11 is_pair pair_value is_soft = Some insurance_play /\
    IndexPlayLookup.get_deviation (IndexPlayLookup.new None)
      player_total 11 true_count is_pair pair_value is_soft =
      (if 3 <=? true_count then Some Decision.STAND else None) /\
    In insurance_play ALL_INDEX_PLAYS /\
    length (filter (fun p => str_contains "vs A"%string (IndexPlay.player_hand p))
              ALL_INDEX_PLAYS) = 5%nat.
Proof.
  intros t tc is_pair is_soft pv.
  pose proof (insurance_found_against_an_ace t is_pair pv is_soft) as Hf.
  split; [exact Hf|]. split.
  - unfold IndexPlayLookup.get_deviation. rewrite Hf.
    unfold IndexPlay.should_deviate, insurance_play.
    cbn [IndexPlay.is_greater_than IndexPlay.index IndexPlay.deviation_action].
    reflexivity.
  - split; [rewrite index_plays_head; left; reflexivity|].
    apply index_plays_against_an_ace.
Qed.

(** X22. The lookup of index plays matches a hard total by substring, so
    a one-digit total is answered as the total ten above it: whatever play
    is found for the hard total [t + 10] against an upcard from 2 to 10 is
    also found for the hard total [t], for [t] from 0 to 9. A hard 5 or 6
    against a ten is thus told to stand as a 15 or 16 would be, and a hard
    10 that is not a pair is answered, against 5 and 6, with the plays
    written for a pair of tens, which deviate to SPLIT. *)
Theorem one_digit_totals_match_the_teens :
  forall (t d true_count : Z) (pair_value : option Z) (play : IndexPlay.t),
    0 <= t <= 9 -> 2 <= d <= 10 ->
    IndexPlayLookup.find_applicable_play (IndexPlayLookup.new None)
      (t + 10) d false pair_value false = Some play ->
    IndexPlayLookup.find_applicable_play (IndexPlayLookup.new None)
      t d false pair_value false = Some play /\
    IndexPlayLookup.get_deviation (IndexPlayLookup.new None)
      t d true_count false pair_value false =
    IndexPlayLookup.get_deviation (IndexPlayLookup.new None)
      (t + 10) d true_count false pair_value false /\
    (t = 0 -> d = 5 \/ d = 6 ->
     IndexPlay.deviation_action play = Decision.SPLIT /\
     String.prefix "10,10 vs "%string (IndexPlay.player_hand play) = true).
Proof.
  intros t d tc pv play Ht Hd.
  unfold IndexPlayLookup.get_deviation, IndexPlayLookup.find_applicable_play.
  rewrite !(find_loop_not_pair _ _ _ _ pv).
  assert (Ht' : t = 0 \/ t = 1 \/ t = 2 \/ t = 3 \/ t = 4 \/ t = 5 \/ t = 6 \/
                t = 7 \/ t = 8 \/ t = 9) by lia.
  assert (Hd' : d = 2 \/ d = 3 \/ d = 4 \/ d = 5 \/ d = 6 \/ d = 7 \/ d = 8 \/
                d = 9 \/ d = 10) by lia.
  clear Ht Hd.
  repeat (destruct Ht' as [->|Ht']); try subst t;
    repeat (destruct Hd' as [->|Hd']); try subst d;
    vm_compute; intro H; try discriminate H;
    (split; [exact H|]); (split; [reflexivity|]);
    intros H0 H1; try discriminate H0;
    try (destruct H1 as [H1|H1]; discriminate H1);
    injection H as <-; split; reflexivity.
Qed.

Lemma one_digit_totals_match_the_teens_witness :
  exists play,
    IndexPlayLookup.find_applicable_play (IndexPlayLookup.new None)
      6 10 false None false = Some play /\
    IndexPlay.name play = "16 vs 10 Stand"%string /\
    IndexPlayLookup.get_deviation (IndexPlayLookup.new None)
      6 10 0 false None false = Some Decision.STAND.
Proof.
  assert (Ht : 0 <= 6 <= 9) by lia.
  assert (Hd : 2 <= 10 <= 10) by lia.
  assert (Hf : IndexPlayLookup.find_applicable_play (IndexPlayLookup.new None)
                 (6 + 10) 10 false None false =
               Some (IndexPlay.mk "16 vs 10 Stand"%string "16 vs 10"%string
                       Decision.HIT Decision.STAND 0 true STAND_INSTEAD_OF_HIT
                       0x1.e666666666666p-1%float))
    by (vm_compute; reflexivity).
  destruct (@one_digit_totals_match_the_teens 6 10 0 None _ Ht Hd Hf)
    as (H1 & H2 & _).
  eexists. split; [exact H1|]. split; [reflexivity|].
  rewrite H2. vm_compute. reflexivity.
Defined.

(** ** The engine: hands and their status *)

Lemma total_low_app cs c : total_low (cs ++ [c]) = total_low cs + low_card_value c.
Proof.
  unfold total_low. induction cs as [|x cs IH]; cbn [app map fold_right]; lia.
Qed.

Lemma count_aces_app cs c :
  (Hand.count_aces cs <= Hand.count_aces (cs ++ [c]))%nat.
Proof.
  unfold Hand.count_aces. rewrite filter_app, length_app. lia.
Qed.

Lemma value_closed_form h :
  Hand.value h =
    if (1 <=? Hand.count_aces (Hand.cards h))%nat
       && (total_low (Hand.cards h) + 10 <=? 21)
    then total_low (Hand.cards h) + 10
    else total_low (Hand.cards h).
Proof.
  rewrite <- soft_value_fst, soft_value_closed_form.
  destruct ((1 <=? Hand.count_aces (Hand.cards h))%nat
            && (total_low (Hand.cards h) + 10 <=? 21)); reflexivity.
Qed.

Lemma value_grows_when_busted h c :
  21 < Hand.value h ->
  21 < Hand.value (Hand.set_cards (Hand.cards h ++ [c]) h).
Proof.
  rewrite !value_closed_form. cbn [Hand.set_cards Hand.cards].
  rewrite total_low_app. pose proof (low_card_value_ace c) as [Hc _].
  destruct ((1 <=? Hand.count_aces (Hand.cards h))%nat
            && (total_low (Hand.cards h) + 10 <=? 21)) eqn:E.
  - apply andb_prop in E. destruct E as [_ E]. apply Z.leb_le in E. lia.
  - intro H.
    destruct ((1 <=? Hand.count_aces (Hand.cards h ++ [c]))%nat
              && (total_low (Hand.cards h) + low_card_value c + 10 <=? 21));
      lia.
Qed.

Lemma add_card_sound c h :
  hand_sound h = true -> hand_sound (Hand.add_card c h) = true.
Proof.
  intro Hs. unfold Hand.add_card.
  destruct (21 <? Hand.value (Hand.set_cards (Hand.cards h ++ [c]) h)) eqn:E.
  - unfold hand_sound. cbn [Hand.set_status Hand.status]. exact E.
  - unfold hand_sound in *. cbn [Hand.set_cards Hand.status] in *.
    destruct (Hand.status h); try reflexivity.
    + apply Z.leb_le. apply Z.ltb_ge in E. exact E.
    + apply Z.ltb_lt in Hs. apply (value_grows_when_busted h c) in Hs.
      apply Z.ltb_lt. exact Hs.
Qed.

Lemma forallb_update {A} (P : A -> bool) f n : forall l,
  (forall a, P a = true -> P (f a) = true) ->
  forallb P l = true -> forallb P (pylist.update n f l) = true.
Proof.
  induction n as [|n IH]; intros [|a l] Hf H; cbn [pylist.update forallb] in *;
    try reflexivity; apply andb_prop in H; destruct H as [Ha Hl];
    apply andb_true_intro; split; auto.
Qed.

Lemma forallb_insert {A} (P : A -> bool) l i x :
  forallb P l = true -> P x = true -> forallb P (pylist.insert l i x) = true.
Proof.
  intros Hl Hx. unfold pylist.insert.
  rewrite <- (firstn_skipn (pylist.insert_pos (length l) i) l) in Hl.
  rewrite forallb_app in Hl. apply andb_prop in Hl. destruct Hl as [H1 H2].
  rewrite forallb_app. cbn [forallb]. rewrite H1, Hx, H2. reflexivity.
Qed.

Lemma one_card_sound c b s d :
  hand_sound (Hand.mk [c] Hand.ACTIVE b s d) = true.
Proof. destruct c as [[] su]; reflexivity. Qed.

Lemma update_hand_sound r f p :
  (forall h, hand_sound h = true -> hand_sound (f h) = true) ->
  player_sound p -> player_sound (Player.update_hand r f p).
Proof.
  intros Hf Hp. unfold player_sound, Player.update_hand.
  cbn [Player.set_hands Player.hands]. apply forallb_update; assumption.
Qed.

Lemma lookup_state i p : state_of (Player.lookup i p) = p.
Proof.
  unfold Player.lookup.
  destruct (pylist.index _ i) as [n|]; [|reflexivity].
  destruct (nth_error (Player.hands p) n); reflexivity.
Qed.

Lemma new_hand_sound bet p : player_sound p -> player_sound (state_of (Player.new_hand bet p)).
Proof.
  intro Hp. unfold Player.new_hand.
  destruct (PrimFloat.ltb _ _); [exact Hp|]. reflexivity.
Qed.

Lemma new_hand_Ok_sound bet p r p' :
  Player.new_hand bet p = Ok r p' -> player_sound p'.
Proof.
  unfold Player.new_hand. destruct (PrimFloat.ltb _ _); [discriminate|].
  intros [= _ <-]. reflexivity.
Qed.

Lemma split_hand_sound i p :
  player_sound p -> player_sound (state_of (Player.split_hand i p)).
Proof.
  intro Hp. unfold Player.split_hand.
  destruct (Player.max_splits p <=? Player._split_count p); [exact Hp|].
  pose proof (lookup_state i p) as Hl.
  destruct (Player.lookup i p) as [[r hand] p0|x p0]; cbn [state_of] in Hl;
    [|subst p0; exact Hp].
  destruct (negb (Hand.can_split hand)) eqn:Ec; [exact Hp|].
  destruct (PrimFloat.ltb _ _); [exact Hp|].
  unfold Hand.split. rewrite Ec.
  destruct (Hand.cards hand) as [|c0 [|c1 [|c2 cs]]]; try exact Hp.
  cbn [state_of]. unfold player_sound.
  cbn [Player.set_split_count Player.set_hands Player.set_bankroll Player.hands].
  apply forallb_insert; [|apply one_card_sound].
  apply forallb_update; [|exact Hp].
  intros _ _. apply one_card_sound.
Qed.

Lemma double_down_sound i p :
  player_sound p -> player_sound (state_of (Player.double_down i p)).
Proof.
  intro Hp. unfold Player.double_down.
  pose proof (lookup_state i p) as Hl.
  destruct (Player.lookup i p) as [[r hand] p0|x p0]; cbn [state_of] in Hl;
    [|subst p0; exact Hp].
  destruct (negb (Hand.can_double hand)); [exact Hp|].
  destruct (PrimFloat.ltb _ _); [exact Hp|].
  cbn [state_of]. apply update_hand_sound; [intros; reflexivity|].
  apply update_hand_sound; [intros h Hh; exact Hh|]. exact Hp.
Qed.

Lemma surrender_hand_sound i p :
  player_sound p -> player_sound (state_of (Player.surrender_hand i p)).
Proof.
  intro Hp. unfold Player.surrender_hand.
  pose proof (lookup_state i p) as Hl.
  destruct (Player.lookup i p) as [[r hand] p0|x p0]; cbn [state_of] in Hl;
    [|subst p0; exact Hp].
  destruct (negb (Hand.can_surrender hand)); [exact Hp|].
  cbn [state_of]. apply update_hand_sound; [intros; reflexivity|]. exact Hp.
Qed.

Lemma keeps_bind {A B} (m : M GameEngine.t A) (k : A -> M GameEngine.t B) :
  keeps m -> (forall a, keeps (k a)) -> keeps (bind m k).
Proof.
  intros Hm Hk e He. unfold bind. specialize (Hm e He).
  destruct (m e) as [a e1|x e1]; cbn [state_of] in *; [|exact Hm].
  apply Hk. exact Hm.
Qed.

Lemma keeps_ret {A} (a : A) : keeps (ret a).
Proof. intros e He. exact He. Qed.

Lemma keeps_raise {A} x : keeps (@raise GameEngine.t A x).
Proof. intros e He. exact He. Qed.

Lemma keeps_get : keeps (@get GameEngine.t).
Proof. intros e He. exact He. Qed.

Lemma keeps_modify f :
  (forall e, hands_sound e -> hands_sound (f e)) -> keeps (modify f).
Proof. intros Hf e He. apply Hf. exact He. Qed.

Lemma keeps_in_shoe {A} (m : M Shoe.t A) : keeps (GameEngine.in_shoe m).
Proof.
  intros e He. unfold GameEngine.in_shoe, zoom.
  destruct (m (GameEngine.shoe e)); exact He.
Qed.

Lemma keeps_in_player {A} (m : M Player.t A) :
  (forall p, player_sound p -> player_sound (state_of (m p))) ->
  keeps (GameEngine.in_player m).
Proof.
  intros Hm e He. unfold GameEngine.in_player, zoom.
  specialize (Hm (GameEngine.player e) He).
  destruct (m (GameEngine.player e)); exact Hm.
Qed.

Lemma expose_if_sound face_up card e :
  hands_sound e -> hands_sound (GameEngine.expose_if face_up card e).
Proof.
  intro He. unfold GameEngine.expose_if.
  destruct (face_up && GameEngine.on_card_exposed e); exact He.
Qed.

Lemma keeps_deal_card r face_up : keeps (GameEngine._deal_card r face_up).
Proof.
  unfold GameEngine._deal_card.
  apply keeps_bind; [apply keeps_in_shoe|]. intro card.
  apply keeps_bind.
  { apply keeps_modify. intros e He. unfold hands_sound.
    cbn [GameEngine.set_player GameEngine.player].
    apply update_hand_sound; [apply add_card_sound|exact He]. }
  intros _. apply keeps_bind; [|intros _; apply keeps_ret].
  apply keeps_modify. intros e He. apply expose_if_sound. exact He.
Qed.

Lemma keeps_deal_to_dealer face_up : keeps (GameEngine._deal_to_dealer face_up).
Proof.
  unfold GameEngine._deal_to_dealer.
  apply keeps_bind; [apply keeps_in_shoe|]. intro card.
  apply keeps_bind; [apply keeps_modify; intros e He; exact He|].
  intros _. apply keeps_bind; [|intros _; apply keeps_ret].
  apply keeps_modify. intros e He. apply expose_if_sound. exact He.
Qed.

Lemma keeps_execute_action action i : keeps (GameEngine.execute_action action i).
Proof.
  unfold GameEngine.execute_action.
  apply keeps_bind.
  { apply keeps_in_player. intros p Hp. rewrite lookup_state. exact Hp. }
  intros [r hand]. destruct action.
  - destruct (negb (Hand.can_hit hand)); [apply keeps_raise|].
    apply keeps_bind; [apply keeps_deal_card|intro; apply keeps_ret].
  - destruct (negb (Hand.can_stand hand)); [apply keeps_raise|].
    apply keeps_bind; [|intros _; apply keeps_ret].
    apply keeps_modify. intros e He. unfold hands_sound.
    cbn [GameEngine.set_player GameEngine.player].
    apply update_hand_sound; [intros; reflexivity|exact He].
  - destruct (negb (Hand.can_double hand)); [apply keeps_raise|].
    apply keeps_bind; [apply keeps_in_player; apply double_down_sound|].
    intros _. apply keeps_bind; [apply keeps_deal_card|]. intro card.
    apply keeps_bind; [|intros _; apply keeps_ret].
    apply keeps_modify. intros e He. unfold hands_sound.
    cbn [GameEngine.set_player GameEngine.player].
    apply update_hand_sound; [intros; reflexivity|exact He].
  - destruct (negb (Hand.can_split hand)); [apply keeps_raise|].
    apply keeps_bind; [apply keeps_in_player; apply split_hand_sound|].
    intros [hand1 hand2].
    apply keeps_bind; [apply keeps_deal_card|]. intros _.
    apply keeps_bind; [apply keeps_deal_card|]. intros _. apply keeps_ret.
  - destruct (negb (Hand.can_surrender hand)); [apply keeps_raise|].
    apply keeps_bind; [apply keeps_in_player; apply surrender_hand_sound|].
    intros _. apply keeps_ret.
Qed.

Lemma keeps_shuffle_if_needed : keeps GameEngine.shuffle_if_needed.
Proof.
  intros e He. unfold GameEngine.shuffle_if_needed.
  destruct (Shoe.needs_shuffle (GameEngine.shoe e)); [|exact He].
  revert e He.
  change (keeps
    (bind (modify (fun e => GameEngine.set_shoe (Shoe.shuffle (GameEngine.shoe e)) e))
       (fun _ => bind (GameEngine.in_shoe (Shoe.burn 1))
          (fun burned => modify (fun e =>
             match burned with
             | card :: _ => if GameEngine.on_card_exposed e
                            then GameEngine.call_on_card_exposed card e else e
             | [] => e
             end))))).
  apply keeps_bind; [apply keeps_modify; intros e He; exact He|].
  intros _. apply keeps_bind; [apply keeps_in_shoe|]. intro burned.
  apply keeps_modify. intros e He.
  destruct burned; [exact He|].
  destruct (GameEngine.on_card_exposed e); exact He.
Qed.

Lemma keeps_start_round bet : keeps (GameEngine.start_round bet).
Proof.
  unfold GameEngine.start_round.
  apply keeps_bind; [apply keeps_shuffle_if_needed|]. intros _.
  apply keeps_bind; [apply keeps_in_player; apply new_hand_sound|].
  intro player_hand.
  apply keeps_bind; [apply keeps_modify; intros e He; exact He|]. intros _.
  apply keeps_bind; [apply keeps_deal_card|]. intros _.
  apply keeps_bind; [apply keeps_deal_to_dealer|]. intros _.
  apply keeps_bind; [apply keeps_deal_card|]. intros _.
  apply keeps_bind; [apply keeps_deal_to_dealer|]. intros _.
  apply keeps_bind; [apply keeps_modify; intros e He; exact He|]. intros _.
  apply keeps_bind; [apply keeps_get|]. intro e. apply keeps_ret.
Qed.

Lemma start_round_Ok_sound bet e r e1 :
  GameEngine.start_round bet e = Ok r e1 -> hands_sound e1.
Proof.
  unfold GameEngine.start_round. intro H.
  apply bind_Ok in H. destruct H as (u & ea & _ & H).
  apply bind_Ok in H. destruct H as (ph & eb & Hn & H).
  assert (Hb : hands_sound eb).
  { unfold GameEngine.in_player, zoom in Hn.
    destruct (Player.new_hand bet (GameEngine.player ea)) as [r0 p'|x p'] eqn:En;
      [|discriminate Hn].
    injection Hn as _ <-. unfold hands_sound.
    cbn [GameEngine.set_player GameEngine.player].
    exact (new_hand_Ok_sound _ _ En). }
  assert (Hk : keeps
            (bind (modify (fun e => GameEngine.set_dealer
                                      (Dealer.new_hand (GameEngine.dealer e)) e))
               (fun _ => bind (GameEngine._deal_card ph true)
               (fun _ => bind (GameEngine._deal_to_dealer true)
               (fun _ => bind (GameEngine._deal_card ph true)
               (fun _ => bind (GameEngine._deal_to_dealer false)
               (fun _ => bind (modify (GameEngine.set_round_in_progress true))
               (fun _ => bind get
               (fun e => ret (ph, Dealer.upcard (GameEngine.dealer e))))))))))).
  { apply keeps_bind; [apply keeps_modify; intros e0 He; exact He|]. intros _.
    apply keeps_bind; [apply keeps_deal_card|]. intros _.
    apply keeps_bind; [apply keeps_deal_to_dealer|]. intros _.
    apply keeps_bind; [apply keeps_deal_card|]. intros _.
    apply keeps_bind; [apply keeps_deal_to_dealer|]. intros _.
    apply keeps_bind; [apply keeps_modify; intros e0 He; exact He|]. intros _.
    apply keeps_bind; [apply keeps_get|]. intro e0. apply keeps_ret. }
  specialize (Hk eb Hb). rewrite H in Hk. exact Hk.
Qed.

Lemma run_engine_call_sound e c : hands_sound e -> hands_sound (run_engine_call e c).
Proof.
  intro He. destruct c; cbn [run_engine_call].
  - apply keeps_start_round. exact He.
  - apply keeps_execute_action. exact He.
  - rewrite get_available_actions_state. exact He.
  - unfold hands_sound, player_sound. rewrite check_early_blackjack_hands. exact He.
  - unfold hands_sound. rewrite play_dealer_player. exact He.
  - unfold hands_sound, player_sound. rewrite resolve_round_hands. exact He.
Qed.

(** X23. The status of a player hand never contradicts its value. From a
    state in which no ACTIVE hand is over 21 and every BUSTED hand is, and
    so from any successful [start_round], every call of the engine
    ([start_round], [execute_action] with any action and index,
    [get_available_actions], [check_early_blackjack], [play_dealer],
    [resolve_round]) leaves such a state, whether it returns or raises.
    An ACTIVE hand can therefore always be hit: [can_hit] and [can_stand]
    agree on every hand. *)
Theorem hand_status_agrees_with_value :
  forall (e : GameEngine.t) (calls : list engine_call),
    hands_sound e \/
    (exists e0 bet r, GameEngine.start_round bet e0 = Ok r e) ->
    hands_sound (run_engine_calls calls e) /\
    forall h, In h (Player.hands (GameEngine.player (run_engine_calls calls e))) ->
      Hand.can_hit h = Hand.can_stand h /\
      (Hand.status h = Hand.BUSTED -> Hand.is_busted h = true).
Proof.
  intros e calls H.
  assert (He : hands_sound e).
  { destruct H as [H|(e0 & bet & r & H)]; [exact H|].
    exact (start_round_Ok_sound _ _ H). }
  clear H.
  assert (Hs : hands_sound (run_engine_calls calls e)).
  { unfold run_engine_calls. revert e He.
    induction calls as [|c calls IH]; intros e He; cbn [fold_left]; [exact He|].
    apply IH. apply run_engine_call_sound. exact He. }
  split; [exact Hs|].
  intros h Hin. unfold hands_sound, player_sound in Hs.
  rewrite forallb_forall in Hs. specialize (Hs h Hin).
  unfold hand_sound in Hs. unfold Hand.can_hit, Hand.can_stand, Hand.is_busted.
  destruct (Hand.status h); cbn [Hand.HandStatus_eqb andb];
    split; try reflexivity; try discriminate.
  - apply Z.leb_le in Hs.
    replace (21 <? Hand.value h) with false by (symmetry; apply Z.ltb_ge; lia).
    reflexivity.
  - intros _. exact Hs.
Qed.

Lemma hand_status_agrees_with_value_witness :
  hands_sound engine_with_eights /\
  hands_sound
    (run_engine_calls [CallAction SPLIT 0; CallAction HIT 0; CallAction DOUBLE 1;
                       CallPlayDealer; CallResolve] engine_with_eights).
Proof.
  assert (He : hands_sound engine_with_eights) by reflexivity.
  split; [exact He|].
  exact (proj1 (@hand_status_agrees_with_value engine_with_eights
                  [CallAction SPLIT 0; CallAction HIT 0; CallAction DOUBLE 1;
                   CallPlayDealer; CallResolve] (or_introl He))).
Defined.

(** ** The engine: splitting *)

Lemma two_card_value c0 c1 b st sp d :
  Hand.value (Hand.mk [c0; c1] st b sp d) <= 21.
Proof.
  destruct c0 as [r0 s0], c1 as [r1 s1].
  destruct r0, r1; vm_compute; discriminate.
Qed.

Lemma second_card_of_split c x b :
  Hand.add_card x (Hand.mk [c] Hand.ACTIVE b true false) =
  Hand.mk [c; x] Hand.ACTIVE b true false.
Proof.
  pose proof (two_card_value c x b Hand.ACTIVE true false) as Hv.
  apply Z.ltb_ge in Hv.
  unfold Hand.add_card.
  change (Hand.set_cards (Hand.cards (Hand.mk [c] Hand.ACTIVE b true false) ++ [x])
            (Hand.mk [c] Hand.ACTIVE b true false))
    with (Hand.mk [c; x] Hand.ACTIVE b true false).
  rewrite Hv. reflexivity.
Qed.

Lemma deal_card_top r face_up e rest x :
  Shoe._cards (GameEngine.shoe e) = rest ++ [x] ->
  exists e',
    GameEngine._deal_card r face_up e = Ok x e' /\
    GameEngine.shoe e' =
      Shoe.mk (Shoe.penetration (GameEngine.shoe e)) rest
        (Shoe._dealt_count (GameEngine.shoe e) + 1) (Shoe.rng (GameEngine.shoe e)) /\
    GameEngine.player e' =
      Player.update_hand r (Hand.add_card x) (GameEngine.player e) /\
    GameEngine.dealer e' = GameEngine.dealer e /\
    GameEngine.on_card_exposed e' = GameEngine.on_card_exposed e /\
    GameEngine.exposed e' =
      GameEngine.exposed e
      ++ (if face_up && GameEngine.on_card_exposed e then [x] else []) /\
    GameEngine.blackjack_payout e' = GameEngine.blackjack_payout e /\
    GameEngine._round_in_progress e' = GameEngine._round_in_progress e.
Proof.
  intro H. unfold GameEngine._deal_card, bind, modify, ret, GameEngine.in_shoe,
    zoom, Shoe.deal.
  rewrite H, pop_snoc. eexists. split; [reflexivity|].
  unfold GameEngine.expose_if.
  cbn [GameEngine.set_player GameEngine.set_shoe GameEngine.on_card_exposed].
  destruct (face_up && GameEngine.on_card_exposed e);
    cbn [GameEngine.call_on_card_exposed GameEngine.set_exposed
         GameEngine.set_player GameEngine.set_shoe
         GameEngine.shoe GameEngine.player GameEngine.dealer
         GameEngine.on_card_exposed GameEngine.exposed
         GameEngine.blackjack_payout GameEngine._round_in_progress];
    rewrite ?app_nil_r; repeat split; reflexivity.
Qed.

(** X24. A split through [execute_action] on any valid index but [-1]:
    for an ACTIVE pair within the split budget and the bankroll, with two
    cards left in the shoe, the call returns None; the hand is replaced, at
    its position and the next, by two ACTIVE two-card hands on the same bet,
    the first card of the pair with the top card of the shoe and the second
    with the card under it; the other hands keep their order; the bankroll
    pays one more bet, the split count goes up by one, the callback is shown
    the two cards in dealing order, and neither hand counts as a blackjack
    whatever it holds. *)
Theorem split_deals_one_card_to_each_hand :
  forall (e : GameEngine.t) (i : Z) (r : nat) (h : Hand.t)
         (x y : Card.t) (rest : list Card.t),
    pylist.index (length (Player.hands (GameEngine.player e))) i = Some r ->
    i <> -1 ->
    nth_error (Player.hands (GameEngine.player e)) r = Some h ->
    Hand.can_split h = true ->
    Player.can_split (GameEngine.player e) = true ->
    PrimFloat.ltb (Player.bankroll (GameEngine.player e)) (Hand.bet h) = false ->
    Shoe._cards (GameEngine.shoe e) = rest ++ [y; x] ->
    exists c0 c1,
      Hand.cards h = [c0; c1] /\
      let hand1 := Hand.mk [c0; x] Hand.ACTIVE (Hand.bet h) true false in
      let hand2 := Hand.mk [c1; y] Hand.ACTIVE (Hand.bet h) true false in
      GameEngine.execute_action SPLIT i e =
        Ok None
          (GameEngine.mk
             (Shoe.mk (Shoe.penetration (GameEngine.shoe e)) rest
                (Shoe._dealt_count (GameEngine.shoe e) + 1 + 1)
                (Shoe.rng (GameEngine.shoe e)))
             (Player.mk
                (PrimFloat.sub (Player.bankroll (GameEngine.player e)) (Hand.bet h))
                (firstn r (Player.hands (GameEngine.player e))
                   ++ hand1 :: hand2
                   :: skipn (S r) (Player.hands (GameEngine.player e)))
                (Player.base_bet (GameEngine.player e))
                (Player.max_splits (GameEngine.player e))
                (Player._split_count (GameEngine.player e) + 1))
             (GameEngine.dealer e)
             (GameEngine.on_card_exposed e)
             (GameEngine.exposed e
                ++ (if GameEngine.on_card_exposed e then [x; y] else []))
             (GameEngine.blackjack_payout e)
             (GameEngine._round_in_progress e)) /\
      Hand.is_blackjack hand1 = false /\ Hand.is_blackjack hand2 = false.
Proof.
  intros e i r h x y rest Hi Hne Hn Hcs Hps Hb Hshoe.
  assert (Hbudget : Player._split_count (GameEngine.player e)
                    < Player.max_splits (GameEngine.player e))
    by (apply Z.ltb_lt; exact Hps).
  destruct (split_hand_at_position (GameEngine.player e) Hi Hne Hn)
    as (_ & _ & _ & Hsplit).
  destruct (Hsplit Hbudget Hcs Hb) as (c0 & c1 & Hc & Hs). clear Hsplit.
  exists c0, c1. split; [exact Hc|]. cbv zeta.
  split; [|split; unfold Hand.is_blackjack; cbn [Hand.is_split_hand negb];
             rewrite andb_false_r; reflexivity].
  assert (Hr : length (firstn r (Player.hands (GameEngine.player e))) = r).
  { apply firstn_length_le. apply Nat.lt_le_incl. apply nth_error_Some.
    rewrite Hn. discriminate. }
  set (hs := Player.hands (GameEngine.player e)) in *.
  assert (Hup :
    pylist.update (S r) (Hand.add_card y)
      (pylist.update r (Hand.add_card x)
         (firstn r hs ++ split_first h c0 :: split_first h c1
            :: skipn (S r) hs)) =
    firstn r hs
      ++ Hand.mk [c0; x] Hand.ACTIVE (Hand.bet h) true false
      :: Hand.mk [c1; y] Hand.ACTIVE (Hand.bet h) true false
      :: skipn (S r) hs).
  { rewrite <- Hr at 2. rewrite update_at_app.
    change (firstn r hs ++ ?a :: ?b :: ?l)
      with (firstn r hs ++ [a] ++ b :: l).
    rewrite app_assoc.
    replace (S r)
      with (length (firstn r hs ++ [Hand.add_card x (split_first h c0)]))
      at 1 by (rewrite length_app, Hr; cbn; lia).
    rewrite update_at_app, <- app_assoc. unfold split_first.
    rewrite !second_card_of_split. reflexivity. }
  assert (H1 : GameEngine.in_player (Player.lookup i) e = Ok (r, h) e).
  { rewrite in_player_lookup. unfold hs in Hn.
    rewrite (lookup_at _ _ Hi Hn). reflexivity. }
  set (p1 := Player.mk
               (PrimFloat.sub (Player.bankroll (GameEngine.player e)) (Hand.bet h))
               (firstn r hs ++ split_first h c0 :: split_first h c1
                  :: skipn (S r) hs)
               (Player.base_bet (GameEngine.player e))
               (Player.max_splits (GameEngine.player e))
               (Player._split_count (GameEngine.player e) + 1)) in *.
  assert (H2 : GameEngine.in_player (Player.split_hand i) e =
               Ok (r, S r) (GameEngine.set_player p1 e)).
  { unfold GameEngine.in_player, zoom. rewrite Hs. reflexivity. }
  destruct (@deal_card_top r true (GameEngine.set_player p1 e) (rest ++ [y]) x)
    as (e2 & H3 & Hs2 & Hp2 & Hd2 & Hcb2 & Hx2 & Hbj2 & Hrip2).
  { cbn [GameEngine.set_player GameEngine.shoe]. rewrite Hshoe, <- app_assoc.
    reflexivity. }
  destruct (@deal_card_top (S r) true e2 rest y)
    as (e3 & H4 & Hs3 & Hp3 & Hd3 & Hcb3 & Hx3 & Hbj3 & Hrip3).
  { rewrite Hs2. reflexivity. }
  unfold GameEngine.execute_action, bind. rewrite H1. cbv beta iota.
  rewrite Hcs. cbv beta iota. cbn [negb]. cbv beta iota.
  rewrite H2. cbv beta iota. rewrite H3. cbv beta iota. rewrite H4.
  unfold ret. f_equal.
  destruct e3 as [s3 pl3 dl3 cb3 ex3 bj3 rip3].
  cbn [GameEngine.shoe GameEngine.player GameEngine.dealer
       GameEngine.on_card_exposed GameEngine.exposed
       GameEngine.blackjack_payout GameEngine._round_in_progress] in *.
  subst s3 pl3 dl3 cb3 ex3 bj3 rip3.
  rewrite Hx2, Hcb2, Hs2, Hp2, Hd2, Hbj2, Hrip2.
  cbn [GameEngine.set_player GameEngine.shoe GameEngine.player GameEngine.dealer
       GameEngine.on_card_exposed GameEngine.exposed
       GameEngine.blackjack_payout GameEngine._round_in_progress
       Shoe.penetration Shoe._dealt_count Shoe.rng].
  f_equal.
  - unfold Player.update_hand, Player.set_hands, p1.
    cbn [Player.hands Player.bankroll Player.base_bet Player.max_splits
         Player._split_count].
    rewrite Hup. reflexivity.
  - destruct (GameEngine.on_card_exposed e); cbn [andb];
      rewrite <- ?app_assoc, ?app_nil_r; reflexivity.
Qed.

Lemma split_deals_one_card_to_each_hand_witness :
  exists c0 c1 e',
    Hand.cards pair_of_eights = [c0; c1] /\
    GameEngine.execute_action SPLIT 0 engine_with_eights = Ok None e' /\
    Player.hands (GameEngine.player e') =
      [Hand.mk [c0; king_hearts] Hand.ACTIVE 10%float true false;
       Hand.mk [c1; three_hearts] Hand.ACTIVE 10%float true false].
Proof.
  assert (Hi : pylist.index
                 (length (Player.hands (GameEngine.player engine_with_eights))) 0
               = Some 0%nat) by reflexivity.
  assert (Hne : 0 <> -1) by lia.
  assert (Hn : nth_error (Player.hands (GameEngine.player engine_with_eights)) 0
               = Some pair_of_eights) by reflexivity.
  assert (Hcs : Hand.can_split pair_of_eights = true) by reflexivity.
  assert (Hps : Player.can_split (GameEngine.player engine_with_eights) = true)
    by reflexivity.
  assert (Hb : PrimFloat.ltb (Player.bankroll (GameEngine.player engine_with_eights))
                 (Hand.bet pair_of_eights) = false) by (vm_compute; reflexivity).
  assert (Hshoe : Shoe._cards (GameEngine.shoe engine_with_eights) =
                  [] ++ [three_hearts; king_hearts]) by reflexivity.
  destruct (@split_deals_one_card_to_each_hand engine_with_eights 0 0%nat
              pair_of_eights king_hearts three_hearts []
              Hi Hne Hn Hcs Hps Hb Hshoe) as (c0 & c1 & Hc & He & _).
  exists c0, c1. eexists. split; [exact Hc|]. split; [exact He|]. reflexivity.
Defined.

(** ** The full-play drill *)

Lemma observe_is_count_all cs c :
  fold_left (fun c card => FullPlayDrill._on_card_exposed card c) cs c =
  count_all cs c.
Proof. reflexivity. Qed.

Lemma shown_since_app e e' l :
  GameEngine.exposed e' = GameEngine.exposed e ++ l ->
  FullPlayDrill.shown_since e e' = l.
Proof.
  intro H. unfold FullPlayDrill.shown_since. rewrite H.
  apply (firstn_skipn_at (GameEngine.exposed e) l).
Qed.

(** X25. The full-play drill counts every card its engine shows, and never
    resets the count when the engine reshuffles. After a successful
    [start_hand] the cards shown during the deal are the burned card, if a
    shuffle was due, then the player's first card, the dealer's upcard and
    the player's second card, as they came off the shoe; the callback has
    been called with exactly these, and the counter is the counter before
    with each of them counted in this order: the running count is the count
    before plus their Hi-Lo total. When [start_round] reshuffles, the count
    after the deal is therefore the old running count minus the Hi-Lo total
    of the cards of the fresh deck not yet seen: it is off by the count
    carried over from the shoe before. *)
Theorem full_play_count_survives_the_reshuffle :
  forall (d d' : FullPlayDrill.t) (bet : option float)
         (r : hand_ref * option Card.t),
    GameEngine.on_card_exposed (FullPlayDrill.engine d) = true ->
    FullPlayDrill.start_hand bet d = Ok r d' ->
    exists p1 d1 p2 hole burned shown,
      shown = burned ++ [p1; d1; p2] /\
      length burned =
        (if Shoe.needs_shuffle (FullPlayDrill.shoe d) then 1 else 0)%nat /\
      (if Shoe.needs_shuffle (FullPlayDrill.shoe d)
       then Shoe._cards (Shoe.shuffle (FullPlayDrill.shoe d))
       else Shoe._cards (FullPlayDrill.shoe d)) =
        Shoe._cards (FullPlayDrill.shoe d') ++ [hole; p2; d1; p1] ++ burned /\
      map Hand.cards (Player.hands (FullPlayDrill.player d')) = [[p1; p2]] /\
      Hand.cards (Dealer.hand (FullPlayDrill.dealer d')) = [d1; hole] /\
      GameEngine.exposed (FullPlayDrill.engine d') =
        GameEngine.exposed (FullPlayDrill.engine d) ++ shown /\
      FullPlayDrill.counter d' = count_all shown (FullPlayDrill.counter d) /\
      Counter.running_count (FullPlayDrill.counter d') =
        Counter.running_count (FullPlayDrill.counter d) + hilo_sum shown /\
      Counter.cards_seen (FullPlayDrill.counter d') =
        Counter.cards_seen (FullPlayDrill.counter d) + Z.of_nat (length shown) /\
      Dealer.hole_card (FullPlayDrill.dealer d') = Some hole /\
      (Shoe.needs_shuffle (FullPlayDrill.shoe d) = true ->
       length shown = 4%nat /\
       Permutation (Shoe._cards (FullPlayDrill.shoe d') ++ hole :: shown)
         create_deck /\
       Counter.running_count (FullPlayDrill.counter d') =
         Counter.running_count (FullPlayDrill.counter d)
         - hilo_sum (Shoe._cards (FullPlayDrill.shoe d') ++ [hole])).
Proof.
  intros d d' bet r Hcb H.
  unfold FullPlayDrill.start_hand, FullPlayDrill.through_engine in H.
  destruct (GameEngine.start_round bet (FullPlayDrill.engine d))
    as [r0 e1|x e1] eqn:Hs; [|discriminate H].
  cbn [state_of] in H. injection H as _ <-.
  destruct (@start_round_deal_facts _ _ _ _ Hs)
    as (p1 & d1 & p2 & hole & burned & Hcards & Hlen & _ & _ & Hp & Hd & _ & Hx).
  rewrite Hcb in Hx.
  unfold FullPlayDrill.shoe, FullPlayDrill.dealer, FullPlayDrill.player.
  cbn [FullPlayDrill.engine FullPlayDrill.counter].
  rewrite (@shown_since_app _ _ _ Hx), observe_is_count_all.
  destruct (count_all_spec (burned ++ [p1; d1; p2]) (FullPlayDrill.counter d))
    as (Hrc & Hseen & _).
  exists p1, d1, p2, hole, burned, (burned ++ [p1; d1; p2]).
  split; [reflexivity|]. split; [exact Hlen|]. split; [exact Hcards|].
  split; [rewrite Hp; reflexivity|]. split; [rewrite Hd; reflexivity|].
  split; [exact Hx|]. split; [reflexivity|].
  split; [exact Hrc|]. split; [exact Hseen|].
  split; [rewrite Hd; reflexivity|].
  intro Hn. rewrite Hn in Hcards, Hlen.
  destruct burned as [|b [|b' burned]]; try discriminate Hlen.
  destruct (shuffle_cards (GameEngine.shoe (FullPlayDrill.engine d))) as [Hpm _].
  rewrite Hcards in Hpm.
  assert (Hp' : Permutation (Shoe._cards (GameEngine.shoe e1)
                             ++ hole :: [b] ++ [p1; d1; p2]) create_deck).
  { apply Permutation_trans
      with (Shoe._cards (GameEngine.shoe e1) ++ [hole; p2; d1; p1] ++ [b]);
      [|exact Hpm].
    apply Permutation_app_head. cbn [app]. apply perm_skip.
    change [p2; d1; p1; b] with (rev [b; p1; d1; p2]). apply Permutation_rev. }
  split; [reflexivity|]. split; [exact Hp'|].
  rewrite Hrc. pose proof (hilo_sum_perm Hp') as Hsum.
  rewrite hilo_sum_deck in Hsum.
  rewrite !hilo_sum_app, !hilo_sum_cons, ?hilo_sum_nil in *.
  rewrite hilo_sum_app in Hsum. rewrite !hilo_sum_cons, ?hilo_sum_nil in Hsum.
  lia.
Qed.

(** Late in the shoe with a running count of five after fifty cards: the
    deal reshuffles, four cards are shown and counted on top of the five,
    and fifty-four cards have been seen. *)
Lemma full_play_count_survives_the_reshuffle_witness :
  Shoe.needs_shuffle (FullPlayDrill.shoe drill_before_reshuffle) = true /\
  Counter.running_count (FullPlayDrill.counter drill_before_reshuffle) = 5 /\
  Counter.cards_seen (FullPlayDrill.counter drill_before_reshuffle) = 50 /\
  exists hole shown,
    length shown = 4%nat /\
    GameEngine.exposed (FullPlayDrill.engine drill_after_reshuffle) = shown /\
    Dealer.hole_card (FullPlayDrill.dealer drill_after_reshuffle) = Some hole /\
    Counter.running_count (FullPlayDrill.counter drill_after_reshuffle) =
      5 + hilo_sum shown /\
    Counter.cards_seen (FullPlayDrill.counter drill_after_reshuffle) = 54 /\
    Counter.running_count (FullPlayDrill.counter drill_after_reshuffle) =
      5 - hilo_sum (Shoe._cards (FullPlayDrill.shoe drill_after_reshuffle)
                    ++ [hole]).
Proof.
  assert (Hcb : GameEngine.on_card_exposed
                  (FullPlayDrill.engine drill_before_reshuffle) = true)
    by reflexivity.
  assert (Hn : Shoe.needs_shuffle (FullPlayDrill.shoe drill_before_reshuffle)
               = true) by (vm_compute; reflexivity).
  assert (Hs : exists r, FullPlayDrill.start_hand None drill_before_reshuffle =
                         Ok r drill_after_reshuffle)
    by (eexists; vm_compute; reflexivity).
  destruct Hs as [r Hs].
  split; [exact Hn|]. split; [reflexivity|]. split; [reflexivity|].
  destruct (@full_play_count_survives_the_reshuffle _ _ _ _ Hcb Hs)
    as (p1 & d1 & p2 & hole & burned & shown & _ & _ & _ & _ & _ & Hx & _
        & Hrc & Hseen & Hh & Hre).
  destruct (Hre Hn) as (Hlen & _ & Hoff).
  exists hole, shown.
  split; [exact Hlen|]. split; [exact Hx|]. split; [exact Hh|].
  split; [exact Hrc|]. split; [rewrite Hseen, Hlen; reflexivity|exact Hoff].
Defined.

(** X26. The full-play drill takes the permissions of its advice from the
    hand alone, not from the bankroll, so it may ask for a move the engine
    does not offer: when the bankroll does not cover the bet of the hand
    whose turn it is and the drill's correct action is DOUBLE or SPLIT,
    [get_available_actions] offers neither, and [check_action] judges every
    action that is offered to be a mistake. *)
Theorem full_play_drill_may_ask_the_unaffordable :
  forall (d : FullPlayDrill.t) (i : nat) (h : Hand.t) (upcard : Card.t),
    Player.active_hand_index (FullPlayDrill.player d) = Some i ->
    Player.active_hand (FullPlayDrill.player d) = Some h ->
    PrimFloat.leb (Hand.bet h) (Player.bankroll (FullPlayDrill.player d)) = false ->
    FullPlayDrill.get_correct_action h upcard d = Some Decision.DOUBLE \/
    FullPlayDrill.get_correct_action h upcard d = Some Decision.SPLIT ->
    exists actions,
      GameEngine.get_available_actions (Z.of_nat i) (FullPlayDrill.engine d) =
        Ok actions (FullPlayDrill.engine d) /\
      ~ In DOUBLE actions /\ ~ In SPLIT actions /\
      forall a, In a actions ->
        FullPlayDrill.check_action h upcard a d = Some false.
Proof.
  intros d i h upcard Hi Hh Hbank Hadvice.
  unfold FullPlayDrill.player in *.
  change (Player.active_hand_index (GameEngine.player (FullPlayDrill.engine d)))
    with (active_index_from 0
            (Player.hands (GameEngine.player (FullPlayDrill.engine d)))) in Hi.
  pose proof (active_index_from_spec
                (Player.hands (GameEngine.player (FullPlayDrill.engine d))) 0) as H.
  rewrite Hi, Nat.sub_0_r in H.
  destruct H as (_ & _ & h' & Hn & Hst & Hf & _).
  unfold Player.active_hand in Hh. rewrite Hf in Hh. injection Hh as ->.
  assert (Hlen : (i < length (Player.hands
                                (GameEngine.player (FullPlayDrill.engine d))))%nat)
    by (apply nth_error_Some; rewrite Hn; discriminate).
  assert (Hidx : pylist.index
                   (length (Player.hands
                              (GameEngine.player (FullPlayDrill.engine d))))
                   (Z.of_nat i) = Some i).
  { unfold pylist.index.
    replace (0 <=? Z.of_nat i) with true by (symmetry; apply Z.leb_le; lia).
    replace (Z.of_nat i
             <? Z.of_nat (length (Player.hands
                                    (GameEngine.player (FullPlayDrill.engine d)))))
      with true by (symmetry; apply Z.ltb_lt; lia).
    cbn [andb]. rewrite Nat2Z.id. reflexivity. }
  unfold GameEngine.get_available_actions.
  replace (Z.of_nat (length (Player.hands
                               (GameEngine.player (FullPlayDrill.engine d))))
           <=? Z.of_nat i)
    with false by (symmetry; apply Z.leb_gt; lia).
  rewrite (lookup_at _ _ Hidx Hn), Hbank, !andb_false_r.
  eexists. split; [reflexivity|].
  assert (Hno : forall a, In a ((if Hand.can_hit h then [HIT] else [])
                                ++ (if Hand.can_stand h then [STAND] else [])
                                ++ [] ++ []
                                ++ (if Hand.can_surrender h then [SURRENDER]
                                    else [])) ->
                          a = HIT \/ a = STAND \/ a = SURRENDER).
  { intros a Ha. repeat (apply in_app_or in Ha; destruct Ha as [Ha|Ha]);
      try contradiction.
    - destruct (Hand.can_hit h); [|contradiction].
      destruct Ha as [<-|[]]. auto.
    - destruct (Hand.can_stand h); [|contradiction].
      destruct Ha as [<-|[]]. auto.
    - destruct (Hand.can_surrender h); [|contradiction].
      destruct Ha as [<-|[]]. auto. }
  split.
  { intro Ha. apply Hno in Ha.
    destruct Ha as [Ha|[Ha|Ha]]; discriminate Ha. }
  split.
  { intro Ha. apply Hno in Ha.
    destruct Ha as [Ha|[Ha|Ha]]; discriminate Ha. }
  intros a Ha. apply Hno in Ha. unfold FullPlayDrill.check_action.
  destruct Hadvice as [-> | ->]; destruct Ha as [->|[->| ->]]; reflexivity.
Qed.

Lemma full_play_drill_may_ask_the_unaffordable_witness :
  FullPlayDrill.get_correct_action hard_eleven six_spades drill_short_of_funds =
    Some Decision.DOUBLE /\
  exists actions,
    GameEngine.get_available_actions (Z.of_nat 0)
      (FullPlayDrill.engine drill_short_of_funds) =
      Ok actions (FullPlayDrill.engine drill_short_of_funds) /\
    ~ In DOUBLE actions /\ ~ In SPLIT actions /\
    forall a, In a actions ->
      FullPlayDrill.check_action hard_eleven six_spades a drill_short_of_funds =
        Some false.
Proof.
  assert (Hi : Player.active_hand_index (FullPlayDrill.player drill_short_of_funds)
               = Some 0%nat) by reflexivity.
  assert (Hh : Player.active_hand (FullPlayDrill.player drill_short_of_funds)
               = Some hard_eleven) by reflexivity.
  assert (Hb : PrimFloat.leb (Hand.bet hard_eleven)
                 (Player.bankroll (FullPlayDrill.player drill_short_of_funds))
               = false) by (vm_compute; reflexivity).
  assert (Ha : FullPlayDrill.get_correct_action hard_eleven six_spades
                 drill_short_of_funds = Some Decision.DOUBLE)
    by (vm_compute; reflexivity).
  split; [exact Ha|].
  exact (@full_play_drill_may_ask_the_unaffordable drill_short_of_funds 0%nat
           hard_eleven six_spades Hi Hh Hb (or_introl Ha)).
Defined.

(** ** The evaluator *)

(** X27. The loss [_evaluate_strategy_error] gives a strategy mistake never
    comes from the eight ordinary entries of [EV_LOSS_ESTIMATES]: the key
    is built from the value of the action ("hit", "stand", ...) and the
    value of the decision ("H", "S", ...), and no such key is in the table.
    The loss is 0.15 for standing on 12 to 16 when HIT was right, 0.20 for
    hitting 17 or more when STAND was right, and the default 0.05 for every
    other mistake; the severity is 3 in the first two cases, 2 for hitting
    when DOUBLE or SPLIT was right, and 1 otherwise. *)
Theorem strategy_error_loss_ignores_the_table :
  forall result : FullPlayResult.t,
    let e := Evaluator._evaluate_strategy_error result in
    let user := FullPlayResult.user_action result in
    let correct := FullPlayResult.correct_action result in
    let v := Hand.value (FullPlayResult.player_hand result) in
    let stiff :=
      Decision.eqb correct Decision.HIT && Action_eqb user STAND
      && (12 <=? v) && (v <=? 16) in
    let hard17 :=
      Decision.eqb correct Decision.STAND && Action_eqb user HIT && (17 <=? v) in
    str_dict_get
      (str_lower (String.append (Action_value user)
                    (String.append "_vs_" (Decision_value correct))))
      EV_LOSS_ESTIMATES = None /\
    EvaluatedError.ev_loss e =
      (if stiff then 0x1.3333333333333p-3
       else if hard17 then 0x1.999999999999ap-3
       else 0x1.999999999999ap-5)%float /\
    EvaluatedError.severity e =
      (if stiff || hard17 then 3
       else if Action_eqb user HIT
               && (Decision.eqb correct Decision.DOUBLE
                   || Decision.eqb correct Decision.SPLIT)
       then 2 else 1) /\
    EvaluatedError.error_type e = ErrorType.STRATEGY.
Proof.
  intros [hand up user correct ic uc cc ccor ia ifo]. cbv zeta.
  unfold Evaluator._evaluate_strategy_error.
  cbn [FullPlayResult.correct_action FullPlayResult.user_action
       FullPlayResult.player_hand].
  generalize (Hand.value hand) as v. intro v.
  destruct user, correct;
    cbn [Decision.eqb Action_eqb andb orb];
    try (destruct (12 <=? v), (v <=? 16); cbn [andb orb]);
    try (destruct (17 <=? v); cbn [andb orb]);
    (split; [vm_compute; reflexivity|]);
    (split; [vm_compute; reflexivity|]);
    split; reflexivity.
Qed.

Lemma count_if_length {A} (p : A -> bool) l :
  SessionEvaluator.count_if p l = Z.of_nat (length (filter p l)).
Proof.
  unfold SessionEvaluator.count_if, pysum.
  induction (filter p l) as [|a f IH]; [reflexivity|].
  cbn [map fold_left length]. rewrite pysum_from. unfold pysum. rewrite IH. lia.
Qed.

Lemma count_if_cons {A} (p : A -> bool) a l :
  SessionEvaluator.count_if p (a :: l) =
  (if p a then 1 else 0) + SessionEvaluator.count_if p l.
Proof.
  rewrite !count_if_length. cbn [filter].
  destruct (p a); cbn [length]; lia.
Qed.

Lemma evaluate_counting_result_class r :
  let e := Evaluator.evaluate_counting_result r in
  ErrorType.eqb (EvaluatedError.error_type e) ErrorType.NONE = is_correct r /\
  (if is_correct r then 1 else 0)
  + (if EvaluatedError.severity e =? 1 then 1 else 0)
  + (if EvaluatedError.severity e =? 2 then 1 else 0)
  + (if EvaluatedError.severity e =? 3 then 1 else 0) = 1.
Proof.
  unfold Evaluator.evaluate_counting_result, Evaluator.count_severity.
  destruct (is_correct r); [split; reflexivity|].
  destruct (Z.abs (user_count r - correct_count r) =? 1); [split; reflexivity|].
  destruct (Z.abs (user_count r - correct_count r) <=? 3); split; reflexivity.
Qed.

(** X28. [evaluate_counting_session] sorts every result of a session
    into exactly one class: the results counted correct are those marked
    [is_correct], and together with the three severity counts they add up
    to the total, which is the number of results. An empty session has no
    severity counts at all. *)
Theorem counting_session_is_partitioned :
  forall results : list CountingDrillResult,
    let s := SessionEvaluator.evaluate_counting_session results in
    SessionEvaluator.total s = Z.of_nat (length results) /\
    SessionEvaluator.correct s =
      Z.of_nat (length (filter is_correct results)) /\
    0 <= SessionEvaluator.correct s <= SessionEvaluator.total s /\
    match SessionEvaluator.errors_by_severity s with
    | Some (minor, moderate, major) =>
        results <> [] /\
        0 <= minor /\ 0 <= moderate /\ 0 <= major /\
        SessionEvaluator.correct s + minor + moderate + major =
          SessionEvaluator.total s
    | None => results = []
    end.
Proof.
  intro results. cbv zeta.
  assert (Hgen : forall rs,
    let ev := map Evaluator.evaluate_counting_result rs in
    SessionEvaluator.count_if
      (fun e => ErrorType.eqb (EvaluatedError.error_type e) ErrorType.NONE) ev
      = Z.of_nat (length (filter is_correct rs)) /\
    SessionEvaluator.count_if
      (fun e => ErrorType.eqb (EvaluatedError.error_type e) ErrorType.NONE) ev
    + SessionEvaluator.count_if (fun e => EvaluatedError.severity e =? 1) ev
    + SessionEvaluator.count_if (fun e => EvaluatedError.severity e =? 2) ev
    + SessionEvaluator.count_if (fun e => EvaluatedError.severity e =? 3) ev
      = Z.of_nat (length rs)).
  { induction rs as [|r rs [IH1 IH2]]; cbv zeta in *; [split; reflexivity|].
    cbn [map]. rewrite !count_if_cons.
    destruct (evaluate_counting_result_class r) as [Ht Hs]. cbv zeta in Ht, Hs.
    rewrite Ht. cbn [filter length].
    split.
    - rewrite IH1. destruct (is_correct r); cbn [length]; lia.
    - rewrite Nat2Z.inj_succ. lia. }
  destruct results as [|r rs]; [cbn; repeat split; lia|].
  destruct (Hgen (r :: rs)) as [H1 H2]. cbv zeta in H1, H2.
  unfold SessionEvaluator.evaluate_counting_session.
  cbn [SessionEvaluator.total SessionEvaluator.correct
       SessionEvaluator.errors_by_severity].
  pose proof (filter_length_le is_correct (r :: rs)) as Hle.
  rewrite H1.
  split; [reflexivity|]. split; [reflexivity|]. split; [lia|].
  split; [discriminate|].
  rewrite !count_if_length in *. repeat split; lia.
Qed.

Lemma strategy_error_type result :
  EvaluatedError.error_type (Evaluator._evaluate_strategy_error result) =
  ErrorType.STRATEGY.
Proof.
  unfold Evaluator._evaluate_strategy_error. cbv zeta.
  match goal with
  | |- context [let '(_, _) := ?X in _] => destruct X
  end.
  reflexivity.
Qed.

(** X29. A result recorded by the full-play drill always evaluates.
    [record_result] returns a result, appended to the results, in which the
    two counts are given together or not at all, so [evaluate_play_result]
    never fails on it; the evaluation holds a strategy error exactly when
    [check_action] rejected the action, then a counting error exactly when a
    count was given that differs from the running count, never an index
    error, and the single entry "Perfect play" when there is neither. The
    hand recorded is a copy worth what the hand played is worth. *)
Theorem recorded_results_evaluate :
  forall (d : FullPlayDrill.t) (hand : Hand.t) (upcard : Card.t)
         (user_action : Action) (user_count : option Z),
  exists result d' errors accepted,
    FullPlayDrill.record_result hand upcard user_action user_count d =
      Some (result, d') /\
    FullPlayDrill.results d' = FullPlayDrill.results d ++ [result] /\
    FullPlayDrill.check_action hand upcard user_action d = Some accepted /\
    Hand.value (FullPlayResult.player_hand result) = Hand.value hand /\
    Evaluator.evaluate_play_result result = Some errors /\
    map EvaluatedError.error_type errors =
      match
        (if accepted then [] else [ErrorType.STRATEGY])
        ++ match user_count with
           | Some n =>
               if n =? Counter.running_count (FullPlayDrill.counter d)
               then [] else [ErrorType.COUNTING]
           | None => []
           end
      with
      | [] => [ErrorType.NONE]
      | l => l
      end.
Proof.
  intros d hand upcard ua uc.
  destruct (get_decision_permitted (FullPlayDrill.strategy d) hand upcard
              (Hand.can_double hand)
              (Hand.can_split hand && Player.can_split (FullPlayDrill.player d))
              (Hand.can_surrender hand)) as (dec & Hg & _).
  unfold FullPlayDrill.record_result, FullPlayDrill.check_action,
    FullPlayDrill.get_correct_action.
  rewrite Hg.
  remember (if Decision.eqb dec Decision.DOUBLE_STAND
            then Decision.eqb (action_to_decision ua) Decision.DOUBLE
                 || Decision.eqb (action_to_decision ua) Decision.STAND
            else if Decision.eqb dec Decision.SURRENDER_HIT
            then Decision.eqb (action_to_decision ua) Decision.SURRENDER_HIT
                 || Decision.eqb (action_to_decision ua) Decision.HIT
            else Decision.eqb (action_to_decision ua) dec) as accepted.
  clear Heqaccepted.
  destruct uc as [n|].
  - destruct (Evaluator.count_severity
                (Z.abs (n - Counter.running_count (FullPlayDrill.counter d))))
      as [sev loss] eqn:Esev.
    destruct (n =? Counter.running_count (FullPlayDrill.counter d)) eqn:En;
      destruct accepted;
      (eexists; eexists; eexists; eexists;
       split; [reflexivity|]; split; [reflexivity|]; split; [reflexivity|];
       split; [reflexivity|];
       unfold Evaluator.evaluate_play_result;
       cbn [FullPlayResult.is_correct FullPlayResult.count_correct
            FullPlayResult.user_count FullPlayResult.correct_count
            FullPlayResult.index_applicable FullPlayResult.index_followed
            andb negb app];
       rewrite ?Esev; split;
       [reflexivity
       |cbn [map EvaluatedError.error_type]; rewrite ?strategy_error_type;
        reflexivity]).
  - destruct accepted;
      (eexists; eexists; eexists; eexists;
       split; [reflexivity|]; split; [reflexivity|]; split; [reflexivity|];
       split; [reflexivity|];
       unfold Evaluator.evaluate_play_result;
       cbn [FullPlayResult.is_correct FullPlayResult.count_correct
            FullPlayResult.user_count FullPlayResult.correct_count
            FullPlayResult.index_applicable FullPlayResult.index_followed
            andb negb app];
       split;
       [reflexivity
       |cbn [map EvaluatedError.error_type]; rewrite ?strategy_error_type;
        reflexivity]).
Qed.

(** ** A shoe that never asks for a shuffle *)

Lemma SFleb_trans a b c :
  SFleb a b = true -> SFleb b c = true -> SFleb a c = true.
Proof.
  unfold SFleb.
  destruct a as [sa|sa| |sa ma ea], b as [sb|sb| |sb mb eb],
           c as [sc|sc| |sc mc ec]; cbn [SFcompare];
    try discriminate;
    repeat match goal with s : bool |- _ => destruct s end;
    try reflexivity; try discriminate; try (intros; assumption).
  - change (PosDef.Pos.compare_cont Eq ?x ?y) with (Pos.compare x y).
    destruct (Z.compare_spec ea eb); destruct (Z.compare_spec eb ec);
      destruct (Z.compare_spec ea ec); try lia; try discriminate;
      try reflexivity; subst;
      destruct (Pos.compare_spec ma mb); destruct (Pos.compare_spec mb mc);
      destruct (Pos.compare_spec ma mc); cbn; try lia; try discriminate;
      try reflexivity.
  - change (PosDef.Pos.compare_cont Eq ?x ?y) with (Pos.compare x y).
    destruct (Z.compare_spec ea eb); destruct (Z.compare_spec eb ec);
      destruct (Z.compare_spec ea ec); try lia; try discriminate;
      try reflexivity; subst;
      destruct (Pos.compare_spec ma mb); destruct (Pos.compare_spec mb mc);
      destruct (Pos.compare_spec ma mc); cbn; try lia; try discriminate;
      try reflexivity.
Qed.

Lemma float_leb_trans x y z :
  PrimFloat.leb x y = true -> PrimFloat.leb y z = true -> PrimFloat.leb x z = true.
Proof. rewrite !leb_spec. apply SFleb_trans. Qed.

Lemma penetration_reached_at_most_one s :
  0 <= Shoe._dealt_count s <= 52 ->
  PrimFloat.leb (Shoe.penetration_reached s) 1 = true.
Proof.
  intro H. unfold Shoe.penetration_reached.
  assert (Hall : forallb (fun k =>
                    PrimFloat.leb (PrimFloat.div (float_of_int k)
                                     (float_of_int DECK_SIZE)) 1)
                   (range 0 53) = true) by (vm_compute; reflexivity).
  rewrite forallb_forall in Hall. apply Hall. apply In_range. lia.
Qed.

Lemma never_needs_shuffle s :
  PrimFloat.ltb 1 (Shoe.penetration s) = true ->
  0 <= Shoe._dealt_count s <= 52 ->
  Shoe.needs_shuffle s = false.
Proof.
  intros Hp Hd. unfold Shoe.needs_shuffle.
  destruct (PrimFloat.leb (Shoe.penetration s) (Shoe.penetration_reached s))
    eqn:E; [|reflexivity].
  pose proof (float_leb_trans E (penetration_reached_at_most_one s Hd)) as H.
  apply float_leb_not_ltb in H. congruence.
Qed.

Lemma in_step_dealt d :
  in_step d ->
  0 <= Shoe._dealt_count (CountingDrill.shoe d) /\
  Shoe._dealt_count (CountingDrill.shoe d)
  + Z.of_nat (length (Shoe._cards (CountingDrill.shoe d))) = 52.
Proof.
  intros (dealt & Hp & _ & _ & Hd). apply Permutation_length in Hp.
  rewrite length_app in Hp. change (length create_deck) with 52%nat in Hp. lia.
Qed.

Lemma deal_loop_runs_dry n : forall cards d,
  in_step d ->
  PrimFloat.ltb 1 (Shoe.penetration (CountingDrill.shoe d)) = true ->
  if (n <=? length (Shoe._cards (CountingDrill.shoe d)))%nat
  then exists cs d',
         CountingDrill.deal_loop n cards d = Ok (cards ++ cs) d' /\
         in_step d' /\
         length (Shoe._cards (CountingDrill.shoe d')) =
           (length (Shoe._cards (CountingDrill.shoe d)) - n)%nat /\
         Shoe.penetration (CountingDrill.shoe d') =
           Shoe.penetration (CountingDrill.shoe d) /\
         CountingDrill.cards_per_round d' = CountingDrill.cards_per_round d
  else exists d',
         CountingDrill.deal_loop n cards d = Raise ShoeEmpty d' /\
         in_step d' /\ Shoe._cards (CountingDrill.shoe d') = [] /\
         Shoe.penetration (CountingDrill.shoe d') =
           Shoe.penetration (CountingDrill.shoe d).
Proof.
  induction n as [|n IH]; intros cards d Hin Hpen.
  - cbn [Nat.leb CountingDrill.deal_loop]. exists [], d.
    rewrite app_nil_r, Nat.sub_0_r. repeat split; auto.
  - cbn [CountingDrill.deal_loop].
    pose proof (in_step_dealt Hin) as Hd.
    rewrite never_needs_shuffle by (try exact Hpen; lia).
    destruct (Shoe.deal (CountingDrill.shoe d)) as [card s'|x s'] eqn:Ed.
    + apply deal_Ok in Ed. destruct Ed as [Hc Hs'].
      set (d2 := CountingDrill.set_counter _ _).
      assert (Hin2 : in_step d2).
      { destruct Hin as (dealt & Hp & Hrc & Hseen & Hdc).
        exists (card :: dealt). subst d2.
        cbn [CountingDrill.set_counter CountingDrill.set_shoe CountingDrill.shoe
             CountingDrill.counter Counter.count_card snd
             Counter.running_count Counter.cards_seen].
        rewrite Hs'. cbn [Shoe._cards Shoe._dealt_count length].
        rewrite hilo_sum_cons, Hrc, Hseen, Hdc, Nat2Z.inj_succ.
        repeat split; try lia.
        rewrite Hc, <- app_assoc in Hp. exact Hp. }
      assert (Hshoe2 : CountingDrill.shoe d2 = s') by reflexivity.
      assert (Hpen2 : PrimFloat.ltb 1 (Shoe.penetration (CountingDrill.shoe d2))
                      = true).
      { rewrite Hshoe2, Hs'. exact Hpen. }
      specialize (IH (cards ++ [card]) d2 Hin2 Hpen2).
      rewrite Hshoe2 in IH. rewrite Hc, length_app. cbn [length].
      replace (S n <=? length (Shoe._cards s') + 1)%nat
        with (n <=? length (Shoe._cards s'))%nat
        by (destruct (Nat.leb_spec n (length (Shoe._cards s')));
            symmetry; [apply Nat.leb_le|apply Nat.leb_gt]; lia).
      destruct (n <=? length (Shoe._cards s'))%nat.
      * destruct IH as (cs & d' & Hr & Hin' & Hl & Hp' & Hc').
        exists (card :: cs), d'. rewrite Hr, <- app_assoc.
        split; [reflexivity|]. split; [exact Hin'|].
        split; [lia|]. split; [rewrite Hp', Hs'; reflexivity|exact Hc'].
      * destruct IH as (d' & Hr & Hin' & He' & Hp').
        exists d'. split; [exact Hr|]. split; [exact Hin'|].
        split; [exact He'|]. rewrite Hp', Hs'. reflexivity.
    + apply deal_Raise in Ed. destruct Ed as (-> & -> & He).
      rewrite He. cbn [length Nat.leb].
      exists (CountingDrill.set_shoe (CountingDrill.shoe d) d).
      split; [reflexivity|]. destruct d; cbn in *.
      split; [exact Hin|]. split; [exact He|reflexivity].
Qed.

Lemma deal_rounds_runs_dry n : forall d,
  in_step d ->
  PrimFloat.ltb 1 (Shoe.penetration (CountingDrill.shoe d)) = true ->
  (length (Shoe._cards (CountingDrill.shoe d))
   < n * Z.to_nat (CountingDrill.cards_per_round d))%nat ->
  exists d',
    deal_rounds n d = Raise ShoeEmpty d' /\
    in_step d' /\ Shoe._cards (CountingDrill.shoe d') = [] /\
    Shoe.penetration (CountingDrill.shoe d') =
      Shoe.penetration (CountingDrill.shoe d).
Proof.
  induction n as [|n IH]; intros d Hin Hpen Hlt; [cbn in Hlt; lia|].
  cbn [deal_rounds]. unfold bind at 1.
  unfold CountingDrill.deal_cards, bind, get, ret.
  pose proof (deal_loop_runs_dry (Z.to_nat (CountingDrill.cards_per_round d)) []
                Hin Hpen) as Hl.
  destruct (Z.to_nat (CountingDrill.cards_per_round d)
            <=? length (Shoe._cards (CountingDrill.shoe d)))%nat eqn:E.
  - destruct Hl as (cs & d1 & Hr & Hin1 & Hlen & Hp1 & Hc1).
    rewrite Hr. apply Nat.leb_le in E.
    destruct (IH d1 Hin1) as (d' & Hrs & Hin' & He & Hp').
    { rewrite Hp1. exact Hpen. }
    { rewrite Hlen, Hc1. cbn [Nat.mul] in Hlt. lia. }
    exists d'. rewrite Hrs. split; [reflexivity|]. split; [exact Hin'|].
    split; [exact He|]. rewrite Hp', Hp1. reflexivity.
  - destruct Hl as (d' & Hr & Hin' & He & Hp'). rewrite Hr. exists d'. auto.
Qed.

(** X30. A shoe built with a penetration above 1, which the constructor
    accepts, never asks for a shuffle, and the counting drill then deals it
    dry: after a [reset], as soon as the rounds asked for need more than
    the 52 cards of the deck, [deal_cards] raises the IndexError of the
    empty shoe. By then the whole deck has been dealt and counted: the
    counter has seen 52 cards and its running count is back to zero. *)
Theorem shoe_above_full_penetration_runs_dry :
  forall (d : CountingDrill.t) (n : nat),
    PrimFloat.ltb 1 (Shoe.penetration (CountingDrill.shoe d)) = true ->
    52 < Z.of_nat n * CountingDrill.cards_per_round d ->
    exists d',
      deal_rounds n (CountingDrill.reset d) = Raise ShoeEmpty d' /\
      Shoe._cards (CountingDrill.shoe d') = [] /\
      Shoe.cards_dealt (CountingDrill.shoe d') = 52 /\
      Shoe.needs_shuffle (CountingDrill.shoe d') = false /\
      Counter.cards_seen (CountingDrill.counter d') = 52 /\
      Counter.running_count (CountingDrill.counter d') = 0.
Proof.
  intros d n Hpen Hn.
  assert (Hpen0 : PrimFloat.ltb 1
            (Shoe.penetration (CountingDrill.shoe (CountingDrill.reset d)))
            = true).
  { unfold CountingDrill.reset. cbn [CountingDrill.shoe].
    rewrite shuffle_penetration. exact Hpen. }
  assert (Hlen : length (Shoe._cards (CountingDrill.shoe (CountingDrill.reset d)))
                 = 52%nat).
  { unfold CountingDrill.reset. cbn [CountingDrill.shoe].
    destruct (shuffle_cards (CountingDrill.shoe d)) as [Hp _].
    apply Permutation_length in Hp. exact Hp. }
  destruct (@deal_rounds_runs_dry n (CountingDrill.reset d) (in_step_reset d) Hpen0)
    as (d' & Hr & Hin & He & Hp').
  { rewrite Hlen. unfold CountingDrill.reset.
    cbn [CountingDrill.cards_per_round]. nia. }
  exists d'. split; [exact Hr|]. split; [exact He|].
  pose proof (in_step_dealt Hin) as [Hd0 Hd]. rewrite He in Hd. cbn [length] in Hd.
  destruct (in_step_count Hin) as (Hrc & Hseen & _).
  rewrite He, hilo_sum_nil in Hrc. unfold Shoe.cards_dealt in *.
  assert (Hpen' : PrimFloat.ltb 1 (Shoe.penetration (CountingDrill.shoe d')) = true).
  { rewrite Hp'. exact Hpen0. }
  split; [lia|]. split; [apply never_needs_shuffle; [exact Hpen'|lia]|].
  split; [lia|lia].
Qed.

Lemma shoe_above_full_penetration_runs_dry_witness :
  PrimFloat.ltb 1 (Shoe.penetration (CountingDrill.shoe drill_never_shuffling))
    = true /\
  exists d',
    deal_rounds 18 (CountingDrill.reset drill_never_shuffling) =
      Raise ShoeEmpty d' /\
    Shoe._cards (CountingDrill.shoe d') = [].
Proof.
  assert (Hp : PrimFloat.ltb 1
                 (Shoe.penetration (CountingDrill.shoe drill_never_shuffling))
               = true) by (vm_compute; reflexivity).
  assert (Hn : 52 < Z.of_nat 18 * CountingDrill.cards_per_round drill_never_shuffling)
    by (vm_compute; reflexivity).
  split; [exact Hp|].
  destruct (@shoe_above_full_penetration_runs_dry drill_never_shuffling 18 Hp Hn)
    as (d' & Hr & He & _).
  exists d'. split; [exact Hr|exact He].
Defined.
